(* ===== verification/_CoqProject ===== *)
-Q . S2P
Prelude.v
Params.v
KString.v
Ports.v
Bio.v
Ide.v
Log.v
Blocks.v
Image.v
LogCrash.v
Fs.v
FsAlloc.v
FsFile.v
FsWrite.v
FsInode.v
FsName.v
FsDir.v
FsPath.v
FsImage.v
FsProps.v
Mkfs.v
MkfsProofs.v
MkfsImage.v
SpinLock.v
Pipe.v
Kalloc.v
Mp.v
Vm.v
VmProofs.v
VmSpace.v
VmGrow.v
Bootmain.v
Kernel.v
Sched.v
File.v
Proc.v
Fork.v
RefCount.v
Syscall.v
Sysfile.v
Exec.v
Arp.v
Pci.v
E1000.v
Trap.v
Seg.v
SysRef.v
ProcProps.v
Console.v
Kbd.v
Uart.v
Cmos.v
Apic.v
Umalloc.v
Ulib.v
Shell.v
Printf.v
Runcmd.v
Uprogs.v
Grep.v
