(* ===== verification/Prelude.v ===== *)
(** * A verification of the xv6 kernel with its network driver

    The program is a small Unix kernel for the x86, with a driver for one
    network card and a system call that sends ARP requests. This library
    translates its C functions into Rocq functions and proves what the kernel
    relies on: that the disk survives crashes, that locks exclude and wakeups
    are not lost, that memory, files and processes are accounted for. File
    names below are those of the C sources under src/.

    ** The parts and how they use each other

    - Buffers and log (bio.c, memide.c, log.c): a cache of disk blocks, and a
      write-ahead log on top of it that makes groups of block writes atomic.
    - File system (fs.c): block and inode allocation, file contents,
      directories and paths, on the log's [bread]/[log_write]/[brelse].
    - Memory (kalloc.c, vm.c, string.c): a free list of pages, and page tables
      built out of them.
    - Processes (proc.c, spinlock.c, sleeplock.c, pipe.c): the process table,
      the scheduler, sleeping and waking, locks and pipes.
    - System calls (trap.c, syscall.c, sysproc.c, sysfile.c, file.c, exec.c):
      what a process asks for, on all of the above.
    - Devices: console, keyboard and serial port (console.c, kbd.c, uart.c),
      disk (ide.c), interrupt controllers and clock (lapic.c, ioapic.c,
      picirq.c), PCI and network (pci.c, e1000.c, nic.c), and ARP (arp.c,
      arpfrm.c, sysarp.c).
    - Start: the boot loader (bootmain.c), the search for processors (mp.c),
      segments and gates (mmu.h, vm.c, trap.c).
    - Outside the kernel: mkfs (mkfs.c), which makes the disk, the user library
      (ulib.c, umalloc.c, printf.c), the shell (sh.c) and small programs.

    ** How the code is translated

    A C function is a function in the monad [M S] of this file: it takes the
    state [S] and returns a result and a new state, or fails: [Panic] with the
    message of [panic], [Block] where the code goes to sleep and cannot go on
    by itself, [Undef] where the C code would read or write outside an object
    or follow a null pointer, [NoFuel]. Integers are [Z] with every conversion
    to a C width written out ([u8], [u16], [u32], [i16], [i32]); bytes are
    integers from 0 to 255; a pointer into a table (buffers, inodes, files,
    processes) is the index of the entry; the kernel's memory is a function
    from addresses to bytes, and page tables, the free list, trap frames and
    user memory are bytes of it. [wp m Q s] says that [m], run in [s], returns
    (it does not fail) with a result and a state that satisfy [Q]: every
    theorem stated with it is one of total correctness. [wlp] is the partial
    version, used where a failure is allowed.

    A device is a parameter: a class of operations the code uses ([Ports],
    [PciConf], [E1000Hw], [Lapic], [Ioapic]) and a class of laws that state its
    documented behaviour through a view of its registers ([AtaDisk],
    [KbdController], [Uart8250], [RtcClock], [LapicDev], [IoapicDev],
    [PicPair]). The witnesses run on simulated devices that meet the laws.

    Concurrency: SpinLock.v shows that a critical section of a spin lock is
    not interleaved with another one, with the lock's memory accesses as
    steps. Above it a critical section is one step, and a function is cut
    where it sleeps; the step relations of Sched.v, Pipe.v and SysRef.v
    interleave such steps for any number of processors and processes.

    ** Files

    - Prelude.v: integers, the monad and its rules, loops, byte encodings.
    - Params.v: constants and address macros of the headers.
    - KString.v: string.c and util.c.
    - Ports.v: port input and output of x86.h, and the contract of a disk.
    - Bio.v: bio.c and iderw of memide.c. The list of buffers is doubly linked
      through indices as in the code; [binv] is its invariant, [view] what the
      blocks of the cache and the disk together say. Ide.v: ide.c.
    - Log.v: log.c; LogCrash.v: crashes during commit and recovery.
    - Blocks.v: what fs.c may rely on, as the classes [Blocks] (the operations)
      and [BlocksLaws] (their laws against an abstract transaction [tx]);
      the log over the buffer cache is an instance ([lstate_laws]).
    - Image.v: a disk image on which the witnesses run.
    - Fs.v: fs.c, against [Blocks]; FsAlloc.v (bitmap), FsFile.v (bmap, readi,
      itrunc), FsWrite.v and FsInode.v (writei, iupdate), FsName.v (skipelem,
      iget, ilock), FsDir.v (directories as maps from names), FsPath.v (the
      tree and path lookup) prove its functions; FsProps.v states what users of
      the file system see, and FsImage.v shows that the image meets the
      assumptions. Mkfs.v: mkfs.c; MkfsProofs.v and MkfsImage.v: the image it
      makes.
    - SpinLock.v: spinlock.c. Sched.v: the scheduler, sleep, wakeup and kill of
      proc.c, and sleeplock.c. Pipe.v: pipe.c.
    - Kalloc.v: kalloc.c. Vm.v: vm.c; VmProofs.v: its effect on translation;
      VmSpace.v and VmGrow.v: address spaces, their copies, growth and release.
      Seg.v: the descriptors of seginit, switchuvm and tvinit.
    - Mp.v: mp.c. Bootmain.v: bootmain.c. Apic.v: lapic.c, ioapic.c and
      picirq.c; Cmos.v: the clock of lapic.c.
    - Kernel.v: the state of the whole kernel and the lifting of the
      components into it. File.v: file.c. Proc.v: the rest of proc.c.
      Syscall.v: arguments of system calls and sysproc.c. Sysfile.v:
      sysfile.c. Exec.v: exec.c. Trap.v: trap.c, the table of system calls,
      sysarp.c.
    - RefCount.v and SysRef.v: reference counts of open files, through every
      system call. Fork.v: fork as a copy. ProcProps.v: corner cases of process
      calls.
    - Console.v: console.c. Kbd.v: kbd.c. Uart.v: uart.c. Pci.v: pci.c. E1000.v: e1000.c and nic.c. Arp.v:
      arpfrm.c and arp.c.
    - User programs: Umalloc.v (umalloc.c), Ulib.v (of ulib.c), Printf.v
      (printf.c), Shell.v (the parser of sh.c), Runcmd.v (the rest of sh.c),
      Uprogs.v (cat.c, wc.c, echo.c, ls.c), Grep.v (grep.c).

    ** What the theorems show

    - Disk: a file write in a transaction, with a crash at any disk write of
      the commit and any number of interrupted recoveries, leaves the file
      with the old or the new contents ([writei_crash_safe],
      [commit_crash_atomic], [recovery_idempotent]); without a crash the
      transaction is installed ([commit_installs]); a file keeps what is
      written to it ([writei_readi]); blocks are not given out twice
      ([balloc_bfree]); path lookup finds what the tree on the disk has and
      keeps the references balanced ([namex_resolves]); a directory is a map
      and [dirlink] inserts into it ([dirlink_inserts]). The IDE driver serves
      requests in order ([ide_serves_in_order]) and has the effect of the
      memory disk on which the buffer cache is verified ([ide_equals_memide]);
      a block that cannot be read is taken for valid ([ideintr_bad_sector]).
      The image of mkfs meets what the file system assumes ([mkfs_makes_fs]).
    - Concurrency: spin locks and sleep locks exclude ([spinlock_mutex],
      [sleeplock_mutex], [pushcli_popcli_nest]); a process runs on at most one
      processor and is picked within one scan of the table
      ([one_cpu_per_process], [runnable_is_picked]); a pipe delivers what is
      written, and its sleepers are woken, except after a kill ([pipe_fifo],
      [pipe_reader_wakeup], [pipe_writer_wakeup],
      [pipe_killed_writer_loses_wakeup]).
    - Memory: the allocator gives every page once ([freerange_kallocs]);
      [mappages] changes the translation of its range and of nothing else
      ([mappages_spec]); [memmove] copies ([memmove_spec]); an address space is
      copied, grown, written and released as such ([copyuvm_copies],
      [allocuvm_grows], [copyout_writes], [freevm_no_leak]).
    - Start: the loader puts the kernel in memory ([bootmain_loads]); the
      processors of the tables are found, unless an entry is unknown
      ([mpinit_finds_cpus], [mpinit_hangs]); another processor is started and
      no other ([lapicstartap_starts]); interrupts are set up and routed
      ([lapicinit_configures], [ioapic_routes], [picinit_masks]); a user program
      enters the kernel only by the system call gate ([user_enters_by_syscall]).
    - System calls: file reference counts are exact in all reachable states
      ([file_refs_counted]); user pointers are accepted exactly when they are
      inside the process ([argptr_exact]); [fork] makes a copy of the caller
      ([fork_copies]); two corner cases of sbrk and kill.
    - Console: input is a line editor ([consoleintr_edits],
      [console_line_roundtrip]), output stays on the screen
      ([consolewrite_total]), numbers are printed right ([printint_atoi]); a
      line typed on the keyboard is read ([typed_line_is_read],
      [kbdgetc_typed]); the serial port is set up and delivers
      ([uartinit_announces], [uartintr_types]). The clock is read in one piece
      ([cmostime_reads_clock]).
    - User programs: [malloc] and [free] act on a row of blocks without gaps,
      overlaps or losses ([umalloc_simulation]); the parser of the shell ends
      on every line ([parsecmd_ends]) and inverts printing ([parsecmd_show]);
      a session runs the programs it means with the descriptors they should
      have ([sh_runs_session]); [printf] is [cprintf] up to the case of digits
      ([printf_cprintf]); [wc], [cat] and [ls] print what they should
      ([wc_prints_counts], [cat_concatenates], [ls_lists_directory]);
      [grep] prints the lines of the pattern's language
      ([grep_prints_matches]), unless they come in pieces
      ([grep_short_read]).
    - Network: configuration space, base address registers and the transmit
      ring work as documented; the ARP code has the errors the theorems about
      it state.

    ** Bounds and fuel

    Loops over arrays and counted loops use their bound. Loops whose end the
    code finds itself take fuel: [print_digits] has 32 rounds, one per bit of
    an integer; [kill_line] one more than the characters in the ring; the walk
    of a path one per byte; the shell's parser four per character, for the four
    functions that call each other; the allocator's loops take the fuel as an
    argument, and twice the number of blocks is enough; the loops that wait for a device take
    the fuel as an argument, and the theorems ask for more than the device's
    delay; [cmostime] needs six rounds, as the clock ticks at most every hundred
    accesses; the shell's main loop takes one more than the bytes of its input,
    and opening the console five rounds for three descriptors. [NoFuel] is a failure, so a theorem stated with [wp] also shows
    that the fuel was enough.

    ** What is not modelled

    Code below the C level (boot, context switch, trap entry) and main.c, which
    calls the initialisations in order; kvmalloc, and the loading of processor
    registers; the user programs that only issue system calls (init, kill, ln,
    mkdir, rm, zombie, arptest) and the tests; failures of the host's system
    calls in mkfs. Time passes only through the timer trap and, for the clock,
    with port accesses. The compiler's layout of structures is the one of the
    i386 ABI. *)

From Stdlib Require Export ZArith Lia.
From stdpp Require Export base tactics strings numbers gmap list.
From stdpp Require Import gmultiset.

Open Scope Z_scope.

(** ** Machine integers

    C integers are kept in [Z]; a conversion to an unsigned or signed width is
    written out wherever the code performs it. *)

Definition u8 (z : Z) : Z := z mod 256.
Definition u16 (z : Z) : Z := z mod 65536.
Definition u32 (z : Z) : Z := z mod 4294967296.
Definition i16 (z : Z) : Z := (z + 32768) mod 65536 - 32768.
Definition i32 (z : Z) : Z := (z + 2147483648) mod 4294967296 - 2147483648.

Definition is_u8 (z : Z) : Prop := 0 <= z < 256.
Definition is_u16 (z : Z) : Prop := 0 <= z < 65536.
Definition is_u32 (z : Z) : Prop := 0 <= z < 4294967296.

#[global] Arguments Z.testbit : simpl never.
#[global] Arguments Z.land : simpl never.
#[global] Arguments Z.lor : simpl never.
#[global] Arguments Z.ldiff : simpl never.
#[global] Arguments Z.shiftl : simpl never.
#[global] Arguments Z.shiftr : simpl never.
#[global] Arguments u8 : simpl never.
#[global] Arguments u16 : simpl never.
#[global] Arguments u32 : simpl never.
#[global] Arguments i16 : simpl never.
#[global] Arguments i32 : simpl never.

(** [dlia]: linear arithmetic with division and remainder by constants and
    with the width conversions unfolded. *)
Ltac dlia :=
  unfold u8, u16, u32, i16, i32, is_u8, is_u16, is_u32 in *;
  Z.to_euclidean_division_equations; lia.

Lemma u8_range z : is_u8 (u8 z).
Proof. dlia. Qed.
Lemma u16_range z : is_u16 (u16 z).
Proof. dlia. Qed.
Lemma u32_range z : is_u32 (u32 z).
Proof. dlia. Qed.
Lemma u8_small z : is_u8 z -> u8 z = z.
Proof. dlia. Qed.
Lemma u16_small z : is_u16 z -> u16 z = z.
Proof. dlia. Qed.
Lemma u32_small z : is_u32 z -> u32 z = z.
Proof. dlia. Qed.
Lemma i32_small z : -2147483648 <= z < 2147483648 -> i32 z = z.
Proof. dlia. Qed.

(** A field shifted into place above a smaller one: [lor] is addition. *)
Lemma lor_low c d k :
  0 <= k -> 0 <= d < 2 ^ k -> Z.lor (Z.shiftl c k) d = c * 2 ^ k + d.
Proof.
  intros Hk Hd. rewrite <- Z.shiftl_mul_pow2 by done.
  assert (Z.land (Z.shiftl c k) d = 0) as E.
  { apply Z.bits_inj'. intros n Hn. rewrite Z.land_spec, Z.bits_0.
    destruct (decide (n < k)); [by rewrite Z.shiftl_spec_low|].
    destruct (decide (d = 0)) as [->|]; [by rewrite Z.bits_0, andb_false_r|].
    rewrite (Z.bits_above_log2 d n), andb_false_r; [done|lia|].
    apply Z.log2_lt_pow2; [lia|]. pose proof (Z.pow_le_mono_r 2 k n). lia. }
  by rewrite <- Z.lxor_lor, Z.add_nocarry_lxor.
Qed.

Lemma land_bit f k : 0 <= k -> negb (Z.land f (2 ^ k) =? 0) = Z.testbit f k.
Proof.
  intros Hk. destruct (Z.testbit f k) eqn:E.
  - apply negb_true_iff, Z.eqb_neq. intros H.
    apply (f_equal (fun z => Z.testbit z k)) in H.
    by rewrite Z.land_spec, E, Z.pow2_bits_true, Z.bits_0 in H by done.
  - apply negb_false_iff, Z.eqb_eq, Z.bits_inj'. intros n Hn.
    rewrite Z.land_spec, Z.bits_0, Z.pow2_bits_eqb by done.
    destruct (Z.eqb_spec k n) as [<-|]; [by rewrite E|by rewrite andb_false_r].
Qed.

(** ** Kernel computations

    A kernel function is a state transformer that returns a value and a new
    state, or fails.  [Panic] is a call of [panic]; [Block] is a call of
    [sleep] that no other running process can end (a self-deadlock in the
    sequential reading of a function); [Undef] is an access the C code makes
    outside the object it was given, or a read of a variable never written;
    [NoFuel] is a loop that did not finish within the bound of the model. *)

Inductive err :=
  | Panic (msg : string)
  | Block
  | Undef
  | NoFuel.

Inductive outcome (S A : Type) :=
  | Ret (a : A) (s : S)
  | Fail (e : err).
Arguments Ret {S A} _ _.
Arguments Fail {S A} _.

Definition M (S A : Type) : Type := S -> outcome S A.

Definition ret {S A} (a : A) : M S A := fun s => Ret a s.
Definition bind {S A B} (m : M S A) (f : A -> M S B) : M S B :=
  fun s => match m s with Ret a s' => f a s' | Fail e => Fail e end.
Definition fail {S A} (e : err) : M S A := fun _ => Fail e.
Definition panic {S A} (msg : string) : M S A := fail (Panic msg).
Definition get {S} : M S S := fun s => Ret s s.
Definition put {S} (s : S) : M S unit := fun _ => Ret tt s.
Definition gets {S A} (f : S -> A) : M S A := fun s => Ret (f s) s.
Definition modify {S} (f : S -> S) : M S unit := fun s => Ret tt (f s).

Declare Scope kernel_scope.
Delimit Scope kernel_scope with K.
Notation "'let!' x := m 'in' k" := (bind m (fun x => k))
  (at level 10, x pattern, m at level 200, k at level 200) : kernel_scope.
Notation "m ;;; k" := (bind m (fun _ => k))
  (at level 199, right associativity) : kernel_scope.
Open Scope kernel_scope.

(** A read of an array or table entry the code does not check. *)
Definition of_option {S A} (o : option A) : M S A :=
  match o with Some a => ret a | None => fail Undef end.

(** [assert_ c msg]: [if (!c) panic(msg);]. *)
Definition panic_if {S} (c : bool) (msg : string) : M S unit :=
  if c then panic msg else ret tt.

(** ** Total correctness

    [wp m Q s]: run from [s], [m] returns, and its result satisfies [Q]. *)

Definition wp {S A} (m : M S A) (Q : A -> S -> Prop) (s : S) : Prop :=
  match m s with Ret a s' => Q a s' | Fail _ => False end.

Section wp_rules.
Context {S A B : Type}.
Implicit Types (m : M S A) (s : S).

Lemma wp_ret (a : A) Q s : Q a s -> wp (ret a) Q s.
Proof. exact id. Qed.

Lemma wp_bind m (f : A -> M S B) Q s :
  wp m (fun a s' => wp (f a) Q s') s -> wp (bind m f) Q s.
Proof. unfold wp, bind. by destruct (m s). Qed.

Lemma wp_mono m (P Q : A -> S -> Prop) s :
  wp m P s -> (forall a s', P a s' -> Q a s') -> wp m Q s.
Proof. unfold wp. destruct (m s); naive_solver. Qed.

Lemma wp_elim m Q s : wp m Q s -> exists a s', m s = Ret a s' /\ Q a s'.
Proof. unfold wp. destruct (m s); naive_solver. Qed.

Lemma wp_intro m Q s a s' : m s = Ret a s' -> Q a s' -> wp m Q s.
Proof. unfold wp. by intros ->. Qed.

Lemma wp_gets (f : S -> A) Q s : Q (f s) s -> wp (gets f) Q s.
Proof. exact id. Qed.

Lemma wp_modify (f : S -> S) (Q : unit -> S -> Prop) s :
  Q tt (f s) -> wp (modify f) Q s.
Proof. exact id. Qed.

Lemma wp_of_option (o : option A) (a : A) Q s :
  o = Some a -> Q a s -> wp (of_option o) Q s.
Proof. by intros ->. Qed.

Lemma wp_panic_if (c : bool) msg (Q : unit -> S -> Prop) s :
  c = false -> Q tt s -> wp (panic_if c msg) Q s.
Proof. by intros ->. Qed.
End wp_rules.

Lemma bind_assoc {S A B C} (m : M S A) (f : A -> M S B) (g : B -> M S C) s :
  bind (bind m f) g s = bind m (fun a => bind (f a) g) s.
Proof. unfold bind. by destruct (m s). Qed.

(** Runs [m] and then [f], before more code: for the laws of code that the
    C text has inline. *)
Lemma wp_assoc {S A B C} (m : M S A) (f : A -> M S B) (g : B -> M S C) Q s :
  wp (bind (bind m f) g) Q s -> wp (bind m (fun a => bind (f a) g)) Q s.
Proof. unfold wp. by rewrite bind_assoc. Qed.

Lemma wp_assoc2 {S A B C D} (m : M S A) (f : A -> M S B) (g : A -> B -> M S C)
    (h : C -> M S D) Q s :
  wp (bind (bind m (fun a => bind (f a) (g a))) h) Q s ->
  wp (bind m (fun a => bind (f a) (fun b => bind (g a b) h))) Q s.
Proof.
  unfold wp, bind. destruct (m s) as [a s1|]; [|done]. by destruct (f a s1).
Qed.

Lemma bind_Ret {S A B} (m : M S A) (f : A -> M S B) s a s' :
  m s = Ret a s' -> bind m f s = f a s'.
Proof. unfold bind. by intros ->. Qed.

Lemma bind_Fail {S A B} (m : M S A) (f : A -> M S B) s e :
  m s = Fail e -> bind m f s = Fail e.
Proof. unfold bind. by intros ->. Qed.

Lemma bind_inv {S A B} (m : M S A) (f : A -> M S B) s b s'' :
  bind m f s = Ret b s'' -> exists a s', m s = Ret a s' /\ f a s' = Ret b s''.
Proof. unfold bind. destruct (m s); naive_solver. Qed.

(** [krun]: unfold the state monad, to run a computation step by step. *)
Ltac krun :=
  cbv beta iota delta [bind gets modify ret panic_if panic fail of_option negb andb orb].

(** [wp_use L]: run the next call with its specification [L]. *)
Ltac wp_pure :=
  repeat first
    [ progress cbv beta
    | apply wp_bind; apply wp_gets
    | apply wp_bind; apply wp_modify
    | apply wp_bind; apply wp_ret
    | apply wp_gets | apply wp_modify | apply wp_ret ].
Ltac wp_use L := (try apply wp_bind); eapply wp_mono; [eapply L | cbv beta].

(** ** Loops *)

(** [for(i = i0; i < i0 + n; i++) body(i);] *)
Fixpoint for_from {S} (i0 n : nat) (body : nat -> M S unit) : M S unit :=
  match n with
  | O => ret tt
  | Datatypes.S n => body i0;;; for_from (Datatypes.S i0) n body
  end.
Definition for_ {S} (n : nat) (body : nat -> M S unit) : M S unit := for_from 0 n body.

Lemma wp_for_from {S} (I : nat -> S -> Prop) n : forall i0 (body : nat -> M S unit) s,
  I i0 s ->
  (forall i s, (i0 <= i < i0 + n)%nat -> I i s -> wp (body i) (fun _ s' => I (Datatypes.S i) s') s) ->
  wp (for_from i0 n body) (fun _ s' => I (i0 + n)%nat s') s.
Proof.
  induction n as [|n IH]; intros i0 body s H0 Hb; simpl.
  { apply wp_ret. by rewrite Nat.add_0_r. }
  apply wp_bind. eapply wp_mono; [apply Hb; [lia|done]|]. intros [] s' H1.
  rewrite Nat.add_succ_r, <- Nat.add_succ_l. apply IH; [done|].
  intros i s'' Hi. apply Hb. lia.
Qed.

Lemma wp_for {S} (I : nat -> S -> Prop) n (body : nat -> M S unit) s :
  I O s ->
  (forall i s, (i < n)%nat -> I i s -> wp (body i) (fun _ s' => I (Datatypes.S i) s') s) ->
  wp (for_ n body) (fun _ s' => I n s') s.
Proof. intros H0 Hb. apply (wp_for_from I n 0); [done|]. intros i s' Hi. apply Hb. lia. Qed.

(** [for(i = i0; i < i0 + n; i++) { ... return x; ... }]: the loop ends with
    the first [Some]. *)
Fixpoint find_from {S A} (i0 n : nat) (body : nat -> M S (option A)) : M S (option A) :=
  match n with
  | O => ret None
  | Datatypes.S n =>
    let! r := body i0 in
    match r with Some a => ret (Some a) | None => find_from (Datatypes.S i0) n body end
  end.
Definition for_find {S A} (n : nat) (body : nat -> M S (option A)) : M S (option A) :=
  find_from 0 n body.

Lemma wp_find_from {S A} (I : nat -> S -> Prop) (Q : option A -> S -> Prop) n :
  forall i0 (body : nat -> M S (option A)) s,
  I i0 s ->
  (forall i s, (i0 <= i < i0 + n)%nat -> I i s ->
     wp (body i) (fun r s' => match r with Some a => Q (Some a) s' | None => I (Datatypes.S i) s' end) s) ->
  (forall s, I (i0 + n)%nat s -> Q None s) ->
  wp (find_from i0 n body) Q s.
Proof.
  induction n as [|n IH]; intros i0 body s H0 Hb Hq; simpl.
  { apply wp_ret, Hq. by rewrite Nat.add_0_r. }
  apply wp_bind. eapply wp_mono; [apply Hb; [lia|done]|]. intros [a|] s' H1; [by apply wp_ret|].
  apply IH; [done| |].
  - intros i s'' Hi. apply Hb. lia.
  - intros s''. rewrite Nat.add_succ_l, <- Nat.add_succ_r. apply Hq.
Qed.

Lemma wp_find {S A} (I : nat -> S -> Prop) (Q : option A -> S -> Prop) n
    (body : nat -> M S (option A)) s :
  I O s ->
  (forall i s, (i < n)%nat -> I i s ->
     wp (body i) (fun r s' => match r with Some a => Q (Some a) s' | None => I (Datatypes.S i) s' end) s) ->
  (forall s, I n s -> Q None s) ->
  wp (for_find n body) Q s.
Proof.
  intros H0 Hb Hq. apply (wp_find_from I Q n 0); [done| |done]. intros i s' Hi. apply Hb. lia.
Qed.

(** ** Partial correctness

    [wlp m Q s]: if [m], run from [s], returns, its result satisfies [Q].  For
    invariants of operations that may also panic or block. *)

Definition wlp {S A} (m : M S A) (Q : A -> S -> Prop) (s : S) : Prop :=
  forall a s', m s = Ret a s' -> Q a s'.

Section wlp_rules.
Context {S A B : Type}.
Implicit Types (m : M S A) (s : S).

Lemma wp_wlp m Q s : wp m Q s -> wlp m Q s.
Proof. unfold wp, wlp. intros H a s' E. by rewrite E in H. Qed.

Lemma wlp_mono m (P Q : A -> S -> Prop) s :
  wlp m P s -> (forall a s', P a s' -> Q a s') -> wlp m Q s.
Proof. unfold wlp. eauto. Qed.

Lemma wlp_ret (a : A) (Q : A -> S -> Prop) s : Q a s -> wlp (ret a) Q s.
Proof. by intros H b s' [= <- <-]. Qed.

Lemma wlp_bind m (f : A -> M S B) Q s :
  wlp m (fun a s' => wlp (f a) Q s') s -> wlp (bind m f) Q s.
Proof.
  intros H b s' E. apply bind_inv in E as (a & s1 & E1 & E2). by eapply H.
Qed.

Lemma wlp_gets (f : S -> A) (Q : A -> S -> Prop) s : Q (f s) s -> wlp (gets f) Q s.
Proof. by intros H b s' [= <- <-]. Qed.

Lemma wlp_modify (f : S -> S) (Q : unit -> S -> Prop) s : Q tt (f s) -> wlp (modify f) Q s.
Proof. by intros H b s' [= <- <-]. Qed.

Lemma wlp_fail e (Q : A -> S -> Prop) s : wlp (fail e) Q s.
Proof. done. Qed.

Lemma wlp_of_option (o : option A) (Q : A -> S -> Prop) s :
  (forall a, o = Some a -> Q a s) -> wlp (of_option o) Q s.
Proof. destruct o; [intros H; by apply wlp_ret, H|intros _; apply wlp_fail]. Qed.

End wlp_rules.

Lemma wlp_panic_if {S} (c : bool) msg (Q : unit -> S -> Prop) s :
  (c = false -> Q tt s) -> wlp (panic_if c msg) Q s.
Proof. destruct c; [intros _; apply wlp_fail|intros H; by apply wlp_ret, H]. Qed.

Lemma wlp_for_from {S} (I : nat -> S -> Prop) n : forall i0 (body : nat -> M S unit) s,
  I i0 s ->
  (forall i s, (i0 <= i < i0 + n)%nat -> I i s -> wlp (body i) (fun _ s' => I (Datatypes.S i) s') s) ->
  wlp (for_from i0 n body) (fun _ s' => I (i0 + n)%nat s') s.
Proof.
  induction n as [|n IH]; intros i0 body s H0 Hb; simpl.
  { apply wlp_ret. by rewrite Nat.add_0_r. }
  apply wlp_bind. eapply wlp_mono; [apply Hb; [lia|done]|]. intros [] s' H1.
  rewrite Nat.add_succ_r, <- Nat.add_succ_l. apply IH; [done|].
  intros i s'' Hi. apply Hb. lia.
Qed.

Lemma wlp_for {S} (I : nat -> S -> Prop) n (body : nat -> M S unit) s :
  I O s ->
  (forall i s, (i < n)%nat -> I i s -> wlp (body i) (fun _ s' => I (Datatypes.S i) s') s) ->
  wlp (for_ n body) (fun _ s' => I n s') s.
Proof. intros H0 Hb. apply (wlp_for_from I n 0); [done|]. intros i s' Hi. apply Hb. lia. Qed.

Lemma wlp_find_from {S A} (I : nat -> S -> Prop) (Q : option A -> S -> Prop) n :
  forall i0 (body : nat -> M S (option A)) s,
  I i0 s ->
  (forall i s, (i0 <= i < i0 + n)%nat -> I i s ->
     wlp (body i) (fun r s' => match r with Some a => Q (Some a) s' | None => I (Datatypes.S i) s' end) s) ->
  (forall s, I (i0 + n)%nat s -> Q None s) ->
  wlp (find_from i0 n body) Q s.
Proof.
  induction n as [|n IH]; intros i0 body s H0 Hb Hq; simpl.
  { apply wlp_ret, Hq. by rewrite Nat.add_0_r. }
  apply wlp_bind. eapply wlp_mono; [apply Hb; [lia|done]|]. intros [a|] s' H1; [by apply wlp_ret|].
  apply IH; [done| |].
  - intros i s'' Hi. apply Hb. lia.
  - intros s''. rewrite Nat.add_succ_l, <- Nat.add_succ_r. apply Hq.
Qed.

Lemma wlp_find {S A} (I : nat -> S -> Prop) (Q : option A -> S -> Prop) n
    (body : nat -> M S (option A)) s :
  I O s ->
  (forall i s, (i < n)%nat -> I i s ->
     wlp (body i) (fun r s' => match r with Some a => Q (Some a) s' | None => I (Datatypes.S i) s' end) s) ->
  (forall s, I n s -> Q None s) ->
  wlp (for_find n body) Q s.
Proof.
  intros H0 Hb Hq. apply (wlp_find_from I Q n 0); [done| |done]. intros i s' Hi. apply Hb. lia.
Qed.

(** [kspec]: specifications of operations, to be used by [wlp_auto]. *)
Create HintDb kspec discriminated.

(** [wlp_step]: one step of a partial-correctness proof; [wlp_auto] repeats it
    and calls the specifications in [kspec]. *)
Ltac wlp_step :=
  first
    [ progress cbv beta
    | apply wlp_bind
    | apply wlp_gets | apply wlp_modify | apply wlp_ret | apply wlp_fail
    | apply wlp_of_option; let a := fresh "a" in let E := fresh "E" in intros a E
    | apply wlp_panic_if; let E := fresh "E" in intros E ].
Ltac wlp_auto := repeat (wlp_step || (eapply wlp_mono; [solve [eauto with kspec nocore]|])).

(** ** Byte sequences *)

(** The [n] bytes of [l] from offset [off]. *)
Definition slice {A} (off n : nat) (l : list A) : list A := take n (drop off l).

(** Little-endian encoding of the low [n] bytes of [z], and its inverse. *)
Fixpoint le_bytes (n : nat) (z : Z) : list Z :=
  match n with
  | O => []
  | S n => z mod 256 :: le_bytes n (z / 256)
  end.

Fixpoint le_val (l : list Z) : Z :=
  match l with
  | [] => 0
  | b :: l => b + 256 * le_val l
  end.

(** Load and store of an [n]-byte little-endian field at [off]. *)
Definition ldle (n : nat) (l : list Z) (off : nat) : Z := le_val (slice off n l).
Definition stle (n : nat) (l : list Z) (off : nat) (v : Z) : list Z :=
  list_inserts off (le_bytes n v) l.

Lemma length_le_bytes n z : length (le_bytes n z) = n.
Proof. revert z; induction n; intros; simpl; auto. Qed.

Lemma le_bytes_u8 n z : Forall is_u8 (le_bytes n z).
Proof.
  revert z; induction n; intros; simpl; constructor; auto.
  dlia.
Qed.

Lemma le_val_bytes n z : le_val (le_bytes n z) = z mod 256 ^ (Z.of_nat n).
Proof.
  revert z; induction n as [|n IH]; intros z; simpl le_val.
  { by rewrite Z.mod_1_r. }
  rewrite IH, Nat2Z.inj_succ, Z.pow_succ_r by lia.
  rewrite Z.rem_mul_r by lia. lia.
Qed.

Lemma le_bytes_val l :
  Forall is_u8 l -> le_bytes (length l) (le_val l) = l.
Proof.
  induction 1 as [|b l Hb _ IH]; simpl; auto.
  assert ((b + 256 * le_val l) mod 256 = b) as -> by dlia.
  assert ((b + 256 * le_val l) / 256 = le_val l) as -> by dlia.
  by rewrite IH.
Qed.

Lemma le_val_range l :
  Forall is_u8 l -> 0 <= le_val l < 256 ^ Z.of_nat (length l).
Proof.
  induction 1 as [|b l Hb _ IH]; simpl le_val; simpl length; [lia|].
  rewrite Nat2Z.inj_succ, Z.pow_succ_r by lia. unfold is_u8 in Hb. nia.
Qed.

Lemma length_slice {A} off n (l : list A) :
  (off + n <= length l)%nat -> length (slice off n l) = n.
Proof. intros. unfold slice. rewrite length_take, length_drop. lia. Qed.

Lemma lookup_slice {A} off n (l : list A) i :
  (i < n)%nat -> slice off n l !! i = l !! (off + i)%nat.
Proof. intros. unfold slice. by rewrite lookup_take_lt, lookup_drop. Qed.

Lemma lookup_slice_ge {A} off n (l : list A) i :
  (n <= i)%nat -> slice off n l !! i = None.
Proof. intros. unfold slice. by rewrite lookup_take_ge. Qed.

Lemma inserts_app {A} off (xs l : list A) :
  (off + length xs <= length l)%nat ->
  list_inserts off xs l = take off l ++ xs ++ drop (off + length xs) l.
Proof.
  intros H. apply list_eq. intros i.
  destruct (decide (i < off)%nat).
  { rewrite list_lookup_inserts_lt by lia.
    rewrite lookup_app_l by (rewrite length_take; lia).
    by rewrite lookup_take_lt. }
  rewrite lookup_app_r, length_take, Nat.min_l by (rewrite ?length_take; lia).
  destruct (decide (i < off + length xs)%nat).
  - rewrite list_lookup_inserts by lia. by rewrite lookup_app_l by lia.
  - rewrite list_lookup_inserts_ge, lookup_app_r, lookup_drop by lia.
    f_equal. lia.
Qed.

Lemma slice_inserts_eq {A} off (xs l : list A) :
  (off + length xs <= length l)%nat ->
  slice off (length xs) (list_inserts off xs l) = xs.
Proof.
  intros H. apply list_eq. intros i. destruct (decide (i < length xs)%nat).
  - rewrite lookup_slice by done.
    rewrite list_lookup_inserts by lia. f_equal. lia.
  - rewrite lookup_slice_ge, lookup_ge_None_2 by lia. done.
Qed.

Lemma slice_inserts_ne {A} off n off' (xs l : list A) :
  (off + n <= off' \/ off' + length xs <= off)%nat ->
  slice off n (list_inserts off' xs l) = slice off n l.
Proof.
  intros H. apply list_eq. intros i. destruct (decide (i < n)%nat).
  - rewrite !lookup_slice by done.
    destruct H; [rewrite list_lookup_inserts_lt by lia
                |rewrite list_lookup_inserts_ge by lia]; done.
  - rewrite !lookup_slice_ge by lia. done.
Qed.

Lemma ldle_stle_eq n l off v :
  (off + n <= length l)%nat -> ldle n (stle n l off v) off = v mod 256 ^ Z.of_nat n.
Proof.
  intros. unfold ldle, stle.
  pose proof (slice_inserts_eq off (le_bytes n v) l) as E.
  rewrite length_le_bytes in E. rewrite E by done. apply le_val_bytes.
Qed.

Lemma ldle_stle_ne n m l off off' v :
  (off + n <= off' \/ off' + m <= off)%nat ->
  ldle n (stle m l off' v) off = ldle n l off.
Proof.
  intros. unfold ldle, stle. f_equal. apply slice_inserts_ne.
  by rewrite length_le_bytes.
Qed.

Lemma length_stle n l off v : length (stle n l off v) = length l.
Proof. apply length_inserts. Qed.

(** [perm_solve]: lists of pages or blocks up to order, by counting. *)
Lemma perm_mset (l1 l2 : list Z) : list_to_set_disj l1 =@{gmultiset Z} list_to_set_disj l2 <-> l1 ≡ₚ l2.
Proof.
  split; [|apply list_to_set_disj_perm]. intros E.
  assert (He : forall l : list Z, elements (list_to_set_disj l : gmultiset Z) ≡ₚ l).
  { induction l as [|x l IH]; [done|].
    by rewrite list_to_set_disj_cons, gmultiset_elements_disj_union, gmultiset_elements_singleton, IH. }
  by rewrite <- (He l1), <- (He l2), E.
Qed.
Ltac perm_solve :=
  repeat match goal with H : _ ≡ₚ _ |- _ => apply perm_mset in H end;
  apply perm_mset; cbn [list_to_set_disj] in *;
  repeat rewrite ?list_to_set_disj_app, ?list_to_set_disj_cons, ?list_to_set_disj_nil in *;
  multiset_solver.

Lemma Forall_inserts {A} (P : A -> Prop) off xs l :
  Forall P xs -> Forall P l -> Forall P (list_inserts off xs l).
Proof.
  revert off. induction xs as [|x xs IH]; intros off Hxs Hl; simpl; auto.
  apply Forall_insert; [apply IH; [by inversion Hxs|done]|by inversion Hxs].
Qed.

Lemma Forall_slice {A} (P : A -> Prop) off n l : Forall P l -> Forall P (slice off n l).
Proof. intros. unfold slice. by apply Forall_take, Forall_drop. Qed.
