(* ===== verification/Params.v ===== *)
(** Constants of param.h, fs.h, stat.h, buf.h, fcntl.h, memlayout.h and mmu.h, and the
    address arithmetic macros of mmu.h and memlayout.h. *)

From S2P Require Import Prelude.

(** param.h *)
Definition NPROC := 64%nat.
Definition KSTACKSIZE := 4096.
Definition NCPU := 8%nat.
Definition NOFILE := 16%nat.
Definition NFILE := 100%nat.
Definition NINODE := 50%nat.
Definition NDEV := 10.
Definition ROOTDEV := 1.
Definition MAXARG := 32.
Definition MAXOPBLOCKS := 10.
Definition LOGSIZE := MAXOPBLOCKS * 3.
Definition NBUF := 30%nat.
Definition FSSIZE := 1000.

(** fs.h *)
Definition ROOTINO := 1.
Definition BSIZE := 512.
Definition NDIRECT := 12.
Definition NINDIRECT := BSIZE / 4.
Definition MAXFILE := NDIRECT + NINDIRECT.
Definition DIRSIZ := 14%nat.
(** [sizeof(struct dirent)] *)
Definition sizeof_dirent := 16.
Definition BPB := BSIZE * 8.

(** [sizeof(struct dinode)]: four shorts, the size, thirteen addresses. *)
Definition sizeof_dinode := 64.
Definition IPB := BSIZE / sizeof_dinode.

(** stat.h *)
Definition T_DIR := 1.
Definition T_FILE := 2.
Definition T_DEV := 3.

(** buf.h *)
Definition B_VALID := 2.
Definition B_DIRTY := 4.

(** memlayout.h *)
Definition EXTMEM := 0x100000.
Definition PHYSTOP := 0xE000000.
Definition DEVSPACE := 0xFE000000.
Definition KERNBASE := 0x80000000.
Definition KERNLINK := KERNBASE + EXTMEM.
Definition V2P (a : Z) : Z := u32 (a - KERNBASE).
Definition P2V (a : Z) : Z := u32 (a + KERNBASE).

(** mmu.h *)
Definition NPDENTRIES := 1024.
Definition NPTENTRIES := 1024.
Definition PGSIZE := 4096.
Definition PTXSHIFT := 12.
Definition PDXSHIFT := 22.
Definition PDX (va : Z) : Z := Z.land (Z.shiftr (u32 va) PDXSHIFT) 0x3FF.
Definition PTX (va : Z) : Z := Z.land (Z.shiftr (u32 va) PTXSHIFT) 0x3FF.
Definition PGADDR (d t o : Z) : Z :=
  u32 (Z.lor (Z.lor (Z.shiftl d PDXSHIFT) (Z.shiftl t PTXSHIFT)) o).
Definition PGROUNDUP (sz : Z) : Z :=
  Z.land (u32 (sz + PGSIZE - 1)) (u32 (Z.lnot (PGSIZE - 1))).
Definition PGROUNDDOWN (a : Z) : Z := Z.land (u32 a) (u32 (Z.lnot (PGSIZE - 1))).
Definition PTE_P := 0x001.
Definition PTE_W := 0x002.
Definition PTE_U := 0x004.
Definition PTE_PS := 0x080.
Definition PTE_ADDR (pte : Z) : Z := Z.land (u32 pte) (u32 (Z.lnot 0xFFF)).
Definition PTE_FLAGS (pte : Z) : Z := Z.land (u32 pte) 0xFFF.

(** *** Page arithmetic *)

Lemma land_page_mask a : is_u32 a -> Z.land a 0xFFFFF000 = 4096 * (a / 4096).
Proof.
  intros Ha. change 0xFFFFF000 with (Z.ldiff (Z.ones 32) (Z.ones 12)).
  rewrite Z.ldiff_land, Z.land_assoc, Z.land_ones, <- Z.ldiff_land by lia.
  rewrite Z.mod_small by (unfold is_u32 in Ha; lia).
  rewrite Z.ldiff_ones_r, Z.shiftl_mul_pow2, Z.shiftr_div_pow2 by lia. apply Z.mul_comm.
Qed.

Lemma PGROUNDDOWN_eq a : is_u32 a -> PGROUNDDOWN a = PGSIZE * (a / PGSIZE).
Proof. intros Ha. unfold PGROUNDDOWN. rewrite u32_small by done. by apply land_page_mask. Qed.

Lemma PGROUNDUP_eq a : 0 <= a -> a + PGSIZE - 1 < 4294967296 ->
  PGROUNDUP a = PGSIZE * ((a + PGSIZE - 1) / PGSIZE).
Proof.
  intros Ha Hl. unfold PGROUNDUP. rewrite (u32_small (a + PGSIZE - 1)) by (unfold is_u32, PGSIZE in *; lia).
  apply land_page_mask. unfold is_u32, PGSIZE in *. lia.
Qed.

(** [PGROUNDUP] of an address in the last page wraps around to 0. *)
Lemma PGROUNDUP_wrap a : is_u32 a -> 4294963200 < a -> PGROUNDUP a = 0.
Proof.
  intros Ha Hl. unfold PGROUNDUP, PGSIZE. replace (u32 (a + 4096 - 1)) with (a - 4294963201) by dlia.
  change (u32 (Z.lnot (4096 - 1))) with 0xFFFFF000. rewrite land_page_mask by (unfold is_u32 in *; lia).
  unfold is_u32 in *. dlia.
Qed.

Lemma PTE_ADDR_eq pte : is_u32 pte -> PTE_ADDR pte = 4096 * (pte / 4096).
Proof. intros H. unfold PTE_ADDR. rewrite u32_small by done. by apply land_page_mask. Qed.

Lemma PTE_FLAGS_eq pte : is_u32 pte -> PTE_FLAGS pte = pte mod 4096.
Proof. intros H. unfold PTE_FLAGS. rewrite u32_small by done. apply (Z.land_ones pte 12). lia. Qed.

Lemma PDX_eq va : is_u32 va -> PDX va = va / 4194304.
Proof.
  intros H. unfold PDX, PDXSHIFT. rewrite u32_small by done.
  rewrite (Z.land_ones _ 10), Z.shiftr_div_pow2 by lia. apply Z.mod_small. unfold is_u32 in *.
  change (2 ^ 22) with 4194304. dlia.
Qed.

Lemma PTX_eq va : is_u32 va -> PTX va = va / 4096 mod 1024.
Proof.
  intros H. unfold PTX, PTXSHIFT. rewrite u32_small by done.
  rewrite (Z.land_ones _ 10), Z.shiftr_div_pow2 by lia. done.
Qed.

(** The three parts of an address, put together again. *)
Lemma PGADDR_eq d t o : 0 <= d < 1024 -> 0 <= t < 1024 -> 0 <= o < 4096 ->
  PGADDR d t o = d * 4194304 + t * 4096 + o.
Proof.
  intros Hd Ht Ho. unfold PGADDR, PDXSHIFT, PTXSHIFT.
  rewrite (lor_low d (Z.shiftl t 12) 22), (Z.shiftl_mul_pow2 t) by (rewrite ?Z.shiftl_mul_pow2; lia).
  replace (d * 2 ^ 22 + t * 2 ^ 12) with (Z.shiftl (d * 1024 + t) 12)
    by (rewrite Z.shiftl_mul_pow2; lia).
  rewrite lor_low by lia. rewrite u32_small by (unfold is_u32; lia). lia.
Qed.

Lemma PGADDR_split va : is_u32 va -> PGADDR (PDX va) (PTX va) (va mod 4096) = va.
Proof.
  intros H. rewrite PDX_eq, PTX_eq by done. rewrite PGADDR_eq by (unfold is_u32 in *; dlia). dlia.
Qed.

(** ** fcntl.h *)

Definition O_RDONLY := 0x000.
Definition O_WRONLY := 0x001.
Definition O_RDWR := 0x002.
Definition O_CREATE := 0x200.

(** ** elf.h *)

Definition ELF_MAGIC : Z := 0x464C457F.

(** ** traps.h *)

Definition T_SYSCALL := 64.
Definition T_IRQ0 := 32.
Definition IRQ_TIMER := 0.
Definition IRQ_KBD := 1.
Definition IRQ_COM1 := 4.
Definition IRQ_IDE := 14.
Definition IRQ_ERROR := 19.
Definition IRQ_SPURIOUS := 31.
