(* ===== verification/KString.v ===== *)
(** Byte and string routines of the kernel: string.c, and [strcmp]/[atoi] of
    util.c.

    [memmove] and [memset] act on a byte-addressed memory, so that overlap and
    the word-wise path of [memset] are visible.  The read-only routines take
    the bytes from the pointer to the end of the object it points into and
    answer [None] when the C code would read past that object. *)

From S2P Require Import Prelude.

Definition mem := Z -> Z.

Definition mwrite (m : mem) (a v : Z) : mem :=
  fun x => if decide (x = a) then v else m x.

(** [rep stosb]: [cnt] copies of the low byte of [data] from [addr]. *)
Fixpoint stosb (m : mem) (addr data : Z) (cnt : nat) : mem :=
  match cnt with
  | O => m
  | S cnt => stosb (mwrite m addr (u8 data)) (addr + 1) data cnt
  end.

(** A little-endian 32-bit store. *)
Definition mwrite32 (m : mem) (a v : Z) : mem :=
  mwrite (mwrite (mwrite (mwrite m a (u8 v)) (a + 1) (u8 (Z.shiftr v 8)))
    (a + 2) (u8 (Z.shiftr v 16))) (a + 3) (u8 (Z.shiftr v 24)).

(** [rep stosl]: [cnt] copies of the word [data] from [addr]. *)
Fixpoint stosl (m : mem) (addr data : Z) (cnt : nat) : mem :=
  match cnt with
  | O => m
  | S cnt => stosl (mwrite32 m addr data) (addr + 4) data cnt
  end.

Definition memset (m : mem) (dst c n : Z) : mem :=
  if (Z.rem (i32 dst) 4 =? 0) && (n mod 4 =? 0) then
    let c := Z.land c 255 in
    stosl m dst
      (Z.lor (Z.lor (Z.lor (Z.shiftl c 24) (Z.shiftl c 16)) (Z.shiftl c 8)) c)
      (Z.to_nat (n / 4))
  else stosb m dst c (Z.to_nat n).

(** The loop [while(n-- > 0) *d++ = *s++;]. *)
Fixpoint copy_up (m : mem) (d s : Z) (n : nat) : mem :=
  match n with
  | O => m
  | S n => copy_up (mwrite m d (m s)) (d + 1) (s + 1) n
  end.

(** The loop [while(n-- > 0) *--d = *--s;]. *)
Fixpoint copy_down (m : mem) (d s : Z) (n : nat) : mem :=
  match n with
  | O => m
  | S n => copy_down (mwrite m (d - 1) (m (s - 1))) (d - 1) (s - 1) n
  end.

(** Pointers are 32-bit, so the comparison sees [s + n] wrapped. *)
Definition memmove (m : mem) (dst src n : Z) : mem :=
  if (src <? dst) && (dst <? u32 (src + n)) then
    copy_down m (dst + n) (src + n) (Z.to_nat n)
  else copy_up m dst src (Z.to_nat n).

(** memcpy exists to placate GCC.  Use memmove. *)
Definition memcpy (m : mem) (dst src n : Z) : mem := memmove m dst src n.

Fixpoint memcmp (s1 s2 : list Z) (n : nat) {struct n} : option Z :=
  match n with
  | O => Some 0
  | S n =>
    match s1, s2 with
    | a :: s1, b :: s2 => if a =? b then memcmp s1 s2 n else Some (a - b)
    | _, _ => None
    end
  end.

Fixpoint strncmp (p q : list Z) (n : nat) {struct n} : option Z :=
  match n with
  | O => Some 0
  | S n =>
    match p, q with
    | a :: p, b :: q =>
      if negb (a =? 0) && (a =? b) then strncmp p q n else Some (u8 a - u8 b)
    | _, _ => None
    end
  end.

(** The [n] bytes [strncpy] stores at its destination. *)
Fixpoint strncpy (t : list Z) (n : nat) {struct n} : option (list Z) :=
  match n with
  | O => Some []
  | S n =>
    match t with
    | [] => None
    | c :: t => if c =? 0 then Some (0 :: replicate n 0)
                else (fun l => c :: l) <$> strncpy t n
    end
  end.

(** The bytes [safestrcpy] stores: the loop copies while [--n > 0] and the
    byte copied is not NUL, then a NUL is stored at the pointer reached. *)
Fixpoint safestrcpy_loop (t : list Z) (n : nat) {struct n} : option (list Z) :=
  match n with
  | O => Some [0]
  | S n =>
    match t with
    | [] => None
    | c :: t => if c =? 0 then Some [0; 0]
                else (fun l => c :: l) <$> safestrcpy_loop t n
    end
  end.

Definition safestrcpy (s t : list Z) (n : Z) : option (list Z) :=
  if n <=? 0 then Some s
  else (fun l => list_inserts 0 l s) <$> safestrcpy_loop t (Z.to_nat (n - 1)).

Fixpoint strlen (s : list Z) : option Z :=
  match s with
  | [] => None
  | c :: s => if c =? 0 then Some 0 else Z.succ <$> strlen s
  end.

(** util.c *)
Fixpoint strcmp (p q : list Z) : option Z :=
  match p, q with
  | a :: p, b :: q =>
    if negb (a =? 0) && (a =? b) then strcmp p q else Some (u8 a - u8 b)
  | _, _ => None
  end.

Fixpoint atoi_loop (s : list Z) (n : Z) : option Z :=
  match s with
  | [] => None
  | c :: s => if (48 <=? c) && (c <=? 57) then atoi_loop s (i32 (n * 10 + c - 48))
              else Some n
  end.
Definition atoi (s : list Z) : option Z := atoi_loop s 0.

(** The bytes of a string literal, and with its NUL. *)
Fixpoint chars (s : string) : list Z :=
  match s with
  | EmptyString => []
  | String c s => Z.of_N (Ascii.N_of_ascii c) :: chars s
  end.
Definition cstring (s : string) : list Z := chars s ++ [0].

(** *** Strings as the routines see them *)

(** The C string at the start of a buffer: the bytes before the first NUL. *)
Fixpoint cstr (l : list Z) : list Z :=
  match l with
  | [] => []
  | c :: l => if c =? 0 then [] else c :: cstr l
  end.

(** What [strncmp _ _ n] compares: at most [n] bytes, up to the NUL. *)
Definition cstrn (n : nat) (l : list Z) : list Z := cstr (take n l).

(** [l] can be read as a string of at most [n] bytes. *)
Definition readable (n : nat) (l : list Z) : Prop := (n <= length l)%nat \/ In 0 l.

(** *** Lemmas *)

Lemma copy_up_spec n : forall m d s x,
  (d <= s \/ s + Z.of_nat n <= d) ->
  copy_up m d s n x = if decide (d <= x < d + Z.of_nat n) then m (s + (x - d)) else m x.
Proof.
  induction n as [|n IH]; intros m d s x H; simpl copy_up.
  { case_decide; [lia|done]. }
  rewrite IH by lia. unfold mwrite. repeat case_decide; try lia; f_equal; lia.
Qed.

Lemma copy_down_spec n : forall m d s x,
  s <= d ->
  copy_down m d s n x =
    if decide (d - Z.of_nat n <= x < d) then m (s - (d - x)) else m x.
Proof.
  induction n as [|n IH]; intros m d s x H; simpl copy_down.
  { case_decide; [lia|done]. }
  rewrite IH by lia. unfold mwrite. repeat case_decide; try lia; f_equal; lia.
Qed.

Lemma stosb_spec n : forall m a c x,
  stosb m a c n x = if decide (a <= x < a + Z.of_nat n) then u8 c else m x.
Proof.
  induction n as [|n IH]; intros m a c x; simpl stosb.
  { case_decide; [lia|done]. }
  rewrite IH. unfold mwrite. repeat case_decide; try lia; done.
Qed.

Lemma mwrite32_spec m a v b x :
  u8 v = b -> u8 (Z.shiftr v 8) = b -> u8 (Z.shiftr v 16) = b ->
  u8 (Z.shiftr v 24) = b ->
  mwrite32 m a v x = if decide (a <= x < a + 4) then b else m x.
Proof.
  intros E0 E1 E2 E3. unfold mwrite32, mwrite. rewrite E0, E1, E2, E3.
  repeat case_decide; try lia; done.
Qed.

Lemma stosl_spec n : forall m a v b x,
  u8 v = b -> u8 (Z.shiftr v 8) = b -> u8 (Z.shiftr v 16) = b ->
  u8 (Z.shiftr v 24) = b ->
  stosl m a v n x = if decide (a <= x < a + 4 * Z.of_nat n) then b else m x.
Proof.
  induction n as [|n IH]; intros m a v b x E0 E1 E2 E3; simpl stosl.
  { case_decide; [lia|done]. }
  rewrite (IH _ _ _ b), (mwrite32_spec _ _ _ b) by done.
  repeat case_decide; try lia; done.
Qed.

Lemma memset_word_bytes c :
  let b := Z.land c 255 in
  let w := Z.lor (Z.lor (Z.lor (Z.shiftl b 24) (Z.shiftl b 16)) (Z.shiftl b 8)) b in
  u8 w = u8 c /\ u8 (Z.shiftr w 8) = u8 c /\ u8 (Z.shiftr w 16) = u8 c /\
  u8 (Z.shiftr w 24) = u8 c.
Proof.
  intros b w. assert (b = u8 c) as Hb by exact (Z.land_ones c 8 ltac:(lia)).
  assert (0 <= b < 256) by (rewrite Hb; apply u8_range).
  assert (w = b * 16777216 + b * 65536 + b * 256 + b) as ->.
  { unfold w. rewrite <- !Z.lor_assoc.
    rewrite (lor_low b b 8) by lia.
    rewrite (lor_low b (b * 2 ^ 8 + b) 16) by lia.
    rewrite (lor_low b _ 24) by lia. lia. }
  rewrite <- Hb, !Z.shiftr_div_pow2 by lia. repeat split; dlia.
Qed.

(** *** Properties *)

(** [memmove] copies, also between overlapping buffers. *)
Theorem memmove_spec m dst src n x :
  0 <= dst -> 0 <= src -> 0 <= n -> src + n < 4294967296 ->
  memmove m dst src n x =
    if decide (dst <= x < dst + n) then m (src + (x - dst)) else m x.
Proof.
  intros Hd Hs Hn Hlt. unfold memmove. rewrite u32_small by dlia.
  destruct (Z.ltb_spec src dst), (Z.ltb_spec dst (src + n)); simpl.
  all: first [rewrite copy_down_spec by lia | rewrite copy_up_spec by lia].
  all: rewrite Z2Nat.id by lia; repeat case_decide; try lia; f_equal; lia.
Qed.

Theorem memset_spec m dst c n x :
  0 <= dst < 4294967296 -> 0 <= n ->
  memset m dst c n x = if decide (dst <= x < dst + n) then u8 c else m x.
Proof.
  intros Hd Hn. unfold memset.
  destruct (memset_word_bytes c) as (E0 & E1 & E2 & E3).
  destruct (_ && _) eqn:E.
  - apply andb_prop in E as [_ E%Z.eqb_eq].
    rewrite (stosl_spec _ _ _ _ (u8 c)) by done.
    replace (4 * Z.of_nat (Z.to_nat (n / 4))) with n by dlia. done.
  - rewrite stosb_spec, Z2Nat.id by lia. done.
Qed.

Lemma cstr_cons_nz c l : c <> 0 -> cstr (c :: l) = c :: cstr l.
Proof. intros. simpl. by rewrite (proj2 (Z.eqb_neq c 0)). Qed.

Lemma readable_cons n c l : c <> 0 -> readable (S n) (c :: l) -> readable n l.
Proof. unfold readable. simpl. intros ? [?|[?|?]]; [left; lia|done|by right]. Qed.

Theorem strncmp_zero n : forall p q,
  Forall is_u8 p -> Forall is_u8 q -> readable n p -> readable n q ->
  exists d, strncmp p q n = Some d /\ (d = 0 <-> cstrn n p = cstrn n q).
Proof.
  induction n as [|n IH]; intros p q Hp Hq Rp Rq.
  { exists 0. split; [done|]. split; reflexivity. }
  destruct p as [|a p]; [destruct Rp as [Rp|[]]; simpl in Rp; lia|].
  destruct q as [|b q]; [destruct Rq as [Rq|[]]; simpl in Rq; lia|].
  apply Forall_cons in Hp as [Ha Hp]. apply Forall_cons_iff in Hq as [Hb Hq]. simpl strncmp.
  destruct (Z.eqb_spec a 0) as [->|Ha0]; simpl negb; cbv iota; simpl andb.
  { eexists; split; [done|]. unfold cstrn; simpl.
    destruct (Z.eqb_spec b 0) as [->|]; simpl; [split; done|].
    rewrite !u8_small by (done || dlia). split; [lia|done]. }
  destruct (Z.eqb_spec a b) as [<-|Hab].
  { destruct (IH p q) as (d & -> & Hd); eauto using readable_cons.
    exists d. split; [done|]. rewrite Hd. unfold cstrn. simpl take.
    rewrite !cstr_cons_nz by done. split; [by intros ->|by intros [= ->]]. }
  eexists; split; [done|]. rewrite !u8_small by done.
  unfold cstrn. simpl take. rewrite cstr_cons_nz by done. simpl.
  destruct (Z.eqb_spec b 0); split; (lia || congruence).
Qed.

Theorem strncpy_spec n : forall t,
  readable n t ->
  exists l, strncpy t n = Some l /\ length l = n /\
    l = cstrn n t ++ replicate (n - length (cstrn n t)) 0.
Proof.
  induction n as [|n IH]; intros t R; [by exists []|].
  destruct t as [|c t]; [destruct R as [R|[]]; simpl in R; lia|].
  simpl. unfold cstrn. simpl take.
  destruct (Z.eqb_spec c 0) as [->|Hc].
  { eexists; split; [done|]. simpl. rewrite length_replicate. done. }
  destruct (IH t) as (l & -> & Hl & El); [by eapply readable_cons|].
  exists (c :: l). rewrite cstr_cons_nz by done. unfold cstrn in El.
  split_and!; [done|simpl; lia|simpl; by rewrite El].
Qed.

(** Bytes of a C string: none is NUL. *)
Definition no_nul (p : list Z) : Prop := Forall (fun c => c <> 0) p.

Lemma cstr_no_nul l : no_nul l -> cstr l = l.
Proof.
  induction 1 as [|c l Hc Hl IH]; [done|]. by rewrite cstr_cons_nz, IH.
Qed.

Lemma cstr_nul l r : no_nul l -> cstr (l ++ 0 :: r) = l.
Proof. induction 1 as [|c l Hc Hl IH]; [done|]. simpl app. by rewrite cstr_cons_nz, IH. Qed.

Lemma cstr_app_nul l k : cstr (cstr l ++ replicate k 0) = cstr l.
Proof.
  induction l as [|c l IH]; simpl; [by destruct k|].
  destruct (Z.eqb_spec c 0) as [->|]; [by destruct k|].
  rewrite <- app_comm_cons, cstr_cons_nz by done. by rewrite IH.
Qed.

Theorem safestrcpy_nul_terminates s t n :
  0 < n -> (Z.to_nat n <= length s)%nat -> readable (Z.to_nat n) t ->
  exists l, safestrcpy s t n = Some l /\ length l = length s /\
    cstr l = cstrn (Z.to_nat (n - 1)) t.
Proof.
  intros Hn Hs R. unfold safestrcpy.
  rewrite (proj2 (Z.leb_gt n 0)) by lia.
  assert (exists k, Z.to_nat n = S k) as [k Hk] by (exists (Z.to_nat n - 1)%nat; lia).
  replace (Z.to_nat (n - 1)) with k by lia. rewrite Hk in *. clear Hk Hn n.
  enough (exists w, safestrcpy_loop t k = Some w /\ (length w <= S k)%nat /\
     forall r, cstr (w ++ r) = cstrn k t) as (w & -> & Hw & Ew).
  { exists (list_inserts 0 w s). split_and!; [done|apply length_inserts|].
    rewrite <- (Ew (drop (length w) s)). f_equal.
    by rewrite inserts_app by (simpl; lia). }
  clear Hs s. revert t R. induction k as [|k IH]; intros t R.
  { by exists [0]. }
  destruct t as [|c t]; [destruct R as [R|[]]; simpl in R; lia|].
  simpl. unfold cstrn. simpl take. destruct (Z.eqb_spec c 0) as [->|Hc].
  { exists [0; 0]. split_and!; [done|simpl; lia|done]. }
  destruct (IH t) as (w & -> & Hw & Ew); [by eapply readable_cons|].
  exists (c :: w). split_and!; [done|simpl; lia|].
  intros r. rewrite <- app_comm_cons, !cstr_cons_nz by done. by rewrite Ew.
Qed.

(** Overlapping buffers, copied backwards. *)
Lemma memmove_spec_witness : memmove (fun x => x) 10 8 4 13 = 11.
Proof.
  rewrite (memmove_spec (fun x => x) 10 8 4 13) by lia. reflexivity.
Defined.
