(* ===== verification/Ports.v ===== *)
(** Port input and output (x86.h), and what the drivers rely on of a disk
    behind the ports.

    [Ports] is the machine's side of the instructions [in] and [out].
    [AtaDisk] states the documented behaviour of an ATA disk that is driven
    with single-sector commands and programmed I/O, through the view [ata_of]
    of the device: the contents of the sectors, the command registers, the
    transfer in progress, and the number of times the status register will
    still say busy. It is the contract of ide.c and of bootmain.c; [simdisk]
    at the end is a device that has it. *)

From S2P Require Import Prelude.

(** *** Instructions *)

Class Ports (D : Type) := {
  port_in : Z -> D -> Z * D;
  port_out : Z -> Z -> D -> D;
  port_in32 : Z -> D -> Z * D;
  port_out32 : Z -> Z -> D -> D;
}.

Section x86_h.
Context {D : Type} `{!Ports D}.

Definition inb (port : Z) : M D Z :=
  fun d => let (v, d') := port_in port d in Ret v d'.
Definition outb (port data : Z) : M D unit := modify (port_out port (u8 data)).

(** [rep insl]: [cnt] words, as the bytes they are stored as. *)
Fixpoint insl (port : Z) (cnt : nat) : M D (list Z) :=
  match cnt with
  | O => ret []
  | S cnt =>
    let! w := fun d => let (v, d') := port_in32 port d in Ret v d' in
    let! l := insl port cnt in
    ret (le_bytes 4 w ++ l)
  end.
(** [rep outsl]: [cnt] words taken from the bytes [l]. *)
Fixpoint outsl (port : Z) (l : list Z) (cnt : nat) : M D unit :=
  match cnt with
  | O => ret tt
  | S cnt => modify (port_out32 port (ldle 4 l 0));;; outsl port (drop 4 l) cnt
  end.
End x86_h.

(** *** The disk *)

Inductive xfer :=
  | NoXfer
  | Reading (bs : list Z)
  | Writing (drive lba : Z) (bs : list Z).

Record ata := Ata {
  a_disk : Z -> Z -> list Z;   (* drive and sector to the 512 bytes of it *)
  a_bad : Z -> Z -> bool;      (* sectors that cannot be read *)
  a_busy : nat;
  a_reg : Z -> Z;
  a_xfer : xfer;
  a_err : bool;
}.
Definition set_busy (n : nat) (a : ata) : ata := Ata (a_disk a) (a_bad a) n (a_reg a) (a_xfer a) (a_err a).
Definition set_reg (p v : Z) (a : ata) : ata :=
  Ata (a_disk a) (a_bad a) (a_busy a) (fun q => if q =? p then v else a_reg a q) (a_xfer a) (a_err a).
Definition set_xfer (x : xfer) (a : ata) : ata := Ata (a_disk a) (a_bad a) (a_busy a) (a_reg a) x (a_err a).
Definition set_sector (k i : Z) (bs : list Z) (f : Z -> Z -> list Z) : Z -> Z -> list Z :=
  fun k' i' => if (k' =? k) && (i' =? i) then bs else f k' i'.

(** The drive and the sector the registers select. *)
Definition a_drive (a : ata) : Z := a_reg a 0x1f6 / 16 mod 2.
Definition a_lba (a : ata) : Z :=
  a_reg a 0x1f3 + 256 * a_reg a 0x1f4 + 65536 * a_reg a 0x1f5 + 16777216 * (a_reg a 0x1f6 mod 16).

(** What a command does: one sector, addressed by number. *)
Definition a_ready (a : ata) : Prop := a_busy a = O /\ a_reg a 0x1f2 = 1 /\ a_reg a 0x1f6 / 64 mod 2 = 1.
Definition a_read (n : nat) (a : ata) : ata :=
  let bad := a_bad a (a_drive a) (a_lba a) in
  Ata (a_disk a) (a_bad a) n (a_reg a) (if bad then NoXfer else Reading (a_disk a (a_drive a) (a_lba a))) bad.
Definition a_write (a : ata) : ata :=
  Ata (a_disk a) (a_bad a) O (a_reg a) (Writing (a_drive a) (a_lba a) []) false.

(** Sectors have 512 bytes. *)
Definition sectors_ok (f : Z -> Z -> list Z) : Prop := forall k i, length (f k i) = 512%nat /\ Forall is_u8 (f k i).

(** [delay] bounds how long the disk is busy. The disk takes the data of a
    write at once after the command, as the driver assumes. *)
Class AtaDisk (D : Type) `{!Ports D} (delay : nat) := {
  ata_of : D -> ata;
  ata_status d : let (r, d') := port_in 0x1f7 d in
    match a_busy (ata_of d) with
    | O => Z.land r 0xc0 = 0x40 /\ (Z.land r 0x21 =? 0) = negb (a_err (ata_of d)) /\ ata_of d' = ata_of d
    | S n => Z.land r 0xc0 <> 0x40 /\ ata_of d' = set_busy n (ata_of d)
    end;
  ata_control d : ata_of (port_out 0x3f6 0 d) = ata_of d;
  ata_latch d p v : 0x1f2 <= p <= 0x1f6 -> is_u8 v -> a_busy (ata_of d) = O -> ata_of (port_out p v d) = set_reg p v (ata_of d);
  ata_read d : a_ready (ata_of d) -> exists n, (n <= delay)%nat /\ ata_of (port_out 0x1f7 0x20 d) = a_read n (ata_of d);
  ata_write d : a_ready (ata_of d) -> ata_of (port_out 0x1f7 0x30 d) = a_write (ata_of d);
  ata_in d bs rest : a_busy (ata_of d) = O -> length bs = 4%nat -> a_xfer (ata_of d) = Reading (bs ++ rest) ->
    let (w, d') := port_in32 0x1f0 d in w = le_val bs /\ ata_of d' = set_xfer (match rest with [] => NoXfer | _ => Reading rest end) (ata_of d);
  ata_out d w k i bs : is_u32 w -> a_xfer (ata_of d) = Writing k i bs -> (length bs + 4 < 512)%nat ->
    ata_of (port_out32 0x1f0 w d) = set_xfer (Writing k i (bs ++ le_bytes 4 w)) (ata_of d);
  ata_out_last d w k i bs : is_u32 w -> a_xfer (ata_of d) = Writing k i bs -> (length bs + 4 = 512)%nat ->
    exists n, (n <= delay)%nat /\ ata_of (port_out32 0x1f0 w d) =
      Ata (set_sector k i (bs ++ le_bytes 4 w) (a_disk (ata_of d))) (a_bad (ata_of d)) n (a_reg (ata_of d)) NoXfer false;
}.

Section disk.
Context {D : Type} `{!Ports D} {delay : nat} `{!AtaDisk D delay}.
Implicit Types d : D.

Lemma wp_inb (port : Z) (Q : Z -> D -> Prop) d : Q (port_in port d).1 (port_in port d).2 -> wp (inb port) Q d.
Proof. unfold wp, inb. by destruct (port_in port d). Qed.

(** The loops that wait for the disk, [while((inb(0x1f7) & 0xc0) != 0x40)]: each
    round reads the status once. *)
Lemma wp_status (Q : Z -> D -> Prop) d :
  (forall r d', a_busy (ata_of d) = O -> Z.land r 0xc0 = 0x40 -> (Z.land r 0x21 =? 0) = negb (a_err (ata_of d)) -> ata_of d' = ata_of d -> Q r d') ->
  (forall r d' n, a_busy (ata_of d) = S n -> Z.land r 0xc0 <> 0x40 -> ata_of d' = set_busy n (ata_of d) -> Q r d') ->
  wp (inb 0x1f7) Q d.
Proof.
  intros H0 HS. apply wp_inb. pose proof (ata_status d) as H. destruct (port_in 0x1f7 d) as [r d']. simpl.
  destruct (a_busy (ata_of d)) as [|n] eqn:E; [destruct H as (? & ? & ?); by apply H0|destruct H as (? & ?); by eapply HS].
Qed.

Lemma wp_latch p v (Q : unit -> D -> Prop) d : 0x1f2 <= p <= 0x1f6 -> a_busy (ata_of d) = O ->
  (forall d', ata_of d' = set_reg p (u8 v) (ata_of d) -> Q tt d') -> wp (outb p v) Q d.
Proof. intros Hp Hb HQ. apply wp_modify, HQ. apply ata_latch; [done|apply u8_range|done]. Qed.

Lemma insl_sector n : forall bs d, n <> O -> length bs = (4 * n)%nat -> Forall is_u8 bs -> a_busy (ata_of d) = O -> a_xfer (ata_of d) = Reading bs ->
  wp (insl 0x1f0 n) (fun l d' => l = bs /\ ata_of d' = set_xfer NoXfer (ata_of d)) d.
Proof.
  induction n as [|n IH]; intros bs d Hn Hl Hu Hb Hx; [done|]. cbn [insl]. rewrite <- (take_drop 4 bs) in Hx.
  assert (Hl4 : length (take 4 bs) = 4%nat) by (rewrite length_take; lia).
  pose proof (ata_in d (take 4 bs) (drop 4 bs) Hb Hl4 Hx) as H. apply wp_bind.
  unfold wp. destruct (port_in32 0x1f0 d) as [w d'] eqn:E. destruct H as [-> Hd'].
  assert (Hw : le_bytes 4 (le_val (take 4 bs)) = take 4 bs) by (rewrite <- Hl4 at 1; by apply le_bytes_val, Forall_take).
  apply wp_bind. destruct n as [|n].
  - assert (drop 4 bs = []) as Hd by (apply drop_ge; lia). rewrite Hd in Hd'. apply wp_ret, wp_ret.
    rewrite app_nil_r, Hw. split; [|done]. apply take_ge. lia.
  - destruct (drop 4 bs) as [|b0 rest] eqn:Ed; [apply (f_equal length) in Ed; rewrite length_drop in Ed; simpl in Ed; lia|].
    eapply wp_mono; [apply (IH (b0 :: rest) d')|].
    + done.
    + rewrite <- Ed, length_drop. lia.
    + rewrite <- Ed. by apply Forall_drop.
    + by rewrite Hd'.
    + by rewrite Hd'.
    + intros l d'' [-> Hd'']. apply wp_ret. rewrite Hw, <- Ed, take_drop. split; [done|]. by rewrite Hd'', Hd'.
Qed.

Lemma outsl_sector n : forall bs d k i done, n <> O -> length bs = (4 * n)%nat -> Forall is_u8 bs -> a_xfer (ata_of d) = Writing k i done ->
  (length done + 4 * n = 512)%nat ->
  wp (outsl 0x1f0 bs n) (fun _ d' => exists busy, (busy <= delay)%nat /\
    ata_of d' = Ata (set_sector k i (done ++ bs) (a_disk (ata_of d))) (a_bad (ata_of d)) busy (a_reg (ata_of d)) NoXfer false) d.
Proof.
  induction n as [|n IH]; intros bs d k i fin Hn Hl Hu Hx Hf; [done|]. cbn [outsl].
  assert (Hl4 : length (take 4 bs) = 4%nat) by (rewrite length_take; lia).
  assert (Hw : le_bytes 4 (ldle 4 bs 0) = take 4 bs).
  { unfold ldle, slice. rewrite drop_0. rewrite <- Hl4 at 1. by apply le_bytes_val, Forall_take. }
  assert (Hr : is_u32 (ldle 4 bs 0)).
  { unfold ldle, slice. rewrite drop_0. pose proof (le_val_range (take 4 bs) (Forall_take _ 4 _ Hu)) as H. by rewrite Hl4 in H. }
  apply wp_bind, wp_modify. destruct n as [|n].
  - apply wp_ret. destruct (ata_out_last d _ k i fin Hr Hx) as (busy & Hbusy & E); [lia|]. exists busy. split; [done|]. rewrite E, Hw. by rewrite take_ge by lia.
  - pose proof (ata_out d _ k i fin Hr Hx ltac:(lia)) as E. rewrite Hw in E.
    eapply wp_mono; [apply (IH (drop 4 bs) _ k i (fin ++ take 4 bs))|].
    + done.
    + rewrite length_drop. lia.
    + by apply Forall_drop.
    + by rewrite E.
    + rewrite length_app. lia.
    + intros [] d' (busy & Hbusy & E'). exists busy. split; [done|]. rewrite E', E. by rewrite <- app_assoc, take_drop.
Qed.
End disk.

(** *** A device with the contract *)

(** It is busy for two status reads after each command. *)
#[export] Instance sim_ports : Ports ata := {|
  port_in p a :=
    if p =? 0x1f7 then match a_busy a with
      | O => (if a_err a then 0x41 else 0x40, a)
      | S n => (0x80, set_busy n a)
      end
    else (0, a);
  port_out p v a :=
    if p =? 0x1f7 then (if v =? 0x20 then a_read 2 a else if v =? 0x30 then a_write a else a)
    else if (0x1f2 <=? p) && (p <=? 0x1f6) then set_reg p v a else a;
  port_in32 p a :=
    match a_xfer a with
    | Reading bs => (le_val (take 4 bs), set_xfer (match drop 4 bs with [] => NoXfer | r => Reading r end) a)
    | _ => (0, a)
    end;
  port_out32 p w a :=
    match a_xfer a with
    | Writing k i bs =>
      let bs := bs ++ le_bytes 4 w in
      if (512 <=? length bs)%nat then Ata (set_sector k i bs (a_disk a)) (a_bad a) 2 (a_reg a) NoXfer false
      else set_xfer (Writing k i bs) a
    | _ => a
    end;
|}.

#[export, refine] Instance simdisk : AtaDisk ata 2 := {| ata_of := id |}.
Proof.
  - intros d. simpl. unfold id. destruct (a_busy d); [|done]. by destruct (a_err d).
  - done.
  - intros d p v Hp _ Hb. simpl. unfold id. rewrite (proj2 (Z.eqb_neq p 0x1f7)) by lia.
    by rewrite (proj2 (Z.leb_le _ _)), (proj2 (Z.leb_le _ _)) by lia.
  - intros d Hr. exists 2%nat. done.
  - done.
  - intros d bs rest Hb Hl Hx. simpl. unfold id in *. rewrite Hx. rewrite take_app_length', drop_app_length' by done. by destruct rest.
  - intros d w k i bs Hw Hx Hl. cbn [port_out32 sim_ports]. unfold id in *. rewrite Hx. cbv zeta.
    by rewrite (proj2 (Nat.leb_gt _ _)) by (rewrite length_app, length_le_bytes; lia).
  - intros d w k i bs Hw Hx Hl. exists 2%nat. split; [done|]. cbn [port_out32 sim_ports]. unfold id in *. rewrite Hx. cbv zeta.
    by rewrite (proj2 (Nat.leb_le _ _)) by (rewrite length_app, length_le_bytes; lia).
Defined.
