(* ===== verification/Bio.v ===== *)
(** The buffer cache (bio.c) on top of a disk driver with the behaviour of
    memide.c.

    The cache is the array [bcache.buf] of [NBUF] buffers followed by
    [bcache.head], threaded into one circular doubly linked list by the
    indices [next] and [prev]; a [struct buf *] is an index of that array.
    The spinlock [bcache.lock] makes each traversal atomic and is not
    represented (SpinLock.v shows what it guarantees); the sleep-lock of each
    buffer is the flag [locked].

    The disk is a finite map from block numbers to contents; [writes] is a
    history variable: the list of blocks written to the disk so far, in
    order, used in Log.v to speak of a crash between two writes. *)

From S2P Require Import Prelude Params.

Record buf := Buf {
  b_flags : Z;
  b_dev : Z;
  b_blockno : Z;
  b_locked : bool;
  b_refcnt : Z;
  b_prev : nat;
  b_next : nat;
  b_data : list Z;
}.

#[export] Instance buf_inhabited : Inhabited buf :=
  populate (Buf 0 0 0 false 0 0 0 (replicate (Z.to_nat BSIZE) 0)).

Record bcache := Bcache {
  bufs : list buf;
  disk : gmap Z (list Z);
  writes : list (Z * list Z);
}.

(** [&bcache.head]. *)
Definition BHEAD := NBUF.

(** *** Field updates *)

Definition set_b_flags (v : Z) (b : buf) : buf :=
  Buf v (b_dev b) (b_blockno b) (b_locked b) (b_refcnt b) (b_prev b) (b_next b) (b_data b).
Definition set_b_locked (v : bool) (b : buf) : buf :=
  Buf (b_flags b) (b_dev b) (b_blockno b) v (b_refcnt b) (b_prev b) (b_next b) (b_data b).
Definition set_b_refcnt (v : Z) (b : buf) : buf :=
  Buf (b_flags b) (b_dev b) (b_blockno b) (b_locked b) v (b_prev b) (b_next b) (b_data b).
Definition set_b_prev (v : nat) (b : buf) : buf :=
  Buf (b_flags b) (b_dev b) (b_blockno b) (b_locked b) (b_refcnt b) v (b_next b) (b_data b).
Definition set_b_next (v : nat) (b : buf) : buf :=
  Buf (b_flags b) (b_dev b) (b_blockno b) (b_locked b) (b_refcnt b) (b_prev b) v (b_data b).
Definition set_b_data (v : list Z) (b : buf) : buf :=
  Buf (b_flags b) (b_dev b) (b_blockno b) (b_locked b) (b_refcnt b) (b_prev b) (b_next b) v.
Definition set_ident (d n : Z) (b : buf) : buf :=
  Buf (b_flags b) d n (b_locked b) (b_refcnt b) (b_prev b) (b_next b) (b_data b).

Definition bufat (i : nat) (s : bcache) : buf := bufs s !!! i.

Definition setb (i : nat) (b : buf) (s : bcache) : bcache :=
  Bcache (<[i := b]> (bufs s)) (disk s) (writes s).

Definition bupd (i : nat) (f : buf -> buf) (s : bcache) : bcache :=
  setb i (f (bufat i s)) s.

Definition b_has (b : buf) (m : Z) : bool := negb (Z.land (b_flags b) m =? 0).

(** *** Sleep-locks (sleeplock.c) as the cache uses them *)

Definition b_acquiresleep (i : nat) : M bcache unit :=
  let! b := gets (bufat i) in
  if b_locked b then fail Block else modify (bupd i (set_b_locked true)).
Definition b_releasesleep (i : nat) : M bcache unit := modify (bupd i (set_b_locked false)).
Definition b_holdingsleep (i : nat) : M bcache bool := gets (fun s => b_locked (bufat i s)).

(** *** memide.c *)

(** Sync buf with disk.  The disk holds the blocks below [disksize], which are
    the keys of [disk]. *)
Definition iderw (i : nat) : M bcache unit :=
  let! held := b_holdingsleep i in
  panic_if (negb held) "iderw: buf not locked";;;
  let! b := gets (bufat i) in
  panic_if (Z.land (b_flags b) (Z.lor B_VALID B_DIRTY) =? B_VALID) "iderw: nothing to do";;;
  panic_if (negb (b_dev b =? 1)) "iderw: request not for disk 1";;;
  let! p := gets (fun s => disk s !! b_blockno b) in
  match p with
  | None => panic "iderw: block out of range"
  | Some blk =>
    (if b_has b B_DIRTY then
       modify (bupd i (set_b_flags (Z.ldiff (b_flags b) B_DIRTY)));;;
       modify (fun s => Bcache (bufs s) (<[b_blockno b := b_data b]> (disk s))
                               (writes s ++ [(b_blockno b, b_data b)]))
     else modify (bupd i (set_b_data blk)));;;
    modify (bupd i (fun b => set_b_flags (Z.lor (b_flags b) B_VALID) b))
  end.

(** *** bio.c *)

(** Insertion of [b] at the head of the list. *)
Definition link_front (b : nat) (s : bcache) : bcache :=
  let s := bupd b (set_b_next (b_next (bufat BHEAD s))) s in
  let s := bupd b (set_b_prev BHEAD) s in
  let s := bupd (b_next (bufat BHEAD s)) (set_b_prev b) s in
  bupd BHEAD (set_b_next b) s.

(** [brelse] unlinks the buffer before it moves it to the front. *)
Definition unlink (b : nat) (s : bcache) : bcache :=
  let s := bupd (b_next (bufat b s)) (set_b_prev (b_prev (bufat b s))) s in
  bupd (b_prev (bufat b s)) (set_b_next (b_next (bufat b s))) s.

Definition binit (d : gmap Z (list Z)) : bcache :=
  let s := Bcache (replicate (S NBUF) inhabitant) d [] in
  let s := bupd BHEAD (set_b_prev BHEAD) s in
  let s := bupd BHEAD (set_b_next BHEAD) s in
  foldl (fun s b => link_front b s) s (seq 0 NBUF).

(** [for(b = bcache.head.next; b != &bcache.head; b = b->next)]: the first
    buffer that caches the block. *)
Fixpoint find_cached (fuel : nat) (b : nat) (d n : Z) (s : bcache) : outcome bcache (option nat) :=
  match fuel with
  | O => Fail NoFuel
  | S fuel =>
    if decide (b = BHEAD) then Ret None s
    else if (b_dev (bufat b s) =? d) && (b_blockno (bufat b s) =? n) then Ret (Some b) s
    else find_cached fuel (b_next (bufat b s)) d n s
  end.

(** [for(b = bcache.head.prev; b != &bcache.head; b = b->prev)]: the first
    unused buffer, from the least recently used end. *)
Fixpoint find_victim (fuel : nat) (b : nat) (s : bcache) : outcome bcache (option nat) :=
  match fuel with
  | O => Fail NoFuel
  | S fuel =>
    if decide (b = BHEAD) then Ret None s
    else if (b_refcnt (bufat b s) =? 0) && (Z.land (b_flags (bufat b s)) B_DIRTY =? 0)
    then Ret (Some b) s
    else find_victim fuel (b_prev (bufat b s)) s
  end.

Definition bget (d n : Z) : M bcache nat :=
  let! start := gets (fun s => b_next (bufat BHEAD s)) in
  let! hit := find_cached (S NBUF) start d n in
  match hit with
  | Some b =>
    modify (bupd b (fun x => set_b_refcnt (u32 (b_refcnt x + 1)) x));;;
    b_acquiresleep b;;;
    ret b
  | None =>
    let! start := gets (fun s => b_prev (bufat BHEAD s)) in
    let! victim := find_victim (S NBUF) start in
    match victim with
    | Some b =>
      modify (bupd b (set_ident d n));;;
      modify (bupd b (set_b_flags 0));;;
      modify (bupd b (set_b_refcnt 1));;;
      b_acquiresleep b;;;
      ret b
    | None => panic "bget: no buffers"
    end
  end.

Definition bread (d n : Z) : M bcache nat :=
  let! b := bget d n in
  let! f := gets (fun s => b_has (bufat b s) B_VALID) in
  (if f then ret tt else iderw b);;;
  ret b.

Definition bwrite (b : nat) : M bcache unit :=
  let! held := b_holdingsleep b in
  panic_if (negb held) "bwrite";;;
  modify (bupd b (fun x => set_b_flags (Z.lor (b_flags x) B_DIRTY) x));;;
  iderw b.

Definition brelse (b : nat) : M bcache unit :=
  let! held := b_holdingsleep b in
  panic_if (negb held) "brelse";;;
  b_releasesleep b;;;
  modify (bupd b (fun x => set_b_refcnt (u32 (b_refcnt x - 1)) x));;;
  let! r := gets (fun s => b_refcnt (bufat b s)) in
  if r =? 0 then
    (* no one is waiting for it. *)
    modify (unlink b);;;
    modify (link_front b)
  else ret tt.

(** Access to [b->data] of a buffer the caller holds. *)
Definition bdata (b : nat) : M bcache (list Z) := gets (fun s => b_data (bufat b s)).
Definition bset (b : nat) (d : list Z) : M bcache unit := modify (bupd b (set_b_data d)).

(** [b->flags |= B_DIRTY], as log.c pins a buffer. *)
Definition pin (b : nat) : M bcache unit :=
  modify (bupd b (fun x => set_b_flags (Z.lor (b_flags x) B_DIRTY) x)).

(** *** The linked list *)

(** [chain s p l e]: following [next] from [p] visits [l] and then reaches
    [e], and the [prev] links point back. *)
Fixpoint chain (s : bcache) (p : nat) (l : list nat) (e : nat) : Prop :=
  match l with
  | [] => b_next (bufat p s) = e /\ b_prev (bufat e s) = p
  | x :: l => b_next (bufat p s) = x /\ b_prev (bufat x s) = p /\ chain s x l e
  end.

(** The list through [bcache.head] visits exactly the buffers [l], most
    recently used first. *)
Definition dll (s : bcache) (l : list nat) : Prop :=
  chain s BHEAD l BHEAD /\ l ≡ₚ seq 0 NBUF.

Lemma bufat_setb_eq i b s : (i < length (bufs s))%nat -> bufat i (setb i b s) = b.
Proof. intros. unfold bufat, setb; simpl. by apply list_lookup_total_insert_eq. Qed.
Lemma bufat_setb_ne i j b s : i <> j -> bufat j (setb i b s) = bufat j s.
Proof. intros. unfold bufat, setb; simpl. by apply list_lookup_total_insert_ne. Qed.
Lemma setb_setb i b b' s : setb i b (setb i b' s) = setb i b s.
Proof. unfold setb; simpl. by rewrite list_insert_insert_eq. Qed.
Lemma length_setb i b s : length (bufs (setb i b s)) = length (bufs s).
Proof. apply length_insert. Qed.

Lemma bufat_bupd i j f s : (i < length (bufs s))%nat ->
  bufat j (bupd i f s) = if decide (i = j) then f (bufat i s) else bufat j s.
Proof.
  intros. unfold bupd. case_decide; subst.
  - by apply bufat_setb_eq.
  - by apply bufat_setb_ne.
Qed.
Lemma length_bupd i f s : length (bufs (bupd i f s)) = length (bufs s).
Proof. apply length_insert. Qed.

Lemma chain_app s p l1 x l2 e :
  chain s p (l1 ++ x :: l2) e <-> chain s p l1 x /\ chain s x l2 e.
Proof. revert p; induction l1 as [|y l1 IH]; intros p; simpl; [|rewrite IH]; tauto. Qed.

Lemma chain_ext s s' p l e :
  (forall i, i ∈ p :: l -> b_next (bufat i s') = b_next (bufat i s)) ->
  (forall i, i ∈ l ++ [e] -> b_prev (bufat i s') = b_prev (bufat i s)) ->
  chain s p l e -> chain s' p l e.
Proof.
  revert p; induction l as [|x l IH]; intros p Hn Hp; simpl.
  - rewrite Hn, Hp by set_solver. done.
  - rewrite Hn, Hp by set_solver. intros (?&?&?); split_and!; [done..|].
    apply IH; [intros; apply Hn; set_solver|intros; apply Hp; set_solver|done].
Qed.

Lemma chain_last s p l e : chain s p l e -> b_prev (bufat e s) ∈ p :: l.
Proof.
  revert p; induction l as [|x l IH]; intros p; simpl.
  - intros [_ ->]. set_solver.
  - intros (_ & _ & H%IH). set_solver.
Qed.

Lemma chain_last_next s p l e : chain s p l e -> b_next (bufat (b_prev (bufat e s)) s) = e.
Proof.
  revert p; induction l as [|x l IH]; intros p; simpl.
  - by intros [? ->].
  - by intros (_ & _ & ?%IH).
Qed.

Ltac bup :=
  rewrite ?bufat_bupd by (rewrite ?length_bupd; done);
  repeat case_decide; simplify_eq/=; try done; try congruence.

Lemma chain_retarget s s' p l b y :
  chain s p l b -> NoDup (p :: l) ->
  (forall i, i ∈ p :: l -> i <> b_prev (bufat b s) ->
     b_next (bufat i s') = b_next (bufat i s)) ->
  b_next (bufat (b_prev (bufat b s)) s') = y ->
  (forall i, i ∈ l -> b_prev (bufat i s') = b_prev (bufat i s)) ->
  b_prev (bufat y s') = b_prev (bufat b s) ->
  chain s' p l y.
Proof.
  revert p; induction l as [|x l IH]; intros p Hc Hnd Hn Hq Hp Hy; simpl in *.
  { destruct Hc as [_ Hc]. by rewrite Hc in Hq, Hy. }
  destruct Hc as (H1 & H2 & Hc). apply NoDup_cons in Hnd as [Hpx Hnd].
  split_and!.
  - rewrite Hn; [done|set_solver|]. intros ->. apply chain_last in Hc. done.
  - rewrite Hp; [done|set_solver].
  - apply IH; try done; intros; [apply Hn|apply Hp]; set_solver.
Qed.

Section list_ops.
Context (s : bcache) (l1 l2 : list nat) (b : nat).
Context (Hnd : NoDup (BHEAD :: l1 ++ b :: l2)).
Context (Hlt : Forall (fun i => i < length (bufs s))%nat (BHEAD :: l1 ++ b :: l2)).

Lemma in_bounds i : i ∈ BHEAD :: l1 ++ b :: l2 -> (i < length (bufs s))%nat.
Proof. rewrite Forall_forall in Hlt. apply Hlt. Qed.

Lemma fresh_b : b ∉ BHEAD :: l1 ++ l2.
Proof.
  rewrite <- Permutation_middle, Permutation_swap in Hnd.
  by apply NoDup_cons in Hnd as [? _].
Qed.

Lemma nodup_rest : NoDup (BHEAD :: l1 ++ l2).
Proof.
  rewrite <- Permutation_middle, Permutation_swap in Hnd.
  by apply NoDup_cons in Hnd as [_ ?].
Qed.

Lemma chain_first q l e : chain s q l e -> b_next (bufat q s) ∈ l ++ [e].
Proof. destruct l; simpl; intros (-> & _); set_solver. Qed.

Lemma unlink_links :
  chain s BHEAD (l1 ++ b :: l2) BHEAD ->
  forall i, bufat i (unlink b s) =
    (if decide (i = b_prev (bufat b s)) then set_b_next (b_next (bufat b s)) else id)
    ((if decide (i = b_next (bufat b s)) then set_b_prev (b_prev (bufat b s)) else id)
    (bufat i s)).
Proof.
  intros [Hc1 Hc2]%chain_app i.
  pose proof (chain_last _ _ _ _ Hc1) as Hq. pose proof (chain_first _ _ _ Hc2) as Hy.
  assert (b_next (bufat b s) <> b).
  { intros E. rewrite E in Hy. pose proof fresh_b. set_solver. }
  assert (b_next (bufat b s) < length (bufs s))%nat by (apply in_bounds; set_solver).
  assert (b_prev (bufat b s) < length (bufs s))%nat by (apply in_bounds; set_solver).
  unfold unlink. cbv zeta.
  rewrite (bufat_bupd _ b), decide_False by done. bup.
Qed.

Lemma chain_unlink :
  chain s BHEAD (l1 ++ b :: l2) BHEAD -> chain (unlink b s) BHEAD (l1 ++ l2) BHEAD.
Proof.
  intros Hc. pose proof (unlink_links Hc) as Hl.
  apply chain_app in Hc as [Hc1 Hc2]. pose proof nodup_rest as Hr.
  pose proof (chain_last _ _ _ _ Hc1) as Hq.
  apply NoDup_cons in Hr as [Hh (Hn1 & Hd & Hn2)%NoDup_app].
  assert (chain (unlink b s) BHEAD l1 (b_next (bufat b s))) as Hc1'.
  { apply (chain_retarget s _ _ _ b); [done|apply NoDup_cons; set_solver|..].
    - intros i Hi Hne. rewrite Hl, decide_False by done. by case_decide.
    - by rewrite Hl, decide_True.
    - intros i Hi. rewrite Hl. pose proof (chain_first _ _ _ Hc2) as Hy.
      rewrite (decide_False (P:=i = b_next _)).
      + by case_decide.
      + intros ->. apply elem_of_app in Hy as [Hy|Hy%list_elem_of_singleton].
        * by apply (Hd _ Hi).
        * rewrite Hy in Hi. set_solver.
    - rewrite Hl, (decide_True (P:=b_next _ = b_next _)) by done. by case_decide. }
  destruct l2 as [|y l2']; simpl in Hc2.
  { destruct Hc2 as [Hy _]. rewrite Hy in Hc1'. by rewrite app_nil_r. }
  destruct Hc2 as (Hy & _ & Hc2). rewrite Hy in Hc1'. apply chain_app.
  split; [done|]. revert Hc2. apply chain_ext; intros i Hi; rewrite Hl, Hy.
  - rewrite (decide_False (P:=i = b_prev _)); [by case_decide|].
    intros ->. apply elem_of_cons in Hq as [Hq|Hq]; [rewrite Hq in Hi; set_solver|].
    by apply (Hd _ Hq).
  - rewrite (decide_False (P:=i = y)); [by case_decide|].
    intros ->. apply NoDup_cons in Hn2 as [? ?]. set_solver.
Qed.
End list_ops.

Lemma link_front_links s l b :
  chain s BHEAD l BHEAD -> b ∉ BHEAD :: l ->
  Forall (fun i => i < length (bufs s))%nat (b :: BHEAD :: l) ->
  forall i, bufat i (link_front b s) =
    (if decide (i = BHEAD) then set_b_next b else id)
    ((if decide (i = b_next (bufat BHEAD s)) then set_b_prev b else id)
    ((if decide (i = b) then fun x => set_b_prev BHEAD (set_b_next (b_next (bufat BHEAD s)) x)
      else id) (bufat i s))).
Proof.
  intros Hc Hb Hlt i. rewrite Forall_forall in Hlt.
  assert (b_next (bufat BHEAD s) ∈ l ++ [BHEAD]) as Hf
    by (destruct l; simpl in Hc; destruct Hc as [-> _]; set_solver).
  assert (b_next (bufat BHEAD s) < length (bufs s))%nat by (apply Hlt; set_solver).
  assert (BHEAD < length (bufs s))%nat by (apply Hlt; set_solver).
  assert (b < length (bufs s))%nat by (apply Hlt; set_solver).
  assert (b <> BHEAD) by set_solver.
  unfold link_front. cbv zeta. unfold id.
  assert (bufat BHEAD (bupd b (set_b_prev BHEAD)
            (bupd b (set_b_next (b_next (bufat BHEAD s))) s)) = bufat BHEAD s) as E.
  { rewrite !bufat_bupd, !decide_False by (rewrite ?length_bupd; done). done. }
  rewrite E. bup.
Qed.

Lemma chain_link_front s l b :
  chain s BHEAD l BHEAD -> NoDup (BHEAD :: b :: l) ->
  Forall (fun i => i < length (bufs s))%nat (b :: BHEAD :: l) ->
  chain (link_front b s) BHEAD (b :: l) BHEAD.
Proof.
  intros Hc Hnd Hlt.
  assert (b ∉ BHEAD :: l) as Hb
    by (rewrite Permutation_swap in Hnd; by apply NoDup_cons in Hnd as [? _]).
  pose proof (link_front_links s l b Hc Hb Hlt) as Hl.
  apply NoDup_cons in Hnd as [Hh Hnd]. apply NoDup_cons in Hnd as [_ Hnd].
  assert (b <> BHEAD) by set_solver.
  assert (b_next (bufat BHEAD (link_front b s)) = b) as E1 by (by rewrite Hl, decide_True).
  simpl. split_and!; [done|..].
  { rewrite Hl, decide_False, (decide_True (P:=b=b)) by done. case_decide; [|done].
    exfalso. destruct l; simpl in Hc; destruct Hc as [E _]; set_solver. }
  assert (b_next (bufat b (link_front b s)) = b_next (bufat BHEAD s)) as E2.
  { rewrite Hl, decide_False, (decide_True (P:=b=b)) by done. by case_decide. }
  assert (b_prev (bufat (b_next (bufat BHEAD s)) (link_front b s)) = b) as E3.
  { rewrite Hl, (decide_True (P:=b_next _ = b_next _)) by done. by case_decide. }
  destruct l as [|x l]; simpl in Hc |- *.
  { destruct Hc as [Hc _]. rewrite Hc in E2, E3. done. }
  destruct Hc as (Hx & _ & Hc). rewrite Hx in E2, E3. split_and!; [done..|].
  revert Hc. apply NoDup_cons in Hnd as [Hnx Hnd].
  apply chain_ext; intros i Hi; rewrite Hl, Hx.
  - assert (i <> BHEAD /\ i <> b) as [? ?]
      by (split; intros ->; clear -Hh Hb Hi; set_solver).
    rewrite (decide_False (P:=i = BHEAD)), (decide_False (P:=i = b)) by done.
    by case_decide.
  - assert (i <> x /\ i <> b) as [? ?]
      by (split; intros ->; clear -Hh Hb Hi Hnx; set_solver).
    rewrite (decide_False (P:=i = x)), (decide_False (P:=i = b)) by done.
    by case_decide.
Qed.

(** Traversals follow the list in its order. *)
Definition caches (s : bcache) (d n : Z) (i : nat) : bool :=
  (b_dev (bufat i s) =? d) && (b_blockno (bufat i s) =? n).
Definition unused (s : bcache) (i : nat) : bool :=
  (b_refcnt (bufat i s) =? 0) && (Z.land (b_flags (bufat i s)) B_DIRTY =? 0).

Lemma find_cached_chain s d n l : forall p fuel,
  chain s p l BHEAD -> BHEAD ∉ l -> (length l < fuel)%nat ->
  find_cached fuel (b_next (bufat p s)) d n s = Ret (List.find (caches s d n) l) s.
Proof.
  induction l as [|x l IH]; intros p fuel Hc Hh Hf;
    (destruct fuel as [|fuel]; simpl in Hf; [lia|]).
  - simpl. destruct Hc as [-> _]. by rewrite decide_True.
  - destruct Hc as (-> & _ & Hc). simpl find_cached.
    rewrite decide_False by set_solver. simpl List.find. unfold caches at 1.
    destruct (_ && _); [done|]. apply IH; [done|set_solver|lia].
Qed.

Lemma find_victim_chain s l : forall e fuel,
  chain s BHEAD l e -> BHEAD ∉ l -> (length l < fuel)%nat ->
  find_victim fuel (b_prev (bufat e s)) s = Ret (List.find (unused s) (reverse l)) s.
Proof.
  induction l as [|x l IH] using rev_ind; intros e fuel Hc Hh Hf;
    (destruct fuel as [|fuel]; [rewrite ?length_app in Hf; simpl in Hf; lia|]).
  - simpl. destruct Hc as [_ ->]. by rewrite decide_True.
  - apply chain_app in Hc as [Hc [_ ->]]. simpl find_victim.
    rewrite decide_False by set_solver. rewrite reverse_snoc. simpl List.find.
    unfold unused at 1. destruct (_ && _); [done|].
    rewrite length_app in Hf. simpl in Hf. apply IH; [done|set_solver|lia].
Qed.

(** *** Flags *)

Definition b_valid (b : buf) : bool := Z.testbit (b_flags b) 1.
Definition b_dirty (b : buf) : bool := Z.testbit (b_flags b) 2.

Lemma b_has_valid b : b_has b B_VALID = b_valid b.
Proof. apply (land_bit _ 1). done. Qed.
Lemma b_has_dirty b : b_has b B_DIRTY = b_dirty b.
Proof. apply (land_bit _ 2). done. Qed.
Lemma land_dirty b : (Z.land (b_flags b) B_DIRTY =? 0) = negb (b_dirty b).
Proof. rewrite <- b_has_dirty. unfold b_has. by rewrite negb_involutive. Qed.

Lemma nothing_to_do b :
  (Z.land (b_flags b) (Z.lor B_VALID B_DIRTY) =? B_VALID) = b_valid b && negb (b_dirty b).
Proof.
  change (Z.lor B_VALID B_DIRTY) with (Z.lor (2 ^ 1) (2 ^ 2)).
  unfold b_valid, b_dirty. set (f := b_flags b).
  assert (forall n, Z.testbit (Z.land f (Z.lor (2 ^ 1) (2 ^ 2))) n =
    (Z.testbit f n && ((1 =? n) || (2 =? n)))) as H.
  { intros n. by rewrite Z.land_spec, Z.lor_spec, !Z.pow2_bits_eqb. }
  destruct (Z.eqb_spec (Z.land f (Z.lor (2 ^ 1) (2 ^ 2))) B_VALID) as [E|E].
  - rewrite E in H. pose proof (H 1) as H1. pose proof (H 2) as H2.
    change ((1 =? 1) || (2 =? 1)) with true in H1. change ((1 =? 2) || (2 =? 2)) with true in H2.
    rewrite andb_true_r in H1, H2. by rewrite <- H1, <- H2.
  - destruct (Z.testbit f 1) eqn:E1, (Z.testbit f 2) eqn:E2; try done. exfalso. apply E.
    apply Z.bits_inj'. intros n _. rewrite H. change B_VALID with (2 ^ 1).
    rewrite Z.pow2_bits_eqb by done.
    destruct (Z.eqb_spec 1 n) as [<-|]; [by rewrite E1|].
    destruct (Z.eqb_spec 2 n) as [<-|]; [by rewrite E2|by rewrite andb_false_r].
Qed.

(** *** Invariant and abstraction *)

(** Every buffer is either never used, or caches a block of the disk; an
    unlocked clean buffer agrees with the disk. *)
Definition buf_ok (d : gmap Z (list Z)) (b : buf) : Prop :=
  (b_dev b = 0 /\ b_flags b = 0 /\ b_locked b = false /\ b_refcnt b = 0) \/
  (b_dev b = 1 /\ b_valid b = true /\ length (b_data b) = Z.to_nat BSIZE /\
   b_refcnt b = (if b_locked b then 1 else 0) /\
   exists blk, d !! b_blockno b = Some blk /\
     (b_locked b = false -> b_dirty b = false -> b_data b = blk)).

Record binv (s : bcache) : Prop := {
  bi_len : length (bufs s) = S NBUF;
  bi_list : exists l, dll s l;
  bi_buf : forall i, (i < NBUF)%nat -> buf_ok (disk s) (bufat i s);
  bi_uniq : forall i j, (i < NBUF)%nat -> (j < NBUF)%nat ->
    b_dev (bufat i s) = 1 -> b_dev (bufat j s) = 1 ->
    b_blockno (bufat i s) = b_blockno (bufat j s) -> i = j;
  bi_disk : map_Forall (fun _ d => length d = Z.to_nat BSIZE) (disk s);
}.

(** The blocks as a process sees them: a cached copy hides the disk. *)
Definition cached (s : bcache) (n : Z) : option (list Z) :=
  (fun i => b_data (bufat i s)) <$> List.find (caches s 1 n) (seq 0 NBUF).
Definition view (s : bcache) : gmap Z (list Z) :=
  map_imap (fun n d => Some (default d (cached s n))) (disk s).

(** The buffers held, with their block numbers. *)
Definition held (s : bcache) : gmap nat Z :=
  omap (fun b => if b_locked b then Some (b_blockno b) else None)
       (map_seq 0 (take NBUF (bufs s))).

(** Block [n] is pinned in the cache by [B_DIRTY]. *)
Definition dirty_block (s : bcache) (n : Z) : Prop :=
  exists i, (i < NBUF)%nat /\ b_dev (bufat i s) = 1 /\ b_dirty (bufat i s) = true /\
    b_blockno (bufat i s) = n.

Lemma caches_true s d n i :
  caches s d n i = true <-> b_dev (bufat i s) = d /\ b_blockno (bufat i s) = n.
Proof. unfold caches. rewrite andb_true_iff, !Z.eqb_eq. done. Qed.

Lemma cached_Some s i :
  binv s -> (i < NBUF)%nat -> b_dev (bufat i s) = 1 ->
  cached s (b_blockno (bufat i s)) = Some (b_data (bufat i s)).
Proof.
  intros Hi Hlt Hd. unfold cached. destruct (List.find _ _) as [j|] eqn:E.
  - apply List.find_some in E as [Hj E]. apply caches_true in E as [E1 E2].
    apply in_seq in Hj. by rewrite (bi_uniq _ Hi j i) by (lia || done).
  - pose proof (List.find_none _ _ E i) as H. rewrite in_seq in H.
    assert (caches s 1 (b_blockno (bufat i s)) i = false) as H' by (apply H; lia).
    apply not_true_iff_false in H'. rewrite caches_true in H'. tauto.
Qed.

Definition not_cached (s : bcache) (n : Z) : Prop :=
  forall i, (i < NBUF)%nat -> b_dev (bufat i s) = 1 -> b_blockno (bufat i s) <> n.

Lemma cached_None s n : not_cached s n -> cached s n = None.
Proof.
  intros H. unfold cached. destruct (List.find _ _) as [j|] eqn:E; [|done].
  apply List.find_some in E as [Hj [E1 E2]%caches_true]. apply in_seq in Hj.
  exfalso. apply (H j); [lia|done..].
Qed.

Lemma cached_dec s n :
  not_cached s n \/ exists i, (i < NBUF)%nat /\ b_dev (bufat i s) = 1 /\ b_blockno (bufat i s) = n.
Proof.
  destruct (List.find (caches s 1 n) (seq 0 NBUF)) as [j|] eqn:E.
  - right. apply List.find_some in E as [Hj%in_seq [E1 E2]%caches_true].
    exists j. split_and!; [lia|done..].
  - left. intros i Hi Hd Hn. pose proof (List.find_none _ _ E i) as H.
    rewrite in_seq in H. assert (caches s 1 n i = false) as H' by (apply H; lia).
    apply not_true_iff_false in H'. rewrite caches_true in H'. tauto.
Qed.

Lemma lookup_view s n : view s !! n = (fun d => default d (cached s n)) <$> disk s !! n.
Proof. unfold view. rewrite map_lookup_imap. by destruct (disk s !! n). Qed.

Lemma view_cached s i :
  binv s -> (i < NBUF)%nat -> b_dev (bufat i s) = 1 ->
  view s !! b_blockno (bufat i s) = Some (b_data (bufat i s)).
Proof.
  intros Hi Hlt Hd. rewrite lookup_view, cached_Some by done.
  destruct (bi_buf _ Hi i Hlt) as [(? & _)|(_ & _ & _ & _ & blk & -> & _)]; [lia|done].
Qed.

Lemma view_not_cached s n : not_cached s n -> view s !! n = disk s !! n.
Proof. intros H. rewrite lookup_view, cached_None by done. by destruct (disk s !! n). Qed.

Lemma view_length s n b : binv s -> view s !! n = Some b -> length b = Z.to_nat BSIZE.
Proof.
  intros Hi Hb. destruct (cached_dec s n) as [Hn|(i & Hlt & Hd & <-)].
  - rewrite view_not_cached in Hb by done. by apply (bi_disk _ Hi) in Hb.
  - rewrite view_cached in Hb by done. injection Hb as <-.
    destruct (bi_buf _ Hi i Hlt) as [(? & _)|(_ & _ & ? & _)]; [lia|done].
Qed.

Lemma dom_view s : dom (view s) = dom (disk s).
Proof.
  apply set_eq. intros n. rewrite !elem_of_dom, lookup_view, fmap_is_Some. done.
Qed.

Lemma lookup_held s i : length (bufs s) = S NBUF ->
  held s !! i = if decide (i < NBUF)%nat then
    (if b_locked (bufat i s) then Some (b_blockno (bufat i s)) else None) else None.
Proof.
  intros Hl. unfold held. rewrite lookup_omap, lookup_map_seq_0.
  case_decide as Hi.
  - rewrite lookup_take_lt by done.
    by rewrite (list_lookup_lookup_total_lt (bufs s) i) by (rewrite Hl; lia).
  - by rewrite lookup_take_ge by lia.
Qed.

Lemma held_Some s i n : length (bufs s) = S NBUF ->
  held s !! i = Some n <->
  (i < NBUF)%nat /\ b_locked (bufat i s) = true /\ b_blockno (bufat i s) = n.
Proof.
  intros Hl. rewrite lookup_held by done.
  case_decide; [destruct (b_locked _)|]; naive_solver.
Qed.

(** A change of one buffer that keeps it linked where it is. *)
Record set_buf (i : nat) (b : buf) (s s' : bcache) : Prop := {
  sb_lt : (i < NBUF)%nat;
  sb_bufs : bufs s' = <[i := b]> (bufs s);
  sb_prev : b_prev b = b_prev (bufat i s);
  sb_next : b_next b = b_next (bufat i s);
}.

Lemma bufat_set_buf i b s s' j : length (bufs s) = S NBUF -> set_buf i b s s' ->
  bufat j s' = if decide (i = j) then b else bufat j s.
Proof.
  intros Hl H. unfold bufat. rewrite (sb_bufs _ _ _ _ H). pose proof (sb_lt _ _ _ _ H).
  case_decide as E; [subst j; apply list_lookup_total_insert_eq; rewrite Hl; lia|].
  by apply list_lookup_total_insert_ne.
Qed.

Lemma dll_ext s s' l :
  (forall j, b_next (bufat j s') = b_next (bufat j s) /\ b_prev (bufat j s') = b_prev (bufat j s)) ->
  dll s l -> dll s' l.
Proof.
  intros H [Hc Hp]. split; [|done]. revert Hc.
  apply chain_ext; intros i _; apply H.
Qed.

Lemma set_buf_links i b s s' : length (bufs s) = S NBUF -> set_buf i b s s' ->
  forall j, b_next (bufat j s') = b_next (bufat j s) /\ b_prev (bufat j s') = b_prev (bufat j s).
Proof.
  intros Hl H j. rewrite (bufat_set_buf i b s s') by done. case_decide; [subst|done].
  split; [apply (sb_next _ _ _ _ H)|apply (sb_prev _ _ _ _ H)].
Qed.

Lemma binv_set_buf i b s s' :
  binv s -> set_buf i b s s' -> buf_ok (disk s') b ->
  (forall j, (j < NBUF)%nat -> j <> i -> buf_ok (disk s') (bufat j s)) ->
  (forall j, (j < NBUF)%nat -> j <> i -> b_dev b = 1 -> b_dev (bufat j s) = 1 ->
     b_blockno (bufat j s) <> b_blockno b) ->
  map_Forall (fun _ d => length d = Z.to_nat BSIZE) (disk s') ->
  binv s'.
Proof.
  intros Hi H Hok Hoth Huq Hd. pose proof (bi_len _ Hi) as Hl.
  pose proof (fun j => bufat_set_buf i b s s' j Hl H) as Hb. split.
  - rewrite (sb_bufs _ _ _ _ H), length_insert. apply Hl.
  - destruct (bi_list _ Hi) as [l Hdl]. exists l.
    revert Hdl. apply dll_ext. by apply (set_buf_links i b).
  - intros j Hj. rewrite Hb. case_decide; [done|by apply Hoth].
  - intros j k Hj Hk. rewrite !Hb. intros Hdj Hdk Hn.
    repeat case_decide; subst; [done|..].
    + exfalso. by apply (Huq k).
    + exfalso. by apply (Huq j).
    + by apply (bi_uniq _ Hi).
  - done.
Qed.

Lemma held_set_buf i b s s' :
  length (bufs s) = S NBUF -> set_buf i b s s' ->
  held s' = if b_locked b then <[i := b_blockno b]> (held s) else delete i (held s).
Proof.
  intros Hl H. apply map_eq. intros j. pose proof (sb_lt _ _ _ _ H) as Hi.
  rewrite lookup_held by (rewrite (sb_bufs _ _ _ _ H), length_insert; done).
  rewrite (bufat_set_buf i b s s' j) by done.
  destruct (decide (i = j)) as [<-|Hne].
  - rewrite decide_True by done.
    destruct (b_locked b); [by rewrite lookup_insert_eq|by rewrite lookup_delete_eq].
  - destruct (b_locked b);
      [rewrite lookup_insert_ne by done|rewrite lookup_delete_ne by done];
      by rewrite lookup_held.
Qed.

(** The view is determined by the cached copies and the uncached blocks. *)
Lemma view_char s (v : gmap Z (list Z)) :
  binv s ->
  (forall i, (i < NBUF)%nat -> b_dev (bufat i s) = 1 ->
     v !! b_blockno (bufat i s) = Some (b_data (bufat i s))) ->
  (forall n, not_cached s n -> v !! n = disk s !! n) ->
  view s = v.
Proof.
  intros Hi H1 H2. apply map_eq. intros n.
  destruct (cached_dec s n) as [Hn|(i & Hlt & Hd & <-)].
  - by rewrite view_not_cached, H2.
  - by rewrite view_cached, H1.
Qed.

Lemma run_find_cached s d n :
  binv s -> exists l, dll s l /\
    find_cached (S NBUF) (b_next (bufat BHEAD s)) d n s = Ret (List.find (caches s d n) l) s.
Proof.
  intros Hi. destruct (bi_list _ Hi) as [l [Hc Hp]]. exists l. split; [done|].
  apply find_cached_chain; [done|rewrite Hp, elem_of_seq; unfold BHEAD; lia|].
  rewrite Hp, length_seq. lia.
Qed.

Lemma run_find_victim s :
  binv s -> exists l, dll s l /\
    find_victim (S NBUF) (b_prev (bufat BHEAD s)) s = Ret (List.find (unused s) (reverse l)) s.
Proof.
  intros Hi. destruct (bi_list _ Hi) as [l [Hc Hp]]. exists l. split; [done|].
  apply find_victim_chain; [done|rewrite Hp, elem_of_seq; unfold BHEAD; lia|].
  rewrite Hp, length_seq. lia.
Qed.

Lemma dll_elem s l i : dll s l -> In i l <-> (i < NBUF)%nat.
Proof. intros [_ Hp]. rewrite <- list_elem_of_In, Hp, elem_of_seq. lia. Qed.

Lemma bget_hit s n i :
  binv s -> (i < NBUF)%nat -> b_dev (bufat i s) = 1 -> b_blockno (bufat i s) = n ->
  b_locked (bufat i s) = false ->
  bget 1 n s = Ret i (setb i (set_b_locked true (set_b_refcnt 1 (bufat i s))) s).
Proof.
  intros Hi Hlt Hd Hn Hk. unfold bget, bind, gets.
  destruct (run_find_cached s 1 n Hi) as (l & Hl & ->).
  destruct (List.find _ l) as [j|] eqn:E.
  2: { pose proof (List.find_none _ _ E i) as H. rewrite (dll_elem s l i Hl) in H.
       assert (caches s 1 n i = false) as H' by (by apply H).
       apply not_true_iff_false in H'. rewrite caches_true in H'. tauto. }
  apply List.find_some in E as [Hj%(dll_elem s l j Hl) [E1 E2]%caches_true].
  assert (j = i) as -> by (apply (bi_uniq _ Hi); [done..|congruence]).
  unfold modify, b_acquiresleep, bind, gets.
  assert (i < length (bufs s))%nat by (rewrite (bi_len _ Hi); lia).
  destruct (bi_buf _ Hi i Hlt) as [(? & _)|(_ & _ & _ & Hr & _)]; [lia|].
  rewrite Hk in Hr. unfold bupd at 1. rewrite bufat_setb_eq by done. simpl. rewrite Hk.
  unfold modify, ret, bupd. rewrite setb_setb, bufat_setb_eq, Hr by done. done.
Qed.

Lemma bread_hit s n i :
  binv s -> (i < NBUF)%nat -> b_dev (bufat i s) = 1 -> b_blockno (bufat i s) = n ->
  b_locked (bufat i s) = false ->
  bread 1 n s = Ret i (setb i (set_b_locked true (set_b_refcnt 1 (bufat i s))) s).
Proof.
  intros Hi Hlt Hd Hn Hk. unfold bread.
  rewrite (bind_Ret _ _ _ _ _ (bget_hit s n i Hi Hlt Hd Hn Hk)).
  unfold bind, gets. assert (i < length (bufs s))%nat by (rewrite (bi_len _ Hi); lia).
  rewrite bufat_setb_eq, b_has_valid by done.
  destruct (bi_buf _ Hi i Hlt) as [(? & _)|(_ & Hv & _)]; [lia|].
  unfold b_valid in *. simpl. by rewrite Hv.
Qed.

(** The buffer a miss takes: the least recently used one that is unused. *)
Lemma bget_miss s n :
  binv s -> not_cached s n -> (exists i, (i < NBUF)%nat /\ unused s i = true) ->
  exists l i, dll s l /\ List.find (unused s) (reverse l) = Some i /\
    (i < NBUF)%nat /\ unused s i = true /\
    bget 1 n s = Ret i (setb i (Buf 0 1 n true 1 (b_prev (bufat i s)) (b_next (bufat i s))
                                   (b_data (bufat i s))) s).
Proof.
  intros Hi Hn (k & Hk & Hu). unfold bget, bind, gets.
  destruct (run_find_cached s 1 n Hi) as (l & Hl & ->).
  destruct (List.find _ l) as [j|] eqn:E.
  { apply List.find_some in E as [Hj%(dll_elem s l j Hl) [E1 E2]%caches_true].
    exfalso. by apply (Hn j). }
  clear E l Hl. destruct (run_find_victim s Hi) as (l & Hl & ->).
  destruct (List.find _ _) as [i|] eqn:E.
  2: { pose proof (List.find_none _ _ E k) as H.
       rewrite <- list_elem_of_In, elem_of_reverse, list_elem_of_In, (dll_elem s l k Hl) in H.
       rewrite H in Hu; done. }
  exists l, i. pose proof E as [Hj Hui]%List.find_some.
  rewrite <- list_elem_of_In, elem_of_reverse, list_elem_of_In, (dll_elem s l i Hl) in Hj.
  split_and!; [done..|].
  assert (i < length (bufs s))%nat by (rewrite (bi_len _ Hi); lia).
  unfold modify, b_acquiresleep, bind, gets, bupd.
  rewrite !setb_setb, !bufat_setb_eq by (rewrite ?length_setb; done). simpl.
  assert (b_locked (bufat i s) = false) as ->; [|unfold modify, ret, bupd; by rewrite !setb_setb, ?bufat_setb_eq by (rewrite ?length_setb; done)].
  unfold unused in Hui. apply andb_prop in Hui as [Hr%Z.eqb_eq _].
  destruct (bi_buf _ Hi i Hj) as [(_ & _ & ? & _)|(_ & _ & _ & Hr' & _)]; [done|].
  by destruct (b_locked _); [lia|].
Qed.

Lemma iderw_read s i blk :
  (i < length (bufs s))%nat -> b_locked (bufat i s) = true -> b_dev (bufat i s) = 1 ->
  b_valid (bufat i s) = false -> b_dirty (bufat i s) = false ->
  disk s !! b_blockno (bufat i s) = Some blk ->
  iderw i s = Ret tt (setb i (set_b_flags (Z.lor (b_flags (bufat i s)) B_VALID)
                                 (set_b_data blk (bufat i s))) s).
Proof.
  intros Hi Hl Hd Hv Hdy Hb. unfold iderw, b_holdingsleep. krun.
  rewrite Hl. krun. rewrite nothing_to_do, Hv, Hd, Z.eqb_refl. krun. rewrite Hb, b_has_dirty, Hdy.
  unfold bupd. by rewrite setb_setb, !bufat_setb_eq.
Qed.

Lemma iderw_write s i blk :
  (i < length (bufs s))%nat -> b_locked (bufat i s) = true -> b_dev (bufat i s) = 1 ->
  b_dirty (bufat i s) = true ->
  disk s !! b_blockno (bufat i s) = Some blk ->
  iderw i s = Ret tt
    (Bcache (<[i := set_b_flags (Z.lor (Z.ldiff (b_flags (bufat i s)) B_DIRTY) B_VALID)
                       (bufat i s)]> (bufs s))
       (<[b_blockno (bufat i s) := b_data (bufat i s)]> (disk s))
       (writes s ++ [(b_blockno (bufat i s), b_data (bufat i s))])).
Proof.
  intros Hi Hl Hd Hdy Hb. unfold iderw, b_holdingsleep. krun.
  rewrite Hl. krun. rewrite nothing_to_do, Hdy, Hd, Z.eqb_refl. rewrite andb_false_r. krun.
  rewrite Hb, b_has_dirty, Hdy.
  unfold bupd, setb, bufat; simpl.
  rewrite list_lookup_total_insert_eq, list_insert_insert_eq by done. done.
Qed.

Lemma bread_miss s n blk :
  binv s -> not_cached s n -> (exists i, (i < NBUF)%nat /\ unused s i = true) ->
  disk s !! n = Some blk ->
  exists l i, dll s l /\ List.find (unused s) (reverse l) = Some i /\
    (i < NBUF)%nat /\ unused s i = true /\
    bread 1 n s = Ret i (setb i (Buf B_VALID 1 n true 1 (b_prev (bufat i s))
                                    (b_next (bufat i s)) blk) s).
Proof.
  intros Hi Hn Hu Hblk. destruct (bget_miss s n Hi Hn Hu) as (l & i & Hl & Hf & Hlt & Hui & E).
  exists l, i. split_and!; [done..|]. unfold bread. rewrite (bind_Ret _ _ _ _ _ E).
  assert (i < length (bufs s))%nat by (rewrite (bi_len _ Hi); lia).
  unfold bind at 1, gets at 1. rewrite bufat_setb_eq by done. cbn [b_has b_flags].
  change (negb (Z.land 0 B_VALID =? 0)) with false. cbv iota.
  erewrite bind_Ret.
  2: { apply iderw_read with (blk := blk); rewrite ?length_setb, ?bufat_setb_eq by done; done. }
  unfold ret. rewrite setb_setb, bufat_setb_eq by done. done.
Qed.

(** *** Specifications *)

(** What an operation on one buffer leaves alone. *)
Definition bframe (s s' : bcache) : Prop :=
  disk s' = disk s /\ writes s' = writes s /\
  forall n, dirty_block s' n <-> dirty_block s n.

Definition slot (s : bcache) : Prop := exists i, (i < NBUF)%nat /\ unused s i = true.

Definition dirty_as (b : buf) (n : Z) : Prop :=
  b_dev b = 1 /\ b_dirty b = true /\ b_blockno b = n.

Lemma dirty_block_set_buf i b s s' n :
  length (bufs s) = S NBUF -> set_buf i b s s' ->
  dirty_block s' n <->
  dirty_as b n \/ exists j, (j < NBUF)%nat /\ j <> i /\ dirty_as (bufat j s) n.
Proof.
  intros Hl H. pose proof (fun j => bufat_set_buf i b s s' j Hl H) as Hb.
  pose proof (sb_lt _ _ _ _ H) as Hi. unfold dirty_block, dirty_as. split.
  - intros (j & Hj & Hd). rewrite Hb in Hd. case_decide; [by left|]. right. by exists j.
  - intros [Hd|(j & Hj & Hne & Hd)].
    + exists i. by rewrite Hb, decide_True.
    + exists j. by rewrite Hb, decide_False.
Qed.

Lemma dirty_block_same i b s s' :
  length (bufs s) = S NBUF -> set_buf i b s s' ->
  (forall n, dirty_as b n <-> dirty_as (bufat i s) n) ->
  forall n, dirty_block s' n <-> dirty_block s n.
Proof.
  intros Hl H Hs n. rewrite (dirty_block_set_buf i b s s') by done. rewrite Hs.
  unfold dirty_block, dirty_as. split.
  - intros [?|(j & ? & ? & ?)]; [exists i|by exists j].
    split; [apply (sb_lt _ _ _ _ H)|done].
  - intros (j & ? & ?). destruct (decide (j = i)) as [->|]; [by left|].
    right. by exists j.
Qed.

Lemma set_buf_setb i b s :
  (i < NBUF)%nat -> b_prev b = b_prev (bufat i s) -> b_next b = b_next (bufat i s) ->
  set_buf i b s (setb i b s).
Proof. by split. Qed.

Lemma unused_clean s i blk :
  binv s -> (i < NBUF)%nat -> unused s i = true ->
  b_locked (bufat i s) = false /\ b_dirty (bufat i s) = false /\
  (b_dev (bufat i s) = 1 -> disk s !! b_blockno (bufat i s) = Some blk ->
   b_data (bufat i s) = blk).
Proof.
  intros Hi Hlt [Hr%Z.eqb_eq Hf]%andb_prop. rewrite land_dirty in Hf.
  apply negb_true_iff in Hf.
  destruct (bi_buf _ Hi i Hlt) as [(?&?&?&?)|(?&?&?&Hr'&blk'&Hb&Hc)].
  - split_and!; [done..|lia].
  - assert (b_locked (bufat i s) = false) as Hk by (destruct (b_locked _); [lia|done]).
    split_and!; [done..|]. intros _ E. rewrite Hb in E. injection E as <-. by apply Hc.
Qed.

Lemma bread_miss_state s n blk i :
  binv s -> not_cached s n -> disk s !! n = Some blk ->
  (i < NBUF)%nat -> unused s i = true ->
  let s' := setb i (Buf B_VALID 1 n true 1 (b_prev (bufat i s)) (b_next (bufat i s)) blk) s in
  binv s' /\ bframe s s' /\ view s' = view s /\
  held s !! i = None /\ held s' = <[i := n]> (held s).
Proof.
  intros Hi Hnc Hblk Hlt Hu s'. pose proof (bi_len _ Hi) as Hlen. subst s'.
  set (b := Buf _ _ _ _ _ _ _ _).
  destruct (unused_clean s i inhabitant Hi Hlt Hu) as (Hk & Hdy & _).
  pose proof (set_buf_setb i b s Hlt eq_refl eq_refl) as Hsb.
  assert (binv (setb i b s)) as Hi'.
  { apply (binv_set_buf i b s); [done|done|..].
    - right. split_and!; [done|done|by apply (bi_disk _ Hi n)|done|]. by exists blk.
    - intros j Hj _. apply (bi_buf _ Hi j Hj).
    - intros j Hj _ _. by apply Hnc.
    - apply (bi_disk _ Hi). }
  split_and!; [done|..|].
  - split_and!; [done..|]. apply (dirty_block_same i b); [done..|].
    intros m. unfold dirty_as. rewrite Hdy. split; by intros (_ & [=] & _).
  - apply view_char; [done|..].
    + intros j Hj. rewrite (bufat_set_buf i b s _ j Hlen Hsb). case_decide.
      * intros _. simpl. by rewrite view_not_cached.
      * intros Hdj. by apply view_cached.
    + intros m Hm. change (disk (setb i b s)) with (disk s).
      destruct (cached_dec s m) as [|(j & Hj & Hdj & <-)]; [by apply view_not_cached|].
      rewrite view_cached by done. destruct (decide (j = i)) as [->|Hne].
      * destruct (bi_buf _ Hi i Hlt) as [[? _]|(_ & _ & _ & _ & blk' & Hb' & Hc)]; [lia|].
        rewrite Hb'. by rewrite Hc.
      * exfalso. apply (Hm j Hj);
          rewrite (bufat_set_buf i b s _ j Hlen Hsb), decide_False by done; done.
  - rewrite lookup_held by done. by rewrite decide_True, Hk.
  - by rewrite (held_set_buf i b s) by done.
Qed.

(** A change of a cached buffer that keeps the block it caches. *)
Lemma keep_ident i b s :
  binv s -> (i < NBUF)%nat -> b_dev (bufat i s) = 1 ->
  b_prev b = b_prev (bufat i s) -> b_next b = b_next (bufat i s) ->
  b_dev b = 1 -> b_blockno b = b_blockno (bufat i s) -> b_valid b = true ->
  length (b_data b) = Z.to_nat BSIZE -> b_refcnt b = (if b_locked b then 1 else 0) ->
  (b_locked b = false -> b_dirty b = false ->
   disk s !! b_blockno b = Some (b_data b)) ->
  binv (setb i b s) /\ view (setb i b s) = <[b_blockno b := b_data b]> (view s).
Proof.
  intros Hi Hlt Hd Hp Hx Hd' Hn Hv Hlen' Hr Hc. pose proof (bi_len _ Hi) as Hlen.
  pose proof (set_buf_setb i b s Hlt Hp Hx) as Hsb.
  destruct (bi_buf _ Hi i Hlt) as [[? _]|(_ & _ & _ & _ & blk & Hb & _)]; [lia|].
  assert (binv (setb i b s)) as Hi'.
  { apply (binv_set_buf i b s); [done|done|..].
    - right. split_and!; [done..|]. exists blk. rewrite Hn. split; [done|].
      intros Hk Hy. specialize (Hc Hk Hy). rewrite Hn, Hb in Hc. by injection Hc.
    - intros j Hj _. apply (bi_buf _ Hi j Hj).
    - intros j Hj Hne _ Hdj E. apply Hne. apply (bi_uniq _ Hi); [done..|congruence].
    - apply (bi_disk _ Hi). }
  split; [done|]. apply view_char; [done|..].
  - intros j Hj. rewrite (bufat_set_buf i b s _ j Hlen Hsb). case_decide as Hij.
    + intros _. by rewrite lookup_insert_eq.
    + intros Hdj. rewrite lookup_insert_ne; [by apply view_cached|].
      intros E. apply Hij. apply (bi_uniq _ Hi); [done..|congruence].
  - intros m Hm. change (disk (setb i b s)) with (disk s).
    assert (not_cached s m) as Hm'.
    { intros j Hj Hdj. specialize (Hm j Hj).
      rewrite (bufat_set_buf i b s _ j Hlen Hsb) in Hm. case_decide; [subst j|]; [|by apply Hm].
      rewrite <- Hn. by apply Hm. }
    rewrite lookup_insert_ne; [by apply view_not_cached|].
    rewrite Hn. by apply Hm'.
Qed.

Lemma held_inv s i n :
  binv s -> held s !! i = Some n ->
  (i < NBUF)%nat /\ b_locked (bufat i s) = true /\ b_blockno (bufat i s) = n /\
  b_dev (bufat i s) = 1 /\ b_valid (bufat i s) = true /\ b_refcnt (bufat i s) = 1 /\
  length (b_data (bufat i s)) = Z.to_nat BSIZE /\
  (exists blk, disk s !! n = Some blk) /\ view s !! n = Some (b_data (bufat i s)).
Proof.
  intros Hi H. apply held_Some in H as (Hlt & Hk & Hn); [|apply (bi_len _ Hi)].
  destruct (bi_buf _ Hi i Hlt) as [(_ & _ & ? & _)|(Hd & Hv & Hl & Hr & blk & Hb & _)];
    [congruence|].
  rewrite Hk in Hr. rewrite <- Hn. split_and!; try done; [by exists blk|].
  by apply view_cached.
Qed.

Lemma bread_spec s n :
  binv s -> n ∈ dom (disk s) -> (forall i, held s !! i <> Some n) ->
  (not_cached s n -> slot s) ->
  wp (bread 1 n)
     (fun i s' => binv s' /\ bframe s s' /\ view s' = view s /\
        held s !! i = None /\ held s' = <[i := n]> (held s)) s.
Proof.
  intros Hi Hn Hh Hs. pose proof (bi_len _ Hi) as Hlen.
  destruct (cached_dec s n) as [Hnc|(i & Hlt & Hd & Hbn)].
  - apply elem_of_dom in Hn as [blk Hblk].
    destruct (bread_miss s n blk Hi Hnc (Hs Hnc) Hblk) as (l & i & _ & _ & Hlt & Hu & E).
    eapply wp_intro; [apply E|]. by apply bread_miss_state.
  - assert (b_locked (bufat i s) = false) as Hk.
    { apply not_true_is_false. intros Hk. apply (Hh i). by apply held_Some. }
    eapply wp_intro; [by apply bread_hit|]. set (b := set_b_locked _ _).
    pose proof (set_buf_setb i b s Hlt eq_refl eq_refl) as Hsb.
    destruct (bi_buf _ Hi i Hlt) as [[? _]|(_ & Hv & Hlen' & _ & blk & Hb & Hc)]; [lia|].
    destruct (keep_ident i b s) as [Hi' Hview]; [done..|].
    split_and!; [done|..|].
    + split_and!; [done..|]. by apply (dirty_block_same i b).
    + rewrite Hview. apply insert_id. by apply view_cached.
    + rewrite lookup_held by done. by rewrite decide_True, Hk.
    + rewrite (held_set_buf i b s) by done. simpl. by rewrite Hbn.
Qed.

(** Modification of [b->data] by the holder. *)
Lemma bset_spec s i n d :
  binv s -> held s !! i = Some n -> length d = Z.to_nat BSIZE ->
  wp (bset i d) (fun _ s' => binv s' /\ bframe s s' /\
     view s' = <[n := d]> (view s) /\ held s' = held s) s.
Proof.
  intros Hi Hh Hd. pose proof (bi_len _ Hi) as Hlen.
  destruct (held_inv s i n Hi Hh) as (Hlt & Hk & Hn & Hdev & Hv & Hr & Hl & _).
  apply wp_modify. unfold bupd. set (b := set_b_data d _).
  pose proof (set_buf_setb i b s Hlt eq_refl eq_refl) as Hsb.
  destruct (keep_ident i b s) as [Hi' Hview]; try done; simpl; rewrite ?Hk; try done.
  split_and!; [done|..].
  - split_and!; [done..|]. by apply (dirty_block_same i b).
  - rewrite Hview. simpl. by rewrite Hn.
  - rewrite (held_set_buf i b s) by done. simpl. rewrite Hk, Hn. by apply insert_id.
Qed.

Lemma bdata_spec s i n :
  binv s -> held s !! i = Some n ->
  wp (bdata i) (fun d s' => s' = s /\ view s !! n = Some d /\ length d = Z.to_nat BSIZE) s.
Proof.
  intros Hi Hh. apply wp_gets.
  destruct (held_inv s i n Hi Hh) as (_ & _ & _ & _ & _ & _ & Hl & _ & Hv). done.
Qed.

Lemma pin_spec s i n :
  binv s -> held s !! i = Some n ->
  wp (pin i) (fun _ s' => binv s' /\ disk s' = disk s /\ writes s' = writes s /\
     view s' = view s /\ held s' = held s /\
     forall m, dirty_block s' m <-> m = n \/ dirty_block s m) s.
Proof.
  intros Hi Hh. pose proof (bi_len _ Hi) as Hlen.
  destruct (held_inv s i n Hi Hh) as (Hlt & Hk & Hn & Hdev & Hv & Hr & Hl & _ & Hview0).
  apply wp_modify. unfold bupd. set (b := set_b_flags _ _).
  pose proof (set_buf_setb i b s Hlt eq_refl eq_refl) as Hsb.
  assert (b_dirty b = true) as Hbd.
  { unfold b_dirty. simpl. by rewrite Z.lor_spec, orb_true_r. }
  destruct (keep_ident i b s) as [Hi' Hview]; try done; simpl; rewrite ?Hk; try done.
  { unfold b_valid. simpl. rewrite Z.lor_spec. unfold b_valid in Hv. by rewrite Hv. }
  split_and!; [done..| | |].
  - rewrite Hview. simpl. rewrite Hn. by apply insert_id.
  - rewrite (held_set_buf i b s) by done. simpl. rewrite Hk, Hn. by apply insert_id.
  - intros m. rewrite (dirty_block_set_buf i b s) by done. unfold dirty_as.
    change (b_dev b) with (b_dev (bufat i s)).
    change (b_blockno b) with (b_blockno (bufat i s)). rewrite Hdev, Hbd, Hn. split.
    + intros [(_ & _ & ->)|(j & Hj & _ & Hd)]; [by left|right; by exists j].
    + intros [->|(j & Hj & Hd)]; [by left|].
      destruct (decide (j = i)) as [->|]; [|right; by exists j].
      left. destruct Hd as (_ & _ & <-). by rewrite Hn.
Qed.

Lemma bwrite_spec s i n d :
  binv s -> held s !! i = Some n -> view s !! n = Some d ->
  wp (bwrite i) (fun _ s' => binv s' /\ disk s' = <[n := d]> (disk s) /\
     writes s' = writes s ++ [(n, d)] /\ view s' = view s /\ held s' = held s /\
     forall m, dirty_block s' m <-> m <> n /\ dirty_block s m) s.
Proof.
  intros Hi Hh Hvd. pose proof (bi_len _ Hi) as Hlen.
  destruct (held_inv s i n Hi Hh) as (Hlt & Hk & Hn & Hdev & Hv & Hr & Hl & (blk & Hb) & Hview0).
  rewrite Hview0 in Hvd. injection Hvd as <-.
  assert (i < length (bufs s))%nat as Hli by (rewrite Hlen; lia).
  eapply wp_intro.
  { unfold bwrite, b_holdingsleep. krun. rewrite Hk. krun. unfold bupd.
    apply (iderw_write _ i blk); rewrite ?length_setb, ?bufat_setb_eq by done; try done.
    - unfold b_dirty. simpl. by rewrite Z.lor_spec, orb_true_r.
    - simpl. by rewrite Hn. }
  rewrite bufat_setb_eq by done. simpl. rewrite list_insert_insert_eq, Hn.
  set (b := set_b_flags _ _). set (s' := Bcache _ _ _).
  assert (set_buf i b s s') as Hsb by done.
  assert (b_valid b = true /\ b_dirty b = false) as [Hbv Hbd].
  { unfold b_valid, b_dirty, b in *. simpl.
    rewrite !Z.lor_spec, !Z.ldiff_spec, !Z.lor_spec, Hv. split; [done|].
    by rewrite orb_true_r. }
  assert (forall j, (j < NBUF)%nat -> j <> i -> b_dev (bufat j s) = 1 ->
            b_blockno (bufat j s) <> n) as Hoth.
  { intros j Hj Hne Hdj E. apply Hne. apply (bi_uniq _ Hi); [done..|congruence]. }
  assert (binv s') as Hi'.
  { apply (binv_set_buf i b s); [done|done|..].
    - right. split_and!; [done|done|done|simpl; by rewrite Hk, Hr|]. simpl. rewrite Hn, lookup_insert_eq.
      by eexists.
    - intros j Hj Hne. destruct (bi_buf _ Hi j Hj) as [?|(Hdj & ? & ? & ? & blk' & Hb' & ?)];
        [by left|right].
      split_and!; [done..|]. exists blk'. simpl. rewrite lookup_insert_ne; [done|].
      intros E. by apply (Hoth j).
    - intros j Hj Hne _ Hdj. simpl. rewrite Hn. by apply Hoth.
    - simpl. apply map_Forall_insert_2; [done|apply (bi_disk _ Hi)]. }
  split_and!; [done..| | |].
  - apply view_char; [done|..].
    + intros j Hj. rewrite (bufat_set_buf i b s s' j) by done.
      case_decide; [subst j|]; intros Hdj; by apply view_cached.
    + intros m Hm. simpl.
      assert (m <> n).
      { intros ->. apply (Hm i Hlt); rewrite (bufat_set_buf i b s s' i), decide_True by done; done. }
      rewrite lookup_insert_ne by done. apply view_not_cached. intros j Hj Hdj.
      specialize (Hm j Hj). rewrite (bufat_set_buf i b s s' j) in Hm by done.
      case_decide; [subst j|]; by apply Hm.
  - rewrite (held_set_buf i b s) by done. simpl. rewrite Hk, Hn. by apply insert_id.
  - intros m. rewrite (dirty_block_set_buf i b s) by done. unfold dirty_as. rewrite Hbd. split.
    + intros [(_ & [=] & _)|(j & Hj & Hne & Hd & Hy & <-)].
      split; [by apply Hoth|by exists j].
    + intros [Hne (j & Hj & Hd & Hy & Hm)]. right. exists j. split_and!; [done| |done..].
      intros ->. by rewrite Hn in Hm.
Qed.

(** Two states that differ in the links only. *)
Definition relinked (b b' : buf) : Prop :=
  exists p n, b' = set_b_prev p (set_b_next n b).

Definition same_content (s s' : bcache) : Prop :=
  length (bufs s') = length (bufs s) /\ disk s' = disk s /\ writes s' = writes s /\
  forall j, relinked (bufat j s) (bufat j s').

Lemma relinked_refl b : relinked b b.
Proof. exists (b_prev b), (b_next b). by destruct b. Qed.
Lemma relinked_prev b b' p : relinked b b' -> relinked b (set_b_prev p b').
Proof. intros (q & n & ->). by exists p, n. Qed.
Lemma relinked_next b b' n : relinked b b' -> relinked b (set_b_next n b').
Proof. intros (p & q & ->). by exists p, n. Qed.
#[local] Hint Resolve relinked_refl relinked_prev relinked_next : core.

Lemma same_content_facts s s' :
  binv s -> same_content s s' -> (exists l, dll s' l) ->
  binv s' /\ bframe s s' /\ view s' = view s /\ held s' = held s.
Proof.
  intros Hi (Hl & Hd & Hw & Hb) Hdl. pose proof (bi_len _ Hi) as Hlen.
  assert (binv s') as Hi'.
  { split; [congruence|done|..|rewrite Hd; apply (bi_disk _ Hi)].
    - intros i Hlt. rewrite Hd. destruct (Hb i) as (? & ? & ->). exact (bi_buf _ Hi i Hlt).
    - intros i j Hlt Hltj. destruct (Hb i) as (? & ? & ->), (Hb j) as (? & ? & ->).
      exact (bi_uniq _ Hi i j Hlt Hltj). }
  split_and!; [done|..].
  - split_and!; [done..|]. intros n. unfold dirty_block. split; intros (i & ? & H); exists i;
      (destruct (Hb i) as (? & ? & E); rewrite E in *; done).
  - apply view_char; [done|..].
    + intros i Hlt. destruct (Hb i) as (? & ? & ->). simpl. by apply view_cached.
    + intros n Hn. rewrite Hd. apply view_not_cached. intros i Hlt Hdi.
      specialize (Hn i Hlt). destruct (Hb i) as (? & ? & E). rewrite E in Hn. by apply Hn.
  - apply map_eq. intros i. rewrite !lookup_held by congruence.
    destruct (Hb i) as (? & ? & ->). done.
Qed.

(** Moving a buffer to the front of the list. *)
Lemma move_front s i l :
  binv s -> (i < NBUF)%nat -> dll s l ->
  exists l1 l2, l = l1 ++ i :: l2 /\
    same_content s (link_front i (unlink i s)) /\
    dll (link_front i (unlink i s)) (i :: l1 ++ l2).
Proof.
  intros Hi Hlt [Hc Hp]. pose proof (bi_len _ Hi) as Hlen.
  assert (i ∈ l) as (l1 & l2 & ->)%list_elem_of_split by (rewrite Hp, elem_of_seq; lia).
  exists l1, l2. split; [done|].
  assert (NoDup (BHEAD :: l1 ++ i :: l2)) as Hnd.
  { apply NoDup_cons. rewrite Hp. split; [rewrite elem_of_seq; unfold BHEAD; lia|].
    apply NoDup_seq. }
  assert (Forall (fun i => i < length (bufs s))%nat (BHEAD :: l1 ++ i :: l2)) as Hlts.
  { apply Forall_cons. rewrite Hp, Hlen. split; [unfold BHEAD; lia|].
    apply Forall_seq. lia. }
  pose proof (unlink_links s l1 l2 i Hnd Hlts Hc) as Hu.
  pose proof (chain_unlink s l1 l2 i Hnd Hlts Hc) as Hc'.
  assert (length (bufs (unlink i s)) = length (bufs s)) as Hlu
    by (unfold unlink; by rewrite !length_bupd).
  assert (NoDup (BHEAD :: i :: l1 ++ l2)) as Hnd' by (by rewrite (Permutation_middle l1)).
  assert (Forall (fun k => k < length (bufs (unlink i s)))%nat (i :: BHEAD :: l1 ++ l2)) as Hlts'.
  { rewrite Hlu, Permutation_swap, (Permutation_middle l1). done. }
  assert (i ∉ BHEAD :: l1 ++ l2) as Hni
    by (rewrite Permutation_swap in Hnd'; by apply NoDup_cons in Hnd' as [? _]).
  pose proof (link_front_links _ _ i Hc' Hni Hlts') as Hf.
  split; split_and!.
  - unfold link_front. by rewrite !length_bupd.
  - done.
  - done.
  - intros j. rewrite Hf.
    assert (relinked (bufat j s) (bufat j (unlink i s))).
    { rewrite Hu. unfold id. repeat case_decide; auto. }
    unfold id. repeat case_decide; auto.
  - by apply chain_link_front.
  - by rewrite (Permutation_middle l1).
Qed.

Lemma brelse_unlocked s i n :
  binv s -> held s !! i = Some n ->
  brelse i s = Ret tt (link_front i (unlink i
    (setb i (set_b_refcnt 0 (set_b_locked false (bufat i s))) s))).
Proof.
  intros Hi Hh. destruct (held_inv s i n Hi Hh) as (Hlt & Hk & _ & _ & _ & Hr & _).
  assert (i < length (bufs s))%nat as Hli by (rewrite (bi_len _ Hi); lia).
  unfold brelse, b_holdingsleep, b_releasesleep. krun. rewrite Hk. krun.
  unfold bupd at 1. rewrite bufat_setb_eq by (unfold bupd; rewrite ?length_setb; done).
  unfold bupd. rewrite setb_setb, bufat_setb_eq by done. simpl. rewrite Hr.
  change (u32 (1 - 1)) with 0. rewrite Z.eqb_refl. done.
Qed.

(** Releasing a buffer whose changes have been logged, or that has none. *)
Lemma brelse_spec s i n :
  binv s -> held s !! i = Some n ->
  (dirty_block s n \/ view s !! n = disk s !! n) ->
  wp (brelse i) (fun _ s' => binv s' /\ bframe s s' /\ view s' = view s /\
     held s' = delete i (held s)) s.
Proof.
  intros Hi Hh Hc. pose proof (bi_len _ Hi) as Hlen.
  eapply wp_intro; [by eapply brelse_unlocked|].
  destruct (held_inv s i n Hi Hh) as (Hlt & Hk & Hn & Hdev & Hv & Hr & Hl & (blk & Hb) & Hview0).
  set (b := set_b_refcnt _ _).
  pose proof (set_buf_setb i b s Hlt eq_refl eq_refl) as Hsb.
  destruct (keep_ident i b s) as [Hi' Hview]; try done.
  { intros _ Hd. simpl. rewrite Hn, <- Hview0. destruct Hc as [(j & Hj & Hdj & Hyj & E)|Hc]; [|done].
    assert (j = i) as -> by (apply (bi_uniq _ Hi); [done..|congruence]).
    exfalso. unfold b_dirty, b in *. simpl in Hd. congruence. }
  destruct (bi_list _ Hi') as [l Hdl].
  destruct (move_front _ i l Hi' Hlt Hdl) as (l1 & l2 & _ & Hsc & Hdl').
  destruct (same_content_facts _ _ Hi' Hsc) as (Hi2 & (Hd2 & Hw2 & Hy2) & Hv2 & Hh2); [by eexists|].
  split_and!; [done|..].
  - split_and!; [done..|]. intros m. rewrite Hy2. by apply (dirty_block_same i b).
  - rewrite Hv2, Hview. simpl. rewrite Hn. by apply insert_id.
  - by rewrite Hh2, (held_set_buf i b s) by done.
Qed.

(** An unused buffer exists while the held and the pinned blocks are few. *)
Lemma slot_count s (L : list Z) :
  binv s -> (forall n, dirty_block s n -> n ∈ L) ->
  (length L + size (held s) < NBUF)%nat -> slot s.
Proof.
  intros Hi HL Hc. pose proof (bi_len _ Hi) as Hlen.
  destruct (List.find (unused s) (seq 0 NBUF)) as [i|] eqn:E.
  { apply List.find_some in E as [Hin%in_seq Hu]. exists i. split; [lia|done]. }
  exfalso. pose proof (fun i => List.find_none _ _ E i) as Hno.
  assert (forall i, (i < NBUF)%nat -> b_dev (bufat i s) = 1 /\
    (b_dirty (bufat i s) = true \/ b_locked (bufat i s) = true)) as Hbusy.
  { intros i Hlt. assert (unused s i = false) as Hu by (apply Hno, in_seq; lia).
    unfold unused in Hu. rewrite land_dirty in Hu.
    destruct (bi_buf _ Hi i Hlt) as [(Hd & Hf & _ & Hr)|(Hd & _ & _ & Hr & _)].
    - unfold b_dirty in Hu. by rewrite Hr, Hf in Hu.
    - split; [done|]. rewrite Hr in Hu. destruct (b_locked _), (b_dirty _); tauto || done. }
  assert (((fun i => b_blockno (bufat i s)) <$> seq 0 NBUF) ⊆+ L ++ (map_to_list (held s)).*2)
    as Hsub%submseteq_length.
  { apply NoDup_submseteq.
    - apply NoDup_fmap_2_strong; [|apply NoDup_seq]. intros i j Hin Hjn Hij.
      rewrite elem_of_seq in Hin, Hjn.
      destruct (Hbusy i), (Hbusy j); try lia. apply (bi_uniq _ Hi); (lia || done).
    - intros n (i & -> & Hin)%list_elem_of_fmap. rewrite elem_of_seq in Hin.
      destruct (Hbusy i) as [Hd [Hy|Hk]]; [lia|apply elem_of_app; left; apply HL|].
      + exists i. split_and!; [lia|done..].
      + apply elem_of_app; right. apply list_elem_of_fmap.
        exists (i, b_blockno (bufat i s)). split; [done|]. apply elem_of_map_to_list.
        apply held_Some; [done|]. split_and!; [lia|done..]. }
  rewrite length_fmap, length_seq, length_app, length_fmap, length_map_to_list in Hsub. lia.
Qed.

(** [binit] builds the list with the buffers in decreasing order, all unused. *)
Lemma bufs_link_front b s s' :
  bufs s = bufs s' -> bufs (link_front b s) = bufs (link_front b s').
Proof. destruct s, s'; simpl; intros ->; reflexivity. Qed.

Lemma bufs_foldl_link l : forall s s',
  bufs s = bufs s' ->
  bufs (foldl (fun s b => link_front b s) s l) = bufs (foldl (fun s b => link_front b s) s' l) /\
  disk (foldl (fun s b => link_front b s) s l) = disk s /\
  writes (foldl (fun s b => link_front b s) s l) = writes s.
Proof.
  induction l as [|b l IH]; intros s s' H; simpl; [done|].
  destruct (IH (link_front b s) (link_front b s')) as (? & ? & ?); [by apply bufs_link_front|].
  done.
Qed.

Definition binit0 : bcache := Eval vm_compute in binit ∅.

Lemma binit_bufs i :
  (i < NBUF)%nat -> b_dev (bufat i binit0) = 0 /\ b_flags (bufat i binit0) = 0 /\
    b_locked (bufat i binit0) = false /\ b_refcnt (bufat i binit0) = 0.
Proof.
  intros Hi. unfold bufat.
  assert (Forall (fun b => b_dev b = 0 /\ b_flags b = 0 /\ b_locked b = false /\ b_refcnt b = 0)
            (bufs binit0)) as H by (repeat constructor).
  rewrite Forall_lookup_total in H. apply H.
  change (length (bufs binit0)) with (S NBUF). lia.
Qed.

Lemma binit_chain : chain binit0 BHEAD (reverse (seq 0 NBUF)) BHEAD.
Proof. vm_compute. repeat split. Qed.

Lemma binit_spec d :
  map_Forall (fun _ d => length d = Z.to_nat BSIZE) d ->
  binv (binit d) /\ dll (binit d) (reverse (seq 0 NBUF)) /\ view (binit d) = d /\
  disk (binit d) = d /\ writes (binit d) = [] /\
  held (binit d) = ∅ /\ forall n, ~ dirty_block (binit d) n.
Proof.
  intros Hd.
  assert (bufs (binit d) = bufs binit0 /\ disk (binit d) = d /\ writes (binit d) = []) as (Eb & Ed & Ew).
  { replace binit0 with (binit ∅) by (vm_compute; reflexivity).
    unfold binit. cbv zeta. by apply bufs_foldl_link. }
  assert (forall i, bufat i (binit d) = bufat i binit0) as Hb by (intros; unfold bufat; by rewrite Eb).
  assert (dll (binit d) (reverse (seq 0 NBUF))) as Hdl.
  { split; [|apply reverse_Permutation].
    apply (chain_ext binit0); [intros; by rewrite Hb..|apply binit_chain]. }
  assert (binv (binit d)) as Hi.
  { split; [by rewrite Eb|by eexists|..|by rewrite Ed].
    - intros i Hi. rewrite Hb. left. by apply binit_bufs.
    - intros i j Hi Hj. rewrite !Hb. destruct (binit_bufs i Hi) as [-> _]. lia. }
  split_and!; [done|done|..|done|done| |].
  - apply view_char; [done|..|by rewrite Ed]. intros i Hlt. rewrite Hb.
    destruct (binit_bufs i Hlt) as [-> _]. lia.
  - apply map_eq. intros i. rewrite lookup_held, lookup_empty by (by rewrite Eb).
    case_decide; [|done]. rewrite Hb. by destruct (binit_bufs i) as (_ & _ & -> & _).
  - intros n (i & Hlt & H & _). rewrite Hb in H. destruct (binit_bufs i Hlt). lia.
Qed.
