(* ===== verification/Ide.v ===== *)
(** The IDE driver (ide.c): a queue of buffers, threaded through [qnext], whose
    head is the request the disk is working on.

    [iderw] is cut where it sleeps: [iderw_queue] is the part before the loop
    and [iderw_wait] one test of its condition. [id_woken] and [id_irqs]
    record the calls of [wakeup] and [ioapicenable]. The lock [idelock] makes
    each part a critical section (SpinLock.v).

    The theorems relate the driver, on every disk with the contract of
    Ports.v, to a plain queue of requests that are served in order, and show
    that a request on an idle disk has the effect of the memory disk's
    [iderw], on which the buffer cache is verified (Bio.v). *)

From S2P Require Import Prelude Params Ports Bio.

Definition SECTOR_SIZE : Z := 512.
Definition IDE_BSY : Z := 0x80.
Definition IDE_DRDY : Z := 0x40.
Definition IDE_DF : Z := 0x20.
Definition IDE_ERR : Z := 0x01.
Definition IDE_CMD_READ : Z := 0x20.
Definition IDE_CMD_WRITE : Z := 0x30.
Definition IDE_CMD_RDMUL : Z := 0xc4.
Definition IDE_CMD_WRMUL : Z := 0xc5.

Section ide_c.
Context {D : Type} `{!Ports D}.
(** How often a loop that waits for the disk may read the status, and the
    number of processors. *)
Context (fuel : nat) (ncpu : Z).

Record ide := Ide {
  id_bufs : list buf;
  id_qnext : list (option nat);   (* b->qnext *)
  id_queue : option nat;          (* idequeue *)
  id_havedisk1 : bool;
  id_woken : list nat;
  id_irqs : list (Z * Z);
  id_dev : D;
}.

Definition set_id_bufs (v : list buf) (s : ide) : ide :=
  Ide v (id_qnext s) (id_queue s) (id_havedisk1 s) (id_woken s) (id_irqs s) (id_dev s).
Definition set_id_qnext (v : list (option nat)) (s : ide) : ide :=
  Ide (id_bufs s) v (id_queue s) (id_havedisk1 s) (id_woken s) (id_irqs s) (id_dev s).
Definition set_id_queue (v : option nat) (s : ide) : ide :=
  Ide (id_bufs s) (id_qnext s) v (id_havedisk1 s) (id_woken s) (id_irqs s) (id_dev s).
Definition set_id_havedisk1 (v : bool) (s : ide) : ide :=
  Ide (id_bufs s) (id_qnext s) (id_queue s) v (id_woken s) (id_irqs s) (id_dev s).
Definition id_wakeup (b : nat) (s : ide) : ide :=
  Ide (id_bufs s) (id_qnext s) (id_queue s) (id_havedisk1 s) (id_woken s ++ [b]) (id_irqs s) (id_dev s).
Definition id_ioapicenable (irq cpu : Z) (s : ide) : ide :=
  Ide (id_bufs s) (id_qnext s) (id_queue s) (id_havedisk1 s) (id_woken s) (id_irqs s ++ [(irq, cpu)]) (id_dev s).
Definition set_id_dev (v : D) (s : ide) : ide :=
  Ide (id_bufs s) (id_qnext s) (id_queue s) (id_havedisk1 s) (id_woken s) (id_irqs s) v.

Definition on_dev {A} (m : M D A) : M ide A :=
  fun s => match m (id_dev s) with Ret a d => Ret a (set_id_dev d s) | Fail e => Fail e end.
Definition ibuf (b : nat) (s : ide) : buf := id_bufs s !!! b.
Definition ibupd (b : nat) (f : buf -> buf) : M ide unit :=
  modify (fun s => set_id_bufs (<[b := f (ibuf b s)]> (id_bufs s)) s).

(** Wait for IDE disk to become ready. *)
Fixpoint wait_ready (n : nat) : M D Z :=
  match n with
  | O => fail NoFuel
  | S n =>
    let! r := inb 0x1f7 in
    if Z.land r (Z.lor IDE_BSY IDE_DRDY) =? IDE_DRDY then ret r else wait_ready n
  end.
Definition idewait (checkerr : bool) : M D Z :=
  let! r := wait_ready fuel in
  if checkerr && negb (Z.land r (Z.lor IDE_DF IDE_ERR) =? 0) then ret (-1) else ret 0.

Definition ideinit : M ide unit :=
  modify (id_ioapicenable IRQ_IDE (ncpu - 1));;;
  let! _ := on_dev (idewait false) in
  on_dev (outb 0x1f6 (Z.lor 0xe0 (Z.shiftl 1 4)));;;
  let! found := for_find 1000 (fun _ =>
    let! r := on_dev (inb 0x1f7) in
    ret (if r =? 0 then None else Some tt)) in
  (match found with Some _ => modify (set_id_havedisk1 true) | None => ret tt end);;;
  on_dev (outb 0x1f6 (Z.lor 0xe0 (Z.shiftl 0 4))).

(** Start the request for b. *)
Definition idestart (b : option nat) : M ide unit :=
  match b with
  | None => panic "idestart"
  | Some b =>
    let! x := gets (ibuf b) in
    panic_if (FSSIZE <=? b_blockno x) "incorrect blockno";;;
    let sector_per_block := BSIZE / SECTOR_SIZE in
    let sector := i32 (b_blockno x * sector_per_block) in
    let read_cmd := if sector_per_block =? 1 then IDE_CMD_READ else IDE_CMD_RDMUL in
    let write_cmd := if sector_per_block =? 1 then IDE_CMD_WRITE else IDE_CMD_WRMUL in
    panic_if (7 <? sector_per_block) "idestart";;;
    let! _ := on_dev (idewait false) in
    on_dev (outb 0x3f6 0);;;
    on_dev (outb 0x1f2 sector_per_block);;;
    on_dev (outb 0x1f3 (Z.land sector 0xff));;;
    on_dev (outb 0x1f4 (Z.land (Z.shiftr sector 8) 0xff));;;
    on_dev (outb 0x1f5 (Z.land (Z.shiftr sector 16) 0xff));;;
    on_dev (outb 0x1f6 (Z.lor (Z.lor 0xe0 (Z.shiftl (Z.land (b_dev x) 1) 4)) (Z.land (Z.shiftr sector 24) 0x0f)));;;
    if b_has x B_DIRTY then
      on_dev (outb 0x1f7 write_cmd);;;
      on_dev (outsl 0x1f0 (b_data x) (Z.to_nat (BSIZE / 4)))
    else on_dev (outb 0x1f7 read_cmd)
  end.

(** Interrupt handler. *)
Definition ideintr : M ide unit :=
  let! q := gets id_queue in
  match q with
  | None => ret tt
  | Some b =>
    let! nxt := gets (fun s => id_qnext s !!! b) in
    modify (set_id_queue nxt);;;
    let! x := gets (ibuf b) in
    (if negb (b_has x B_DIRTY) then
       let! r := on_dev (idewait true) in
       if 0 <=? r then
         let! l := on_dev (insl 0x1f0 (Z.to_nat (BSIZE / 4))) in
         ibupd b (set_b_data l)
       else ret tt
     else ret tt);;;
    ibupd b (fun x => set_b_flags (Z.lor (b_flags x) B_VALID) x);;;
    ibupd b (fun x => set_b_flags (Z.ldiff (b_flags x) B_DIRTY) x);;;
    modify (id_wakeup b);;;
    let! q := gets id_queue in
    match q with Some b => idestart (Some b) | None => ret tt end
  end.

(** The loop over the queue for the last link [pp]: [None] is [&idequeue] and
    [Some b] is [&b->qnext]. *)
Definition deref (pp : option nat) (s : ide) : option nat :=
  match pp with None => id_queue s | Some b => id_qnext s !!! b end.
Definition assign (pp : option nat) (v : option nat) (s : ide) : ide :=
  match pp with
  | None => set_id_queue v s
  | Some b => set_id_qnext (<[b := v]> (id_qnext s)) s
  end.
Fixpoint queue_end (n : nat) (pp : option nat) : M ide (option nat) :=
  match n with
  | O => fail NoFuel
  | S n =>
    let! p := gets (deref pp) in
    match p with None => ret pp | Some b => queue_end n (Some b) end
  end.

(** Sync buf with disk, up to the loop ... *)
Definition iderw_queue (b : nat) : M ide unit :=
  let! x := gets (ibuf b) in
  panic_if (negb (b_locked x)) "iderw: buf not locked";;;
  panic_if (Z.land (b_flags x) (Z.lor B_VALID B_DIRTY) =? B_VALID) "iderw: nothing to do";;;
  let! have := gets id_havedisk1 in
  panic_if (negb (b_dev x =? 0) && negb have) "iderw: ide disk 1 not present";;;
  modify (fun s => set_id_qnext (<[b := None]> (id_qnext s)) s);;;
  let! bufs := gets id_bufs in
  let! pp := queue_end (S (length bufs)) None in
  modify (assign pp (Some b));;;
  let! q := gets id_queue in
  if decide (q = Some b) then idestart (Some b) else ret tt.

(** ... one test of the loop: [Block] where it sleeps ... *)
Definition iderw_wait (b : nat) : M ide unit :=
  let! x := gets (ibuf b) in
  if Z.land (b_flags x) (Z.lor B_VALID B_DIRTY) =? B_VALID then ret tt else fail Block.

(** ... and both. *)
Definition iderw (b : nat) : M ide unit := iderw_queue b;;; iderw_wait b.
End ide_c.
Arguments ide : clear implicits.
#[local] Arguments idestart : simpl never.
#[local] Arguments idewait : simpl never.
#[local] Arguments insl : simpl never.
#[local] Arguments outsl : simpl never.

(** ** The device side *)

Section driver.
Context {D : Type} `{!Ports D} {delay : nat} `{!AtaDisk D delay} (fuel : nat) (Hfuel : (delay < fuel)%nat).
Implicit Types (d : D) (s : ide D).

Lemma wp_on_dev {A} (m : M D A) (Q : A -> ide D -> Prop) d s :
  wp m (fun a d' => Q a (set_id_dev d' s)) d -> wp (on_dev m) Q (set_id_dev d s).
Proof. unfold wp, on_dev. cbn. by destruct (m d). Qed.
Lemma wp_on_dev_start {A} (m : M D A) (Q : A -> ide D -> Prop) s :
  wp m (fun a d' => Q a (set_id_dev d' s)) (id_dev s) -> wp (on_dev m) Q s.
Proof. unfold wp, on_dev. by destruct (m (id_dev s)). Qed.

Lemma wait_ready_spec n d : (a_busy (ata_of d) < n)%nat ->
  wp (wait_ready n) (fun r d' => (Z.land r 0x21 =? 0) = negb (a_err (ata_of d)) /\ ata_of d' = set_busy 0 (ata_of d)) d.
Proof.
  revert d. induction n as [|n IH]; intros d Hb; [lia|]. simpl. apply wp_bind. eapply wp_status.
  - intros r d' E Hr He Hd'. change (Z.lor IDE_BSY IDE_DRDY) with 0xc0. change IDE_DRDY with 0x40. rewrite Hr. apply wp_ret. split; [done|]. rewrite Hd'.
    destruct (ata_of d). simpl in *. by subst.
  - intros r d' k E Hr Hd'. change (Z.lor IDE_BSY IDE_DRDY) with 0xc0. change IDE_DRDY with 0x40. rewrite (proj2 (Z.eqb_neq _ _) Hr).
    eapply wp_mono; [apply IH; rewrite Hd'; simpl; lia|]. rewrite Hd'. done.
Qed.
Lemma idewait_spec chk d : (a_busy (ata_of d) <= delay)%nat ->
  wp (idewait fuel chk) (fun r d' => r = (if chk && a_err (ata_of d) then -1 else 0) /\ ata_of d' = set_busy 0 (ata_of d)) d.
Proof.
  intros Hb. apply wp_bind. eapply wp_mono; [apply wait_ready_spec; lia|]. intros r d' [Hr Hd'].
  change (Z.lor IDE_DF IDE_ERR) with 0x21. rewrite Hr. rewrite negb_involutive. by destruct (_ && _); apply wp_ret.
Qed.

(** A request the disk can serve. *)
Record request_ok (bad : Z -> Z -> bool) (have : bool) (x : buf) : Prop := {
  rq_locked : b_locked x = true;
  rq_flags : Z.land (b_flags x) (Z.lor B_VALID B_DIRTY) <> B_VALID;
  rq_dev : b_dev x = 0 \/ have = true;
  rq_block : 0 <= b_blockno x < FSSIZE;
  rq_good : bad (b_dev x mod 2) (b_blockno x) = false;
  rq_data : length (b_data x) = 512%nat /\ Forall is_u8 (b_data x);
}.

(** The registers [idestart] sets. *)
Lemma land_ff z : Z.land z 0xff = z mod 256.
Proof. change 0xff with (Z.ones 8). by rewrite Z.land_ones. Qed.
Lemma drive_reg dev n : 0 <= n < FSSIZE ->
  let r := u8 (Z.lor (Z.lor 0xe0 (Z.shiftl (Z.land dev 1) 4)) (Z.land (Z.shiftr n 24) 0x0f)) in
  r / 16 mod 2 = dev mod 2 /\ r mod 16 = 0 /\ r / 64 mod 2 = 1.
Proof.
  intros Hn. unfold FSSIZE in Hn. rewrite Z.shiftr_div_pow2 by lia. rewrite (Z.div_small n) by (change (2 ^ 24) with 16777216; lia).
  change 1 with (Z.ones 1). rewrite Z.land_ones by lia. change (2 ^ 1) with 2.
  assert (dev mod 2 = 0 \/ dev mod 2 = 1) as [->| ->] by dlia; done.
Qed.
Lemma lba_regs n : 0 <= n < FSSIZE ->
  u8 (Z.land n 0xff) + 256 * u8 (Z.land (Z.shiftr n 8) 0xff) + 65536 * u8 (Z.land (Z.shiftr n 16) 0xff) = n.
Proof.
  intros Hn. unfold FSSIZE in Hn. rewrite !land_ff, !Z.shiftr_div_pow2 by lia. change (2 ^ 8) with 256. change (2 ^ 16) with 65536. dlia.
Qed.

(** The device after [idestart] of a request. *)
Definition started (x : buf) (a a' : ata) : Prop :=
  a_bad a' = a_bad a /\ (a_busy a' <= delay)%nat /\ a_err a' = false /\
  if b_has x B_DIRTY
  then a_disk a' = set_sector (b_dev x mod 2) (b_blockno x) (b_data x) (a_disk a) /\ a_xfer a' = NoXfer
  else a_disk a' = a_disk a /\ a_xfer a' = Reading (a_disk a (b_dev x mod 2) (b_blockno x)).

Lemma command_spec x d : request_ok (a_bad (ata_of d)) true x -> (a_busy (ata_of d) = 0)%nat -> a_ready (ata_of d) ->
  a_drive (ata_of d) = b_dev x mod 2 -> a_lba (ata_of d) = b_blockno x ->
  wp (if b_has x B_DIRTY then outb 0x1f7 IDE_CMD_WRITE;;; outsl 0x1f0 (b_data x) 128 else outb 0x1f7 IDE_CMD_READ)
    (fun _ d' => started x (ata_of d) (ata_of d')) d.
Proof.
  intros [_ _ _ _ Hbad [Hl Hu]] Hb Hr Hdr Hlba. unfold started. destruct (b_has x B_DIRTY).
  - apply wp_bind, wp_modify. change (u8 IDE_CMD_WRITE) with 0x30. pose proof (ata_write d Hr) as E.
    eapply wp_mono; [apply (outsl_sector 128 (b_data x) _ (a_drive (ata_of d)) (a_lba (ata_of d)) []); try done; by rewrite E|].
    intros [] d' (busy & Hbusy & ->). rewrite E. simpl. by rewrite Hdr, Hlba.
  - apply wp_modify. change (u8 IDE_CMD_READ) with 0x20. destruct (ata_read d Hr) as (n & Hn & ->). unfold a_read. simpl.
    by rewrite Hdr, Hlba, Hbad.
Qed.

Lemma idestart_spec b s : let x := ibuf b s in let a := ata_of (id_dev s) in
  request_ok (a_bad a) (id_havedisk1 s) x -> (a_busy a <= delay)%nat ->
  wp (idestart fuel (Some b)) (fun _ s' => exists d, s' = set_id_dev d s /\ started x a (ata_of d)) s.
Proof.
  intros x a Hx Hb. pose proof (rq_block _ _ _ Hx) as Hn. unfold idestart. apply wp_bind, wp_gets. fold x.
  apply wp_bind, wp_panic_if; [unfold FSSIZE in *; lia|]. change (BSIZE / SECTOR_SIZE) with 1. cbv zeta.
  rewrite Z.mul_1_r, i32_small by (unfold FSSIZE in Hn; lia). apply wp_bind, wp_panic_if; [done|].
  apply wp_bind, wp_on_dev_start. eapply wp_mono; [by apply idewait_spec|].
  intros r d0 [_ E0]. apply wp_bind, wp_on_dev, wp_modify. change (u8 0) with 0.
  assert (E1 : ata_of (port_out 0x3f6 0 d0) = set_busy 0 a) by (by rewrite ata_control).
  set (d1 := port_out 0x3f6 0 d0) in *. clearbody d1. clear d0 E0.
  do 5 (apply wp_bind, wp_on_dev; eapply wp_latch; [lia|by rewrite ?E1|]; intros d2 E2; rewrite E1 in E2; clear d1 E1; rename d2 into d1, E2 into E1).
  destruct (drive_reg (b_dev x) (b_blockno x) Hn) as (H1 & H2 & H3). pose proof (lba_regs _ Hn) as H4.
  assert (C : wp (if b_has x B_DIRTY then outb 0x1f7 IDE_CMD_WRITE;;; outsl 0x1f0 (b_data x) 128 else outb 0x1f7 IDE_CMD_READ)
    (fun _ d' => started x (ata_of d1) (ata_of d')) d1).
  { apply command_spec; rewrite E1; cbn.
    - destruct Hx as [? ? ? ? ? ?]. constructor; try done. by right.
    - done.
    - split_and!; [done|done|exact H3].
    - exact H1.
    - unfold a_lba. cbn. rewrite H2. lia. }
  change (Z.to_nat (BSIZE / 4)) with 128%nat. change (1 =? 1) with true. cbv iota. rewrite E1 in C.
  destruct (b_has x B_DIRTY) eqn:Ed.
  - apply wp_bind, wp_on_dev. apply wp_elim in C as ([] & d2 & E & C). apply bind_inv in E as ([] & d3 & E3 & E).
    eapply wp_intro; [exact E3|]. apply wp_on_dev. eapply wp_intro; [exact E|]. exists d2. split; [done|]. unfold started in *. by rewrite Ed in *.
  - apply wp_on_dev. eapply wp_mono; [exact C|]. intros [] d2 C'. exists d2. split; [done|]. unfold started in *. by rewrite Ed in *.
Qed.

(** ** The queue *)

(** The buffers the queue holds, from the link [p] on. *)
Fixpoint qpath (p : option nat) (qn : list (option nat)) (l : list nat) : Prop :=
  match l with
  | [] => p = None
  | b :: l => p = Some b /\ (b < length qn)%nat /\ qpath (qn !!! b) qn l
  end.

Lemma qpath_insert_ne p qn l b v : (b ∉ l) -> qpath p qn l -> qpath p (<[b := v]> qn) l.
Proof.
  revert p. induction l as [|c l IH]; intros p Hb; simpl; [done|]. intros (-> & Hc & Hp). split_and!; [done|by rewrite length_insert|].
  rewrite list_lookup_total_insert_ne by set_solver. apply IH; [set_solver|done].
Qed.

Lemma queue_end_spec n : forall l pp s, qpath (deref pp s) (id_qnext s) l -> (length l < n)%nat ->
  wp (queue_end n pp) (fun r s' => s' = s /\ r = match last l with Some b => Some b | None => pp end) s.
Proof.
  induction n as [|n IH]; intros l pp s Hl Hn; [lia|]. cbn [queue_end]. apply wp_bind, wp_gets.
  destruct l as [|b l]; cbn [qpath length] in *; [rewrite Hl; by apply wp_ret|]. destruct Hl as (-> & Hb & Hl).
  eapply wp_mono; [apply (IH l); [done|lia]|]. intros r s' [-> ->]. split; [done|]. rewrite last_cons. by destruct (last l).
Qed.

Lemma qpath_snoc l : forall p qn x b, qpath p qn (l ++ [x]) -> (x ∉ l) -> b <> x -> (b ∉ l) -> (b < length qn)%nat -> qn !!! b = None ->
  qpath p (<[x := Some b]> qn) (l ++ [x; b]).
Proof.
  induction l as [|c l IH]; intros p qn x b; simpl.
  - intros (-> & Hx & _) _ Hbx _ Hb Hn. rewrite length_insert, list_lookup_total_insert_eq by done.
    split_and!; try done. by rewrite list_lookup_total_insert_ne by done.
  - intros (-> & Hc & Hp) Hx Hbx Hbl Hb Hn. rewrite length_insert. split_and!; [done|done|].
    rewrite list_lookup_total_insert_ne by set_solver. apply IH; try done; set_solver.
Qed.

(** ** The requests as a queue that is served in order *)

Record adisk := ADisk {
  ad_bufs : list buf;
  ad_disk : Z -> Z -> list Z;
  ad_queue : list nat;
  ad_done : list nat;
}.

Definition done_flags (f : Z) : Z := Z.ldiff (Z.lor f B_VALID) B_DIRTY.
(** Buffer [b], the first of the queue, and the disk are made equal. *)
Definition serve (b : nat) (q : list nat) (a : adisk) : adisk :=
  let x := ad_bufs a !!! b in
  let k := b_dev x mod 2 in
  if b_has x B_DIRTY
  then ADisk (<[b := set_b_flags (done_flags (b_flags x)) x]> (ad_bufs a))
             (set_sector k (b_blockno x) (b_data x) (ad_disk a)) q (ad_done a ++ [b])
  else ADisk (<[b := set_b_flags (done_flags (b_flags x)) (set_b_data (ad_disk a k (b_blockno x)) x)]> (ad_bufs a))
             (ad_disk a) q (ad_done a ++ [b]).

(** The owner of a buffer changes it; a process calls [iderw]; the disk
    interrupts. *)
Inductive iop :=
  | IBuf (b : nat) (x : buf)
  | IQueue (b : nat)
  | IIntr.
Definition aexec (a : adisk) (o : iop) : adisk :=
  match o with
  | IBuf b x => ADisk (<[b := x]> (ad_bufs a)) (ad_disk a) (ad_queue a) (ad_done a)
  | IQueue b => ADisk (ad_bufs a) (ad_disk a) (ad_queue a ++ [b]) (ad_done a)
  | IIntr => match ad_queue a with [] => a | b :: q => serve b q a end
  end.
Definition cexec (o : iop) : M (ide D) unit :=
  match o with
  | IBuf b x => ibupd b (fun _ => x)
  | IQueue b => iderw_queue fuel b
  | IIntr => ideintr fuel
  end.
Fixpoint cexecs (ops : list iop) : M (ide D) unit :=
  match ops with [] => ret tt | o :: ops => cexec o;;; cexecs ops end.

Section sim.
Context (bad : Z -> Z -> bool) (have : bool).

(** A queued buffer is locked by the process that waits for it: no one else
    changes it or queues it again. *)
Definition op_ok (a : adisk) (o : iop) : Prop :=
  match o with
  | IBuf b _ => b ∉ ad_queue a
  | IQueue b => (b ∉ ad_queue a) /\ (b < length (ad_bufs a))%nat /\ request_ok bad have (ad_bufs a !!! b)
  | IIntr => True
  end.
Fixpoint ops_ok (a : adisk) (ops : list iop) : Prop :=
  match ops with [] => True | o :: ops => op_ok a o /\ ops_ok (aexec a o) ops end.

(** The disk has started with the first request. *)
Definition working (a : adisk) (t : ata) : Prop :=
  a_bad t = bad /\ (a_busy t <= delay)%nat /\
  match ad_queue a with
  | [] => a_disk t = ad_disk a
  | b :: _ => exists t0, a_bad t0 = bad /\ a_disk t0 = ad_disk a /\ started (ad_bufs a !!! b) t0 t
  end.

Record sim (a : adisk) (s : ide D) : Prop := {
  sm_bufs : id_bufs s = ad_bufs a;
  sm_have : id_havedisk1 s = have;
  sm_woken : id_woken s = ad_done a;
  sm_qlen : length (id_qnext s) = length (ad_bufs a);
  sm_queue : qpath (id_queue s) (id_qnext s) (ad_queue a);
  sm_nodup : NoDup (ad_queue a);
  sm_reqs : Forall (fun b => (b < length (ad_bufs a))%nat /\ request_ok bad have (ad_bufs a !!! b)) (ad_queue a);
  sm_sectors : sectors_ok (ad_disk a);
  sm_dev : working a (ata_of (id_dev s));
}.

Lemma queue_short a s : sim a s -> (length (ad_queue a) <= length (ad_bufs a))%nat.
Proof.
  intros [_ _ _ _ _ Hn Hr _ _]. rewrite <- (length_seq (length (ad_bufs a)) 0). apply submseteq_length, NoDup_submseteq; [done|].
  intros b Hb. rewrite Forall_forall in Hr. apply elem_of_seq. destruct (Hr b Hb). lia.
Qed.

Lemma reqs_insert bs q b x : (b ∉ q) ->
  Forall (fun c => (c < length bs)%nat /\ request_ok bad have (bs !!! c)) q ->
  Forall (fun c => (c < length (<[b := x]> bs))%nat /\ request_ok bad have (<[b := x]> bs !!! c)) q.
Proof.
  rewrite !Forall_forall. intros Hb H c Hc. rewrite length_insert, list_lookup_total_insert_ne by set_solver. by apply H.
Qed.

Lemma sim_buf a s b x : sim a s -> (b ∉ ad_queue a) -> wp (cexec (IBuf b x)) (fun _ s' => sim (aexec a (IBuf b x)) s') s.
Proof.
  intros [H1 H2 H3 H4 H5 H6 H7 H8 (H9 & H10 & H11)] Hb. apply wp_modify. constructor; cbn; try done.
  - by rewrite H1.
  - by rewrite length_insert.
  - by apply reqs_insert.
  - split_and!; [done|done|]. cbn. destruct (ad_queue a) as [|c q]; [done|]. by rewrite list_lookup_total_insert_ne by set_solver.
Qed.

Lemma sim_queue a s b : sim a s -> op_ok a (IQueue b) -> wp (cexec (IQueue b)) (fun _ s' => sim (aexec a (IQueue b)) s') s.
Proof.
  intros Hs (Hb & Hlen & Hx). pose proof (queue_short _ _ Hs) as Hq. destruct Hs as [H1 H2 H3 H4 H5 H6 H7 H8 (H9 & H10 & H11)].
  unfold cexec, iderw_queue. apply wp_bind, wp_gets. unfold ibuf. rewrite H1. pose proof Hx as [Hl Hf Hd Hn _ _].
  apply wp_bind, wp_panic_if; [by rewrite Hl|]. apply wp_bind, wp_panic_if; [by apply Z.eqb_neq|].
  apply wp_bind, wp_gets. rewrite H2. apply wp_bind, wp_panic_if.
  { destruct Hd as [->| ->]; [done|by rewrite andb_false_r]. }
  apply wp_bind, wp_modify, wp_bind, wp_gets. set (qn := <[b:=None]> (id_qnext s)).
  assert (Hqn : qpath (id_queue s) qn (ad_queue a)) by (by apply qpath_insert_ne).
  assert (Hqb : qn !!! b = None) by (apply list_lookup_total_insert_eq; lia).
  assert (Hql : length qn = length (ad_bufs a)) by (unfold qn; by rewrite length_insert).
  apply wp_bind. eapply wp_mono; [apply (queue_end_spec _ (ad_queue a)); [exact Hqn|cbn; rewrite H1; lia]|]. intros pp s' [-> ->].
  apply wp_bind, wp_modify, wp_bind, wp_gets. destruct (last (ad_queue a)) as [c|] eqn:El.
  - apply last_Some in El as [q Eq]. cbn [assign id_queue set_id_qnext]. rewrite decide_False.
    2: { intros E. rewrite Eq in *. destruct q; cbn in Hqn; destruct Hqn as [E' _]; rewrite E in E'; injection E' as ->; set_solver. }
    apply wp_ret. assert (Hcb : b <> c) by (intros ->; rewrite Eq in Hb; set_solver).
    assert (Hcq : c ∉ q) by (rewrite Eq in H6; apply NoDup_app in H6 as (_ & H6 & _); intros H; apply (H6 c); set_solver).
    constructor; cbn; try done.
    + by rewrite !length_insert.
    + rewrite Eq, <- app_assoc. apply qpath_snoc; try done; [by rewrite <- Eq|rewrite Eq in Hb; set_solver|lia].
    + apply NoDup_app. split_and!; [done|set_solver|apply NoDup_singleton].
    + apply Forall_app. split; [done|by apply Forall_singleton].
    + split_and!; [done|done|]. cbn. rewrite Eq in *. by destruct q.
  - apply last_None in El. cbn [assign id_queue set_id_queue]. rewrite decide_True by done. rewrite El in H11.
    eapply wp_mono; [apply idestart_spec; cbn; [|done]|].
    + rewrite H9. unfold ibuf. cbn. by rewrite H1, H2.
    + intros [] s' (d & -> & Hst). constructor; cbn; rewrite ?El; try done.
      * cbn. split_and!; [done|lia|done].
      * apply NoDup_singleton.
      * by apply Forall_singleton.
      * cbn in Hst. pose proof Hst as (Hbd & Hbu & _). split_and!; [by rewrite Hbd|done|]. cbn.
        exists (ata_of (id_dev s)). split_and!; [done|done|]. unfold ibuf in Hst. cbn in Hst. by rewrite H1 in Hst.
Qed.

(** The end of the interrupt handler: the request is finished and the next one starts. *)
Lemma intr_rest bs f w irqs qn nxt q b y d : (b < length bs)%nat -> (b ∉ q) -> NoDup q -> length qn = length bs -> qpath nxt qn q ->
  Forall (fun c => (c < length bs)%nat /\ request_ok bad have (bs !!! c)) q -> sectors_ok f ->
  a_bad (ata_of d) = bad -> (a_busy (ata_of d) <= delay)%nat -> a_disk (ata_of d) = f ->
  wp (ibupd b (fun x => set_b_flags (Z.lor (b_flags x) B_VALID) x);;;
      ibupd b (fun x => set_b_flags (Z.ldiff (b_flags x) B_DIRTY) x);;;
      modify (id_wakeup b);;;
      let! q := gets id_queue in
      match q with Some b => idestart fuel (Some b) | None => ret tt end)
    (fun _ s' => sim (ADisk (<[b := set_b_flags (done_flags (b_flags y)) y]> bs) f q (w ++ [b])) s')
    (Ide (<[b := y]> bs) qn nxt have w irqs d).
Proof.
  intros Hb Hbq Hq Hqn Hp Hr Hf Hbad Hbusy Hd. apply wp_bind, wp_modify, wp_bind, wp_modify, wp_bind, wp_modify, wp_bind, wp_gets.
  unfold ibuf. cbn. rewrite !list_insert_insert_eq, !list_lookup_total_insert_eq by (rewrite ?length_insert; done).
  change (set_b_flags ?v (set_b_flags _ ?x)) with (set_b_flags v x). cbn [b_flags set_b_flags].
  fold (done_flags (b_flags y)). set (bs' := <[b := _]> bs).
  assert (Hr' : Forall (fun c => (c < length bs')%nat /\ request_ok bad have (bs' !!! c)) q) by (by apply reqs_insert).
  assert (Hqn' : length qn = length bs') by (unfold bs'; by rewrite length_insert).
  destruct q as [|c q]; cbn [qpath] in Hp.
  - subst nxt. apply wp_ret. constructor; cbn; try done. 
  - destruct Hp as (-> & Hc & Hp). apply Forall_cons in Hr' as [[Hcl Hcr] Hr'].
    eapply wp_mono; [apply idestart_spec; cbn; [by rewrite Hbad|done]|]. intros [] s' (d' & -> & Hst).
    pose proof Hst as (Hbd & Hbu & _). cbn in Hbd, Hst.
    constructor; cbn; try done; [by constructor|]. split_and!; [by rewrite Hbd|done|]. cbn. by exists (ata_of d).
Qed.

(** The disk has finished with the first request. *)
Lemma sim_intr a s : sim a s -> wp (cexec IIntr) (fun _ s' => sim (aexec a IIntr) s') s.
Proof.
  intros Hs. pose proof Hs as [H1 H2 H3 H4 H5 H6 H7 H8 (H9 & H10 & H11)]. cbn [cexec aexec]. unfold ideintr. apply wp_bind, wp_gets.
  destruct (ad_queue a) as [|b q] eqn:Eq; cbn [qpath] in H5; [rewrite H5; by apply wp_ret|]. destruct H5 as (-> & Hb & Hp).
  apply wp_bind, wp_gets, wp_bind, wp_modify, wp_bind, wp_gets. unfold ibuf. cbn [id_bufs set_id_queue]. rewrite H1.
  apply NoDup_cons in H6 as [Hbq H6]. apply Forall_cons in H7 as [[Hbl Hx] H7].
  destruct H11 as (t0 & Hbad0 & Hd0 & Hst & Hbu & Herr & Hw). unfold serve. destruct s as [bs qn nq hv w irqs d]. cbn in *. subst bs hv w.
  set (x := ad_bufs a !!! b) in *. destruct (b_has x B_DIRTY) eqn:Ed; cbn [negb].
  - destruct Hw as [Hdk _]. apply wp_bind, wp_ret. cbn.
    assert (Ei : <[b := x]> (ad_bufs a) = ad_bufs a) by (apply list_insert_id; by apply list_lookup_lookup_total_lt).
    match goal with |- wp _ _ ?s => replace s with (Ide (<[b := x]> (ad_bufs a)) qn (qn !!! b) have (ad_done a) irqs d) by (by rewrite Ei) end.
    apply intr_rest; try done; [|by rewrite Hdk, Hd0].
    intros k i. unfold set_sector. destruct (_ && _); [apply Hx|apply H8].
  - destruct Hw as [Hdk Hrd]. apply wp_bind, wp_bind, wp_on_dev_start. eapply wp_mono; [by apply idewait_spec|]. cbn [id_dev set_id_queue].
    intros r d1 [-> E1]. change (Z.to_nat (BSIZE / 4)) with 128%nat. rewrite Herr. cbn [andb]. change (0 <=? 0) with true. cbv iota. apply wp_bind, wp_on_dev.
    eapply wp_mono; [apply (insl_sector 128 (a_disk t0 (b_dev x mod 2) (b_blockno x)))|].
    + done.
    + rewrite Hd0. apply H8.
    + rewrite Hd0. apply H8.
    + by rewrite E1.
    + by rewrite E1.
    + intros l d2 [-> E2]. apply wp_modify. unfold ibuf. cbn. rewrite Hd0. fold x.
      apply (intr_rest (ad_bufs a) (ad_disk a) (ad_done a) irqs qn (qn !!! b) q b (set_b_data (ad_disk a (b_dev x mod 2) (b_blockno x)) x) d2); try done; rewrite E2, E1; cbn; [done|lia|by rewrite Hdk].
Qed.

Lemma sim_exec a s o : sim a s -> op_ok a o -> wp (cexec o) (fun _ s' => sim (aexec a o) s') s.
Proof. destruct o; intros Hs Ho; [by apply sim_buf|by apply sim_queue|by apply sim_intr]. Qed.

(** C14: The driver serves its requests in the order of the calls of [iderw]: for
    every sequence of calls, interrupts and changes of buffers by their owners
    the handlers return, and buffers, disk and wakeups are those of the queue
    served one request at a time. *)
Theorem ide_serves_in_order a s ops : sim a s -> ops_ok a ops ->
  wp (cexecs ops) (fun _ s' => sim (foldl aexec a ops) s') s.
Proof.
  revert a s. induction ops as [|o ops IH]; intros a s Hs; simpl; [by intros _; apply wp_ret|]. intros [Ho Hops].
  apply wp_bind. eapply wp_mono; [by apply sim_exec|]. intros [] s' Hs'. by apply IH.
Qed.
End sim.

(** *** Against the memory disk *)

(** The memory disk [m] and drive 1 of an idle device hold the same blocks. *)
Definition same_disk (m : gmap Z (list Z)) (a : adisk) : Prop :=
  forall n blk, m !! n = Some blk -> 0 <= n < FSSIZE /\ ad_disk a 1 n = blk.

Lemma vd_bits n : 0 <= n -> Z.testbit B_VALID n = (n =? 1) /\ Z.testbit B_DIRTY n = (n =? 2).
Proof. intros Hn. change B_VALID with (2 ^ 1). change B_DIRTY with (2 ^ 2). by rewrite !Z.pow2_bits_eqb, !(Z.eqb_sym n). Qed.
Lemma done_flags_eq f : done_flags f = Z.lor (Z.ldiff f B_DIRTY) B_VALID.
Proof.
  apply Z.bits_inj'. intros n Hn. unfold done_flags. rewrite Z.lor_spec, !Z.ldiff_spec, Z.lor_spec.
  destruct (vd_bits n Hn) as [-> ->]. destruct (Z.eqb_spec n 1), (Z.eqb_spec n 2), (Z.testbit f n); done || lia.
Qed.
Lemma done_flags_clean f : Z.land f B_DIRTY = 0 -> done_flags f = Z.lor f B_VALID.
Proof.
  intros H. rewrite done_flags_eq. f_equal. apply Z.bits_inj'. intros n Hn. rewrite Z.ldiff_spec.
  apply (f_equal (fun z => Z.testbit z n)) in H. rewrite Z.land_spec, Z.bits_0 in H. by destruct (Z.testbit f n), (Z.testbit B_DIRTY n).
Qed.
Lemma done_flags_valid f : Z.land (done_flags f) (Z.lor B_VALID B_DIRTY) = B_VALID.
Proof.
  apply Z.bits_inj'. intros n Hn. unfold done_flags. rewrite Z.land_spec, Z.ldiff_spec, !Z.lor_spec.
  destruct (vd_bits n Hn) as [-> ->]. destruct (Z.eqb_spec n 1), (Z.eqb_spec n 2), (Z.testbit f n); done || lia.
Qed.

Lemma memide_inv i m m' : Bio.iderw i m = Ret tt m' ->
  let x := bufat i m in b_locked x = true /\ Z.land (b_flags x) (Z.lor B_VALID B_DIRTY) <> B_VALID /\ b_dev x = 1 /\
  exists blk, disk m !! b_blockno x = Some blk.
Proof.
  unfold Bio.iderw, b_holdingsleep. krun. destruct (b_locked (bufat i m)); [|done].
  destruct (Z.eqb_spec (Z.land (b_flags (bufat i m)) (Z.lor B_VALID B_DIRTY)) B_VALID); [done|].
  destruct (Z.eqb_spec (b_dev (bufat i m)) 1); [|done]. destruct (disk m !! _) as [blk|] eqn:E; [|done]. intros _. split_and!; try done. by exists blk.
Qed.

(** C15: On an idle disk, a call of [iderw] and the interrupt that answers it have
    the effect of [iderw] of memide.c: the same buffers and the same blocks
    result, and the process that waits goes on. What is proved of the buffer
    cache on the memory disk holds on this one. *)
Theorem ide_equals_memide bad a s m m' i : sim bad true a s -> ad_queue a = [] -> ad_bufs a = bufs m -> same_disk (disk m) a ->
  (forall n, bad 1 n = false) -> (i < length (bufs m))%nat -> length (b_data (bufat i m)) = 512%nat -> Forall is_u8 (b_data (bufat i m)) ->
  Bio.iderw i m = Ret tt m' ->
  wp (iderw_queue fuel i;;; ideintr fuel;;; iderw_wait i) (fun _ s' => exists a',
    sim bad true a' s' /\ ad_queue a' = [] /\ ad_bufs a' = bufs m' /\ same_disk (disk m') a') s.
Proof.
  intros Hs Hq Hbufs Hsame Hbad Hi Hlen Hu E. destruct (memide_inv _ _ _ E) as (Hl & Hf & Hd & blk & Hblk).
  destruct (Hsame _ _ Hblk) as [Hrange Hcont]. set (x := bufat i m) in *.
  assert (Hx : request_ok bad true x) by (constructor; try done; [by right|by rewrite Hd]).
  apply wp_bind. eapply wp_mono; [apply (sim_exec bad true a s (IQueue i) Hs)|].
  { cbn. rewrite Hq, Hbufs. split_and!; [set_solver|done|done]. }
  intros [] s1 Hs1. apply wp_bind. eapply wp_mono; [apply (sim_exec bad true _ s1 IIntr Hs1); done|]. intros [] s2 Hs2.
  cbn [aexec ad_queue] in Hs2. rewrite Hq in Hs2. cbn [app] in Hs2. unfold serve in Hs2. cbn [ad_bufs ad_disk ad_done] in Hs2.
  rewrite Hbufs in Hs2. change (bufs m !!! i) with x in Hs2. rewrite Hd in Hs2. change (1 mod 2) with 1 in Hs2.
  unfold iderw_wait. apply wp_bind, wp_gets. destruct (b_has x B_DIRTY) eqn:Ed.
  - assert (Hdy : b_dirty x = true) by (by rewrite <- b_has_dirty).
    rewrite (iderw_write m i blk Hi Hl Hd Hdy Hblk) in E. injection E as <-.
    unfold ibuf. rewrite (sm_bufs _ _ _ _ Hs2). cbn. rewrite list_lookup_total_insert_eq by done. cbn. rewrite done_flags_valid. apply wp_ret.
    eexists. split_and!; [exact Hs2|done| |].
    + cbn. fold x. by rewrite done_flags_eq.
    + intros n b. cbn. fold x. unfold set_sector. destruct (decide (n = b_blockno x)) as [->|Hne].
      * rewrite lookup_insert_eq, !Z.eqb_refl. intros [= <-]. done.
      * rewrite lookup_insert_ne by done. rewrite (proj2 (Z.eqb_neq n _)), andb_false_r by done. apply Hsame.
  - assert (Hdy : b_dirty x = false) by (by rewrite <- b_has_dirty).
    assert (Hv : b_valid x = false).
    { pose proof (nothing_to_do x) as H. rewrite Hdy in H. destruct (b_valid x); [|done]. by apply Z.eqb_eq in H. }
    rewrite (iderw_read m i blk Hi Hl Hd Hv Hdy Hblk) in E. injection E as <-.
    unfold ibuf. rewrite (sm_bufs _ _ _ _ Hs2). cbn. rewrite list_lookup_total_insert_eq by done. cbn. rewrite done_flags_valid. apply wp_ret.
    eexists. split_and!; [exact Hs2|done| |exact Hsame]. cbn. fold x. rewrite done_flags_clean, Hcont; [done|].
    unfold b_has in Ed. apply negb_false_iff, Z.eqb_eq in Ed. done.
Qed.

(** A read that the disk reports as failed: the buffer is marked valid with
    whatever it contained, and the reader goes on. *)
Theorem ideintr_bad_sector b s : id_queue s = Some b -> id_qnext s !!! b = None -> (b < length (id_bufs s))%nat ->
  b_has (ibuf b s) B_DIRTY = false -> (a_busy (ata_of (id_dev s)) <= delay)%nat -> a_err (ata_of (id_dev s)) = true ->
  wp (ideintr fuel;;; iderw_wait b) (fun _ s' => b_data (ibuf b s') = b_data (ibuf b s) /\ b_valid (ibuf b s') = true) s.
Proof.
  intros Hq Hn Hb Hd Hbusy Herr. apply wp_bind. unfold ideintr. apply wp_bind, wp_gets. rewrite Hq. apply wp_bind, wp_gets, wp_bind, wp_modify, wp_bind, wp_gets.
  change (ibuf b (set_id_queue (id_qnext s !!! b) s)) with (ibuf b s). rewrite Hd. cbn [negb].
  apply wp_bind, wp_bind, wp_on_dev_start. eapply wp_mono; [by apply idewait_spec|]. cbn [id_dev set_id_queue]. rewrite Herr. intros r d [-> _].
  cbn [andb]. change (0 <=? -1) with false. cbv iota. apply wp_ret, wp_bind, wp_modify, wp_bind, wp_modify, wp_bind, wp_modify, wp_bind, wp_gets.
  cbn. rewrite Hn. apply wp_ret. unfold iderw_wait. apply wp_bind, wp_gets. unfold ibuf. cbn.
  rewrite !list_insert_insert_eq, !list_lookup_total_insert_eq by (rewrite ?length_insert; done). cbn. fold (done_flags (b_flags (id_bufs s !!! b))).
  rewrite done_flags_valid. apply wp_ret. cbn. rewrite !list_lookup_total_insert_eq by done. cbn. split; [done|].
  pose proof (nothing_to_do (set_b_flags (done_flags (b_flags (id_bufs s !!! b))) (id_bufs s !!! b))) as H. cbn in H.
  rewrite done_flags_valid in H. symmetry in H. by apply andb_true_iff in H as [H _].
Qed.

(** The driver before the first request. *)
Lemma sim_idle bad have bs irqs d : a_bad (ata_of d) = bad -> (a_busy (ata_of d) <= delay)%nat -> sectors_ok (a_disk (ata_of d)) ->
  sim bad have (ADisk bs (a_disk (ata_of d)) [] []) (Ide bs (replicate (length bs) None) None have [] irqs d).
Proof.
  intros Hb Hbusy Hs. constructor; cbn; try done; [apply length_replicate|apply NoDup_nil_2].
Qed.
End driver.

(** *** Two buffers on the device of Ports.v *)

Definition demo_ata : ata := Ata (fun _ _ => replicate 512 7) (fun _ _ => false) 1 (fun _ => 0) NoXfer false.
Definition demo_bufs : list buf :=
  [Buf B_DIRTY 1 5 true 1 0 0 (replicate 512 9); Buf 0 1 5 true 1 0 0 (replicate 512 0)].
Definition demo_ide : ide ata := Ide demo_bufs [None; None] None true [] [] demo_ata.

Lemma demo_sim : sim (fun _ _ => false) true (ADisk demo_bufs (fun _ _ => replicate 512 7) [] []) demo_ide.
Proof.
  unshelve refine (sim_idle (AtaDisk0 := simdisk) (fun _ _ => false) true demo_bufs [] demo_ata _ _ _); [done|cbn; lia|]. intros k i.
  split; [done|]. apply (Forall_replicate _ 512). unfold is_u8. lia.
Qed.
Lemma demo_request b : (b < 2)%nat -> request_ok (fun _ _ => false) true (demo_bufs !!! b).
Proof.
  intros Hb. destruct b as [|[|b]]; [| |lia]; constructor; cbn -[replicate];
    first [done | by right | unfold FSSIZE; lia | split; [done|]; apply (Forall_replicate _ 512); unfold is_u8; lia].
Qed.

Lemma demo_ops_ok : ops_ok (fun _ _ => false) true (ADisk demo_bufs (fun _ _ => replicate 512 7) [] []) [IQueue 0; IQueue 1; IIntr; IIntr].
Proof.
  cbn [ops_ok op_ok aexec ad_queue ad_bufs app]. change (length demo_bufs) with 2%nat.
  split_and!; try apply demo_request; try lia; try done; set_solver.
Qed.

(** A block is written and then read: the reader gets what was written. *)
Lemma ide_serves_in_order_witness : exists s', cexecs 3 [IQueue 0; IQueue 1; IIntr; IIntr] demo_ide = Ret tt s' /\
  b_data (ibuf 1 s') = replicate 512 9 /\ id_woken s' = [0; 1]%nat.
Proof.
  destruct (wp_elim _ _ _ (ide_serves_in_order (delay := 2) 3 ltac:(lia) (fun _ _ => false) true _ demo_ide [IQueue 0; IQueue 1; IIntr; IIntr] demo_sim
    demo_ops_ok)) as ([] & s' & E & Hs).
  exists s'. split; [exact E|]. unfold ibuf. rewrite (sm_bufs _ _ _ _ Hs), (sm_woken _ _ _ _ Hs). split; vm_compute; reflexivity.
Defined.

Lemma ide_equals_memide_witness : exists s', (iderw_queue 3 0;;; ideintr 3;;; iderw_wait 0) demo_ide = Ret tt s' /\
  id_bufs s' = <[0%nat := Buf B_VALID 1 5 true 1 0 0 (replicate 512 9)]> demo_bufs.
Proof.
  set (m := Bcache demo_bufs {[5 := replicate 512 7]} []).
  destruct (wp_elim _ _ _ (ide_equals_memide (delay := 2) 3 ltac:(lia) (fun _ _ => false) _ demo_ide m
    (Bcache (<[0%nat := Buf B_VALID 1 5 true 1 0 0 (replicate 512 9)]> demo_bufs) {[5 := replicate 512 9]} [(5, replicate 512 9)]) 0
    demo_sim eq_refl eq_refl
    ltac:(intros n blk H; unfold m in H; cbn [disk] in H; apply lookup_singleton_Some in H as [<- <-]; unfold FSSIZE; split; [lia|done])
    ltac:(done) ltac:(cbn; lia) ltac:(done) ltac:(apply Forall_replicate; unfold is_u8; lia) ltac:(vm_compute; reflexivity)))
    as ([] & s' & E & a' & Hs & _ & Hb & _).
  exists s'. split; [exact E|]. by rewrite (sm_bufs _ _ _ _ Hs).
Defined.
