(* ===== verification/Log.v ===== *)
(** The write-ahead log (log.c) over the buffer cache.

    [lstate] is [struct log] together with the buffer cache it works on.
    [begin_op] enters the transaction, or would sleep ([Block]) because a
    commit runs or the log might overflow. *)

From S2P Require Import Prelude Params Bio.

Record log := Log {
  l_start : Z;
  l_size : Z;
  l_outstanding : Z;
  l_committing : bool;
  l_dev : Z;
  l_n : Z;              (* lh.n *)
  l_block : list Z;     (* lh.block[LOGSIZE] *)
}.

Record lstate := LState { ll : log; lb : bcache }.

(** A buffer cache operation run on the whole state. *)
Definition lift {A} (m : M bcache A) : M lstate A :=
  fun s => match m (lb s) with
           | Ret a b => Ret a (LState (ll s) b)
           | Fail e => Fail e
           end.

Definition lmod (f : log -> log) : M lstate unit :=
  modify (fun s => LState (f (ll s)) (lb s)).

Definition set_l_n (v : Z) (l : log) : log :=
  Log (l_start l) (l_size l) (l_outstanding l) (l_committing l) (l_dev l) v (l_block l).
Definition set_l_block (v : list Z) (l : log) : log :=
  Log (l_start l) (l_size l) (l_outstanding l) (l_committing l) (l_dev l) (l_n l) v.
Definition set_l_outstanding (v : Z) (l : log) : log :=
  Log (l_start l) (l_size l) v (l_committing l) (l_dev l) (l_n l) (l_block l).
Definition set_l_committing (v : bool) (l : log) : log :=
  Log (l_start l) (l_size l) (l_outstanding l) v (l_dev l) (l_n l) (l_block l).

(** [log.lh.block[i] = v]; writing outside the array is undefined. *)
Definition store_block (i : nat) (v : Z) : M lstate unit :=
  let! l := gets ll in
  if decide (i < length (l_block l))%nat then lmod (set_l_block (<[i := v]> (l_block l)))
  else fail Undef.
Definition load_block (i : nat) : M lstate Z :=
  let! l := gets ll in of_option (l_block l !! i).

(** The superblock (fs.h), read from block 1. *)
Record superblock := SB {
  sb_size : Z; sb_nblocks : Z; sb_ninodes : Z; sb_nlog : Z;
  sb_logstart : Z; sb_inodestart : Z; sb_bmapstart : Z;
}.

Definition sb_of (d : list Z) : superblock :=
  SB (ldle 4 d 0) (ldle 4 d 4) (ldle 4 d 8) (ldle 4 d 12) (ldle 4 d 16) (ldle 4 d 20)
     (ldle 4 d 24).

Definition readsb (d : Z) : M bcache superblock :=
  let! bp := bread d 1 in
  let! dat := bdata bp in
  brelse bp;;;
  ret (sb_of dat).

(** Offset of [lh.block[i]] in the header block. *)
Definition hdr_off (i : nat) : nat := 4 + 4 * i.

(** [memmove(dst->data, src->data, BSIZE); bwrite(dst); brelse(src);
    brelse(dst);], the part the two copying loops share. *)
Definition copy_tail (src dst : nat) : M bcache unit :=
  let! d := bdata src in
  bset dst d;;;
  bwrite dst;;;
  brelse src;;;
  brelse dst.

Definition install_trans : M lstate unit :=
  let! n := gets (fun s => l_n (ll s)) in
  for_ (Z.to_nat n) (fun tail =>
    let! l := gets ll in
    let! lbuf := lift (bread (l_dev l) (l_start l + Z.of_nat tail + 1)) in
    let! b := load_block tail in
    let! dbuf := lift (bread (l_dev l) b) in
    lift (copy_tail lbuf dbuf)).

Definition read_head : M lstate unit :=
  let! l := gets ll in
  let! b := lift (bread (l_dev l) (l_start l)) in
  let! d := lift (bdata b) in
  lmod (set_l_n (i32 (ldle 4 d 0)));;;
  for_ (Z.to_nat (i32 (ldle 4 d 0))) (fun i =>
    store_block i (i32 (ldle 4 d (hdr_off i))));;;
  lift (brelse b).

Definition write_head : M lstate unit :=
  let! l := gets ll in
  let! b := lift (bread (l_dev l) (l_start l)) in
  let! d := lift (bdata b) in
  lift (bset b (stle 4 d 0 (l_n l)));;;
  for_ (Z.to_nat (l_n l)) (fun i =>
    let! v := load_block i in
    let! d := lift (bdata b) in
    lift (bset b (stle 4 d (hdr_off i) v)));;;
  lift (bwrite b);;;
  lift (brelse b).

Definition recover_from_log : M lstate unit :=
  read_head;;;
  install_trans;;;
  lmod (set_l_n 0);;;
  write_head.

(** [log] is a zero-initialised global. *)
Definition log0 : log := Log 0 0 0 false 0 0 (replicate (Z.to_nat LOGSIZE) 0).

(** [sizeof(struct logheader)]: an int and [LOGSIZE] ints. *)
Definition sizeof_logheader := 4 + 4 * LOGSIZE.

Definition initlog (d : Z) : M lstate unit :=
  panic_if (BSIZE <=? sizeof_logheader) "initlog: too big logheader";;;
  let! sb := lift (readsb d) in
  lmod (fun l => Log (i32 (sb_logstart sb)) (i32 (sb_nlog sb)) (l_outstanding l)
                     (l_committing l) d (l_n l) (l_block l));;;
  recover_from_log.

Definition begin_op : M lstate unit :=
  let! l := gets ll in
  if l_committing l then fail Block
  else if LOGSIZE <? l_n l + (l_outstanding l + 1) * MAXOPBLOCKS then fail Block
  else lmod (set_l_outstanding (l_outstanding l + 1)).

Definition write_log : M lstate unit :=
  let! n := gets (fun s => l_n (ll s)) in
  for_ (Z.to_nat n) (fun tail =>
    let! l := gets ll in
    let! to := lift (bread (l_dev l) (l_start l + Z.of_nat tail + 1)) in
    let! b := load_block tail in
    let! from := lift (bread (l_dev l) b) in
    lift (copy_tail from to)).

Definition commit : M lstate unit :=
  let! n := gets (fun s => l_n (ll s)) in
  if 0 <? n then
    write_log;;;
    write_head;;;
    install_trans;;;
    lmod (set_l_n 0);;;
    write_head
  else ret tt.

Definition end_op : M lstate unit :=
  let! l := gets ll in
  lmod (set_l_outstanding (l_outstanding l - 1));;;
  panic_if (l_committing l) "log.committing";;;
  if l_outstanding l - 1 =? 0 then
    lmod (set_l_committing true);;;
    commit;;;
    lmod (set_l_committing false)
  else ret tt.

(** The index [log_write] stores at: the entry of the block if it is already
    logged (absorption), [lh.n] otherwise. *)
Fixpoint log_index (blocks : list Z) (i n : nat) (b : Z) : nat :=
  match n with
  | O => i
  | S n =>
    match blocks with
    | x :: blocks => if x =? b then i else log_index blocks (S i) n b
    | [] => i
    end
  end.

Definition log_write (b : nat) : M lstate unit :=
  let! l := gets ll in
  panic_if ((LOGSIZE <=? l_n l) || (l_size l - 1 <=? l_n l)) "too big a transaction";;;
  panic_if (l_outstanding l <? 1) "log_write outside of trans";;;
  let! bno := gets (fun s => b_blockno (bufat b (lb s))) in
  let i := log_index (l_block l) 0 (Z.to_nat (l_n l)) bno in
  store_block i bno;;;
  (if Z.of_nat i =? l_n l then lmod (set_l_n (l_n l + 1)) else ret tt);;;
  lift (pin b).

(** *** Running cache operations on the whole state *)

Lemma wp_lift {A} (m : M bcache A) Q s :
  wp m (fun a b => Q a (LState (ll s) b)) (lb s) -> wp (lift m) Q s.
Proof. unfold wp, lift. by destruct (m (lb s)). Qed.

Lemma wp_lmod f (Q : unit -> lstate -> Prop) s :
  Q tt (LState (f (ll s)) (lb s)) -> wp (lmod f) Q s.
Proof. exact id. Qed.

Lemma wp_lmod_if (c : bool) f (Q : unit -> lstate -> Prop) s :
  Q tt (LState (if c then f (ll s) else ll s) (lb s)) ->
  wp (if c then lmod f else ret tt) Q s.
Proof. destruct c, s; exact id. Qed.

Lemma wp_load_block i v (Q : Z -> lstate -> Prop) s :
  l_block (ll s) !! i = Some v -> Q v s -> wp (load_block i) Q s.
Proof. intros H HQ. apply wp_bind, wp_gets. eapply wp_of_option; [apply H|done]. Qed.

Lemma wp_store_block i v (Q : unit -> lstate -> Prop) s :
  (i < length (l_block (ll s)))%nat ->
  Q tt (LState (set_l_block (<[i := v]> (l_block (ll s))) (ll s)) (lb s)) ->
  wp (store_block i v) Q s.
Proof. intros H HQ. apply wp_bind, wp_gets. by rewrite decide_True. Qed.

(** *** Disk writes *)

Definition apply_writes (ws : list (Z * list Z)) (d : gmap Z (list Z)) : gmap Z (list Z) :=
  foldl (fun d w => <[w.1 := w.2]> d) d ws.

Lemma apply_writes_app ws ws' d :
  apply_writes (ws ++ ws') d = apply_writes ws' (apply_writes ws d).
Proof. apply foldl_app. Qed.

Lemma apply_writes_ne ws d n : n ∉ ws.*1 -> apply_writes ws d !! n = d !! n.
Proof.
  revert d; induction ws as [|w ws IH]; intros d H; simpl in *; [done|].
  rewrite IH by set_solver. apply lookup_insert_ne. set_solver.
Qed.

Lemma apply_writes_in ws d n x :
  NoDup ws.*1 -> (n, x) ∈ ws -> apply_writes ws d !! n = Some x.
Proof.
  revert d; induction ws as [|w ws IH]; intros d Hn Hin; simpl in *.
  { by apply not_elem_of_nil in Hin. }
  apply NoDup_cons in Hn as [Hw Hn]. apply elem_of_cons in Hin as [<-|Hin]; [|by apply IH].
  rewrite apply_writes_ne by done. apply lookup_insert_eq.
Qed.

Lemma dom_apply_writes ws d :
  Forall (fun n => n ∈ dom d) ws.*1 -> dom (apply_writes ws d) = dom d.
Proof.
  revert d; induction ws as [|w ws IH]; intros d H; simpl; [done|].
  apply Forall_cons in H as [H1 H2]. rewrite IH; rewrite dom_insert_L.
  - set_solver.
  - eapply Forall_impl; [done|]. set_solver.
Qed.

(** *** Copying one block *)

(** A block that is neither held nor pinned reads the same from the disk. *)
Lemma clean_or_dirty s n :
  binv s -> (forall i, held s !! i <> Some n) ->
  dirty_block s n \/ view s !! n = disk s !! n.
Proof.
  intros Hi Hh. destruct (cached_dec s n) as [|(i & Hlt & Hdev & <-)];
    [right; by apply view_not_cached|].
  rewrite view_cached by done.
  destruct (bi_buf _ Hi i Hlt) as [[? _]|(_ & _ & _ & _ & blk & -> & Hc)]; [lia|].
  destruct (b_dirty (bufat i s)) eqn:E; [left; by exists i|right].
  rewrite Hc; [done| |done]. apply not_true_is_false; intros H.
  apply (Hh i). apply held_Some; [apply (bi_len _ Hi)|done].
Qed.

Lemma copy_tail_spec s i j a b x :
  binv s -> held s !! i = Some a -> held s !! j = Some b -> i <> j -> a <> b ->
  view s !! a = Some x -> (dirty_block s a \/ view s !! a = disk s !! a) ->
  wp (copy_tail i j) (fun _ s' => binv s' /\ view s' = <[b := x]> (view s) /\
     disk s' = <[b := x]> (disk s) /\ writes s' = writes s ++ [(b, x)] /\
     held s' = delete j (delete i (held s)) /\
     forall m, dirty_block s' m <-> m <> b /\ dirty_block s m) s.
Proof.
  intros Hi Hhi Hhj Hij Hab Hx Hc. unfold copy_tail.
  wp_use (bdata_spec s i a Hi Hhi). intros d ? (-> & Hd & Hl).
  rewrite Hx in Hd. injection Hd as <-.
  wp_use (bset_spec s j b x Hi Hhj Hl). intros _ s1 (Hi1 & (Hd1 & Hw1 & Hy1) & Hv1 & Hh1).
  wp_use (bwrite_spec s1 j b x Hi1).
  { by rewrite Hh1. } { by rewrite Hv1, lookup_insert_eq. }
  intros _ s2 (Hi2 & Hd2 & Hw2 & Hv2 & Hh2 & Hy2).
  wp_use (brelse_spec s2 i a Hi2).
  { by rewrite Hh2, Hh1. }
  { rewrite Hy2, Hy1, Hv2, Hv1, Hd2, Hd1, !lookup_insert_ne by done.
    destruct Hc; [by left|by right]. }
  intros _ s3 (Hi3 & (Hd3 & Hw3 & Hy3) & Hv3 & Hh3).
  eapply wp_mono; [apply (brelse_spec s3 j b Hi3)|].
  { rewrite Hh3, lookup_delete_ne, Hh2, Hh1 by done. done. }
  { right. rewrite Hv3, Hd3, Hv2, Hv1, Hd2, !lookup_insert_eq. done. }
  intros _ s4 (Hi4 & (Hd4 & Hw4 & Hy4) & Hv4 & Hh4).
  split_and!; [done|..].
  - by rewrite Hv4, Hv3, Hv2, Hv1.
  - by rewrite Hd4, Hd3, Hd2, Hd1.
  - by rewrite Hw4, Hw3, Hw2, Hw1.
  - by rewrite Hh4, Hh3, Hh2, Hh1.
  - intros m. by rewrite Hy4, Hy3, Hy2, Hy1.
Qed.

(** *** Transactions *)

Definition in_log (l : log) (n : Z) : Prop := l_start l <= n < l_start l + l_size l.

(** The disk has the log where the superblock says; [nlog] is at most
    [LOGSIZE], as mkfs.c makes it. *)
Record log_geom (l : log) (d : gmap Z (list Z)) : Prop := {
  lg_dev : l_dev l = 1;
  lg_size : 1 <= l_size l <= LOGSIZE;
  lg_in : forall n, in_log l n -> n ∈ dom d;
  lg_dom : forall n, n ∈ dom d -> 0 <= n < 2147483648;
  lg_len : length (l_block l) = Z.to_nat LOGSIZE;
}.

(** The in-memory header lists the blocks [L]. *)
Record trans (l : log) (d : gmap Z (list Z)) (L : list Z) : Prop := {
  tr_n : l_n l = Z.of_nat (length L);
  tr_block : take (length L) (l_block l) = L;
  tr_nodup : NoDup L;
  tr_home : Forall (fun n => n ∈ dom d /\ ~ in_log l n) L;
  tr_fit : Z.of_nat (length L) <= l_size l - 1;
}.

Lemma tr_lookup l d L i b : trans l d L -> L !! i = Some b -> l_block l !! i = Some b.
Proof.
  intros H Hb. rewrite <- (tr_block _ _ _ H) in Hb. by apply lookup_take_Some in Hb as [? _].
Qed.

Definition copied (s s' : bcache) (W : list (Z * list Z)) : Prop :=
  binv s' /\ held s' = ∅ /\ view s' = apply_writes W (view s) /\
  disk s' = apply_writes W (disk s) /\ writes s' = writes s ++ W.

Lemma copied_nil s : binv s -> held s = ∅ -> copied s s [].
Proof. intros. split_and!; try done. by rewrite app_nil_r. Qed.

Lemma held_empty s i n : held s = ∅ -> held s !! i <> Some n.
Proof. intros ->. by rewrite lookup_empty. Qed.

(** Reading [a] and then [b], and copying one to the other. *)
Lemma two_reads s a b (L : list Z) (Q : nat -> nat -> bcache -> Prop) :
  binv s -> held s = ∅ -> a <> b -> a ∈ dom (disk s) -> b ∈ dom (disk s) ->
  (forall n, dirty_block s n -> n ∈ L) -> (length L < NBUF)%nat -> b ∈ L ->
  (forall i j s', binv s' -> bframe s s' -> view s' = view s ->
     held s' = <[j := b]> {[i := a]} -> i <> j -> Q i j s') ->
  wp (bread 1 a) (fun i s1 => wp (bread 1 b) (fun j s2 => Q i j s2) s1) s.
Proof.
  intros Hi Hh Hab Ha Hb HL Hlen HbL HQ.
  eapply wp_mono; [apply (bread_spec s a Hi Ha)|].
  { intros i. by apply held_empty. }
  { intros _. apply (slot_count s L Hi HL). rewrite Hh, map_size_empty. lia. }
  intros i s1 (Hi1 & (Hd1 & Hw1 & Hy1) & Hv1 & _ & Hh1). rewrite Hh, insert_empty in Hh1.
  eapply wp_mono; [apply (bread_spec s1 b Hi1)|].
  { by rewrite Hd1. }
  { intros k. rewrite Hh1, lookup_singleton_Some. by intros [_ ?]. }
  { intros Hnc. apply (slot_count s1 (filter (fun n => n <> b) L) Hi1).
    - intros n Hn. rewrite list_elem_of_filter. split; [|by apply HL, Hy1].
      intros ->. destruct Hn as (k & Hk & Hdk & _ & Hbk). by apply (Hnc k).
    - rewrite Hh1, map_size_singleton.
      apply Nat.lt_le_trans with (length L + 1)%nat; [|lia].
      apply Nat.add_lt_mono_r, length_filter_lt with b; [done|]. by intros []. }
  intros j s2 (Hi2 & (Hd2 & Hw2 & Hy2) & Hv2 & Hn2 & Hh2).
  apply HQ; [done|split_and!; try congruence|congruence|by rewrite Hh2, Hh1|].
  - intros n. by rewrite Hy2.
  - intros ->. by rewrite Hh1, lookup_singleton_eq in Hn2.
Qed.

Lemma trans_elem l d L i b : trans l d L -> L !! i = Some b ->
  b ∈ dom d /\ ~ in_log l b /\ in_log l (l_start l + Z.of_nat i + 1) /\ b ∈ L.
Proof.
  intros H Hb. pose proof (proj1 (Forall_lookup _ _) (tr_home _ _ _ H) i b Hb) as [Hd Hn].
  apply lookup_lt_Some in Hb as Hlt. pose proof (tr_fit _ _ _ H).
  split_and!; [done|done|unfold in_log; lia|by eapply list_elem_of_lookup_2].
Qed.

Lemma trans_short l d L : log_geom l d -> trans l d L -> (length L < NBUF)%nat.
Proof.
  intros G T. pose proof (lg_size _ _ G). pose proof (tr_fit _ _ _ T).
  unfold LOGSIZE, MAXOPBLOCKS, NBUF in *. lia.
Qed.

(** The log blocks [write_log] fills: block [start + i + 1] gets [ds[i]]. *)
Definition log_writes (start : Z) (ds : list (list Z)) : list (Z * list Z) :=
  imap (fun i d => (start + Z.of_nat i + 1, d)) ds.

Lemma log_writes_region start ds n x :
  (n, x) ∈ log_writes start ds -> start < n <= start + Z.of_nat (length ds).
Proof.
  intros (i & d & E & Hd)%elem_of_lookup_imap_1. injection E as -> ->.
  apply lookup_lt_Some in Hd. lia.
Qed.

Lemma log_writes_fst start ds n :
  n ∈ (log_writes start ds).*1 -> start < n <= start + Z.of_nat (length ds).
Proof. intros ((n' & x) & -> & H)%list_elem_of_fmap. by eapply log_writes_region. Qed.

Lemma log_writes_nodup start ds : NoDup (log_writes start ds).*1.
Proof.
  unfold log_writes. rewrite fmap_imap. apply NoDup_alt. intros i j n.
  rewrite !list_lookup_imap_Some. intros (? & _ & ->) (? & _ & E). simpl in E. lia.
Qed.

(** What [s] needs for a copying loop over the transaction [L]. *)
Record loop_pre (s : lstate) (L : list Z) : Prop := {
  lp_b : binv (lb s);
  lp_held : held (lb s) = ∅;
  lp_geom : log_geom (ll s) (disk (lb s));
  lp_trans : trans (ll s) (disk (lb s)) L;
  lp_dirty : forall n, dirty_block (lb s) n -> n ∈ L;
}.

Lemma apply_writes_dom_ok (s : lstate) L ds :
  loop_pre s L -> (length ds <= length L)%nat ->
  dom (apply_writes (log_writes (l_start (ll s)) ds) (disk (lb s))) = dom (disk (lb s)).
Proof.
  intros P Hl. apply dom_apply_writes, Forall_forall. intros n Hn%log_writes_fst.
  apply (lg_in _ _ (lp_geom _ _ P)). unfold in_log.
  pose proof (tr_fit _ _ _ (lp_trans _ _ P)). lia.
Qed.

(** One iteration of a copying loop, run on the cache. *)
Lemma wp_loop_body s k a b (tail : nat -> nat -> M bcache unit) (Q : lstate -> Prop) :
  l_block (ll s) !! k = Some b ->
  wp (bread 1 a) (fun i b1 => wp (bread 1 b) (fun j b2 =>
     wp (tail i j) (fun _ b3 => Q (LState (ll s) b3)) b2) b1) (lb s) ->
  wp (let! i := lift (bread 1 a) in let! v := load_block k in
      let! j := lift (bread 1 v) in lift (tail i j)) (fun _ s' => Q s') s.
Proof.
  intros Hb H. apply wp_bind, wp_lift. eapply wp_mono; [exact H|]. intros i b1 H1.
  apply wp_bind. eapply wp_load_block; [exact Hb|].
  apply wp_bind, wp_lift. eapply wp_mono; [exact H1|]. intros j b2 H2. by apply wp_lift.
Qed.

(** One copy between a log block [a] and a home block [b] of [L]. *)
Lemma copy_step s a b x L (out : bool) :
  binv s -> held s = ∅ -> a <> b -> a ∈ dom (disk s) -> b ∈ dom (disk s) ->
  (forall n, dirty_block s n -> n ∈ L) -> (length L < NBUF)%nat -> b ∈ L -> a ∉ L ->
  view s !! (if out then a else b) = Some x ->
  wp (bread 1 a) (fun i s1 => wp (bread 1 b) (fun j s2 =>
     wp (if out then copy_tail i j else copy_tail j i) (fun _ s' =>
       copied s s' [(if out then b else a, x)] /\
       forall m, dirty_block s' m <-> m <> (if out then b else a) /\ dirty_block s m) s2) s1) s.
Proof.
  intros Hi Hh Hab Ha Hb HL Hlen HbL HaL Hx.
  apply (two_reads s a b L); try done.
  intros i j s2 Hi2 (Hd2 & Hw2 & Hy2) Hv2 Hh2 Hij.
  assert (forall n, dirty_block s2 n \/ view s2 !! n = disk s2 !! n) as Hc.
  { intros n. rewrite Hy2, Hv2, Hd2. apply clean_or_dirty; [done|].
    intros k. by apply held_empty. }
  assert (held s2 !! i = Some a) as Hhi
    by (rewrite Hh2, lookup_insert_ne by done; apply lookup_singleton_eq).
  assert (held s2 !! j = Some b) as Hhj by (by rewrite Hh2, lookup_insert_eq).
  assert (delete i (delete j (held s2)) = ∅ /\ delete j (delete i (held s2)) = ∅) as [He1 He2].
  { rewrite Hh2. split; apply map_empty; intros k; rewrite !lookup_delete, lookup_insert,
      lookup_singleton; repeat case_decide; simplify_eq; done. }
  destruct out.
  - eapply wp_mono; [apply (copy_tail_spec s2 i j a b x); try done; by rewrite Hv2|].
    intros _ s3 (Hi3 & Hv3 & Hd3 & Hw3 & Hh3 & Hy3). split.
    + split_and!; [done|by rewrite Hh3|by rewrite Hv3, Hv2|by rewrite Hd3, Hd2|by rewrite Hw3, Hw2].
    + intros m. by rewrite Hy3, Hy2.
  - eapply wp_mono; [apply (copy_tail_spec s2 j i b a x); try done; by rewrite Hv2|].
    intros _ s3 (Hi3 & Hv3 & Hd3 & Hw3 & Hh3 & Hy3). split.
    + split_and!; [done|by rewrite Hh3|by rewrite Hv3, Hv2|by rewrite Hd3, Hd2|by rewrite Hw3, Hw2].
    + intros m. by rewrite Hy3, Hy2.
Qed.

Lemma copied_trans s s1 s2 W W' :
  copied s s1 W -> copied s1 s2 W' -> copied s s2 (W ++ W').
Proof.
  intros (_ & _ & Hv & Hd & Hw) (Hi2 & Hh2 & Hv2 & Hd2 & Hw2).
  split_and!; [done|done|..].
  - by rewrite Hv2, Hv, apply_writes_app.
  - by rewrite Hd2, Hd, apply_writes_app.
  - by rewrite Hw2, Hw, <- app_assoc.
Qed.

Lemma log_writes_take start ds k x :
  ds !! k = Some x ->
  log_writes start (take (S k) ds) =
    log_writes start (take k ds) ++ [(start + Z.of_nat k + 1, x)].
Proof.
  intros Hx. unfold log_writes. rewrite (take_S_r _ _ x) by done.
  rewrite imap_app. simpl. rewrite length_take, Nat.min_l, Nat.add_0_r; [done|].
  apply lookup_lt_Some in Hx. lia.
Qed.

Lemma write_log_spec s L ds :
  loop_pre s L -> length ds = length L ->
  (forall i b x, L !! i = Some b -> ds !! i = Some x -> view (lb s) !! b = Some x) ->
  wp write_log (fun _ s' => ll s' = ll s /\
      copied (lb s) (lb s') (log_writes (l_start (ll s)) ds) /\
      forall n, dirty_block (lb s') n <-> dirty_block (lb s) n) s.
Proof.
  intros P Hlen Hds. pose proof (lp_geom _ _ P) as G. pose proof (lp_trans _ _ P) as T.
  unfold write_log. apply wp_bind, wp_gets. rewrite (tr_n _ _ _ T), Nat2Z.id.
  eapply wp_mono; [apply (wp_for (fun k s' => ll s' = ll s /\
      copied (lb s) (lb s') (log_writes (l_start (ll s)) (take k ds)) /\
      forall n, dirty_block (lb s') n <-> dirty_block (lb s) n))|].
  - split_and!; [done|apply copied_nil; [apply (lp_b _ _ P)|apply (lp_held _ _ P)]|done].
  - intros k s1 Hk (El & Hcp & Hy1). pose proof Hcp as (Hi1 & Hh1 & Hv1 & Hd1 & _).
    destruct (lookup_lt_is_Some_2 L k Hk) as [b Hb].
    destruct (lookup_lt_is_Some_2 ds k ltac:(lia)) as [x Hx].
    destruct (trans_elem _ _ _ _ _ T Hb) as (Hbd & Hbl & Ha & HbL).
    assert (dom (disk (lb s1)) = dom (disk (lb s))) as Hdom.
    { rewrite Hd1. apply (apply_writes_dom_ok s L); [done|rewrite length_take; lia]. }
    apply wp_bind, wp_gets. rewrite El, (lg_dev _ _ G).
    set (a := l_start (ll s) + Z.of_nat k + 1) in *.
    eapply wp_loop_body; [rewrite El; by eapply tr_lookup|].
    assert (a ∉ L) as HaL.
    { intros HaL. by destruct (proj1 (Forall_forall _ _) (tr_home _ _ _ T) a HaL). }
    eapply wp_mono; [apply (copy_step (lb s1) a b x L false); try done|].
    + intros ->. done.
    + rewrite Hdom. by apply (lg_in _ _ G).
    + by rewrite Hdom.
    + intros n Hn. by apply (lp_dirty _ _ P), Hy1.
    + by eapply trans_short.
    + simpl. rewrite Hv1, apply_writes_ne; [by eapply Hds|].
      intros Hw%log_writes_fst. rewrite length_take in Hw. unfold in_log in *. lia.
    + intros i b1 H1. eapply wp_mono; [exact H1|]. intros j b2 H2.
      eapply wp_mono; [exact H2|]. intros _ b3 [Hcp' Hy3]. split_and!; [done|..].
      * rewrite (log_writes_take _ _ _ x) by done. by eapply copied_trans.
      * intros n. simpl. rewrite Hy3, Hy1. split; [tauto|]. intros Hn. split; [|done].
        intros ->. by apply HaL, (lp_dirty _ _ P).
  - intros _ s' (El & Hcp & Hy). rewrite take_ge in Hcp by lia. done.
Qed.

Lemma install_trans_spec s L ds :
  loop_pre s L -> length ds = length L ->
  (forall i x, ds !! i = Some x ->
     view (lb s) !! (l_start (ll s) + Z.of_nat i + 1) = Some x) ->
  wp install_trans (fun _ s' => ll s' = ll s /\
      copied (lb s) (lb s') (zip L ds) /\
      forall n, dirty_block (lb s') n <-> (n ∉ L) /\ dirty_block (lb s) n) s.
Proof.
  intros P Hlen Hds. pose proof (lp_geom _ _ P) as G. pose proof (lp_trans _ _ P) as T.
  unfold install_trans. apply wp_bind, wp_gets. rewrite (tr_n _ _ _ T), Nat2Z.id.
  eapply wp_mono; [apply (wp_for (fun k s' => ll s' = ll s /\
      copied (lb s) (lb s') (zip (take k L) (take k ds)) /\
      forall n, dirty_block (lb s') n <-> (n ∉ take k L) /\ dirty_block (lb s) n))|].
  - split_and!; [done|apply copied_nil; [apply (lp_b _ _ P)|apply (lp_held _ _ P)]|].
    intros n. split; [|tauto]. intros; split; [apply not_elem_of_nil|done].
  - intros k s1 Hk (El & Hcp & Hy1). pose proof Hcp as (Hi1 & Hh1 & Hv1 & Hd1 & _).
    destruct (lookup_lt_is_Some_2 L k Hk) as [b Hb].
    destruct (lookup_lt_is_Some_2 ds k ltac:(lia)) as [x Hx].
    destruct (trans_elem _ _ _ _ _ T Hb) as (Hbd & Hbl & Ha & HbL).
    assert (forall n, n ∈ (zip (take k L) (take k ds)).*1 -> n ∈ L) as Hzip.
    { intros n. rewrite fst_zip by (rewrite !length_take; lia).
      intros Hn. by apply elem_of_take in Hn as (? & ?%list_elem_of_lookup_2 & _). }
    assert (dom (disk (lb s1)) = dom (disk (lb s))) as Hdom.
    { rewrite Hd1. apply dom_apply_writes, Forall_forall. intros n Hn%Hzip.
      by destruct (proj1 (Forall_forall _ _) (tr_home _ _ _ T) n Hn). }
    apply wp_bind, wp_gets. rewrite El, (lg_dev _ _ G).
    set (a := l_start (ll s) + Z.of_nat k + 1) in *.
    eapply wp_loop_body; [rewrite El; by eapply tr_lookup|].
    assert (a ∉ L) as HaL.
    { intros HaL. by destruct (proj1 (Forall_forall _ _) (tr_home _ _ _ T) a HaL). }
    eapply wp_mono; [apply (copy_step (lb s1) a b x L true); try done|].
    + intros ->. done.
    + rewrite Hdom. by apply (lg_in _ _ G).
    + by rewrite Hdom.
    + intros n [_ Hn]%Hy1. by apply (lp_dirty _ _ P).
    + by eapply trans_short.
    + simpl. rewrite Hv1, apply_writes_ne; [by eapply Hds|]. by intros ?%Hzip.
    + intros i b1 H1. eapply wp_mono; [exact H1|]. intros j b2 H2.
      eapply wp_mono; [exact H2|]. intros _ b3 [Hcp' Hy3]. split_and!; [done|..].
      * rewrite (take_S_r L k b), (take_S_r ds k x) by done.
        rewrite zip_with_app by (rewrite !length_take; lia). by eapply copied_trans.
      * intros n. simpl. rewrite Hy3, Hy1, (take_S_r L k b) by done. set_solver.
  - intros _ s' (El & Hcp & Hy). rewrite !take_ge in Hcp by lia.
    rewrite take_ge in Hy by lia. done.
Qed.

(** *** The header block *)

(** [x] is a header block that lists [L]. *)
Definition header_of (x : list Z) (L : list Z) : Prop :=
  length x = Z.to_nat BSIZE /\ ldle 4 x 0 = Z.of_nat (length L) /\
  forall i b, L !! i = Some b -> ldle 4 x (hdr_off i) = b.

Lemma header_fits (l : log) d L : log_geom l d -> trans l d L -> (length L <= 29)%nat.
Proof.
  intros G T. pose proof (lg_size _ _ G). pose proof (tr_fit _ _ _ T).
  unfold LOGSIZE, MAXOPBLOCKS in *. lia.
Qed.

(** The header while [write_head] fills it: [n] and the first [k] blocks. *)
Definition header_upto (x : list Z) (L : list Z) (k : nat) : Prop :=
  length x = Z.to_nat BSIZE /\ ldle 4 x 0 = Z.of_nat (length L) /\
  forall i b, (i < k)%nat -> L !! i = Some b -> ldle 4 x (hdr_off i) = b.

Lemma header_start x L :
  length x = Z.to_nat BSIZE -> (length L <= 29)%nat ->
  header_upto (stle 4 x 0 (Z.of_nat (length L))) L 0.
Proof.
  intros Hl Hn. change (Z.to_nat BSIZE) with 512%nat in *.
  split_and!; [by rewrite length_stle| |intros; lia].
  rewrite ldle_stle_eq by lia. apply Z.mod_small. lia.
Qed.

Lemma header_store x L k b :
  header_upto x L k -> L !! k = Some b -> (length L <= 29)%nat -> 0 <= b < 2147483648 ->
  header_upto (stle 4 x (hdr_off k) b) L (S k).
Proof.
  intros (Hl & Hn & He) Hb Hlen Hr. apply lookup_lt_Some in Hb as Hk.
  unfold header_upto, hdr_off in *. change (Z.to_nat BSIZE) with 512%nat in *. split_and!.
  - by rewrite length_stle.
  - rewrite ldle_stle_ne by lia. done.
  - intros i b' Hi Hb'. destruct (decide (i = k)) as [->|Hne].
    + simplify_eq. rewrite ldle_stle_eq by lia. apply Z.mod_small. lia.
    + rewrite ldle_stle_ne by lia. apply He; [lia|done].
Qed.

(** What [write_head] keeps while it holds the header block as buffer [j]. *)
Definition head_held (s : lstate) (L : list Z) (j k : nat) (s' : lstate) : Prop :=
  ll s' = ll s /\ binv (lb s') /\ bframe (lb s) (lb s') /\
  held (lb s') = {[j := l_start (ll s)]} /\
  exists x, view (lb s') = <[l_start (ll s) := x]> (view (lb s)) /\ header_upto x L k.

Lemma head_loop s L j s0 :
  loop_pre s L -> head_held s L j 0 s0 ->
  wp (for_ (length L) (fun i =>
        let! v := load_block i in
        let! d := lift (bdata j) in
        lift (bset j (stle 4 d (hdr_off i) v))))
     (fun _ s' => head_held s L j (length L) s') s0.
Proof.
  intros P H0. pose proof (lp_geom _ _ P) as G. pose proof (lp_trans _ _ P) as T.
  pose proof (header_fits _ _ _ G T) as Hlen.
  apply (wp_for (head_held s L j)); [done|].
  intros k s1 Hk (El & Hi & (Hd & Hw & Hy) & Hh & x & Hv & Hx).
  destruct (lookup_lt_is_Some_2 L k Hk) as [b Hb].
  assert (held (lb s1) !! j = Some (l_start (ll s))) as Hj
    by (rewrite Hh; apply lookup_singleton_eq).
  apply wp_bind. eapply wp_load_block; [rewrite El; by eapply tr_lookup|].
  apply wp_bind, wp_lift. eapply wp_mono; [apply (bdata_spec _ _ _ Hi Hj)|].
  intros d ? (-> & Hvd & Hdl). rewrite Hv, lookup_insert_eq in Hvd. injection Hvd as <-.
  apply wp_lift. eapply wp_mono; [apply (bset_spec _ _ _ _ Hi Hj)|].
  { simpl. by rewrite length_stle. }
  simpl. intros _ b2 (Hi2 & (Hd2 & Hw2 & Hy2) & Hv2 & Hh2).
  split_and!; simpl; [done|done|split_and!; [congruence|congruence|]|congruence|].
  { intros n. by rewrite Hy2. }
  eexists. split; [by rewrite Hv2, Hv, insert_insert_eq|].
  apply header_store; [done|done|done|].
  destruct (trans_elem _ _ _ _ _ T Hb) as (Hbd & _). by apply (lg_dom _ _ G).
Qed.

Lemma log_start_in l d : log_geom l d -> in_log l (l_start l).
Proof. intros G. pose proof (lg_size _ _ G). unfold in_log. lia. Qed.

Lemma start_not_listed s L : loop_pre s L -> l_start (ll s) ∉ L.
Proof.
  intros P Hin. destruct (proj1 (Forall_forall _ _) (tr_home _ _ _ (lp_trans _ _ P)) _ Hin) as [_ H].
  by eapply H, log_start_in, lp_geom.
Qed.

(** Reading one block when nothing is held. *)
Lemma one_read s L n :
  loop_pre s L -> n ∈ dom (disk (lb s)) ->
  wp (bread 1 n) (fun j b => binv b /\ bframe (lb s) b /\ view b = view (lb s) /\
     held b = {[j := n]}) (lb s).
Proof.
  intros P Hn. pose proof (lp_b _ _ P) as Hi. pose proof (lp_held _ _ P) as Hh.
  eapply wp_mono; [apply (bread_spec _ _ Hi Hn)|].
  { intros i. by apply held_empty. }
  { intros _. apply (slot_count _ L Hi (lp_dirty _ _ P)).
    rewrite Hh, map_size_empty, Nat.add_0_r.
    eapply trans_short; [apply (lp_geom _ _ P)|apply (lp_trans _ _ P)]. }
  intros j b (? & ? & ? & _ & Hj). rewrite Hh, insert_empty in Hj. done.
Qed.

Lemma write_head_spec s L :
  loop_pre s L ->
  wp write_head (fun _ s' => ll s' = ll s /\ exists x, header_of x L /\
      copied (lb s) (lb s') [(l_start (ll s), x)] /\
      forall n, dirty_block (lb s') n <-> dirty_block (lb s) n) s.
Proof.
  intros P. pose proof (lp_geom _ _ P) as G. pose proof (lp_trans _ _ P) as T.
  pose proof (start_not_listed _ _ P) as Hst.
  unfold write_head. apply wp_bind, wp_gets. rewrite (lg_dev _ _ G).
  apply wp_bind, wp_lift. eapply wp_mono; [apply (one_read _ _ _ P)|].
  { by eapply (lg_in _ _ G), log_start_in. }
  intros j b1 (Hi1 & (Hd1 & Hw1 & Hy1) & Hv1 & Hh1).
  set (st := l_start (ll s)) in *.
  assert (held b1 !! j = Some st) as Hj by (rewrite Hh1; apply lookup_singleton_eq).
  apply wp_bind, wp_lift. eapply wp_mono; [apply (bdata_spec b1 j st Hi1 Hj)|].
  intros d ? (-> & Hvd & Hdl).
  apply wp_bind, wp_lift. eapply wp_mono; [apply (bset_spec b1 j st _ Hi1 Hj)|].
  { by rewrite length_stle. }
  intros _ b2 (Hi2 & (Hd2 & Hw2 & Hy2) & Hv2 & Hh2). rewrite (tr_n _ _ _ T), Nat2Z.id in *.
  apply wp_bind. eapply wp_mono; [apply (head_loop s L j _ P)|].
  { split_and!; simpl; [done|done|split_and!; [congruence|congruence|]|by rewrite Hh2|].
    - intros n. by rewrite Hy2.
    - eexists. split; [by rewrite Hv2, Hv1|].
      apply header_start; [done|by eapply header_fits]. }
  intros _ s3 (El & Hi3 & (Hd3 & Hw3 & Hy3) & Hh3 & x & Hv3 & Hx). fold st in Hh3, Hv3.
  assert (held (lb s3) !! j = Some st) as Hj3 by (rewrite Hh3; apply lookup_singleton_eq).
  apply wp_bind, wp_lift. eapply wp_mono; [apply (bwrite_spec _ _ _ x Hi3 Hj3)|].
  { rewrite Hv3. apply lookup_insert_eq. }
  intros _ b4 (Hi4 & Hd4 & Hw4 & Hv4 & Hh4 & Hy4).
  apply wp_lift. simpl. eapply wp_mono; [apply (brelse_spec b4 j st Hi4)|].
  { by rewrite Hh4. }
  { right. by rewrite Hv4, Hv3, Hd4, !lookup_insert_eq. }
  intros _ b5 (Hi5 & (Hd5 & Hw5 & Hy5) & Hv5 & Hh5). simpl. split; [done|].
  exists x. split_and!.
  - destruct Hx as (Hx1 & Hx2 & Hx3). split_and!; [done|done|].
    intros i b Hb. apply Hx3; [by eapply lookup_lt_Some|done].
  - split_and!; [done|by rewrite Hh5, Hh4, Hh3, delete_singleton_eq|simpl; congruence..].
  - intros n. rewrite Hy5, Hy4, Hy3. split; [tauto|]. intros Hn. split; [|done].
    intros ->. by apply Hst, (lp_dirty _ _ P).
Qed.

(** The loops' precondition after a step that only writes known blocks. *)
Lemma loop_pre_step s s' L L' W :
  loop_pre s L -> copied (lb s) (lb s') W ->
  Forall (fun n => n ∈ dom (disk (lb s))) W.*1 ->
  (log_geom (ll s) (disk (lb s)) -> log_geom (ll s') (disk (lb s))) ->
  trans (ll s') (disk (lb s)) L' ->
  (forall n, dirty_block (lb s') n -> n ∈ L') -> loop_pre s' L'.
Proof.
  intros P (Hi & Hh & _ & Hd & _) HW G T Hy.
  assert (dom (disk (lb s')) = dom (disk (lb s))) as E by (rewrite Hd; by apply dom_apply_writes).
  destruct (G (lp_geom _ _ P)), T. constructor; [done|done| | |done].
  - constructor; try done; by rewrite E.
  - constructor; try done. by rewrite E.
Qed.

Lemma log_writes_in_dom s L ds :
  loop_pre s L -> length ds = length L ->
  Forall (fun n => n ∈ dom (disk (lb s))) (log_writes (l_start (ll s)) ds).*1.
Proof.
  intros P Hl. apply Forall_forall. intros n Hn%log_writes_fst.
  apply (lg_in _ _ (lp_geom _ _ P)). unfold in_log.
  pose proof (tr_fit _ _ _ (lp_trans _ _ P)). lia.
Qed.

Lemma home_writes_in_dom s L (ds : list (list Z)) :
  loop_pre s L -> length ds = length L ->
  Forall (fun n => n ∈ dom (disk (lb s))) (zip L ds).*1.
Proof.
  intros P Hl. rewrite fst_zip by lia.
  eapply Forall_impl; [apply (tr_home _ _ _ (lp_trans _ _ P))|]. by intros n [].
Qed.

Lemma start_in_dom s L : loop_pre s L -> l_start (ll s) ∈ dom (disk (lb s)).
Proof. intros P. pose proof (lp_geom _ _ P) as G. by eapply (lg_in _ _ G), log_start_in. Qed.

Lemma trans_zero l d : 1 <= l_size l -> trans (set_l_n 0 l) d [].
Proof. intros. constructor; simpl; [done|done|constructor|constructor|lia]. Qed.

(** The disk writes of a commit: the log, the header, the home blocks, and
    the header that empties the log. *)
Definition commit_writes (start : Z) (L : list Z) (ds : list (list Z)) (x x0 : list Z) :=
  log_writes start ds ++ [(start, x)] ++ zip L ds ++ [(start, x0)].

(** [install_trans] and the emptying of the log, common to commit and recovery. *)
Lemma install_clear_spec s L ds :
  loop_pre s L -> length ds = length L ->
  (forall i x, ds !! i = Some x ->
     view (lb s) !! (l_start (ll s) + Z.of_nat i + 1) = Some x) ->
  wp (install_trans;;; lmod (set_l_n 0);;; write_head) (fun _ s' =>
      ll s' = set_l_n 0 (ll s) /\ loop_pre s' [] /\ exists x0, header_of x0 [] /\
      copied (lb s) (lb s') (zip L ds ++ [(l_start (ll s), x0)])) s.
Proof.
  intros P Hlen Hds. pose proof (lp_geom _ _ P) as G. pose proof (lg_size _ _ G) as Hsz.
  wp_use (install_trans_spec s L ds P Hlen Hds). intros _ s1 (E1 & C1 & Y1).
  apply wp_bind, wp_lmod. set (s1' := LState _ _).
  assert (loop_pre s1' []) as P1.
  { apply (loop_pre_step s s1' L [] (zip L ds)); [done|done|by apply home_writes_in_dom|..].
    - subst s1'. simpl. rewrite E1. by intros [].
    - subst s1'. simpl. rewrite E1. apply trans_zero. lia.
    - intros n [Hn1 Hn2]%Y1. by destruct Hn1; apply (lp_dirty _ _ P). }
  eapply wp_mono; [apply (write_head_spec s1' [] P1)|].
  intros _ s2 (E2 & x0 & Hx0 & C2 & Y2). subst s1'. simpl in *. rewrite E1 in *.
  split; [done|]. split.
  - eapply (loop_pre_step _ s2 [] [] _ P1 C2).
    + constructor; [|constructor]. by apply (start_in_dom _ _ P1).
    + rewrite E2. done.
    + rewrite E2. apply (lp_trans _ _ P1).
    + intros n Hn%Y2. by apply (lp_dirty _ _ P1).
  - exists x0. split; [done|]. by eapply copied_trans.
Qed.

(** The contents the transaction [L] gives its blocks. *)
Definition new_data (s : bcache) (L : list Z) (ds : list (list Z)) : Prop :=
  length ds = length L /\
  forall i b x, L !! i = Some b -> ds !! i = Some x -> view s !! b = Some x.

Lemma log_writes_read start ds d i x :
  ds !! i = Some x -> apply_writes (log_writes start ds) d !! (start + Z.of_nat i + 1) = Some x.
Proof.
  intros Hx. apply apply_writes_in; [apply log_writes_nodup|].
  unfold log_writes. apply elem_of_lookup_imap. eauto.
Qed.

Lemma commit_trace s L ds :
  loop_pre s L -> L <> [] -> new_data (lb s) L ds ->
  wp commit (fun _ s' => ll s' = set_l_n 0 (ll s) /\ loop_pre s' [] /\
      exists x x0, header_of x L /\ header_of x0 [] /\
      copied (lb s) (lb s') (commit_writes (l_start (ll s)) L ds x x0)) s.
Proof.
  intros P Hne [Hlen Hds]. unfold commit. apply wp_bind, wp_gets.
  rewrite (tr_n _ _ _ (lp_trans _ _ P)).
  destruct (0 <? Z.of_nat (length L)) eqn:Hpos; [|by destruct L].
  wp_use (write_log_spec s L ds P Hlen Hds). intros _ s1 (E1 & C1 & Y1).
  assert (loop_pre s1 L) as P1.
  { eapply (loop_pre_step s s1 L L _ P C1); [by eapply log_writes_in_dom|rewrite E1; done|..].
    - rewrite E1. apply (lp_trans _ _ P).
    - intros n Hn%Y1. by apply (lp_dirty _ _ P). }
  wp_use (write_head_spec s1 L P1). intros _ s2 (E2 & x & Hx & C2 & Y2).
  assert (loop_pre s2 L) as P2.
  { eapply (loop_pre_step s1 s2 L L _ P1 C2); [|rewrite E2; done|..].
    - constructor; [by eapply start_in_dom|constructor].
    - rewrite E2. apply (lp_trans _ _ P1).
    - intros n Hn%Y2. by apply (lp_dirty _ _ P1). }
  eapply wp_mono; [apply (install_clear_spec s2 L ds P2 Hlen)|].
  - intros i y Hy. rewrite E2, E1. destruct C2 as (_ & _ & -> & _), C1 as (_ & _ & -> & _).
    rewrite E1. simpl. rewrite lookup_insert_ne by lia. by apply log_writes_read.
  - intros _ s3 (E3 & P3 & x0 & Hx0 & C3). rewrite E2, E1 in E3.
    split_and!; [done|done|]. exists x, x0. split_and!; [done|done|].
    unfold commit_writes. rewrite E2, E1 in C3. rewrite E1 in C2.
    eapply copied_trans; [done|]. by eapply copied_trans.
Qed.

(** *** Recovery *)

(** The fields [initlog] reads from the superblock, in a fresh [log]. *)
Definition log_at (start size n : Z) (blocks : list Z) : log :=
  Log start size 0 false 1 n blocks.

(** The disk [d] has a log region [start, start + size) whose header lists
    [L], with the contents [ds] of those blocks in the log blocks. *)
Record disk_log (start size : Z) (d : gmap Z (list Z)) (L : list Z) (ds : list (list Z)) : Prop := {
  dk_len : map_Forall (fun _ b => length b = Z.to_nat BSIZE) d;
  dk_sb : exists b, d !! 1 = Some b /\ sb_logstart (sb_of b) = start /\ sb_nlog (sb_of b) = size;
  dk_size : 1 <= size <= LOGSIZE;
  dk_start : 2 <= start;
  dk_in : forall n, start <= n < start + size -> n ∈ dom d;
  dk_dom : forall n, n ∈ dom d -> 0 <= n < 2147483648;
  dk_hdr : exists x, d !! start = Some x /\ header_of x L;
  dk_nodup : NoDup L;
  dk_home : Forall (fun n => n ∈ dom d /\ ~ (start <= n < start + size) /\ n <> 1) L;
  dk_fit : Z.of_nat (length L) <= size - 1;
  dk_data : length ds = length L /\
    forall i x, ds !! i = Some x -> d !! (start + Z.of_nat i + 1) = Some x;
}.

(** The home blocks of [d]: everything outside the log. *)
Definition home_eq (start size : Z) (d d' : gmap Z (list Z)) : Prop :=
  forall n, ~ (start <= n < start + size) -> d !! n = d' !! n.

(** [read_head] loads the header the disk has. *)
Definition head_loaded (s : lstate) (n : Z) (L : list Z) (k : nat) (s' : lstate) : Prop :=
  exists B, ll s' = set_l_block B (set_l_n n (ll s)) /\ length B = Z.to_nat LOGSIZE /\
    take k B = take k L.

Lemma read_head_spec s x L :
  loop_pre s [] -> view (lb s) !! l_start (ll s) = Some x -> header_of x L ->
  (forall n, n ∈ L -> 0 <= n < 2147483648) -> (length L <= 29)%nat ->
  wp read_head (fun _ s' => head_loaded s (Z.of_nat (length L)) L (length L) s' /\
     copied (lb s) (lb s') [] /\ forall n, ~ dirty_block (lb s') n) s.
Proof.
  intros P Hx (Hl & Hn & He) Hr Hlen. pose proof (lp_geom _ _ P) as G.
  unfold read_head. apply wp_bind, wp_gets. rewrite (lg_dev _ _ G).
  apply wp_bind, wp_lift. eapply wp_mono; [apply (one_read _ _ _ P)|].
  { by eapply start_in_dom. }
  intros j b1 (Hi1 & (Hd1 & Hw1 & Hy1) & Hv1 & Hh1).
  assert (held b1 !! j = Some (l_start (ll s))) as Hj by (rewrite Hh1; apply lookup_singleton_eq).
  apply wp_bind, wp_lift. eapply wp_mono; [apply (bdata_spec b1 j _ Hi1 Hj)|].
  intros d ? (-> & Hvd & _). rewrite Hv1, Hx in Hvd. injection Hvd as <-.
  apply wp_bind, wp_lmod. rewrite Hn, i32_small by lia.
  apply wp_bind. rewrite Nat2Z.id.
  eapply wp_mono; [apply (wp_for (fun k s' => head_loaded s (Z.of_nat (length L)) L k s' /\ lb s' = b1))|].
  - split; [|done]. exists (l_block (ll s)). split_and!; [done|apply (lg_len _ _ G)|done].
  - intros k s1 Hk ((B & E & HB & Ht) & Eb).
    destruct (lookup_lt_is_Some_2 L k Hk) as [b Hb].
    pose proof (Hr b (list_elem_of_lookup_2 _ _ _ Hb)).
    rewrite (He k b Hb), i32_small by lia.
    apply wp_store_block; rewrite E; simpl; [rewrite HB; vm_compute (Z.to_nat LOGSIZE); lia|].
    split; [|done]. exists (<[k := b]> B). split_and!; [done|by rewrite length_insert|].
    assert (k < length B)%nat by (rewrite HB; vm_compute (Z.to_nat LOGSIZE); lia).
    rewrite (take_S_r L k b) by done.
    rewrite (take_S_r (<[k:=b]> B) k b) by (by apply list_lookup_insert_eq).
    f_equal. rewrite take_insert_ge by lia. done.
  - intros _ s2 (HL & Eb). apply wp_lift. rewrite Eb.
    eapply wp_mono; [apply (brelse_spec b1 j _ Hi1 Hj)|].
    { rewrite Hv1, Hd1, Hy1. apply clean_or_dirty; [apply (lp_b _ _ P)|].
      intros i. apply held_empty, (lp_held _ _ P). }
    intros _ b3 (Hi3 & (Hd3 & Hw3 & Hy3) & Hv3 & Hh3). split_and!; [done|..].
    + split_and!; simpl; [done|by rewrite Hh3, Hh1, delete_singleton_eq|congruence..|].
      rewrite Hw3, Hw1. by rewrite app_nil_r.
    + intros n. simpl. rewrite Hy3, Hy1. intros Hn'%(lp_dirty _ _ P). by apply not_elem_of_nil in Hn'.
Qed.

Lemma readsb_spec s b :
  binv s -> held s = ∅ -> (forall n, ~ dirty_block s n) -> disk s !! 1 = Some b ->
  view s !! 1 = Some b ->
  wp (readsb 1) (fun sb s' => sb = sb_of b /\ copied s s' [] /\ forall n, ~ dirty_block s' n) s.
Proof.
  intros Hi Hh Hy Hd Hv. unfold readsb.
  wp_use (bread_spec s 1 Hi).
  { apply elem_of_dom. by exists b. } { intros i. by apply held_empty. }
  { intros _. apply (slot_count s [] Hi); [intros n Hn; by destruct (Hy n)|].
    rewrite Hh, map_size_empty. unfold NBUF. simpl. lia. }
  intros i s1 (Hi1 & (Hd1 & Hw1 & Hy1) & Hv1 & _ & Hh1). rewrite Hh, insert_empty in Hh1.
  assert (held s1 !! i = Some 1) as Hh1' by (rewrite Hh1; apply lookup_singleton_eq).
  wp_use (bdata_spec s1 i 1 Hi1 Hh1'). intros d ? (-> & Hd' & _).
  rewrite Hv1, Hv in Hd'. injection Hd' as <-.
  wp_use (brelse_spec s1 i 1 Hi1 Hh1').
  { right. by rewrite Hv1, Hv, Hd1. }
  intros _ s2 (Hi2 & (Hd2 & Hw2 & Hy2) & Hv2 & Hh2). apply wp_ret. split_and!; [done|..].
  - split_and!; simpl; [done|by rewrite Hh2, Hh1, delete_singleton_eq|congruence..|].
    rewrite Hw2, Hw1. by rewrite app_nil_r.
  - intros n. rewrite Hy2, Hy1. apply Hy.
Qed.

Lemma initlog_spec start size d L ds :
  disk_log start size d L ds ->
  wp (initlog 1) (fun _ s' => loop_pre s' [] /\
      (exists B, ll s' = log_at start size 0 B) /\ exists x0, header_of x0 [] /\
      copied (binit d) (lb s') (zip L ds ++ [(start, x0)])) (LState log0 (binit d)).
Proof.
  intros K. destruct (binit_spec d (dk_len _ _ _ _ _ K)) as (Hi & _ & Hv & Hd & Hw & Hh & Hy).
  revert Hi Hv Hd Hw Hh Hy. generalize (binit d) as b0. intros b0 Hi Hv Hd Hw Hh Hy.
  destruct (dk_sb _ _ _ _ _ K) as (b & Hb & Hst & Hsz). pose proof (dk_size _ _ _ _ _ K) as Hs.
  pose proof (dk_start _ _ _ _ _ K) as Hs0. destruct (dk_data _ _ _ _ _ K) as [Hlen Hds].
  assert (start < 2147483648) as Hst'.
  { apply (dk_dom _ _ _ _ _ K), (dk_in _ _ _ _ _ K). lia. }
  unfold initlog. apply wp_bind. change (BSIZE <=? sizeof_logheader) with false. apply wp_ret.
  apply wp_bind, wp_lift. eapply wp_mono; [apply (readsb_spec _ b Hi Hh Hy)|].
  { by rewrite Hd. } { by rewrite Hv. }
  intros sb b1 (-> & C1 & Y1). apply wp_bind, wp_lmod.
  rewrite Hst, Hsz, !i32_small by (unfold LOGSIZE, MAXOPBLOCKS in *; lia).
  set (s1 := LState _ _). pose proof C1 as (Hi1 & Hh1 & Hv1 & Hd1 & Hw1). simpl in *.
  assert (loop_pre s1 []) as P1.
  { constructor; simpl; [done|done| | |intros n Hn; by destruct (Y1 n)].
    - constructor; simpl; rewrite ?Hd1, ?Hd; [done|done|apply (dk_in _ _ _ _ _ K)
        |apply (dk_dom _ _ _ _ _ K)|done].
    - constructor; simpl; [done|done|constructor|constructor|lia]. }
  destruct (dk_hdr _ _ _ _ _ K) as (x & Hx & Hh'). pose proof (dk_fit _ _ _ _ _ K).
  pose proof (dk_home _ _ _ _ _ K) as Hhome. rewrite Forall_forall in Hhome.
  unfold recover_from_log. wp_use (read_head_spec s1 x L P1).
  { simpl. by rewrite Hv1, Hv. } { done. }
  { intros n Hn. apply (dk_dom _ _ _ _ _ K). by apply Hhome. }
  { unfold LOGSIZE, MAXOPBLOCKS in *. lia. }
  intros _ s2 ((B & E2 & HB & Ht) & C2 & Y2). rewrite (take_ge L) in Ht by lia.
  assert (loop_pre s2 L) as P2.
  { eapply (loop_pre_step s1 s2 [] L [] P1 C2); [constructor| | |].
    - intros []. rewrite E2. by constructor.
    - rewrite E2. constructor; simpl; [done|done|apply (dk_nodup _ _ _ _ _ K)| |lia].
      apply Forall_forall. intros n Hn. rewrite Hd1, Hd.
      unfold in_log. simpl. destruct (Hhome n Hn) as (? & ? & ?). done.
    - intros n Hn. by destruct (Y2 n). }
  eapply wp_mono; [apply (install_clear_spec s2 L ds P2 Hlen)|].
  { intros i y Hy'. rewrite E2. simpl. destruct C2 as (_ & _ & -> & _). simpl.
    rewrite Hv1, Hv. by apply Hds. }
  intros _ s3 (E3 & P3 & x0 & Hx0 & C3). split_and!; [done|rewrite E3, E2; by eexists|].
  exists x0. split; [done|]. rewrite E2 in C3. simpl in C3.
  eapply (copied_trans _ _ _ []); [done|]. by eapply (copied_trans _ _ _ []).
Qed.

(** *** Operations inside a transaction *)

(** The state between [begin_op] and the commit: the header lists [L], the
    blocks of [L] are pinned and every other block that is not held is as on
    the disk. *)
Record in_trans (s : lstate) (L : list Z) : Prop := {
  it_b : binv (lb s);
  it_geom : log_geom (ll s) (disk (lb s));
  it_trans : trans (ll s) (disk (lb s)) L;
  it_dirty : forall n, dirty_block (lb s) n <-> n ∈ L;
}.

Lemma log_index_spec blocks L i b :
  take (length L) blocks = L ->
  log_index blocks i (length L) b =
    match list_find (eq b) L with Some (j, _) => i + j | None => i + length L end%nat.
Proof.
  revert L i. induction blocks as [|y blocks IH]; intros L i H.
  { rewrite take_nil in H. subst L. simpl. by rewrite Nat.add_0_r. }
  destruct L as [|x L]; simpl in *; [by rewrite Nat.add_0_r|]. injection H as -> H.
  destruct (Z.eqb_spec x b) as [->|Hne].
  - rewrite decide_True by done. simpl. lia.
  - rewrite decide_False by done. rewrite IH by done.
    destruct (list_find (eq b) L) as [[j y]|]; simpl; lia.
Qed.

(** Absorption: a block already listed keeps the list. *)
Lemma log_index_old blocks L b :
  take (length L) blocks = L -> b ∈ L ->
  let i := log_index blocks 0 (length L) b in (i < length L)%nat /\ L !! i = Some b.
Proof.
  intros H Hb. rewrite (log_index_spec _ _ _ _ H). simpl.
  destruct (list_find (eq b) L) as [[j y]|] eqn:E.
  - apply list_find_Some in E as (Hj & -> & _). split; [by eapply lookup_lt_Some|done].
  - apply list_find_None in E. rewrite Forall_forall in E. by destruct (E b Hb).
Qed.

Lemma log_index_new blocks L b :
  take (length L) blocks = L -> b ∉ L -> log_index blocks 0 (length L) b = length L.
Proof.
  intros H Hb. rewrite (log_index_spec _ _ _ _ H).
  destruct (list_find (eq b) L) as [[j y]|] eqn:E; [|done].
  apply list_find_Some in E as (Hj & -> & _). by destruct Hb; eapply list_elem_of_lookup_2.
Qed.

(** The list [log_write] leaves. *)
Definition log_add (L : list Z) (b : Z) : list Z := if decide (b ∈ L) then L else L ++ [b].

Lemma elem_of_log_add L b n : n ∈ log_add L b <-> n = b \/ n ∈ L.
Proof. unfold log_add. case_decide; set_solver. Qed.

Lemma log_header_add l d L b :
  trans l d L -> length (l_block l) = Z.to_nat LOGSIZE -> l_size l <= LOGSIZE ->
  b ∈ dom d -> ~ in_log l b -> Z.of_nat (length L) < l_size l - 1 ->
  let i := log_index (l_block l) 0 (Z.to_nat (l_n l)) b in
  (i < length (l_block l))%nat /\
  let l' := set_l_block (<[i := b]> (l_block l)) l in
  trans (if Z.of_nat i =? l_n l then set_l_n (l_n l + 1) l' else l') d (log_add L b).
Proof.
  intros T HB Hs Hd Hl Hfit. rewrite (tr_n _ _ _ T), Nat2Z.id.
  assert (length L < length (l_block l))%nat as Hlen.
  { rewrite HB. unfold LOGSIZE, MAXOPBLOCKS in *. lia. }
  unfold log_add. case_decide as Hin; cbv zeta.
  - destruct (log_index_old _ _ _ (tr_block _ _ _ T) Hin) as [Hi HLi].
    set (i := log_index _ _ _ _) in *. split; [lia|].
    destruct (Z.eqb_spec (Z.of_nat i) (Z.of_nat (length L))); [lia|].
    destruct T. constructor; try done. simpl.
    rewrite list_insert_id; [done|]. rewrite <- tr_block0 in HLi.
    by apply lookup_take_Some in HLi as [? _].
  - rewrite (log_index_new _ _ _ (tr_block _ _ _ T) Hin). split; [done|].
    rewrite Z.eqb_refl. destruct T. constructor; simpl; rewrite ?length_app; simpl.
    + lia.
    + rewrite Nat.add_1_r, (take_S_r _ _ b) by (by apply list_lookup_insert_eq).
      rewrite take_insert_ge by done. by rewrite tr_block0.
    + apply NoDup_app. split_and!; [done|set_solver|apply NoDup_singleton].
    + apply Forall_app. split; [done|]. by constructor.
    + lia.
Qed.

Lemma log_write_spec s L i n :
  in_trans s L -> held (lb s) !! i = Some n -> 1 <= l_outstanding (ll s) ->
  ~ in_log (ll s) n -> Z.of_nat (length L) < l_size (ll s) - 1 ->
  wp (log_write i) (fun _ s' => in_trans s' (log_add L n) /\ view (lb s') = view (lb s) /\
     held (lb s') = held (lb s) /\ disk (lb s') = disk (lb s) /\ writes (lb s') = writes (lb s) /\
     exists m B, ll s' = set_l_n m (set_l_block B (ll s))) s.
Proof.
  intros [Hi G T Hy] Hh Ho Hn Hfit. unfold log_write. apply wp_bind, wp_gets.
  pose proof (lg_size _ _ G) as Hsz. pose proof (tr_n _ _ _ T) as HnL.
  apply wp_bind, wp_panic_if. { apply orb_false_iff. split; lia. }
  apply wp_bind, wp_panic_if; [lia|]. apply wp_bind, wp_gets.
  destruct (held_inv _ _ _ Hi Hh) as (_ & _ & Hbn & _ & _ & _ & _ & (blk & Hb) & _).
  rewrite Hbn.
  destruct (log_header_add (ll s) (disk (lb s)) L n T (lg_len _ _ G)) as [Hlt T']; try done.
  { lia. } { apply elem_of_dom. by exists blk. }
  set (k := log_index _ _ _ _) in *. apply wp_bind, wp_store_block; [done|].
  apply wp_bind, wp_lmod_if, wp_lift. simpl.
  eapply wp_mono; [apply (pin_spec _ _ _ Hi Hh)|].
  intros _ b' (Hi' & Hd' & Hw' & Hv' & Hh' & Hy'). simpl. split_and!; try done.
  - constructor; simpl; rewrite ?Hd'; [done| |done|].
    + destruct G. case_match; by constructor; simpl; rewrite ?length_insert.
    + intros m. by rewrite Hy', Hy, elem_of_log_add.
  - case_match; [by eexists _, _|]. by exists (l_n (ll s)), (<[k := n]> (l_block (ll s))).
Qed.

(** A process that starts an operation is admitted when the log has room for
    [MAXOPBLOCKS] blocks of every operation that is running. *)
Lemma begin_op_enters s :
  l_committing (ll s) = false -> l_n (ll s) + (l_outstanding (ll s) + 1) * MAXOPBLOCKS <= LOGSIZE ->
  begin_op s = Ret tt (LState (set_l_outstanding (l_outstanding (ll s) + 1) (ll s)) (lb s)).
Proof.
  intros Hc Hn. unfold begin_op. krun. rewrite Hc.
  destruct (LOGSIZE <? _) eqn:E; [lia|done].
Qed.
