(* ===== verification/Blocks.v ===== *)
(** The interface between the file system (fs.c) and the layers below it.

    fs.c uses [bread], the data of a buffer it holds, [log_write] and
    [brelse] between [begin_op] and [end_op]. [Blocks] names these operations
    and states what they promise against an abstract transaction [tx]; the
    log over the buffer cache is an instance, and Fs.v is proved against the
    interface only. *)

From S2P Require Import Prelude Params Bio Log.

(** A transaction in progress. *)
Record tx := Tx {
  tx_view : gmap Z (list Z);   (* the blocks as the process sees them *)
  tx_disk : gmap Z (list Z);   (* the blocks on the disk *)
  tx_held : gmap nat Z;        (* buffers the process holds, and their blocks *)
  tx_log : list Z;             (* blocks of the transaction *)
  tx_start : Z;                (* the log region *)
  tx_size : Z;
}.

Definition tx_set_view (v : gmap Z (list Z)) (t : tx) : tx :=
  Tx v (tx_disk t) (tx_held t) (tx_log t) (tx_start t) (tx_size t).
Definition tx_set_held (h : gmap nat Z) (t : tx) : tx :=
  Tx (tx_view t) (tx_disk t) h (tx_log t) (tx_start t) (tx_size t).
Definition tx_set_log (l : list Z) (t : tx) : tx :=
  Tx (tx_view t) (tx_disk t) (tx_held t) l (tx_start t) (tx_size t).

Definition tx_region (t : tx) (n : Z) : Prop := tx_start t <= n < tx_start t + tx_size t.

(** A buffer is free: fewer than [NBUF] are pinned or held. *)
Definition tx_slot (t : tx) : Prop := (length (tx_log t) + size (tx_held t) < NBUF)%nat.

(** The log takes [k] more blocks. *)
Definition tx_room (k : nat) (t : tx) : Prop :=
  Z.of_nat (length (tx_log t)) + Z.of_nat k <= tx_size t - 1.

Class Blocks (St : Type) := {
  blk_read : Z -> Z -> M St nat;
  blk_data : nat -> M St (list Z);
  blk_set : nat -> list Z -> M St unit;
  blk_log : nat -> M St unit;
  blk_rel : nat -> M St unit;
}.

Class BlocksLaws (St : Type) `{!Blocks St} := {
  blk_abs : St -> tx -> Prop;
  blk_dom s t : blk_abs s t -> dom (tx_view t) = dom (tx_disk t);
  blk_len s t : blk_abs s t ->
    map_Forall (fun _ b => length b = Z.to_nat BSIZE) (tx_view t);
  blk_clean s t n : blk_abs s t -> (forall i, tx_held t !! i <> Some n) ->
    n ∈ tx_log t \/ tx_view t !! n = tx_disk t !! n;
  blk_read_spec s t n : blk_abs s t -> n ∈ dom (tx_view t) ->
    (forall i, tx_held t !! i <> Some n) -> tx_slot t ->
    wp (blk_read 1 n) (fun i s' => tx_held t !! i = None /\
       blk_abs s' (tx_set_held (<[i := n]> (tx_held t)) t)) s;
  blk_data_spec s t i n : blk_abs s t -> tx_held t !! i = Some n ->
    wp (blk_data i) (fun d s' => s' = s /\ tx_view t !! n = Some d /\
       length d = Z.to_nat BSIZE) s;
  blk_set_spec s t i n d : blk_abs s t -> tx_held t !! i = Some n ->
    length d = Z.to_nat BSIZE ->
    wp (blk_set i d) (fun _ s' => blk_abs s' (tx_set_view (<[n := d]> (tx_view t)) t)) s;
  blk_log_spec s t i n : blk_abs s t -> tx_held t !! i = Some n ->
    ~ tx_region t n -> tx_room 1 t ->
    wp (blk_log i) (fun _ s' => blk_abs s' (tx_set_log (log_add (tx_log t) n) t)) s;
  blk_rel_spec s t i n : blk_abs s t -> tx_held t !! i = Some n ->
    (n ∈ tx_log t \/ tx_view t !! n = tx_disk t !! n) ->
    wp (blk_rel i) (fun _ s' => blk_abs s' (tx_set_held (delete i (tx_held t)) t)) s;
}.

(** *** The log over the buffer cache *)

#[export] Instance lstate_blocks : Blocks lstate := {
  blk_read dev n := lift (bread dev n);
  blk_data i := lift (bdata i);
  blk_set i d := lift (bset i d);
  blk_log := log_write;
  blk_rel i := lift (brelse i);
}.

(** [s] is inside an operation, and [t] is what it shows. *)
Definition lstate_abs (s : lstate) (t : tx) : Prop :=
  in_trans s (tx_log t) /\ 1 <= l_outstanding (ll s) /\
  t = Tx (view (lb s)) (disk (lb s)) (held (lb s)) (tx_log t) (l_start (ll s)) (l_size (ll s)).

(** A cache step that keeps the disk and the pinned blocks keeps the
    transaction. *)
Lemma in_trans_frame s L b :
  in_trans s L -> binv b -> bframe (lb s) b -> in_trans (LState (ll s) b) L.
Proof.
  intros [Hi G T Hy] Hb (Hd & _ & Hf). constructor; simpl; rewrite ?Hd; try done.
  intros n. by rewrite Hf.
Qed.

Lemma in_trans_slot s L : in_trans s L -> (length L + size (held (lb s)) < NBUF)%nat -> slot (lb s).
Proof.
  intros [Hi _ _ Hy] Hs. apply (slot_count _ L Hi); [|done]. intros n. by rewrite Hy.
Qed.

#[export] Instance lstate_laws : BlocksLaws lstate.
Proof.
  refine {| blk_abs := lstate_abs |}.
  - intros s t (_ & _ & ->). apply dom_view.
  - intros s t ([Hi _ _ _] & _ & ->) n b. by apply view_length.
  - intros s t n ([Hi _ _ Hy] & _ & Et). rewrite Et. simpl. intros Hh. rewrite <- Hy.
    by apply clean_or_dirty.
  - intros s t n (Ht & Ho & Et) Hn Hh Hs. unfold tx_slot in Hs. rewrite Et in *. simpl in *.
    rewrite dom_view in Hn. apply wp_lift. eapply wp_mono.
    { apply bread_spec; [apply (it_b _ _ Ht)|done|done|intros _; by eapply in_trans_slot]. }
    intros i b (Hi & Hf & Hv & Hi' & Hh'). split; [done|].
    split_and!; [by apply in_trans_frame|done|].
    destruct Hf as (Hd & _). unfold tx_set_held. simpl. congruence.
  - intros s t i n ([Hi _ _ _] & _ & ->) Hh. apply wp_lift. simpl in *.
    eapply wp_mono; [by apply bdata_spec|]. intros d b (-> & Hv & Hl). by destruct s.
  - intros s t i n d (Ht & Ho & Et) Hh Hl. rewrite Et in *. simpl in *. apply wp_lift.
    eapply wp_mono; [by apply (bset_spec _ _ n), Hl; [apply (it_b _ _ Ht)|]|].
    intros _ b (Hi & Hf & Hv & Hh'). split_and!; [by apply in_trans_frame|done|].
    destruct Hf as (Hd & _). unfold tx_set_view. simpl. congruence.
  - intros s t i n (Ht & Ho & Et) Hh Hr Hfit. unfold tx_room, tx_region in *.
    rewrite Et in *. simpl in *.
    eapply wp_mono; [apply (log_write_spec s _ i n Ht); try done; lia|].
    intros _ s' (Ht' & Hv & Hh' & Hd & _ & m & B & El).
    split_and!; [done|by rewrite El|]. unfold tx_set_log. simpl. rewrite El. simpl. congruence.
  - intros s t i n (Ht & Ho & Et) Hh Hc. rewrite Et in *. simpl in *. apply wp_lift.
    rewrite <- (it_dirty _ _ Ht) in Hc.
    eapply wp_mono; [apply (brelse_spec _ _ n); [apply (it_b _ _ Ht)|done|done]|].
    intros _ b (Hi & Hf & Hv & Hh'). split_and!; [by apply in_trans_frame|done|].
    destruct Hf as (Hd & _). unfold tx_set_held. simpl. congruence.
Defined.
