(* ===== verification/Image.v ===== *)
(** A small disk image, on which the properties of the log and of the file
    system are exercised: 48 blocks, a log of 30 blocks that is empty, a root
    directory and in it one file of three bytes. *)

From S2P Require Import Prelude Params KString Bio Log.

Definition image_sb : list Z :=
  le_bytes 4 48 ++ le_bytes 4 13 ++ le_bytes 4 16 ++ le_bytes 4 30 ++ le_bytes 4 2 ++
  le_bytes 4 32 ++ le_bytes 4 34 ++ replicate 484 0.

(** Inode 1 is a directory with three entries in block 36, inode 2 a file of
    three bytes in block 35. *)
Definition image_inodes : list Z :=
  replicate 64 0 ++
  le_bytes 2 1 ++ le_bytes 2 0 ++ le_bytes 2 0 ++ le_bytes 2 1 ++ le_bytes 4 48 ++ le_bytes 4 36 ++ replicate 48 0 ++
  le_bytes 2 2 ++ le_bytes 2 0 ++ le_bytes 2 0 ++ le_bytes 2 1 ++ le_bytes 4 3 ++ le_bytes 4 35 ++ replicate 368 0.

(** Blocks 0 to 36 are in use. *)
Definition image_bitmap : list Z := [255; 255; 255; 255; 31] ++ replicate 507 0.

Definition image_data : list Z := [120; 118; 54] ++ replicate 509 0.

Definition image_dir : list Z :=
  le_bytes 2 1 ++ chars "." ++ replicate 13 0 ++
  le_bytes 2 1 ++ chars ".." ++ replicate 12 0 ++
  le_bytes 2 2 ++ chars "README" ++ replicate 8 0 ++ replicate 464 0.

Definition empty_block : list Z := replicate (Z.to_nat BSIZE) 0.

Definition image (bitmap : list Z) : gmap Z (list Z) :=
  <[1 := image_sb]> (<[32 := image_inodes]> (<[34 := bitmap]> (<[35 := image_data]> (<[36 := image_dir]>
    (gset_to_gmap empty_block (list_to_set (seqZ 0 48))))))).

Lemma image_dom bm n : n ∈ dom (image bm) <-> 0 <= n < 48.
Proof.
  unfold image. rewrite !dom_insert, dom_gset_to_gmap, !elem_of_union, !elem_of_singleton,
    elem_of_list_to_set, elem_of_seqZ. lia.
Qed.

Lemma image_empty bm n : 0 <= n < 48 -> n <> 1 -> n <> 32 -> n <> 34 -> n <> 35 -> n <> 36 ->
  image bm !! n = Some empty_block.
Proof.
  intros. unfold image. rewrite !lookup_insert_ne by lia.
  apply lookup_gset_to_gmap_Some. split; [|done]. by apply elem_of_list_to_set, elem_of_seqZ.
Qed.

Lemma image_len bm : length bm = 512%nat ->
  map_Forall (fun _ b => length b = Z.to_nat BSIZE) (image bm).
Proof.
  intros Hb. unfold image. repeat (apply map_Forall_insert_2; [done|]).
  intros n b [_ <-]%lookup_gset_to_gmap_Some. apply length_replicate.
Qed.

Lemma empty_header : header_of empty_block [].
Proof. split; [apply length_replicate|]. split; [reflexivity|]. intros i b. by rewrite lookup_nil. Qed.

Lemma image_log bm : length bm = 512%nat -> disk_log 2 30 (image bm) [] [].
Proof.
  intros Hb. constructor; try done.
  - by apply image_len.
  - exists image_sb. split; [apply lookup_insert_eq|by vm_compute].
  - intros n Hn. apply image_dom. lia.
  - intros n Hn%image_dom. lia.
  - exists empty_block. split; [apply image_empty; lia|apply empty_header].
  - constructor.
Qed.
