(* ===== verification/LogCrash.v ===== *)
(** Crash safety of the log (log.c: commit, recover_from_log, initlog).

    A crash keeps the disk as the completed block writes left it and loses
    everything in memory: the machine restarts with [binit] and [initlog].
    [writes] records the order of the block writes, so a crash point is a
    prefix of the writes an operation makes. *)

From S2P Require Import Prelude Params Bio Log Blocks Image.

Definition blocks_ok (d : gmap Z (list Z)) : Prop :=
  map_Forall (fun _ b => length b = Z.to_nat BSIZE) d.

Definition writes_ok (d : gmap Z (list Z)) (W : list (Z * list Z)) : Prop :=
  Forall (fun w => w.1 ∈ dom d /\ length w.2 = Z.to_nat BSIZE) W.

Lemma writes_ok_take d W k : writes_ok d W -> writes_ok d (take k W).
Proof. apply Forall_take. Qed.

Lemma writes_ok_dom d W : writes_ok d W -> dom (apply_writes W d) = dom d.
Proof.
  intros H. apply dom_apply_writes, Forall_fmap. eapply Forall_impl; [done|]. by intros w [].
Qed.

Lemma apply_writes_blocks d W : blocks_ok d -> writes_ok d W -> blocks_ok (apply_writes W d).
Proof.
  revert d; induction W as [|[n b] W IH]; intros d Hd HW; simpl; [done|].
  apply Forall_cons in HW as [[Hn Hb] HW]. apply IH.
  - by apply map_Forall_insert_2.
  - eapply Forall_impl; [done|]. simpl. intros w []. split; [|done].
    rewrite dom_insert. set_solver.
Qed.

(** Installing the home blocks again after a part of them is the same as
    installing them once. *)
Lemma install_again (L : list Z) (ds : list (list Z)) d k :
  NoDup L -> length ds = length L ->
  apply_writes (zip L ds) (apply_writes (take k (zip L ds)) d) = apply_writes (zip L ds) d.
Proof.
  intros Hn Hl. apply map_eq. intros n.
  assert ((zip L ds).*1 = L) as E by (apply fst_zip; lia).
  destruct (decide (n ∈ L)) as [Hin|Hin].
  - assert (exists x, (n, x) ∈ zip L ds) as [x Hx].
    { rewrite <- E in Hin. by apply list_elem_of_fmap in Hin as ([? x] & -> & ?); exists x. }
    by rewrite !(apply_writes_in _ _ n x) by (rewrite ?E; done).
  - rewrite !apply_writes_ne; rewrite ?E; try done.
    intros Hk. apply Hin. rewrite <- E. rewrite fmap_take in Hk.
    by apply elem_of_take in Hk as (? & ?%list_elem_of_lookup_2 & _).
Qed.

(** The disk recovers to [t]: recovery finds a log on it whose installation
    gives the home blocks of [t]. *)
Definition recovers_to (start size : Z) (d t : gmap Z (list Z)) : Prop :=
  exists L ds, disk_log start size d L ds /\
    home_eq start size (apply_writes (zip L ds) d) t.

Section crash.
Context (start size : Z).

Let region (n : Z) : Prop := start <= n < start + size.

(** Writes to home blocks of a committed transaction keep the log. *)
Lemma disk_log_home_writes d L ds W :
  disk_log start size d L ds -> writes_ok d W -> (forall n, n ∈ W.*1 -> n ∈ L) ->
  disk_log start size (apply_writes W d) L ds.
Proof.
  intros K HW HL. pose proof (writes_ok_dom _ _ HW) as Hdom. destruct K.
  rewrite Forall_forall in dk_home.
  assert (forall n, region n -> apply_writes W d !! n = d !! n) as Hreg.
  { intros n Hn. apply apply_writes_ne. intros Hw%HL. by apply dk_home in Hw as (_ & ? & _). }
  constructor; rewrite ?Hdom; try done.
  - by apply apply_writes_blocks.
  - rewrite apply_writes_ne; [done|]. intros Hw%HL. by apply dk_home in Hw as (_ & _ & ?).
  - rewrite Hreg; [done|unfold region; lia].
  - by apply Forall_forall.
  - destruct dk_data as [Hlen Hds]. split; [done|]. intros i x Hx. rewrite Hreg; [by apply Hds|].
    apply lookup_lt_Some in Hx. unfold region. lia.
Qed.

(** Writes inside the log, the header apart, keep an empty log empty. *)
Lemma disk_log_log_writes d W :
  disk_log start size d [] [] -> writes_ok d W ->
  (forall n, n ∈ W.*1 -> start < n < start + size) ->
  disk_log start size (apply_writes W d) [] [].
Proof.
  intros K HW HL. pose proof (writes_ok_dom _ _ HW) as Hdom. destruct K.
  constructor; rewrite ?Hdom; try done.
  - by apply apply_writes_blocks.
  - rewrite apply_writes_ne; [done|]. intros Hw%HL. lia.
  - rewrite apply_writes_ne; [done|]. intros Hw%HL. lia.
Qed.

(** Writing a header. *)
Lemma disk_log_set_header d L ds L' ds' x :
  disk_log start size d L ds -> header_of x L' -> NoDup L' ->
  Forall (fun n => n ∈ dom d /\ ~ region n /\ n <> 1) L' ->
  Z.of_nat (length L') <= size - 1 -> length ds' = length L' ->
  (forall i b, ds' !! i = Some b -> d !! (start + Z.of_nat i + 1) = Some b) ->
  disk_log start size (<[start := x]> d) L' ds'.
Proof.
  intros K Hx Hn Hhome Hfit Hlen Hds. destruct K.
  assert (dom (<[start := x]> d) = dom d) as Hdom.
  { rewrite dom_insert_L. assert (start ∈ dom d) by (apply dk_in; lia). set_solver. }
  constructor; rewrite ?Hdom; try done.
  - apply map_Forall_insert_2; [by destruct Hx|done].
  - rewrite lookup_insert_ne by lia. done.
  - exists x. by rewrite lookup_insert_eq.
  - split; [done|]. intros i b Hb. rewrite lookup_insert_ne by lia. by apply Hds.
Qed.

Lemma disk_log_home_ok d L ds : disk_log start size d L ds -> writes_ok d (zip L ds).
Proof.
  intros K. destruct (dk_data _ _ _ _ _ K) as [Hlen Hds]. apply Forall_lookup.
  intros i [n b] Hi. apply lookup_zip_Some in Hi as [Hn Hb]. simpl. split.
  - by destruct (proj1 (Forall_lookup _ _) (dk_home _ _ _ _ _ K) i n Hn).
  - eapply (dk_len _ _ _ _ _ K). by eapply Hds.
Qed.

Lemma home_eq_header d x : 1 <= size -> home_eq start size (<[start := x]> d) d.
Proof. intros Hs n Hn. apply lookup_insert_ne. lia. Qed.

(** Any prefix of recovery's own writes recovers to the same home blocks. *)
Lemma recovery_prefix d L ds x0 k :
  disk_log start size d L ds -> header_of x0 [] ->
  recovers_to start size (apply_writes (take k (zip L ds ++ [(start, x0)])) d)
    (apply_writes (zip L ds) d).
Proof.
  intros K Hx0. pose proof (disk_log_home_ok _ _ _ K) as HW.
  pose proof (dk_size _ _ _ _ _ K) as Hsz.
  destruct (dk_data _ _ _ _ _ K) as [Hlen _].
  assert ((zip L ds).*1 = L) as E by (apply fst_zip; lia).
  destruct (decide (k <= length (zip L ds))%nat) as [Hk|Hk].
  - rewrite take_app_le by done. exists L, ds. split.
    + apply disk_log_home_writes; [done|by apply writes_ok_take|].
      intros n Hn. rewrite fmap_take, E in Hn.
      by apply elem_of_take in Hn as (? & ?%list_elem_of_lookup_2 & _).
    + intros n _. by rewrite install_again by (done || apply (dk_nodup _ _ _ _ _ K)).
  - rewrite take_ge by (rewrite length_app; simpl; lia). rewrite apply_writes_app. simpl.
    exists [], []. split.
    + eapply disk_log_set_header; try done; [|constructor|simpl; lia].
      apply disk_log_home_writes; [done|done|by rewrite E].
    + simpl. apply home_eq_header. lia.
Qed.

Lemma log_writes_ok d (L : list Z) ds :
  disk_log start size d [] [] -> length ds = length L -> Z.of_nat (length L) <= size - 1 ->
  Forall (fun b => length b = Z.to_nat BSIZE) ds -> writes_ok d (log_writes start ds).
Proof.
  intros K Hlen Hfit Hds. apply Forall_forall. intros [n b] Hin.
  apply log_writes_region in Hin as Hr. split; simpl.
  - apply (dk_in _ _ _ _ _ K). lia.
  - apply elem_of_lookup_imap_1 in Hin as (i & b' & E & Hb). injection E as _ ->.
    by apply (proj1 (Forall_lookup _ _) Hds i).
Qed.

(** Every prefix of a commit's writes recovers to the state before the
    transaction or to the state after it. *)
Lemma commit_prefix d L ds x x0 k :
  disk_log start size d [] [] -> header_of x L -> header_of x0 [] -> NoDup L ->
  Forall (fun n => n ∈ dom d /\ ~ region n /\ n <> 1) L ->
  Z.of_nat (length L) <= size - 1 -> length ds = length L ->
  Forall (fun b => length b = Z.to_nat BSIZE) ds ->
  let d' := apply_writes (take k (commit_writes start L ds x x0)) d in
  recovers_to start size d' d \/ recovers_to start size d' (apply_writes (zip L ds) d).
Proof.
  intros K Hx Hx0 Hnd Hhome Hfit Hlen Hds. unfold commit_writes. cbv zeta.
  pose proof (log_writes_ok _ _ _ K Hlen Hfit Hds) as HW.
  pose proof (writes_ok_dom _ _ HW) as Hdom. pose proof (dk_size _ _ _ _ _ K) as Hsz.
  assert (forall n, n ∈ (log_writes start ds).*1 -> start < n < start + size) as Hreg
    by (intros n Hn%log_writes_fst; lia).
  destruct (decide (k <= length (log_writes start ds))%nat) as [Hk|Hk]; [left|right].
  - rewrite take_app_le by done. exists [], [].
    assert (forall n, n ∈ (take k (log_writes start ds)).*1 -> start < n < start + size) as Hreg'.
    { intros n Hn. rewrite fmap_take in Hn.
      apply elem_of_take in Hn as (? & ?%list_elem_of_lookup_2 & _). by apply Hreg. }
    split; [apply disk_log_log_writes; [done|by apply writes_ok_take|done]|].
    intros n Hn. simpl. apply apply_writes_ne. intros ?%Hreg'. lia.
  - assert (exists k', k = (length (log_writes start ds) + S k')%nat) as [k' ->].
    { exists (k - S (length (log_writes start ds)))%nat. lia. }
    rewrite take_app_add. simpl take. rewrite apply_writes_app.
    set (d1 := apply_writes (log_writes start ds) d) in *. simpl.
    assert (disk_log start size (<[start := x]> d1) L ds) as K1.
    { eapply disk_log_set_header; try done.
      - by apply disk_log_log_writes.
      - by rewrite Hdom.
      - intros i b Hb. by apply log_writes_read. }
    destruct (recovery_prefix _ _ _ x0 k' K1 Hx0) as (L' & ds' & K' & He).
    exists L', ds'. split; [done|]. intros n Hn. rewrite He by done.
    destruct (decide (n ∈ L)) as [Hin|Hin].
    + assert ((zip L ds).*1 = L) as E by (apply fst_zip; lia). rewrite <- E in Hin.
      apply list_elem_of_fmap in Hin as ([n' b] & -> & Hb). simpl.
      by rewrite !(apply_writes_in _ _ n' b) by (rewrite ?E; done).
    + rewrite !(apply_writes_ne (zip L ds)) by (rewrite fst_zip; [done|lia]).
      rewrite lookup_insert_ne by lia. subst d1. apply apply_writes_ne. intros ?%Hreg. lia.
Qed.

End crash.

(** The state in which the last operation of a transaction commits: the
    header lists the blocks [L], every modified block is among them, and the
    log on the disk is empty. *)
Record committable (s : lstate) (L : list Z) : Prop := {
  cm_pre : loop_pre s L;
  cm_disk : disk_log (l_start (ll s)) (l_size (ll s)) (disk (lb s)) [] [];
  cm_sb : 1 ∉ L;
}.

(** [d] crashes during its recovery and leaves [d']. *)
Definition recovery_crash (d d' : gmap Z (list Z)) : Prop :=
  exists s k, initlog 1 (LState log0 (binit d)) = Ret tt s /\
    d' = apply_writes (take k (writes (lb s))) d.

(** The block writes that [s'] made after [s]. *)
Definition writes_since (s s' : lstate) : list (Z * list Z) :=
  drop (length (writes (lb s))) (writes (lb s')).

Lemma copied_since s s' W : copied (lb s) (lb s') W -> writes_since s s' = W.
Proof. intros (_ & _ & _ & _ & Hw). unfold writes_since. rewrite Hw. apply drop_app_length. Qed.

Lemma trans_data s L :
  loop_pre s L -> exists ds, new_data (lb s) L ds /\
    Forall (fun b => length b = Z.to_nat BSIZE) ds.
Proof.
  intros P. pose proof (tr_home _ _ _ (lp_trans _ _ P)) as Hh. rewrite Forall_forall in Hh.
  assert (forall n, n ∈ L -> exists b, view (lb s) !! n = Some b) as Hex.
  { intros n [Hn _]%Hh. apply elem_of_dom. by rewrite dom_view. }
  exists ((fun n => default [] (view (lb s) !! n)) <$> L).
  split; [split; [by rewrite length_fmap|]|].
  - intros i b x Hb. rewrite list_lookup_fmap, Hb. simpl. intros [= <-].
    destruct (Hex b) as [y ->]; [by eapply list_elem_of_lookup_2|done].
  - apply Forall_fmap, Forall_forall. intros n Hn. destruct (Hex n Hn) as [y Hy]. simpl.
    rewrite Hy. eapply view_length; [apply (lp_b _ _ P)|done].
Qed.

(** The home blocks with the transaction installed are what processes saw. *)
Lemma installed_view s L ds :
  committable s L -> new_data (lb s) L ds ->
  home_eq (l_start (ll s)) (l_size (ll s)) (apply_writes (zip L ds) (disk (lb s))) (view (lb s)).
Proof.
  intros [P K H1] [Hlen Hds] n Hn.
  assert ((zip L ds).*1 = L) as E by (apply fst_zip; lia).
  destruct (decide (n ∈ L)) as [Hin|Hin].
  - rewrite <- E in Hin. apply list_elem_of_fmap in Hin as ([n' b] & -> & Hb). simpl.
    rewrite (apply_writes_in _ _ n' b) by (rewrite ?E; try done; apply (tr_nodup _ _ _ (lp_trans _ _ P))).
    apply list_elem_of_lookup in Hb as [i [Hi Hb]%lookup_zip_Some]. by erewrite Hds.
  - rewrite apply_writes_ne by (by rewrite E).
    destruct (clean_or_dirty (lb s) n) as [Hd|Hd]; [apply (lp_b _ _ P)| | |done].
    + intros i. apply held_empty, (lp_held _ _ P).
    + by apply (lp_dirty _ _ P) in Hd.
Qed.

Lemma recovers_to_mono start size d t t' :
  recovers_to start size d t -> home_eq start size t t' -> recovers_to start size d t'.
Proof. intros (L & ds & K & H) Ht. exists L, ds. split; [done|]. intros n Hn. by rewrite H, Ht. Qed.

Lemma recover_run start size d t :
  recovers_to start size d t ->
  exists s', initlog 1 (LState log0 (binit d)) = Ret tt s' /\
    loop_pre s' [] /\ (exists B, ll s' = log_at start size 0 B) /\
    home_eq start size (disk (lb s')) t /\ view (lb s') = disk (lb s') /\
    disk_log start size (disk (lb s')) [] [] /\
    forall k, recovers_to start size (apply_writes (take k (writes (lb s'))) d) t.
Proof.
  intros (L & ds & K & Ht). pose proof (dk_size _ _ _ _ _ K) as Hsz.
  destruct (binit_spec d (dk_len _ _ _ _ _ K)) as (_ & _ & Hv & Hd & Hw & _ & _).
  destruct (wp_elim _ _ _ (initlog_spec _ _ _ _ _ K)) as ([] & s' & Hrun & P & HB & x0 & Hx0 & C).
  destruct C as (_ & _ & Cv & Cd & Cw). rewrite Hv in Cv. rewrite Hd in Cd. rewrite Hw in Cw.
  simpl in Cw. exists s'. rewrite Cw, Cv, Cd.
  assert (forall k, recovers_to start size (apply_writes (take k (zip L ds ++ [(start, x0)])) d) t) as Hk.
  { intros k. eapply recovers_to_mono; [by apply recovery_prefix|done]. }
  split; [exact Hrun|]. clear Hrun. split_and!; [done|done| |done| |done].
  - rewrite apply_writes_app. simpl. intros n Hn. rewrite (home_eq_header start size) by (done || lia).
    by apply Ht.
  - rewrite apply_writes_app. simpl. eapply disk_log_set_header; try done; [|constructor|simpl; lia].
    apply disk_log_home_writes; [done|by eapply disk_log_home_ok|].
    intros n. destruct (dk_data _ _ _ _ _ K) as [Hlen _]. rewrite fst_zip by lia. done.
Qed.

Lemma recovers_to_crashes start size d d' t :
  rtc recovery_crash d d' -> recovers_to start size d t -> recovers_to start size d' t.
Proof.
  induction 1 as [|d d1 d2 (s & k & Hs & ->) _ IH]; [done|]. intros H. apply IH.
  destruct (recover_run _ _ _ _ H) as (s' & Hs' & _ & _ & _ & _ & _ & Hk).
  rewrite Hs in Hs'. injection Hs' as <-. apply Hk.
Qed.

Lemma commit_run s L :
  committable s L -> L <> [] ->
  exists s' ds x x0, commit s = Ret tt s' /\ ll s' = set_l_n 0 (ll s) /\ loop_pre s' [] /\
    new_data (lb s) L ds /\ Forall (fun b => length b = Z.to_nat BSIZE) ds /\
    header_of x L /\ header_of x0 [] /\
    copied (lb s) (lb s') (commit_writes (l_start (ll s)) L ds x x0).
Proof.
  intros [P K H1] Hne. destruct (trans_data s L P) as (ds & Hds & Hlen).
  destruct (wp_elim _ _ _ (commit_trace s L ds P Hne Hds)) as ([] & s' & Hrun & E & P' & x & x0 & ? & ? & ?).
  by exists s', ds, x, x0.
Qed.

Lemma commit_empty s : l_n (ll s) = 0 -> commit s = Ret tt s.
Proof. intros H. unfold commit. krun. by rewrite H. Qed.

(** Every prefix of the writes of a commit recovers to the old or new blocks. *)
Lemma commit_any s L :
  committable s L -> exists s', commit s = Ret tt s' /\
  forall k, let d := apply_writes (take k (writes_since s s')) (disk (lb s)) in
    recovers_to (l_start (ll s)) (l_size (ll s)) d (disk (lb s)) \/
    recovers_to (l_start (ll s)) (l_size (ll s)) d (view (lb s)).
Proof.
  intros HC. pose proof HC as [P K H1]. pose proof (lp_trans _ _ P) as T.
  destruct (decide (L = [])) as [->|Hne].
  - exists s. split; [apply commit_empty, (tr_n _ _ _ T)|]. intros k. left.
    unfold writes_since. rewrite drop_all, take_nil. by exists [], [].
  - destruct (commit_run s L HC Hne) as (s' & ds & x & x0 & Hrun & _ & _ & Hds & Hlen & Hx & Hx0 & C).
    exists s'. split; [done|]. intros k. cbv zeta. rewrite (copied_since _ _ _ C).
    destruct (commit_prefix _ _ _ L ds x x0 k K Hx Hx0 (tr_nodup _ _ _ T)) as [H|H];
      [|apply (tr_fit _ _ _ T)|apply Hds|done|by left|right].
    + apply Forall_forall. intros n Hn.
      destruct (proj1 (Forall_forall _ _) (tr_home _ _ _ T) n Hn) as [Hd Hl].
      split_and!; [done|done|]. by intros ->.
    + eapply recovers_to_mono; [done|by apply installed_view].
Qed.

(** The writes of a whole commit change the home blocks like the
    installation of the transaction alone. *)
Lemma committed_home s L ds x x0 d t :
  committable s L -> new_data (lb s) L ds ->
  home_eq (l_start (ll s)) (l_size (ll s)) (apply_writes (zip L ds) d) t ->
  home_eq (l_start (ll s)) (l_size (ll s))
    (apply_writes (commit_writes (l_start (ll s)) L ds x x0) d) t.
Proof.
  intros [P K H1] [Hlen Hds] Ht n Hn. rewrite <- Ht by done.
  pose proof (lp_trans _ _ P) as T. pose proof (tr_fit _ _ _ T). pose proof (dk_size _ _ _ _ _ K).
  unfold commit_writes. rewrite !apply_writes_app. simpl. rewrite lookup_insert_ne by lia.
  assert ((zip L ds).*1 = L) as E by (apply fst_zip; lia).
  destruct (decide (n ∈ L)) as [Hin|Hin].
  - rewrite <- E in Hin. apply list_elem_of_fmap in Hin as ([n' b] & -> & Hb). simpl.
    by rewrite !(apply_writes_in _ _ n' b) by (rewrite ?E; try done; apply (tr_nodup _ _ _ T)).
  - rewrite !(apply_writes_ne (zip L ds)) by (by rewrite E).
    rewrite lookup_insert_ne by lia. apply apply_writes_ne.
    intros Hw%log_writes_fst. lia.
Qed.

Lemma view_reinstall s L ds n :
  new_data (lb s) L ds -> NoDup L -> apply_writes (zip L ds) (view (lb s)) !! n = view (lb s) !! n.
Proof.
  intros [Hlen Hds] Hn. assert ((zip L ds).*1 = L) as E by (apply fst_zip; lia).
  destruct (decide (n ∈ L)) as [Hin|Hin].
  - rewrite <- E in Hin. apply list_elem_of_fmap in Hin as ([n' b] & -> & Hb). simpl.
    rewrite (apply_writes_in _ _ n' b) by (rewrite ?E; done).
    apply list_elem_of_lookup in Hb as [i [Hi Hb]%lookup_zip_Some]. by erewrite Hds.
  - apply apply_writes_ne. by rewrite E.
Qed.

Lemma committed_log s L ds x x0 :
  committable s L -> new_data (lb s) L ds ->
  Forall (fun b => length b = Z.to_nat BSIZE) ds -> header_of x L -> header_of x0 [] ->
  disk_log (l_start (ll s)) (l_size (ll s))
    (apply_writes (commit_writes (l_start (ll s)) L ds x x0) (disk (lb s))) [] [].
Proof.
  intros [P K H1] [Hlen Hds] Hd Hx Hx0. pose proof (lp_trans _ _ P) as T.
  pose proof (dk_size _ _ _ _ _ K).
  pose proof (log_writes_ok _ _ _ L ds K Hlen (tr_fit _ _ _ T) Hd) as HW.
  pose proof (writes_ok_dom _ _ HW) as Hdom.
  unfold commit_writes. rewrite !apply_writes_app. simpl.
  assert (disk_log (l_start (ll s)) (l_size (ll s))
    (<[l_start (ll s) := x]> (apply_writes (log_writes (l_start (ll s)) ds) (disk (lb s)))) L ds) as K1.
  { eapply disk_log_set_header; try done; [|apply (tr_nodup _ _ _ T)| |apply (tr_fit _ _ _ T)|].
    - apply disk_log_log_writes; [done|done|]. intros n Hn%log_writes_fst.
      pose proof (tr_fit _ _ _ T). lia.
    - rewrite Hdom. apply Forall_forall. intros n Hn.
      destruct (proj1 (Forall_forall _ _) (tr_home _ _ _ T) n Hn) as [Hn1 Hn2].
      split_and!; [done|done|]. by intros ->.
    - intros i b Hb. by apply log_writes_read. }
  eapply disk_log_set_header; try done; [|constructor|simpl; lia].
  apply disk_log_home_writes; [done|by eapply disk_log_home_ok|].
  intros n. rewrite fst_zip by lia. done.
Qed.

(** C2: a crash at any point of a commit, followed by any number of crashes
    during recovery, and then a recovery that completes, leaves the home
    blocks either all as the disk had them before the commit or all as the
    transaction left them in the cache. Commit and recovery both complete. *)
Theorem commit_crash_atomic s L :
  committable s L ->
  exists s', commit s = Ret tt s' /\
  forall k d1 d2, d1 = apply_writes (take k (writes_since s s')) (disk (lb s)) ->
    rtc recovery_crash d1 d2 ->
    exists s2, initlog 1 (LState log0 (binit d2)) = Ret tt s2 /\
      view (lb s2) = disk (lb s2) /\
      (home_eq (l_start (ll s)) (l_size (ll s)) (disk (lb s2)) (disk (lb s)) \/
       home_eq (l_start (ll s)) (l_size (ll s)) (disk (lb s2)) (view (lb s))).
Proof.
  intros HC. destruct (commit_any s L HC) as (s' & Hrun & Hk). exists s'. split; [done|].
  intros k d1 d2 -> Hd2.
  destruct (Hk k) as [H|H]; apply (recovers_to_crashes _ _ _ _ _ Hd2), recover_run in H
    as (s2 & Hrun2 & _ & _ & Hh & Hv & _); exists s2; auto.
Qed.

(** C3: recovery is idempotent. From a disk that recovers to [t], [initlog]
    completes with the home blocks of [t] on the disk and in the cache and an
    empty log, and a crash after any of its writes leaves a disk that still
    recovers to [t]. *)
Theorem recovery_idempotent start size d t :
  recovers_to start size d t ->
  exists s', initlog 1 (LState log0 (binit d)) = Ret tt s' /\
    home_eq start size (disk (lb s')) t /\ view (lb s') = disk (lb s') /\
    disk_log start size (disk (lb s')) [] [] /\
    l_start (ll s') = start /\ l_size (ll s') = size /\ l_n (ll s') = 0 /\
    forall d', rtc recovery_crash d d' -> recovers_to start size d' t.
Proof.
  intros H. destruct (recover_run _ _ _ _ H) as (s' & Hrun & _ & (B & EB) & Hh & Hv & K & _).
  exists s'. split; [exact Hrun|]. clear Hrun. rewrite EB. split_and!; try done. intros d' Hd. by eapply recovers_to_crashes.
Qed.

(** a commit that completes installs the transaction: the disk has every
    home block as processes saw it, processes see the same home blocks, no
    buffer is pinned, and the log is empty in memory and on the disk. *)
Theorem commit_installs s L :
  committable s L ->
  exists s', commit s = Ret tt s' /\
    home_eq (l_start (ll s)) (l_size (ll s)) (disk (lb s')) (view (lb s)) /\
    home_eq (l_start (ll s)) (l_size (ll s)) (view (lb s')) (view (lb s)) /\
    (forall n, ~ dirty_block (lb s') n) /\ committable s' [].
Proof.
  intros HC. pose proof HC as [P K H1]. pose proof (lp_trans _ _ P) as T.
  destruct (decide (L = [])) as [->|Hne].
  - exists s. split; [apply commit_empty, (tr_n _ _ _ T)|].
    split_and!; [|done| |done].
    + intros n Hn. by apply (installed_view s [] [] HC).
    + intros n Hn%(lp_dirty _ _ P). by apply not_elem_of_nil in Hn.
  - destruct (commit_run s L HC Hne) as (s' & ds & x & x0 & Hrun & E & P' & Hds & Hlen & Hx & Hx0 & C).
    exists s'. split; [done|]. destruct C as (_ & _ & Cv & Cd & _).
    pose proof (fun d t => committed_home s L ds x x0 d t HC Hds) as Hhome.
    split_and!.
    + rewrite Cd. by apply Hhome, installed_view.
    + rewrite Cv. apply Hhome. intros n Hn. by eapply view_reinstall, tr_nodup.
    + intros n Hn%(lp_dirty _ _ P'). by apply not_elem_of_nil in Hn.
    + constructor; [done| |apply not_elem_of_nil]. rewrite E, Cd. simpl.
      by eapply committed_log.
Qed.

(** *** From an operation of the file system to its commit *)

Lemma committable_abs s t :
  lstate_abs s t -> tx_held t = ∅ -> 1 ∉ tx_log t ->
  disk_log (tx_start t) (tx_size t) (tx_disk t) [] [] -> committable s (tx_log t).
Proof.
  intros ([P1 P2 P3 P4] & _ & Et) Hh H1 K. rewrite Et in Hh, K. simpl in Hh, K.
  constructor; [constructor|..]; try done. intros n. by rewrite P4.
Qed.

(** *** On the image *)

(** The machine after it has started from the image, at the start of a file
    system operation. *)
Definition boot (bm : list Z) : outcome lstate unit :=
  (initlog 1;;; begin_op) (LState log0 (binit (image bm))).

(** The transaction at that point, on the disk [d]. *)
Definition tx0 (d : gmap Z (list Z)) : tx := Tx d d ∅ [] 2 30.

Record booted (bm : list Z) (s : lstate) (d : gmap Z (list Z)) : Prop := {
  bt_abs : lstate_abs s (tx0 d);
  bt_disk : disk_log 2 30 d [] [];
  bt_home : home_eq 2 30 d (image bm);
  bt_dom : forall n, n ∈ dom d <-> 0 <= n < 48;
}.

Lemma image_recovers bm : length bm = 512%nat -> recovers_to 2 30 (image bm) (image bm).
Proof. intros Hb. exists [], []. split; [by apply image_log|done]. Qed.

Lemma image_boot bm : length bm = 512%nat -> exists s d, boot bm = Ret tt s /\ booted bm s d.
Proof.
  intros Hb. destruct (recover_run _ _ _ _ (image_recovers bm Hb))
    as (s & Hrun & P & (B & El) & Hh & Hv & K & _).
  exists (LState (set_l_outstanding 1 (ll s)) (lb s)), (disk (lb s)). split.
  { unfold boot. erewrite bind_Ret by exact Hrun. clear Hrun. rewrite begin_op_enters; rewrite El; done. }
  clear Hrun. constructor; try done.
  - destruct P as [P1 P2 [] [] P5]. split_and!; [|done|].
    + constructor; try done. intros n. split; [apply P5|]. by intros ?%not_elem_of_nil.
    + unfold tx0. simpl. by rewrite El, P2, Hv.
  - intros n. rewrite <- (image_dom bm). destruct (decide (2 <= n < 32)).
    + split; intros _; [apply image_dom; lia|]. apply (dk_in _ _ _ _ _ K). lia.
    + by rewrite !elem_of_dom, Hh by lia.
Qed.

(** A transaction of one block: block 40 is rewritten in the cache. *)
Lemma image_transaction : exists s, committable s [40] /\ view (lb s) !! 40 <> disk (lb s) !! 40.
Proof.
  destruct (image_boot image_bitmap eq_refl) as (s & d & _ & [Ha K Hh Hdom]).
  assert (wp (let! i := blk_read 1 40 in blk_set i image_data;;; blk_log i;;; blk_rel i)
    (fun _ s' => lstate_abs s' (Tx (<[40 := image_data]> d) d ∅ [40] 2 30)) s) as H.
  { wp_use (blk_read_spec s (tx0 d) 40); [exact Ha|apply Hdom; lia|done|by apply Nat.ltb_lt|].
    intros i s1 [_ H1].
    wp_use (blk_set_spec s1); [exact H1|apply lookup_insert_eq|done|]. intros [] s2 H2.
    wp_use (blk_log_spec s2); [exact H2|apply lookup_insert_eq|unfold tx_region; simpl; lia|unfold tx_room; simpl; lia|].
    intros [] s3 H3. eapply wp_mono; [eapply (blk_rel_spec s3); [exact H3|apply lookup_insert_eq|]|].
    - left. simpl. apply elem_of_log_add. by left.
    - intros [] s4 H4. unfold tx_set_held, tx_set_log, tx_set_view in H4. simpl in H4.
      rewrite delete_insert_id in H4 by done. exact H4. }
  apply wp_elim in H as ([] & s' & _ & Ha'). exists s'. split.
  - apply (committable_abs s' _ Ha'); [done| |done]. simpl. set_solver.
  - destruct Ha' as (_ & _ & Et). injection Et as Ev Ed _. rewrite <- Ev, <- Ed, lookup_insert_eq.
    rewrite Hh, image_empty by lia. by vm_compute.
Qed.

Lemma commit_crash_atomic_witness : exists s L, L <> [] /\ committable s L /\
  exists s', commit s = Ret tt s' /\
  forall k d1 d2, d1 = apply_writes (take k (writes_since s s')) (disk (lb s)) ->
    rtc recovery_crash d1 d2 ->
    exists s2, initlog 1 (LState log0 (binit d2)) = Ret tt s2 /\
      view (lb s2) = disk (lb s2) /\
      (home_eq (l_start (ll s)) (l_size (ll s)) (disk (lb s2)) (disk (lb s)) \/
       home_eq (l_start (ll s)) (l_size (ll s)) (disk (lb s2)) (view (lb s))).
Proof.
  destruct image_transaction as (s & Hs & _). exists s, [40]. split; [done|]. split; [exact Hs|].
  exact (commit_crash_atomic s [40] Hs).
Defined.

Lemma recovery_idempotent_witness : exists s',
  initlog 1 (LState log0 (binit (image image_bitmap))) = Ret tt s' /\
  home_eq 2 30 (disk (lb s')) (image image_bitmap).
Proof.
  destruct (recovery_idempotent 2 30 (image image_bitmap) (image image_bitmap)) as (s' & Hrun & H & _).
  - apply image_recovers. reflexivity.
  - exists s'. split; [exact Hrun|exact H].
Defined.

Lemma commit_installs_witness : exists s s', view (lb s) !! 40 <> disk (lb s) !! 40 /\
  commit s = Ret tt s' /\ home_eq (l_start (ll s)) (l_size (ll s)) (disk (lb s')) (view (lb s)).
Proof.
  destruct image_transaction as (s & Hs & Hne). destruct (commit_installs s [40] Hs) as (s' & Hc & H & _).
  exists s, s'. split; [exact Hne|]. split; [exact Hc|exact H].
Defined.
