(* ===== verification/Fs.v ===== *)
(** The file system (fs.c, file.h): block allocator, inodes, file contents,
    directories and path names, over the interface of Blocks.v.

    An inode pointer is an index into the inode cache. A kernel buffer that
    receives data is the list of bytes written to it; a buffer that is read
    is the list of its bytes, and reading past its end is [Undef]. *)

From S2P Require Import Prelude Params KString Log Blocks.

(** [struct inode] (file.h). *)
Record inode := Inode {
  i_dev : Z;
  i_inum : Z;
  i_ref : Z;
  i_locked : bool;    (* lock *)
  i_valid : bool;
  i_type : Z;
  i_major : Z;
  i_minor : Z;
  i_nlink : Z;
  i_size : Z;
  i_addrs : list Z;   (* addrs[NDIRECT+1] *)
}.

#[export] Instance inode_inhabited : Inhabited inode :=
  populate (Inode 0 0 0 false false 0 0 0 0 0 (replicate 13 0)).

Definition set_i_ident (dev inum ref : Z) (valid : bool) (i : inode) : inode :=
  Inode dev inum ref (i_locked i) valid (i_type i) (i_major i) (i_minor i) (i_nlink i)
        (i_size i) (i_addrs i).
Definition set_i_ref (v : Z) (i : inode) : inode :=
  Inode (i_dev i) (i_inum i) v (i_locked i) (i_valid i) (i_type i) (i_major i) (i_minor i)
        (i_nlink i) (i_size i) (i_addrs i).
Definition set_i_locked (v : bool) (i : inode) : inode :=
  Inode (i_dev i) (i_inum i) (i_ref i) v (i_valid i) (i_type i) (i_major i) (i_minor i)
        (i_nlink i) (i_size i) (i_addrs i).
Definition set_i_valid (v : bool) (i : inode) : inode :=
  Inode (i_dev i) (i_inum i) (i_ref i) (i_locked i) v (i_type i) (i_major i) (i_minor i)
        (i_nlink i) (i_size i) (i_addrs i).
Definition set_i_type (v : Z) (i : inode) : inode :=
  Inode (i_dev i) (i_inum i) (i_ref i) (i_locked i) (i_valid i) v (i_major i) (i_minor i)
        (i_nlink i) (i_size i) (i_addrs i).
Definition set_i_nlink (v : Z) (i : inode) : inode :=
  Inode (i_dev i) (i_inum i) (i_ref i) (i_locked i) (i_valid i) (i_type i) (i_major i)
        (i_minor i) v (i_size i) (i_addrs i).
Definition set_i_dev (major minor : Z) (i : inode) : inode :=
  Inode (i_dev i) (i_inum i) (i_ref i) (i_locked i) (i_valid i) (i_type i) major minor
        (i_nlink i) (i_size i) (i_addrs i).
Definition set_i_size (v : Z) (i : inode) : inode :=
  Inode (i_dev i) (i_inum i) (i_ref i) (i_locked i) (i_valid i) (i_type i) (i_major i)
        (i_minor i) (i_nlink i) v (i_addrs i).
Definition set_i_addrs (v : list Z) (i : inode) : inode :=
  Inode (i_dev i) (i_inum i) (i_ref i) (i_locked i) (i_valid i) (i_type i) (i_major i)
        (i_minor i) (i_nlink i) (i_size i) v.

(** The global [sb], the inode cache, and the blocks below. *)
Record fs (St : Type) := Fs {
  fs_sb : superblock;
  fs_icache : list inode;   (* icache.inode[NINODE] *)
  fs_st : St;
}.
Arguments Fs {St} _ _ _.
Arguments fs_sb {St} _.
Arguments fs_icache {St} _.
Arguments fs_st {St} _.

(** [struct devsw devsw[]]: the read and write functions of a device. *)
Class Devsw (St : Type) := {
  devsw_read : Z -> option (nat -> Z -> M (fs St) (Z * list Z));
  devsw_write : Z -> option (nat -> list Z -> Z -> M (fs St) Z);
}.

Definition BBLOCK (b : Z) (sb : superblock) : Z := b / BPB + sb_bmapstart sb.
Definition IBLOCK (i : Z) (sb : superblock) : Z := i / IPB + sb_inodestart sb.

(** *** The on-disk inode *)

Record dinode := Dinode {
  di_type : Z; di_major : Z; di_minor : Z; di_nlink : Z; di_size : Z; di_addrs : list Z;
}.

(** The byte offset of entry [inum%IPB] of an inode block. *)
Definition dinode_off (inum : Z) : nat := Z.to_nat (sizeof_dinode * (inum mod IPB)).

Definition ld_dinode (d : list Z) (o : nat) : dinode :=
  Dinode (i16 (ldle 2 d o)) (i16 (ldle 2 d (o + 2))) (i16 (ldle 2 d (o + 4)))
    (i16 (ldle 2 d (o + 6))) (ldle 4 d (o + 8))
    ((fun k => ldle 4 d (o + 12 + 4 * k)) <$> seq 0 13).

(** [memmove(dip->addrs, ip->addrs, sizeof(ip->addrs))] *)
Definition st_addrs (d : list Z) (o : nat) (addrs : list Z) : list Z :=
  foldl (fun d k => stle 4 d (o + 4 * k) (addrs !!! k)) d (seq 0 13).

Definition st_dinode (d : list Z) (o : nat) (i : dinode) : list Z :=
  let d := stle 2 d o (di_type i) in
  let d := stle 2 d (o + 2) (di_major i) in
  let d := stle 2 d (o + 4) (di_minor i) in
  let d := stle 2 d (o + 6) (di_nlink i) in
  let d := stle 4 d (o + 8) (di_size i) in
  st_addrs d (o + 12) (di_addrs i).

Section fs_c.
Context {St : Type} `{!Blocks St}.

#[local] Abbreviation F := (M (fs St)).

(** A block operation run on the whole state. *)
Definition fslift {A} (m : M St A) : F A :=
  fun s => match m (fs_st s) with
           | Ret a b => Ret a (Fs (fs_sb s) (fs_icache s) b)
           | Fail e => Fail e
           end.

Definition inodeat (ip : nat) (s : fs St) : inode := fs_icache s !!! ip.
Definition iupd (ip : nat) (f : inode -> inode) : F unit :=
  modify (fun s => Fs (fs_sb s) (<[ip := f (inodeat ip s)]> (fs_icache s)) (fs_st s)).

(** [readsb(dev, &sb)] into the global superblock. *)
Definition readsb_global (dev : Z) : F unit :=
  let! bp := fslift (blk_read dev 1) in
  let! d := fslift (blk_data bp) in
  modify (fun s => Fs (sb_of d) (fs_icache s) (fs_st s));;;
  fslift (blk_rel bp).

Definition bzero (dev bno : Z) : F unit :=
  let! bp := fslift (blk_read dev bno) in
  fslift (blk_set bp (replicate (Z.to_nat BSIZE) 0));;;
  fslift (blk_log bp);;;
  fslift (blk_rel bp).

Definition balloc (dev : Z) : F Z :=
  let! sb := gets fs_sb in
  let! r := for_find (Z.to_nat ((sb_size sb + BPB - 1) / BPB)) (fun k =>
    let b := Z.of_nat k * BPB in
    let! bp := fslift (blk_read dev (BBLOCK b sb)) in
    let! r := for_find (Z.to_nat (Z.min BPB (sb_size sb - b))) (fun bi =>
      let m := Z.shiftl 1 (Z.of_nat (bi mod 8)) in
      let! d := fslift (blk_data bp) in
      let! x := of_option (d !! (bi / 8)%nat) in
      if Z.land x m =? 0 then
        fslift (blk_set bp (<[(bi / 8)%nat := u8 (Z.lor x m)]> d));;;
        fslift (blk_log bp);;;
        fslift (blk_rel bp);;;
        bzero dev (b + Z.of_nat bi);;;
        ret (Some (b + Z.of_nat bi))
      else ret None) in
    match r with
    | Some x => ret (Some x)
    | None => fslift (blk_rel bp);;; ret None
    end) in
  match r with Some x => ret x | None => panic "balloc: out of blocks" end.

Definition bfree (dev b : Z) : F unit :=
  readsb_global dev;;;
  let! sb := gets fs_sb in
  let! bp := fslift (blk_read dev (BBLOCK b sb)) in
  let bi := b mod BPB in
  let m := Z.shiftl 1 (bi mod 8) in
  let! d := fslift (blk_data bp) in
  let! x := of_option (d !! Z.to_nat (bi / 8)) in
  panic_if (Z.land x m =? 0) "freeing free block";;;
  fslift (blk_set bp (<[Z.to_nat (bi / 8) := u8 (Z.land x (Z.lnot m))]> d));;;
  fslift (blk_log bp);;;
  fslift (blk_rel bp).

(** *** Inodes *)

(** The scan of [iget]: the entry of the inode, or the first free one. *)
Fixpoint iget_scan (dev inum : Z) (empty : option nat) (i : nat) (c : list inode)
  : nat + option nat :=
  match c with
  | [] => inr empty
  | ip :: c =>
    if (0 <? i_ref ip) && (i_dev ip =? dev) && (i_inum ip =? inum) then inl i
    else iget_scan dev inum
           (match empty with None => if i_ref ip =? 0 then Some i else None | _ => empty end)
           (S i) c
  end.

Definition iget (dev inum : Z) : F nat :=
  let! c := gets fs_icache in
  match iget_scan dev inum None 0 c with
  | inl ip => iupd ip (fun i => set_i_ref (i_ref i + 1) i);;; ret ip
  | inr None => panic "iget: no inodes"
  | inr (Some ip) => iupd ip (set_i_ident dev inum 1 false);;; ret ip
  end.

Definition idup (ip : nat) : F nat :=
  iupd ip (fun i => set_i_ref (i_ref i + 1) i);;; ret ip.

Definition i_acquiresleep (ip : nat) : F unit :=
  let! i := gets (inodeat ip) in
  if i_locked i then fail Block else iupd ip (set_i_locked true).
Definition i_releasesleep (ip : nat) : F unit := iupd ip (set_i_locked false).

Definition ialloc (dev type : Z) : F nat :=
  let! sb := gets fs_sb in
  let! r := for_find (Z.to_nat (sb_ninodes sb - 1)) (fun k =>
    let inum := Z.of_nat k + 1 in
    let! bp := fslift (blk_read dev (IBLOCK inum sb)) in
    let! d := fslift (blk_data bp) in
    let o := dinode_off inum in
    if i16 (ldle 2 d o) =? 0 then
      let d := list_inserts o (replicate (Z.to_nat sizeof_dinode) 0) d in
      fslift (blk_set bp (stle 2 d o type));;;
      fslift (blk_log bp);;;
      fslift (blk_rel bp);;;
      let! ip := iget dev inum in
      ret (Some ip)
    else
      fslift (blk_rel bp);;; ret None) in
  match r with Some ip => ret ip | None => panic "ialloc: no inodes" end.

Definition to_dinode (i : inode) : dinode :=
  Dinode (i_type i) (i_major i) (i_minor i) (i_nlink i) (i_size i) (i_addrs i).

Definition iupdate (ip : nat) : F unit :=
  let! i := gets (inodeat ip) in
  let! sb := gets fs_sb in
  let! bp := fslift (blk_read (i_dev i) (IBLOCK (i_inum i) sb)) in
  let! d := fslift (blk_data bp) in
  fslift (blk_set bp (st_dinode d (dinode_off (i_inum i)) (to_dinode i)));;;
  fslift (blk_log bp);;;
  fslift (blk_rel bp).

Definition from_dinode (di : dinode) (i : inode) : inode :=
  Inode (i_dev i) (i_inum i) (i_ref i) (i_locked i) (i_valid i) (di_type di) (di_major di)
        (di_minor di) (di_nlink di) (di_size di) (di_addrs di).

Definition ilock (ip : nat) : F unit :=
  let! i := gets (inodeat ip) in
  panic_if (i_ref i <? 1) "ilock";;;
  i_acquiresleep ip;;;
  if i_valid i then ret tt
  else
    let! sb := gets fs_sb in
    let! bp := fslift (blk_read (i_dev i) (IBLOCK (i_inum i) sb)) in
    let! d := fslift (blk_data bp) in
    iupd ip (from_dinode (ld_dinode d (dinode_off (i_inum i))));;;
    fslift (blk_rel bp);;;
    iupd ip (set_i_valid true);;;
    let! i := gets (inodeat ip) in
    panic_if (i_type i =? 0) "ilock: no type".

Definition iunlock (ip : nat) : F unit :=
  let! i := gets (inodeat ip) in
  panic_if (negb (i_locked i) || (i_ref i <? 1)) "iunlock";;;
  i_releasesleep ip.

(** *** Inode content *)

(** Entry [k] of the indirect block held as [bp]. *)
Definition ld_addr (d : list Z) (k : nat) : Z := ldle 4 d (4 * k).
Definition st_addr (d : list Z) (k : nat) (a : Z) : list Z := stle 4 d (4 * k) a.

Definition set_addr (ip k : nat) (a : Z) : F unit :=
  iupd ip (fun i => set_i_addrs (<[k := a]> (i_addrs i)) i).

Definition bmap (ip : nat) (bn : Z) : F Z :=
  let! i := gets (inodeat ip) in
  if bn <? NDIRECT then
    let addr := i_addrs i !!! Z.to_nat bn in
    if addr =? 0 then
      let! addr := balloc (i_dev i) in
      set_addr ip (Z.to_nat bn) addr;;; ret addr
    else ret addr
  else
    let bn := bn - NDIRECT in
    if bn <? NINDIRECT then
      let! addr :=
        (let addr := i_addrs i !!! Z.to_nat NDIRECT in
         if addr =? 0 then
           let! addr := balloc (i_dev i) in
           set_addr ip (Z.to_nat NDIRECT) addr;;; ret addr
         else ret addr) in
      let! bp := fslift (blk_read (i_dev i) addr) in
      let! d := fslift (blk_data bp) in
      let! addr :=
        (let addr := ld_addr d (Z.to_nat bn) in
         if addr =? 0 then
           let! addr := balloc (i_dev i) in
           let! d := fslift (blk_data bp) in
           fslift (blk_set bp (st_addr d (Z.to_nat bn) addr));;;
           fslift (blk_log bp);;; ret addr
         else ret addr) in
      fslift (blk_rel bp);;; ret addr
    else panic "bmap: out of range".

Definition itrunc (ip : nat) : F unit :=
  for_ (Z.to_nat NDIRECT) (fun k =>
    let! i := gets (inodeat ip) in
    let a := i_addrs i !!! k in
    if a =? 0 then ret tt
    else bfree (i_dev i) a;;; set_addr ip k 0);;;
  let! i := gets (inodeat ip) in
  (let a := i_addrs i !!! Z.to_nat NDIRECT in
   if a =? 0 then ret tt
   else
     let! bp := fslift (blk_read (i_dev i) a) in
     for_ (Z.to_nat NINDIRECT) (fun j =>
       let! d := fslift (blk_data bp) in
       let x := ld_addr d j in
       if x =? 0 then ret tt else bfree (i_dev i) x);;;
     fslift (blk_rel bp);;;
     bfree (i_dev i) a;;;
     set_addr ip (Z.to_nat NDIRECT) 0);;;
  iupd ip (set_i_size 0);;;
  iupdate ip.

Definition iput (ip : nat) : F unit :=
  i_acquiresleep ip;;;
  let! i := gets (inodeat ip) in
  (if i_valid i && (i_nlink i =? 0) then
     if i_ref i =? 1 then
       itrunc ip;;;
       iupd ip (set_i_type 0);;;
       iupdate ip;;;
       iupd ip (set_i_valid false)
     else ret tt
   else ret tt);;;
  i_releasesleep ip;;;
  iupd ip (fun i => set_i_ref (i_ref i - 1) i).

Definition iunlockput (ip : nat) : F unit := iunlock ip;;; iput ip.

Record stat := Stat { st_dev : Z; st_ino : Z; st_type : Z; st_nlink : Z; st_size : Z }.

Definition stati (i : inode) : stat :=
  Stat (i32 (i_dev i)) (i_inum i) (i_type i) (i_nlink i) (i_size i).

(** *** Reading and writing *)

Context `{!Devsw St}.

(** The copying loop of [readi]; [acc] is what [dst] has received. *)
Fixpoint readi_loop (fuel : nat) (ip : nat) (off n tot : Z) (acc : list Z) : F (list Z) :=
  if tot <? n then
    match fuel with
    | O => fail NoFuel
    | S fuel =>
      let! a := bmap ip (off / BSIZE) in
      let! i := gets (inodeat ip) in
      let! bp := fslift (blk_read (i_dev i) a) in
      let! d := fslift (blk_data bp) in
      let m := Z.min (n - tot) (BSIZE - off mod BSIZE) in
      let x := slice (Z.to_nat (off mod BSIZE)) (Z.to_nat m) d in
      fslift (blk_rel bp);;;
      readi_loop fuel ip (off + m) n (tot + m) (acc ++ x)
    end
  else ret acc.

Definition readi (ip : nat) (off n : Z) : F (Z * list Z) :=
  let! i := gets (inodeat ip) in
  if i_type i =? T_DEV then
    if (i_major i <? 0) || (NDEV <=? i_major i) then ret (-1, [])
    else match devsw_read (i_major i) with
         | None => ret (-1, [])
         | Some f => f ip n
         end
  else if (i_size i <? off) || (u32 (off + n) <? off) then ret (-1, [])
  else
    let n := if i_size i <? u32 (off + n) then i_size i - off else n in
    let! x := readi_loop (Z.to_nat n) ip off n 0 [] in
    ret (i32 n, x).

(** The loop of [writei] returns the final [off]. *)
Fixpoint writei_loop (fuel : nat) (ip : nat) (src : list Z) (off n tot : Z) : F Z :=
  if tot <? n then
    match fuel with
    | O => fail NoFuel
    | S fuel =>
      let! a := bmap ip (off / BSIZE) in
      let! i := gets (inodeat ip) in
      let! bp := fslift (blk_read (i_dev i) a) in
      let m := Z.min (n - tot) (BSIZE - off mod BSIZE) in
      let! d := fslift (blk_data bp) in
      let x := slice (Z.to_nat tot) (Z.to_nat m) src in
      if decide (length x = Z.to_nat m) then
        fslift (blk_set bp (list_inserts (Z.to_nat (off mod BSIZE)) x d));;;
        fslift (blk_log bp);;;
        fslift (blk_rel bp);;;
        writei_loop fuel ip src (off + m) n (tot + m)
      else fail Undef
    end
  else ret off.

Definition writei (ip : nat) (src : list Z) (off n : Z) : F Z :=
  let! i := gets (inodeat ip) in
  if i_type i =? T_DEV then
    if (i_major i <? 0) || (NDEV <=? i_major i) then ret (-1)
    else match devsw_write (i_major i) with
         | None => ret (-1)
         | Some f => f ip src n
         end
  else if (i_size i <? off) || (u32 (off + n) <? off) then ret (-1)
  else if MAXFILE * BSIZE <? u32 (off + n) then ret (-1)
  else
    let! off := writei_loop (Z.to_nat n) ip src off n 0 in
    let! i := gets (inodeat ip) in
    (if (0 <? n) && (i_size i <? off) then
       iupd ip (set_i_size off);;; iupdate ip
     else ret tt);;;
    ret (i32 n).

(** *** Directories *)

Definition namecmp (s t : list Z) : option Z := strncmp s t DIRSIZ.

(** [struct dirent]: [inum] and [name]. *)
Definition de_inum (de : list Z) : Z := ldle 2 de 0.
Definition de_name (de : list Z) : list Z := drop 2 de.

Definition dirents (size : Z) : nat := Z.to_nat ((size + sizeof_dirent - 1) / sizeof_dirent).

(** Returns the entry's inode and its offset ([*poff]). *)
Definition dirlookup (dp : nat) (name : list Z) : F (option (nat * Z)) :=
  let! i := gets (inodeat dp) in
  panic_if (negb (i_type i =? T_DIR)) "dirlookup not DIR";;;
  for_find (dirents (i_size i)) (fun k =>
    let off := sizeof_dirent * Z.of_nat k in
    let! (r, de) := readi dp off sizeof_dirent in
    panic_if (negb (r =? sizeof_dirent)) "dirlookup read";;;
    if de_inum de =? 0 then ret None
    else
      let! c := of_option (namecmp name (de_name de)) in
      if c =? 0 then
        let! i := gets (inodeat dp) in
        let! ip := iget (i_dev i) (de_inum de) in
        ret (Some (ip, off))
      else ret None).

Definition dirlink (dp : nat) (name : list Z) (inum : Z) : F Z :=
  let! r := dirlookup dp name in
  match r with
  | Some (ip, _) => iput ip;;; ret (-1)
  | None =>
    let! i := gets (inodeat dp) in
    let! r := for_find (dirents (i_size i)) (fun k =>
      let off := sizeof_dirent * Z.of_nat k in
      let! (r, de) := readi dp off sizeof_dirent in
      panic_if (negb (r =? sizeof_dirent)) "dirlink read";;;
      ret (if de_inum de =? 0 then Some off else None)) in
    let off := default (sizeof_dirent * Z.of_nat (dirents (i_size i))) r in
    let! nm := of_option (strncpy name DIRSIZ) in
    let de := le_bytes 2 (u16 inum) ++ nm in
    let! r := writei dp de off sizeof_dirent in
    panic_if (negb (r =? sizeof_dirent)) "dirlink";;;
    ret 0
  end.

End fs_c.

(** *** Paths *)

Definition slash : Z := 47.

(** [while ( *path == '/') path++;] *)
Fixpoint skip_slashes (path : list Z) : option (list Z) :=
  match path with
  | [] => None
  | c :: rest => if c =? slash then skip_slashes rest else Some path
  end.

(** [while ( *path != '/' && *path != 0) path++;], with the bytes passed over. *)
Fixpoint scan_elem (path : list Z) : option (list Z * list Z) :=
  match path with
  | [] => None
  | c :: rest =>
    if (c =? slash) || (c =? 0) then Some ([], path)
    else (fun '(e, r) => (c :: e, r)) <$> scan_elem rest
  end.

(** [skipelem(path, name)]; [name] is the contents of the caller's buffer of
    [DIRSIZ] bytes. The result is [None] outside the string, [Some None] for
    a null pointer, and otherwise the rest of the path and the new [name]. *)
Definition skipelem (path name : list Z) : option (option (list Z * list Z)) :=
  match skip_slashes path with
  | None => None
  | Some path =>
    match path with
    | [] => None
    | c :: _ =>
      if c =? 0 then Some None
      else match scan_elem path with
           | None => None
           | Some (e, rest) =>
             let name :=
               if decide (DIRSIZ <= length e)%nat then list_inserts 0 (take DIRSIZ e) name
               else list_inserts 0 (e ++ [0]) name in
             (fun rest => Some (rest, name)) <$> skip_slashes rest
           end
    end
  end.

Section namex.
Context {St : Type} `{!Blocks St, !Devsw St}.
#[local] Abbreviation F := (M (fs St)).

Fixpoint namex_loop (fuel : nat) (ip : nat) (path : list Z) (parent : bool) (name : list Z)
  : F (option nat * list Z) :=
  let! r := of_option (skipelem path name) in
  match r with
  | None =>
    if parent then iput ip;;; ret (None, name) else ret (Some ip, name)
  | Some (path, name) =>
    match fuel with
    | O => fail NoFuel
    | S fuel =>
      ilock ip;;;
      let! i := gets (inodeat ip) in
      if negb (i_type i =? T_DIR) then iunlockput ip;;; ret (None, name)
      else if parent && match path with c :: _ => c =? 0 | [] => false end then
        iunlock ip;;; ret (Some ip, name)
      else
        let! r := dirlookup ip name in
        match r with
        | None => iunlockput ip;;; ret (None, name)
        | Some (next, _) => iunlockput ip;;; namex_loop fuel next path parent name
        end
    end
  end.

(** [cwd] is [myproc()->cwd]. *)
Definition namex (cwd : nat) (path : list Z) (parent : bool) (name : list Z)
  : F (option nat * list Z) :=
  let! c := of_option (head path) in
  let! ip := (if c =? slash then iget ROOTDEV ROOTINO else idup cwd) in
  namex_loop (length path) ip path parent name.

Definition namei (cwd : nat) (path : list Z) : F (option nat) :=
  let! (r, _) := namex cwd path false (replicate DIRSIZ 0) in ret r.
Definition nameiparent (cwd : nat) (path name : list Z) : F (option nat * list Z) :=
  namex cwd path true name.

End namex.
