(* ===== verification/FsAlloc.v ===== *)
(** The block allocator of fs.c: [bzero], [balloc] and [bfree] against the
    free bitmap, with the rules for block updates that the rest of the file
    system proofs share. *)

From S2P Require Import Prelude Params Log Blocks Fs.

(** *** Block updates *)

Definition fs_put {St} (b : St) (s : fs St) : fs St := Fs (fs_sb s) (fs_icache s) b.

(** Block [n] rewritten with [d] as part of the transaction. *)
Definition tx_write (n : Z) (d : list Z) (t : tx) : tx :=
  Tx (<[n := d]> (tx_view t)) (tx_disk t) (tx_held t) (log_add (tx_log t) n)
     (tx_start t) (tx_size t).

(** What no operation of the file system changes: the log region, the disk,
    and whether the superblock is in the transaction. *)
Definition tx_base (t : tx) : Z * gmap Z (list Z) * bool :=
  (tx_start t, tx_disk t, bool_decide (1 ∈ tx_log t)).

Lemma tx_base_write n d t : n <> 1 -> tx_base (tx_write n d t) = tx_base t.
Proof.
  intros Hn. unfold tx_base, tx_write. simpl. f_equal. apply bool_decide_ext.
  rewrite elem_of_log_add. naive_solver.
Qed.

Definition unheld (t : tx) (n : Z) : Prop := forall i, tx_held t !! i <> Some n.

(** Room for [k] more blocks, in the log and in the cache. *)
Definition budget (k : nat) (t : tx) : Prop :=
  tx_room k t /\ (length (tx_log t) + size (tx_held t) + k <= NBUF)%nat.

Lemma length_log_add L n : (length (log_add L n) <= S (length L))%nat.
Proof. unfold log_add. case_decide; rewrite ?length_app; simpl; lia. Qed.

Lemma budget_write k n d t : budget (S k) t -> budget k (tx_write n d t).
Proof.
  unfold budget, tx_room. simpl. intros [H1 H2]. pose proof (length_log_add (tx_log t) n). lia.
Qed.

Lemma budget_le k k' t : (k' <= k)%nat -> budget k t -> budget k' t.
Proof. unfold budget, tx_room. lia. Qed.

Lemma budget_slot k t : budget (S k) t -> tx_slot t.
Proof. unfold budget, tx_slot. lia. Qed.

Lemma budget_room k t : budget (S k) t -> tx_room 1 t.
Proof. unfold budget, tx_room. lia. Qed.

Lemma budget_held k i n t :
  tx_held t !! i = None -> budget (S k) t -> budget k (tx_set_held (<[i := n]> (tx_held t)) t).
Proof.
  unfold budget, tx_room. simpl. intros Hi. rewrite map_size_insert_None by done. lia.
Qed.

Section update.
Context {St : Type} `{!Blocks St, !BlocksLaws St}.
Implicit Types (s : fs St) (t : tx).

Lemma wp_fslift {A} (m : M St A) Q s :
  wp m (fun a b => Q a (fs_put b s)) (fs_st s) -> wp (fslift m) Q s.
Proof. unfold wp, fslift. by destruct (m (fs_st s)). Qed.

Lemma wp_fslift_bind {A B} (m : M St A) (f : A -> M (fs St) B) Q s :
  wp m (fun a b => wp (f a) Q (fs_put b s)) (fs_st s) -> wp (bind (fslift m) f) Q s.
Proof. intros H. by apply wp_bind, wp_fslift. Qed.

(** Reading a block: the buffer [bp] is held. *)
Lemma wp_read {A} n s t (f : nat -> M (fs St) A) Q :
  blk_abs (fs_st s) t -> n ∈ dom (tx_view t) -> unheld t n -> tx_slot t ->
  (forall bp b, tx_held t !! bp = None ->
     blk_abs b (tx_set_held (<[bp := n]> (tx_held t)) t) -> wp (f bp) Q (fs_put b s)) ->
  wp (bind (fslift (blk_read 1 n)) f) Q s.
Proof.
  intros Ha Hn Hu Hs Hf. apply wp_fslift_bind.
  eapply wp_mono; [by apply (blk_read_spec _ _ n Ha)|]. intros bp b [H1 H2]. by apply Hf.
Qed.

Lemma wp_data {A} bp n d s t (f : list Z -> M (fs St) A) Q :
  blk_abs (fs_st s) t -> tx_held t !! bp = Some n -> tx_view t !! n = Some d ->
  (length d = Z.to_nat BSIZE -> wp (f d) Q s) -> wp (bind (fslift (blk_data bp)) f) Q s.
Proof.
  intros Ha Hh Hd Hf. apply wp_fslift_bind.
  eapply wp_mono; [by apply (blk_data_spec _ _ bp n Ha)|]. intros d' b (-> & Hd' & Hl).
  rewrite Hd in Hd'. injection Hd' as <-. destruct s. by apply Hf.
Qed.

Lemma tx_unhold bp n t : tx_held t !! bp = None ->
  tx_set_held (delete bp (<[bp := n]> (tx_held t))) t = t.
Proof. intros H. rewrite delete_insert_id by done. by destruct t. Qed.

(** [brelse] of a block read and not modified. *)
Lemma wp_rel bp n s t Q :
  blk_abs (fs_st s) (tx_set_held (<[bp := n]> (tx_held t)) t) -> tx_held t !! bp = None ->
  (n ∈ tx_log t \/ tx_view t !! n = tx_disk t !! n) ->
  (forall b, blk_abs b t -> Q tt (fs_put b s)) -> wp (fslift (blk_rel bp)) Q s.
Proof.
  intros Ha Hb Hc Hf. apply wp_fslift. eapply wp_mono.
  - eapply (blk_rel_spec _ _ bp n Ha); simpl; [apply lookup_insert_eq|done].
  - intros [] b Hb'. apply Hf. simpl in Hb'.
    by rewrite <- (tx_unhold bp n t).
Qed.

(** [b->data] modified, [log_write(b)], [brelse(b)]. *)
Lemma wp_update bp n d s t Q :
  blk_abs (fs_st s) (tx_set_held (<[bp := n]> (tx_held t)) t) -> tx_held t !! bp = None ->
  length d = Z.to_nat BSIZE -> ~ tx_region t n -> tx_room 1 t ->
  (forall b, blk_abs b (tx_write n d t) -> Q tt (fs_put b s)) ->
  wp (fslift (blk_set bp d);;; fslift (blk_log bp);;; fslift (blk_rel bp)) Q s.
Proof.
  intros Ha Hb Hl Hr Hm Hf. apply wp_fslift_bind. eapply wp_mono.
  { eapply (blk_set_spec _ _ bp n d Ha); [apply lookup_insert_eq|done]. }
  intros [] b1 H1. apply wp_fslift_bind. eapply wp_mono.
  { eapply (blk_log_spec _ _ bp n H1); [apply lookup_insert_eq|done|done]. }
  intros [] b2 H2. apply wp_fslift. eapply wp_mono.
  { eapply (blk_rel_spec _ _ bp n H2); [apply lookup_insert_eq|].
    left. apply elem_of_log_add. by left. }
  intros [] b3 H3. apply Hf. simpl in H3. rewrite delete_insert_id in H3 by done. done.
Qed.

(** The same, followed by more code. *)
Lemma wp_update_bind {A} bp n d s t (k : M (fs St) A) Q :
  blk_abs (fs_st s) (tx_set_held (<[bp := n]> (tx_held t)) t) -> tx_held t !! bp = None ->
  length d = Z.to_nat BSIZE -> ~ tx_region t n -> tx_room 1 t ->
  (forall b, blk_abs b (tx_write n d t) -> wp k Q (fs_put b s)) ->
  wp (fslift (blk_set bp d);;; fslift (blk_log bp);;; fslift (blk_rel bp);;; k) Q s.
Proof.
  intros Ha Hb Hl Hr Hm Hf.
  apply wp_assoc2, wp_bind. by eapply wp_update.
Qed.

(** The same, when [brelse] comes later. *)
Lemma wp_set_log {A} bp n d s t (k : M (fs St) A) Q :
  blk_abs (fs_st s) (tx_set_held (<[bp := n]> (tx_held t)) t) ->
  length d = Z.to_nat BSIZE -> ~ tx_region t n -> tx_room 1 t ->
  (forall b, blk_abs b (tx_set_held (<[bp := n]> (tx_held t)) (tx_write n d t)) ->
     wp k Q (fs_put b s)) ->
  wp (fslift (blk_set bp d);;; fslift (blk_log bp);;; k) Q s.
Proof.
  intros Ha Hl Hr Hm Hf. apply wp_fslift_bind. eapply wp_mono.
  { eapply (blk_set_spec _ _ bp n d Ha); [apply lookup_insert_eq|done]. }
  intros [] b1 H1. apply wp_fslift_bind. eapply wp_mono.
  { eapply (blk_log_spec _ _ bp n H1); [apply lookup_insert_eq|done|done]. }
  intros [] b2 H2. apply Hf. exact H2.
Qed.

Lemma bzero_spec s t n Q :
  blk_abs (fs_st s) t -> n ∈ dom (tx_view t) -> unheld t n -> budget 1 t -> ~ tx_region t n ->
  (forall b, blk_abs b (tx_write n (replicate (Z.to_nat BSIZE) 0) t) -> Q tt (fs_put b s)) ->
  wp (bzero 1 n) Q s.
Proof.
  intros Ha Hn Hu Hb Hr HQ. unfold bzero. eapply (wp_read n); try done; [by eapply budget_slot|].
  intros bp b Hbp Hb'. eapply wp_update; [exact Hb'|done|by rewrite length_replicate|done|
    by eapply budget_room|done].
Qed.

End update.

(** *** The free bitmap *)

(** Bit [k] of a bitmap block. *)
Definition bit (d : list Z) (k : Z) : bool := Z.testbit (d !!! Z.to_nat (k / 8)) (k mod 8).

(** Block [b] is marked in use. *)
Definition used (sb : superblock) (v : gmap Z (list Z)) (b : Z) : bool :=
  match v !! BBLOCK b sb with Some d => bit d (b mod BPB) | None => true end.

Definition set_bit (d : list Z) (k : Z) : list Z :=
  <[Z.to_nat (k / 8) := u8 (Z.lor (d !!! Z.to_nat (k / 8)) (Z.shiftl 1 (k mod 8)))]> d.
Definition clear_bit (d : list Z) (k : Z) : list Z :=
  <[Z.to_nat (k / 8) := u8 (Z.land (d !!! Z.to_nat (k / 8)) (Z.lnot (Z.shiftl 1 (k mod 8))))]> d.

Lemma testbit_u8 x k : 0 <= k < 8 -> Z.testbit (u8 x) k = Z.testbit x k.
Proof. intros. unfold u8. change 256 with (2 ^ 8). apply Z.mod_pow2_bits_low. lia. Qed.

Lemma bit_index k k' : 0 <= k -> 0 <= k' -> k <> k' ->
  Z.to_nat (k / 8) = Z.to_nat (k' / 8) -> k mod 8 <> k' mod 8.
Proof. intros. dlia. Qed.

Lemma bit_set_bit d k k' :
  0 <= k < BPB -> 0 <= k' < BPB -> length d = Z.to_nat BSIZE ->
  bit (set_bit d k) k' = if decide (k' = k) then true else bit d k'.
Proof.
  intros Hk Hk' Hl. unfold bit, set_bit. change (Z.to_nat BSIZE) with 512%nat in Hl.
  unfold BPB, BSIZE in *. pose proof (Z.mod_pos_bound k' 8 eq_refl). pose proof (Z.mod_pos_bound k 8 eq_refl).
  destruct (decide (Z.to_nat (k' / 8) = Z.to_nat (k / 8))) as [E|E].
  - rewrite E, list_lookup_total_insert_eq by dlia.
    rewrite testbit_u8, Z.lor_spec, Z.shiftl_1_l, Z.pow2_bits_eqb by lia.
    case_decide as D; [subst; rewrite Z.eqb_refl; apply orb_true_r|].
    assert (k mod 8 <> k' mod 8) by (apply bit_index; [lia|lia|congruence|done]).
    rewrite (proj2 (Z.eqb_neq _ _)) by lia. by rewrite orb_false_r.
  - rewrite list_lookup_total_insert_ne by done. case_decide; [by subst|done].
Qed.

Lemma bit_clear_bit d k k' :
  0 <= k < BPB -> 0 <= k' < BPB -> length d = Z.to_nat BSIZE ->
  bit (clear_bit d k) k' = if decide (k' = k) then false else bit d k'.
Proof.
  intros Hk Hk' Hl. unfold bit, clear_bit. change (Z.to_nat BSIZE) with 512%nat in Hl.
  unfold BPB, BSIZE in *. pose proof (Z.mod_pos_bound k' 8 eq_refl). pose proof (Z.mod_pos_bound k 8 eq_refl).
  destruct (decide (Z.to_nat (k' / 8) = Z.to_nat (k / 8))) as [E|E].
  - rewrite E, list_lookup_total_insert_eq by dlia.
    rewrite testbit_u8, Z.land_spec, Z.lnot_spec, Z.shiftl_1_l, Z.pow2_bits_eqb by lia.
    case_decide as D; [subst; rewrite Z.eqb_refl; apply andb_false_r|].
    assert (k mod 8 <> k' mod 8) by (apply bit_index; [lia|lia|congruence|done]).
    rewrite (proj2 (Z.eqb_neq _ _)) by lia. by rewrite andb_true_r.
  - rewrite list_lookup_total_insert_ne by done. case_decide; [by subst|done].
Qed.

(** *** The layout of the disk *)

(** The first data block. *)
Definition dstart (sb : superblock) : Z := sb_bmapstart sb + (sb_size sb - 1) / BPB + 1.

(** The superblock describes a disk laid out as fs.h says: boot block,
    superblock, log, inodes, bitmap, data; the blocks before the data are
    marked in use. *)
Record layout (sb : superblock) (t : tx) : Prop := {
  ly_sb : exists b, tx_view t !! 1 = Some b /\ sb_of b = sb;
  ly_size : 0 < sb_size sb < 2147483648;
  ly_dom : forall n, 0 <= n < sb_size sb -> n ∈ dom (tx_view t);
  ly_len : map_Forall (fun _ b => length b = Z.to_nat BSIZE) (tx_view t);
  ly_log : 2 <= tx_start t /\ 0 <= tx_size t /\ tx_start t + tx_size t <= sb_inodestart sb;
  ly_ino : 1 <= sb_ninodes sb /\ sb_inodestart sb + (sb_ninodes sb - 1) / IPB < sb_bmapstart sb;
  ly_bmap : dstart sb <= sb_size sb;
  ly_meta : forall n, 0 <= n < dstart sb -> used sb (tx_view t) n = true;
}.

(** The buffers a process holds while it allocates or frees hold data blocks. *)
Definition held_data (sb : superblock) (t : tx) : Prop :=
  forall i n, tx_held t !! i = Some n ->
    dstart sb <= n < sb_size sb /\ used sb (tx_view t) n = true.

Definition zeros : list Z := replicate (Z.to_nat BSIZE) 0.

Definition bmap_write (sb : superblock) (f : list Z -> Z -> list Z) (b : Z) (t : tx) : tx :=
  tx_write (BBLOCK b sb) (f (tx_view t !!! BBLOCK b sb) (b mod BPB)) t.

(** What [balloc] does when it returns [b]. *)
Definition alloc_tx (sb : superblock) (b : Z) (t : tx) : tx :=
  tx_write b zeros (bmap_write sb set_bit b t).
(** What [bfree] does. *)
Definition free_tx (sb : superblock) (b : Z) (t : tx) : tx := bmap_write sb clear_bit b t.

(** The block [balloc] returns: the first that is not in use. *)
Definition first_free (sb : superblock) (t : tx) (b : Z) : Prop :=
  0 <= b < sb_size sb /\ used sb (tx_view t) b = false /\
  forall b', 0 <= b' < b -> used sb (tx_view t) b' = true.

Lemma BPB_4096 : BPB = 4096.
Proof. reflexivity. Qed.

Section layout.
Context (sb : superblock) (t : tx) (L : layout sb t).

Lemma bblock_range b : 0 <= b < sb_size sb ->
  sb_bmapstart sb <= BBLOCK b sb < dstart sb.
Proof.
  intros Hb. unfold BBLOCK, dstart. rewrite BPB_4096. dlia.
Qed.

Lemma bmapstart_pos : 2 <= sb_inodestart sb < sb_bmapstart sb.
Proof.
  pose proof (ly_log _ _ L). pose proof (ly_ino _ _ L).
  assert (0 <= (sb_ninodes sb - 1) / IPB) by (apply Z.div_pos; [lia|reflexivity]). lia.
Qed.

Lemma bblock_dom b : 0 <= b < sb_size sb -> exists d,
  tx_view t !! BBLOCK b sb = Some d /\ tx_view t !!! BBLOCK b sb = d /\ length d = Z.to_nat BSIZE.
Proof.
  intros Hb. pose proof (bblock_range b Hb). pose proof bmapstart_pos. pose proof (ly_bmap _ _ L).
  assert (BBLOCK b sb ∈ dom (tx_view t)) as [d Hd]%elem_of_dom by (apply (ly_dom _ _ L); lia).
  exists d. split_and!; [done|by apply lookup_total_correct|by apply (ly_len _ _ L) in Hd].
Qed.

Lemma bblock_not_log b : 0 <= b < sb_size sb -> ~ tx_region t (BBLOCK b sb).
Proof.
  intros Hb. pose proof (bblock_range b Hb). pose proof bmapstart_pos.
  pose proof (ly_log _ _ L). unfold tx_region. lia.
Qed.

Lemma data_not_meta b : dstart sb <= b ->
  ~ tx_region t b /\ b <> 1 /\ forall b', 0 <= b' < sb_size sb -> b <> BBLOCK b' sb.
Proof.
  intros Hb. pose proof bmapstart_pos. pose proof (ly_log _ _ L). pose proof (ly_size _ _ L).
  assert (sb_bmapstart sb < dstart sb).
  { unfold dstart. assert (0 <= (sb_size sb - 1) / BPB) by (apply Z.div_pos; [lia|reflexivity]).
    lia. }
  split_and!; [unfold tx_region; lia|lia|]. intros b' Hb'. pose proof (bblock_range b' Hb'). lia.
Qed.

Lemma free_is_data b : 0 <= b < sb_size sb -> used sb (tx_view t) b = false -> dstart sb <= b.
Proof.
  intros Hb Hu. destruct (decide (dstart sb <= b)); [done|].
  rewrite (ly_meta _ _ L) in Hu by lia. done.
Qed.

Lemma bblock_unheld b : held_data sb t -> 0 <= b < sb_size sb -> unheld t (BBLOCK b sb).
Proof.
  intros Hh Hb i Hi. apply Hh in Hi as [Hi _]. pose proof (bblock_range b Hb). lia.
Qed.

Lemma free_unheld b : held_data sb t -> used sb (tx_view t) b = false -> unheld t b.
Proof. intros Hh Hb i Hi. apply Hh in Hi as [_ Hi]. congruence. Qed.

End layout.

(** Same bitmap block: same bit only for the same block. *)
Lemma bblock_inj sb b b' : BBLOCK b sb = BBLOCK b' sb -> b mod BPB = b' mod BPB -> b = b'.
Proof. unfold BBLOCK. rewrite BPB_4096. intros. dlia. Qed.

Lemma used_write_ne sb n d t b :
  n <> BBLOCK b sb -> used sb (tx_view (tx_write n d t)) b = used sb (tx_view t) b.
Proof. intros Hn. unfold used. simpl. by rewrite lookup_insert_ne. Qed.

(** The effect of a bitmap update on every bit. *)
Lemma used_bmap_write sb f (v : bool) t b b' :
  layout sb t -> 0 <= b < sb_size sb ->
  (forall d k k', 0 <= k < BPB -> 0 <= k' < BPB -> length d = Z.to_nat BSIZE ->
     bit (f d k) k' = if decide (k' = k) then v else bit d k') ->
  used sb (tx_view (bmap_write sb f b t)) b' =
    if decide (b' = b) then v else used sb (tx_view t) b'.
Proof.
  intros L Hb Hf. destruct (bblock_dom sb t L b Hb) as (d & Hd & Hd' & Hl).
  unfold used, bmap_write. simpl. rewrite Hd'.
  pose proof (Z.mod_pos_bound b BPB eq_refl). pose proof (Z.mod_pos_bound b' BPB eq_refl).
  destruct (decide (BBLOCK b' sb = BBLOCK b sb)) as [E|E].
  - rewrite E, lookup_insert_eq, Hf, Hd by done.
    destruct (decide (b' = b)) as [->|Hne]; [by rewrite decide_True|].
    rewrite decide_False; [done|]. intros E'. by eapply Hne, bblock_inj.
  - rewrite lookup_insert_ne by done. rewrite decide_False; [done|]. by intros ->.
Qed.

Lemma used_alloc sb b b' t :
  layout sb t -> 0 <= b < sb_size sb -> dstart sb <= b -> 0 <= b' < sb_size sb ->
  used sb (tx_view (alloc_tx sb b t)) b' = if decide (b' = b) then true else used sb (tx_view t) b'.
Proof.
  intros L Hb Hd Hb'. unfold alloc_tx. rewrite used_write_ne.
  - apply used_bmap_write; [done|done|]. apply bit_set_bit.
  - destruct (data_not_meta sb t L b Hd) as (_ & _ & H). auto.
Qed.

Lemma used_free sb b b' t :
  layout sb t -> 0 <= b < sb_size sb ->
  used sb (tx_view (free_tx sb b t)) b' = if decide (b' = b) then false else used sb (tx_view t) b'.
Proof. intros L Hb. apply used_bmap_write; [done|done|]. apply bit_clear_bit. Qed.

Lemma layout_write sb n d t :
  layout sb t -> length d = Z.to_nat BSIZE -> n <> 1 -> n ∈ dom (tx_view t) ->
  (forall b, 0 <= b < dstart sb -> used sb (tx_view (tx_write n d t)) b = true) ->
  layout sb (tx_write n d t).
Proof.
  intros L Hl Hn Hd Hm. destruct L. constructor; simpl; try done.
  - by rewrite lookup_insert_ne.
  - intros m Hm'. rewrite dom_insert. set_solver.
  - by apply map_Forall_insert_2.
Qed.

Lemma layout_bmap_write sb f (v : bool) b t :
  layout sb t -> 0 <= b < sb_size sb ->
  (forall d k k', 0 <= k < BPB -> 0 <= k' < BPB -> length d = Z.to_nat BSIZE ->
     bit (f d k) k' = if decide (k' = k) then v else bit d k') ->
  (forall d k, length (f d k) = length d) -> v = true \/ dstart sb <= b ->
  layout sb (bmap_write sb f b t).
Proof.
  intros L Hb Hf Hlen Hv. destruct (bblock_dom sb t L b Hb) as (d & Hd1 & Hd2 & Hl).
  pose proof (bblock_range sb b Hb). pose proof (bmapstart_pos sb t L).
  apply layout_write; [done| |lia|by apply elem_of_dom; exists d|].
  - by rewrite Hd2, Hlen.
  - intros b' Hb'. pose proof (used_bmap_write sb f v t b b' L Hb Hf) as E.
    unfold bmap_write in E. rewrite E, (ly_meta _ _ L b') by done.
    case_decide; [|done]. subst. destruct Hv; [done|lia].
Qed.

Lemma layout_alloc sb b t :
  layout sb t -> 0 <= b < sb_size sb -> dstart sb <= b -> layout sb (alloc_tx sb b t).
Proof.
  intros L Hb Hd. destruct (data_not_meta sb t L b Hd) as (H1 & H2 & H3).
  pose proof (ly_bmap _ _ L). unfold alloc_tx.
  assert (layout sb (bmap_write sb set_bit b t)) as L'.
  { apply (layout_bmap_write _ _ true); [done|done|apply bit_set_bit| |by left].
    intros. unfold set_bit. by rewrite length_insert. }
  apply layout_write; [done|apply length_replicate|done|by apply (ly_dom _ _ L')|].
  intros b' Hb'. rewrite used_write_ne by (apply H3; lia). by apply (ly_meta _ _ L').
Qed.

Lemma layout_free sb b t :
  layout sb t -> 0 <= b < sb_size sb -> dstart sb <= b -> layout sb (free_tx sb b t).
Proof.
  intros L Hb Hd. apply (layout_bmap_write _ _ false); [done|done|apply bit_clear_bit| |by right].
  intros. unfold clear_bit. by rewrite length_insert.
Qed.

Section alloc.
Context {St : Type} `{!Blocks St, !BlocksLaws St}.
Implicit Types (s : fs St) (t : tx).

(** The in-memory part of the file system is unchanged. *)
Definition same_mem (s s' : fs St) : Prop := fs_sb s' = fs_sb s /\ fs_icache s' = fs_icache s.

Lemma same_mem_put s b : same_mem s (fs_put b s).
Proof. done. Qed.

(** The result of the search: the first free block, or none. *)
Definition balloc_post s t (r : option Z) (s' : fs St) : Prop :=
  same_mem s s' /\
  match r with
  | Some b => first_free (fs_sb s) t b /\ blk_abs (fs_st s') (alloc_tx (fs_sb s) b t)
  | None => (forall b, 0 <= b < sb_size (fs_sb s) -> used (fs_sb s) (tx_view t) b = true) /\
            blk_abs (fs_st s') t
  end.

(** The code that takes block [b] once its bit is found clear. *)
Lemma balloc_take s t bp b d s1 Q :
  layout (fs_sb s) t -> held_data (fs_sb s) t -> budget 2 t -> same_mem s s1 ->
  first_free (fs_sb s) t b -> tx_held t !! bp = None ->
  tx_view t !! BBLOCK b (fs_sb s) = Some d ->
  blk_abs (fs_st s1) (tx_set_held (<[bp := BBLOCK b (fs_sb s)]> (tx_held t)) t) ->
  (forall s', balloc_post s t (Some b) s' -> Q (Some b) s') ->
  wp (fslift (blk_set bp (set_bit d (b mod BPB)));;; fslift (blk_log bp);;;
      fslift (blk_rel bp);;; bzero 1 b;;; ret (Some b)) Q s1.
Proof.
  intros L Hh HB [Hs1 Hs2] Hf Hbp Hd Ha HQ. pose proof Hf as (Hb & Hu & _).
  pose proof (free_is_data _ _ L b Hb Hu) as Hdata.
  destruct (data_not_meta _ _ L b Hdata) as (Hr & _ & Hm).
  assert (tx_view t !!! BBLOCK b (fs_sb s) = d) as Hd' by by apply lookup_total_correct.
  eapply wp_update_bind; [exact Ha|done| |by apply bblock_not_log|by eapply budget_room|].
  { unfold set_bit. rewrite length_insert. by apply (ly_len _ _ L) in Hd. }
  intros b1 Hb1. apply wp_bind. eapply bzero_spec; [exact Hb1| | |by apply budget_write|done|].
  - simpl. rewrite dom_insert. apply elem_of_union_r. by apply (ly_dom _ _ L).
  - by apply (free_unheld (fs_sb s) t b).
  - intros b2 Hb2. apply wp_ret, HQ. split; [done|]. split; [done|].
    unfold alloc_tx, bmap_write. by rewrite Hd'.
Qed.

(** What [balloc] tests and stores at bit [bi] of the [k]-th bitmap block. *)
Lemma balloc_bit sb v k bi d x :
  (bi < 4096)%nat -> v !! BBLOCK (Z.of_nat k * BPB) sb = Some d -> d !! (bi / 8)%nat = Some x ->
  let c := Z.of_nat k * BPB + Z.of_nat bi in
  let m := Z.shiftl 1 (Z.of_nat (bi mod 8)) in
  BBLOCK c sb = BBLOCK (Z.of_nat k * BPB) sb /\ (Z.land x m =? 0) = negb (used sb v c) /\
  <[(bi / 8)%nat := u8 (Z.lor x m)]> d = set_bit d (c mod BPB).
Proof.
  intros Hbi Hd Hx c m.
  assert (c mod BPB = Z.of_nat bi) as Ec.
  { subst c. rewrite BPB_4096. rewrite Z.add_comm, Z.mod_add, Z.mod_small by lia. done. }
  assert (BBLOCK c sb = BBLOCK (Z.of_nat k * BPB) sb) as Eb.
  { subst c. unfold BBLOCK. rewrite BPB_4096. f_equal. dlia. }
  assert (Z.to_nat (Z.of_nat bi / 8) = (bi / 8)%nat) as E8
    by (change 8 with (Z.of_nat 8); rewrite <- Nat2Z.inj_div; apply Nat2Z.id).
  assert (d !!! (bi / 8)%nat = x) as Hx' by by apply list_lookup_total_correct.
  assert (Z.of_nat (bi mod 8) = Z.of_nat bi mod 8) as Em by by rewrite Nat2Z.inj_mod.
  split_and!; [done| |unfold set_bit; by rewrite Ec, E8, Hx', <- Em].
  unfold used, bit. rewrite Eb, Hd, Ec, E8, Hx', <- Em. subst m. rewrite Z.shiftl_1_l.
  rewrite <- land_bit by lia. by rewrite negb_involutive.
Qed.

(** The scan of one bitmap block. *)
Lemma balloc_scan s t k bp s1 d :
  layout (fs_sb s) t -> held_data (fs_sb s) t -> budget 2 t -> same_mem s s1 ->
  tx_held t !! bp = None ->
  let b := Z.of_nat k * BPB in
  let bb := BBLOCK b (fs_sb s) in
  tx_view t !! bb = Some d ->
  0 <= b < sb_size (fs_sb s) ->
  (forall b', 0 <= b' < b -> used (fs_sb s) (tx_view t) b' = true) ->
  blk_abs (fs_st s1) (tx_set_held (<[bp := bb]> (tx_held t)) t) ->
  wp (for_find (Z.to_nat (Z.min BPB (sb_size (fs_sb s) - b))) (fun bi =>
      let m := Z.shiftl 1 (Z.of_nat (bi mod 8)) in
      let! d := fslift (blk_data bp) in
      let! x := of_option (d !! (bi / 8)%nat) in
      if Z.land x m =? 0 then
        fslift (blk_set bp (<[(bi / 8)%nat := u8 (Z.lor x m)]> d));;;
        fslift (blk_log bp);;; fslift (blk_rel bp);;;
        bzero 1 (b + Z.of_nat bi);;; ret (Some (b + Z.of_nat bi))
      else ret None))
    (fun r s' => match r with
     | Some x => balloc_post s t (Some x) s'
     | None => same_mem s s' /\ blk_abs (fs_st s') (tx_set_held (<[bp := bb]> (tx_held t)) t) /\
         forall b', 0 <= b' < Z.min (b + BPB) (sb_size (fs_sb s)) ->
           used (fs_sb s) (tx_view t) b' = true
     end) s1.
Proof.
  intros L Hh HB Hs Hbp b bb Hd Hb Hall Ha.
  apply (wp_find (fun bi s' => same_mem s s' /\
    blk_abs (fs_st s') (tx_set_held (<[bp := bb]> (tx_held t)) t) /\
    forall b', 0 <= b' < b + Z.of_nat bi -> used (fs_sb s) (tx_view t) b' = true)).
  - split_and!; [done|done|]. intros b' Hb'. apply Hall. lia.
  - intros bi s2 Hbi (Hs2 & Ha2 & Hall2). cbv zeta.
    eapply (wp_data bp bb); [exact Ha2|apply lookup_insert_eq|exact Hd|]. intros Hl.
    assert (Z.of_nat bi < BPB) as Hbi' by lia. rewrite BPB_4096 in Hbi'.
    change (Z.to_nat BSIZE) with 512%nat in Hl.
    destruct (lookup_lt_is_Some_2 d (bi / 8)) as [x Hx].
    { rewrite Hl. apply Nat.Div0.div_lt_upper_bound. lia. }
    apply wp_bind. eapply wp_of_option; [exact Hx|].
    destruct (balloc_bit (fs_sb s) (tx_view t) k bi d x ltac:(lia) Hd Hx) as (Eb & -> & ->).
    fold b in Eb |- *. set (c := b + Z.of_nat bi) in *.
    destruct (used (fs_sb s) (tx_view t) c) eqn:Hu; simpl.
    + apply wp_ret. split_and!; [done|done|]. intros b' Hb'.
      destruct (decide (b' = c)) as [->|]; [done|]. apply Hall2. subst c. lia.
    + eapply (balloc_take s t bp c d); try done; [|by rewrite Eb|by rewrite Eb].
      split_and!; [subst c; lia|subst c; lia|done|done].
  - intros s2 (Hs2 & Ha2 & Hall2). split_and!; [done|done|]. intros b' Hb'. apply Hall2. lia.
Qed.

Lemma balloc_search s t :
  blk_abs (fs_st s) t -> layout (fs_sb s) t -> held_data (fs_sb s) t -> budget 2 t ->
  wp (for_find (Z.to_nat ((sb_size (fs_sb s) + BPB - 1) / BPB)) (fun k =>
    let b := Z.of_nat k * BPB in
    let! bp := fslift (blk_read 1 (BBLOCK b (fs_sb s))) in
    let! r := for_find (Z.to_nat (Z.min BPB (sb_size (fs_sb s) - b))) (fun bi =>
      let m := Z.shiftl 1 (Z.of_nat (bi mod 8)) in
      let! d := fslift (blk_data bp) in
      let! x := of_option (d !! (bi / 8)%nat) in
      if Z.land x m =? 0 then
        fslift (blk_set bp (<[(bi / 8)%nat := u8 (Z.lor x m)]> d));;;
        fslift (blk_log bp);;; fslift (blk_rel bp);;;
        bzero 1 (b + Z.of_nat bi);;; ret (Some (b + Z.of_nat bi))
      else ret None) in
    match r with
    | Some x => ret (Some x)
    | None => fslift (blk_rel bp);;; ret None
    end)) (balloc_post s t) s.
Proof.
  intros Ha L Hh HB. pose proof (ly_size _ _ L) as Hsz.
  apply (wp_find (fun k s' => same_mem s s' /\ blk_abs (fs_st s') t /\
    forall b', 0 <= b' < Z.min (Z.of_nat k * BPB) (sb_size (fs_sb s)) ->
      used (fs_sb s) (tx_view t) b' = true)).
  - split_and!; [done|done|]. intros. lia.
  - intros k s1 Hk (Hs1 & Ha1 & Hall). cbv zeta. set (b := Z.of_nat k * BPB) in *.
    assert (0 <= b < sb_size (fs_sb s)) as Hb by (subst b; rewrite BPB_4096 in *; dlia).
    destruct (bblock_dom _ _ L b Hb) as (d & Hd & _ & _).
    eapply wp_read; [exact Ha1|by apply elem_of_dom; exists d|by apply bblock_unheld|
      by eapply budget_slot|].
    intros bp b1 Hbp Hb1. apply wp_bind. eapply wp_mono.
    { apply (balloc_scan s t k bp (fs_put b1 s1) d); try done. intros b' Hb'. apply Hall. lia. }
    intros [x|] s2 H2; [by apply wp_ret|]. destruct H2 as (Hs2 & Ha2 & Hall2).
    apply wp_bind. eapply wp_rel; [exact Ha2|done| |].
    + by eapply (blk_clean _ _ _ Ha1), bblock_unheld.
    + intros b2 Hb2. apply wp_ret. split_and!; [done|done|]. intros b' Hb'. apply Hall2.
      subst b. lia.
  - intros s1 (Hs1 & Ha1 & Hall). split; [done|]. split; [|done].
    intros b' Hb'. apply Hall. rewrite BPB_4096 in *. dlia.
Qed.

(** [balloc] returns the first free block, marks it in use and zeroes it. *)
Lemma balloc_spec s t :
  blk_abs (fs_st s) t -> layout (fs_sb s) t -> held_data (fs_sb s) t -> budget 2 t ->
  (exists b, 0 <= b < sb_size (fs_sb s) /\ used (fs_sb s) (tx_view t) b = false) ->
  wp (balloc 1) (fun b s' => first_free (fs_sb s) t b /\ same_mem s s' /\
    blk_abs (fs_st s') (alloc_tx (fs_sb s) b t)) s.
Proof.
  intros Ha L Hh HB (b & Hb & Hu). unfold balloc. apply wp_bind, wp_gets, wp_bind.
  eapply wp_mono; [by apply balloc_search|].
  intros [x|] s' [Hs Hp]; [by destruct Hp; apply wp_ret|].
  destruct Hp as [Hall _]. rewrite Hall in Hu by done. done.
Qed.

Lemma balloc_full s t :
  blk_abs (fs_st s) t -> layout (fs_sb s) t -> held_data (fs_sb s) t -> budget 2 t ->
  (forall b, 0 <= b < sb_size (fs_sb s) -> used (fs_sb s) (tx_view t) b = true) ->
  balloc 1 s = Fail (Panic "balloc: out of blocks").
Proof.
  intros Ha L Hh HB Hall.
  destruct (wp_elim _ _ _ (balloc_search s t Ha L Hh HB)) as (r & s' & Hrun & _ & Hp).
  unfold balloc. rewrite (bind_Ret (gets fs_sb) _ s (fs_sb s) s eq_refl).
  rewrite (bind_Ret _ _ _ _ _ Hrun).
  destruct r as [x|]; [|done]. destruct Hp as [(Hx & Hu & _) _]. rewrite Hall in Hu by done. done.
Qed.

(** [bfree] rereads the superblock, which is the one it has. *)
Lemma readsb_global_spec s t :
  blk_abs (fs_st s) t -> layout (fs_sb s) t -> held_data (fs_sb s) t -> tx_slot t ->
  wp (readsb_global 1) (fun _ s' => same_mem s s' /\ blk_abs (fs_st s') t) s.
Proof.
  intros Ha L Hh HB. destruct (ly_sb _ _ L) as (d & Hd & Hsb).
  assert (unheld t 1) as Hu.
  { intros i Hi%Hh. pose proof (data_not_meta _ _ L 1 (proj1 (proj1 Hi))). tauto. }
  eapply wp_read; [exact Ha|by apply elem_of_dom; exists d|done|done|].
  intros bp b1 Hbp Hb1. eapply (wp_data bp 1 d); [exact Hb1|apply lookup_insert_eq|done|].
  intros _. apply wp_bind, wp_modify.
  eapply wp_rel; [exact Hb1|done|by apply (blk_clean _ _ _ Ha)|]. simpl.
  intros b2 Hb2. by rewrite Hsb.
Qed.

(** The part of [bfree] before the test of the bit. *)
Lemma bfree_open s t b (k : superblock -> nat -> list Z -> Z -> M (fs St) unit)
    (Q : outcome (fs St) unit -> Prop) :
  blk_abs (fs_st s) t -> layout (fs_sb s) t -> held_data (fs_sb s) t -> budget 1 t ->
  0 <= b < sb_size (fs_sb s) ->
  (forall s' bp d, same_mem s s' -> tx_held t !! bp = None ->
     tx_view t !! BBLOCK b (fs_sb s) = Some d ->
     blk_abs (fs_st s') (tx_set_held (<[bp := BBLOCK b (fs_sb s)]> (tx_held t)) t) ->
     Q (k (fs_sb s) bp d (d !!! Z.to_nat (b mod BPB / 8)) s')) ->
  Q ((readsb_global 1;;;
      let! sb := gets fs_sb in
      let! bp := fslift (blk_read 1 (BBLOCK b sb)) in
      let! d := fslift (blk_data bp) in
      let! x := of_option (d !! Z.to_nat (b mod BPB / 8)) in
      k sb bp d x) s).
Proof.
  intros Ha L Hh HB Hb HQ. destruct (bblock_dom _ _ L b Hb) as (d & Hd & _ & Hl).
  destruct (wp_elim _ _ _ (readsb_global_spec s t Ha L Hh (budget_slot _ _ HB)))
    as ([] & s1 & E1 & Hs1 & Ha1).
  rewrite (bind_Ret _ _ _ _ _ E1), (bind_Ret (gets fs_sb) _ s1 (fs_sb s1) s1 eq_refl).
  destruct Hs1 as [Hsb Hic]. rewrite Hsb.
  destruct (wp_elim _ _ _ (blk_read_spec _ t (BBLOCK b (fs_sb s)) Ha1
    (elem_of_dom_2 _ _ _ Hd) (bblock_unheld _ _ b Hh Hb) (budget_slot _ _ HB)))
    as (bp & b2 & E2 & Hbp & Ha2).
  assert (fslift (blk_read 1 (BBLOCK b (fs_sb s))) s1 = Ret bp (fs_put b2 s1)) as E2'
    by (unfold fslift; by rewrite E2).
  rewrite (bind_Ret _ _ _ _ _ E2').
  destruct (wp_elim _ _ _ (blk_data_spec _ _ bp _ Ha2 (lookup_insert_eq _ _ _)))
    as (d' & b3 & E3 & -> & Hd' & _). simpl in Hd'. rewrite Hd in Hd'. injection Hd' as <-.
  assert (fslift (blk_data bp) (fs_put b2 s1) = Ret d (fs_put b2 s1)) as E3'
    by (unfold fslift; simpl; by rewrite E3).
  rewrite (bind_Ret _ _ _ _ _ E3').
  assert (d !! Z.to_nat (b mod BPB / 8) = Some (d !!! Z.to_nat (b mod BPB / 8))) as Hx.
  { apply list_lookup_lookup_total_lt. rewrite Hl, BPB_4096. unfold BSIZE. dlia. }
  rewrite Hx. by apply HQ.
Qed.

(** [bfree] clears the bit of a data block in use, and stops on a free one. *)
Lemma bfree_spec s t b :
  blk_abs (fs_st s) t -> layout (fs_sb s) t -> held_data (fs_sb s) t -> budget 1 t ->
  0 <= b < sb_size (fs_sb s) -> used (fs_sb s) (tx_view t) b = true ->
  wp (bfree 1 b) (fun _ s' => same_mem s s' /\ blk_abs (fs_st s') (free_tx (fs_sb s) b t)) s.
Proof.
  intros Ha L Hh HB Hb Hu. unfold wp, bfree. apply (bfree_open s t b); try done.
  intros s1 bp d Hs Hbp Hd Ha1. change (wp (panic_if (Z.land (d !!! Z.to_nat (b mod BPB / 8))
    (Z.shiftl 1 (b mod BPB mod 8)) =? 0) "freeing free block";;;
    fslift (blk_set bp (clear_bit d (b mod BPB)));;; fslift (blk_log bp);;; fslift (blk_rel bp))
    (fun _ s' => same_mem s s' /\ blk_abs (fs_st s') (free_tx (fs_sb s) b t)) s1).
  unfold used in Hu. rewrite Hd in Hu. unfold bit in Hu.
  assert (0 <= b mod BPB mod 8) by (apply Z.mod_pos_bound; lia).
  rewrite <- land_bit, <- Z.shiftl_1_l in Hu by done.
  apply wp_bind, wp_panic_if; [by apply negb_true_iff in Hu|].
  eapply wp_update; [exact Ha1|done| |by apply bblock_not_log|by eapply budget_room|].
  - unfold clear_bit. rewrite length_insert. by apply (ly_len _ _ L) in Hd.
  - intros b2 Hb2. split; [done|]. unfold free_tx, bmap_write.
    by rewrite (lookup_total_correct _ _ _ Hd).
Qed.

Lemma bfree_free s t b :
  blk_abs (fs_st s) t -> layout (fs_sb s) t -> held_data (fs_sb s) t -> budget 1 t ->
  0 <= b < sb_size (fs_sb s) -> used (fs_sb s) (tx_view t) b = false ->
  bfree 1 b s = Fail (Panic "freeing free block").
Proof.
  intros Ha L Hh HB Hb Hu. unfold bfree.
  apply (bfree_open s t b (fun sb bp d x =>
    panic_if (Z.land x (Z.shiftl 1 (b mod BPB mod 8)) =? 0) "freeing free block";;; _)
    (fun o => o = Fail (Panic "freeing free block"))); try done.
  intros s1 bp d Hs Hbp Hd Ha1. unfold used in Hu. rewrite Hd in Hu. unfold bit in Hu.
  assert (0 <= b mod BPB mod 8) by (apply Z.mod_pos_bound; lia).
  rewrite <- land_bit, <- Z.shiftl_1_l in Hu by done. apply negb_false_iff in Hu.
  unfold panic_if. by rewrite Hu.
Qed.

End alloc.
