(* ===== verification/FsFile.v ===== *)
(** File contents in fs.c: [bmap], [readi], [writei] and [itrunc].

    A file is its size and its blocks; [fblock] is the block number [bmap]
    finds for a block of the file and [fbyte] a byte of its contents, both
    read from the blocks as the process sees them. *)

From S2P Require Import Prelude Params Log Blocks Fs FsAlloc.

(** *** The blocks of a file *)

Abbreviation bview := (gmap Z (list Z)).

(** The indirect block. *)
Definition iblk (i : inode) : Z := i_addrs i !!! Z.to_nat NDIRECT.

(** The block that holds block [bn] of the file, 0 if there is none. *)
Definition fblock (v : bview) (i : inode) (bn : Z) : Z :=
  if bn <? NDIRECT then i_addrs i !!! Z.to_nat bn
  else if iblk i =? 0 then 0
  else ld_addr (v !!! iblk i) (Z.to_nat (bn - NDIRECT)).

(** Byte [o] of the contents. *)
Definition fbyte (v : bview) (i : inode) (o : Z) : Z :=
  (v !!! fblock v i (o / BSIZE)) !!! Z.to_nat (o mod BSIZE).

Definition in_file (bn : Z) : Prop := 0 <= bn < MAXFILE.

(** The blocks that belong to the file. *)
Definition owned (v : bview) (i : inode) (n : Z) : Prop :=
  n <> 0 /\ (n = iblk i \/ exists bn, in_file bn /\ fblock v i bn = n).

(** The blocks of a file are data blocks in use, all different. *)
Record file_wf (sb : superblock) (v : bview) (i : inode) : Prop := {
  fw_dev : i_dev i = 1;
  fw_len : length (i_addrs i) = 13%nat;
  fw_own : forall n, owned v i n -> dstart sb <= n < sb_size sb /\ used sb v n = true;
  fw_inj : forall bn bn', in_file bn -> in_file bn' -> fblock v i bn <> 0 ->
    fblock v i bn = fblock v i bn' -> bn = bn';
  fw_ind : forall bn, in_file bn -> fblock v i bn <> 0 -> fblock v i bn <> iblk i;
}.

(** From [(v, i)] to [(v', i')] the file keeps its blocks and gains blocks
    that were free; the blocks of others and the metadata other than the
    bitmap are as they were. *)
Record evolves (sb : superblock) (v : bview) (i : inode) (v' : bview) (i' : inode) : Prop := {
  ev_frame : forall n, dstart sb <= n < sb_size sb -> used sb v n = true ->
    ~ owned v i n -> v' !! n = v !! n;
  ev_meta : forall n, 0 <= n < sb_bmapstart sb -> v' !! n = v !! n;
  ev_used : forall n, 0 <= n < sb_size sb -> used sb v n = true -> used sb v' n = true;
  ev_new : forall n, owned v' i' n ->
    owned v i n \/ dstart sb <= n < sb_size sb /\ used sb v n = false;
  ev_map : forall bn, in_file bn -> fblock v i bn <> 0 -> fblock v' i' bn = fblock v i bn;
}.

Lemma evolves_refl sb v i : evolves sb v i v i.
Proof. constructor; auto. Qed.

Lemma evolves_trans sb v i v1 i1 v2 i2 :
  0 <= dstart sb -> evolves sb v i v1 i1 -> evolves sb v1 i1 v2 i2 -> evolves sb v i v2 i2.
Proof.
  intros Hd E1 E2. constructor.
  - intros n Hn Hu Ho. rewrite (ev_frame _ _ _ _ _ E2), (ev_frame _ _ _ _ _ E1); try done.
    + by apply (ev_used _ _ _ _ _ E1); [lia|].
    + intros [?|[? ?]]%(ev_new _ _ _ _ _ E1); congruence.
  - intros n Hn. by rewrite (ev_meta _ _ _ _ _ E2), (ev_meta _ _ _ _ _ E1).
  - intros n Hn Hu. by apply (ev_used _ _ _ _ _ E2), (ev_used _ _ _ _ _ E1).
  - intros n Hn. destruct (ev_new _ _ _ _ _ E2 n Hn) as [Ho|[Hr Hu]].
    + by apply (ev_new _ _ _ _ _ E1).
    + right. split; [done|]. destruct (used sb v n) eqn:E; [|done].
      rewrite (ev_used _ _ _ _ _ E1) in Hu; [done|lia|done].
  - intros bn Hb H1. pose proof (ev_map _ _ _ _ _ E1 bn Hb H1) as H.
    rewrite <- H in H1 |- *. by apply (ev_map _ _ _ _ _ E2).
Qed.

(** A file stays well-formed when it gains block [a] as block [bn], and
    perhaps its indirect block. *)
Lemma file_wf_extend sb v i v' i' bn a :
  file_wf sb v i -> in_file bn -> fblock v i bn = 0 ->
  i_dev i' = i_dev i -> length (i_addrs i') = 13%nat ->
  (forall bn', in_file bn' -> fblock v' i' bn' = if decide (bn' = bn) then a else fblock v i bn') ->
  dstart sb <= a < sb_size sb -> 0 < dstart sb -> used sb v a = false -> used sb v' a = true ->
  (iblk i' = iblk i \/ iblk i = 0 /\ dstart sb <= iblk i' < sb_size sb /\
     used sb v (iblk i') = false /\ used sb v' (iblk i') = true /\ iblk i' <> a) ->
  (forall n, 0 <= n < sb_size sb -> used sb v n = true -> used sb v' n = true) ->
  file_wf sb v' i'.
Proof.
  intros W Hbn H0 Hdev Hlen Hf Ha Hds Hua Hua' Hi Hu.
  assert (forall n, owned v i n -> n <> a) as Hoa.
  { intros n Hn ->. destruct (fw_own _ _ _ W a Hn) as [_ H]. congruence. }
  assert (forall bn', in_file bn' -> fblock v i bn' <> 0 -> owned v i (fblock v i bn')) as Hob.
  { intros bn' Hb' Hn. split; [done|]. right. by exists bn'. }
  constructor; [by rewrite Hdev, (fw_dev _ _ _ W)|done| | |].
  - intros n [Hn0 [->|(bn' & Hb' & Hn)]].
    + destruct Hi as [Hi|(Hi & ? & ? & ? & _)]; [|done]. rewrite Hi in *.
      destruct (fw_own _ _ _ W (iblk i)) as [? ?]; [split; [done|by left]|].
      split; [done|]. apply Hu; [lia|done].
    + rewrite Hf in Hn by done. case_decide; subst; [done|].
      destruct (fw_own _ _ _ W (fblock v i bn')) as [? ?]; [by apply Hob|].
      split; [done|]. apply Hu; [lia|done].
  - intros b1 b2 Hb1 Hb2. rewrite !Hf by done. intros Hn He.
    destruct (decide (b1 = bn)) as [E1|E1], (decide (b2 = bn)) as [E2|E2].
    + congruence.
    + destruct (Hoa (fblock v i b2)); [|done]. apply Hob; [done|]. rewrite <- He. lia.
    + destruct (Hoa (fblock v i b1)); [by apply Hob|done].
    + by apply (fw_inj _ _ _ W).
  - intros b1 Hb1. rewrite Hf by done. intros Hn He. case_decide.
    + destruct Hi as [Hi|(_ & _ & _ & _ & Hi)]; [|done].
      destruct (Hoa (iblk i)); [|congruence]. split; [congruence|by left].
    + destruct Hi as [Hi|(Hi & Hr & Hi' & _)].
      * rewrite Hi in He. by apply (fw_ind _ _ _ W) in He.
      * destruct (fw_own _ _ _ W (fblock v i b1)) as [_ Hu1]; [by apply Hob|]. congruence.
Qed.

(** *** Allocation and the views *)

Lemma alloc_lookup_new sb b t : tx_view (alloc_tx sb b t) !! b = Some zeros.
Proof. apply lookup_insert_eq. Qed.

Lemma alloc_lookup_ne sb b t n :
  n <> b -> n <> BBLOCK b sb -> tx_view (alloc_tx sb b t) !! n = tx_view t !! n.
Proof. intros H1 H2. simpl. by rewrite !lookup_insert_ne. Qed.

Lemma lookup_total_eq (v v' : bview) n : v' !! n = v !! n -> v' !!! n = v !!! n.
Proof. intros H. by rewrite !lookup_total_alt, H. Qed.

(** The file's own view of its blocks only needs the indirect block. *)
Lemma fblock_ext v v' i bn :
  (iblk i <> 0 -> v' !! iblk i = v !! iblk i) -> fblock v' i bn = fblock v i bn.
Proof.
  intros H. unfold fblock. destruct (bn <? NDIRECT); [done|].
  destruct (Z.eqb_spec (iblk i) 0); [done|]. by rewrite (lookup_total_eq v v') by auto.
Qed.

Lemma ld_addr_zeros k : (k < 128)%nat -> ld_addr zeros k = 0.
Proof.
  intros Hk. unfold ld_addr, ldle, slice, zeros. change (Z.to_nat BSIZE) with 512%nat.
  rewrite drop_replicate, take_replicate. rewrite Nat.min_l by lia. reflexivity.
Qed.

Lemma ld_st_addr d k k' a :
  length d = Z.to_nat BSIZE -> (k < 128)%nat -> (k' < 128)%nat -> is_u32 a ->
  ld_addr (st_addr d k a) k' = if decide (k' = k) then a else ld_addr d k'.
Proof.
  intros Hl Hk Hk' Ha. unfold ld_addr, st_addr. change (Z.to_nat BSIZE) with 512%nat in Hl.
  case_decide as E; [subst|by rewrite ldle_stle_ne by lia].
  rewrite ldle_stle_eq by lia. by apply u32_small.
Qed.

(** A file without an indirect block gains one, empty. *)
Lemma file_wf_indirect sb v i v' i' :
  file_wf sb v i -> i_dev i' = i_dev i -> length (i_addrs i') = 13%nat ->
  (forall bn, in_file bn -> fblock v' i' bn = fblock v i bn) ->
  iblk i = 0 -> dstart sb <= iblk i' < sb_size sb ->
  used sb v (iblk i') = false -> used sb v' (iblk i') = true -> 0 <= dstart sb ->
  (forall n, 0 <= n < sb_size sb -> used sb v n = true -> used sb v' n = true) ->
  file_wf sb v' i'.
Proof.
  intros W Hdev Hlen Hf H0 Hr Hu Hu' Hd Hm.
  assert (forall bn', in_file bn' -> fblock v i bn' <> 0 -> owned v i (fblock v i bn')) as Hob.
  { intros bn' Hb' Hn. split; [done|]. right. by exists bn'. }
  constructor; [by rewrite Hdev, (fw_dev _ _ _ W)|done| | |].
  - intros n [Hn0 [->|(bn & Hb & Hn)]]; [done|]. rewrite Hf in Hn by done. subst n.
    destruct (fw_own _ _ _ W (fblock v i bn)) as [? ?]; [by apply Hob|].
    split; [done|]. apply Hm; [lia|done].
  - intros b1 b2 Hb1 Hb2. rewrite !Hf by done. by apply (fw_inj _ _ _ W).
  - intros b1 Hb1. rewrite Hf by done. intros Hn He.
    destruct (fw_own _ _ _ W (fblock v i b1)) as [_ Hu1]; [by apply Hob|]. congruence.
Qed.

(** *** Free blocks *)

Definition nfree (sb : superblock) (v : bview) : nat :=
  length (filter (fun b => used sb v b = false) (seqZ 0 (sb_size sb))).

Lemma nfree_pos sb v : (0 < nfree sb v)%nat -> exists b, 0 <= b < sb_size sb /\ used sb v b = false.
Proof.
  unfold nfree. destruct (filter _ _) as [|b l] eqn:E; simpl; [lia|]. intros _.
  exists b. assert (b ∈ filter (fun b => used sb v b = false) (seqZ 0 (sb_size sb))) as H
    by (rewrite E; apply list_elem_of_here).
  apply list_elem_of_filter in H as [Hu Hb%elem_of_seqZ]. split; [lia|done].
Qed.

Lemma filter_false_ext (l : list Z) (P Q : Z -> bool) :
  (forall x, x ∈ l -> P x = Q x) ->
  filter (fun x => P x = false) l = filter (fun x => Q x = false) l.
Proof.
  induction l as [|x l IH]; intros H; [done|]. rewrite !filter_cons, IH by set_solver.
  by rewrite (H x) by set_solver.
Qed.

Lemma length_filter_flip (l : list Z) (P Q : Z -> bool) b :
  NoDup l -> b ∈ l -> P b = false -> Q b = true -> (forall x, x ∈ l -> x <> b -> Q x = P x) ->
  length (filter (fun x => P x = false) l) = S (length (filter (fun x => Q x = false) l)).
Proof.
  induction l as [|x l IH]; intros Hn Hb HP HQ Hx; [by apply not_elem_of_nil in Hb|].
  apply NoDup_cons in Hn as [Hni Hn]. rewrite !filter_cons. destruct (decide (x = b)) as [->|Hne].
  - rewrite HP, HQ. rewrite decide_True, decide_False by done. simpl. f_equal. f_equal.
    apply filter_false_ext. intros y Hy. symmetry. apply Hx; [set_solver|]. by intros ->.
  - rewrite (Hx x) by (set_solver). apply elem_of_cons in Hb as [->|Hb]; [done|].
    specialize (IH Hn Hb HP HQ). case_decide; simpl; rewrite IH; try done; intros y Hy; apply Hx; set_solver.
Qed.

Lemma nfree_alloc sb b t :
  layout sb t -> 0 <= b < sb_size sb -> used sb (tx_view t) b = false ->
  nfree sb (tx_view t) = S (nfree sb (tx_view (alloc_tx sb b t))).
Proof.
  intros L Hb Hu. pose proof (free_is_data sb t L b Hb Hu). apply (length_filter_flip _ _ _ b).
  - apply NoDup_seqZ.
  - apply elem_of_seqZ. lia.
  - done.
  - rewrite used_alloc by done. by rewrite decide_True.
  - intros x Hx%elem_of_seqZ Hne. rewrite used_alloc by (done || lia). by rewrite decide_False.
Qed.

Lemma nfree_write_data sb n d t :
  layout sb t -> dstart sb <= n -> nfree sb (tx_view (tx_write n d t)) = nfree sb (tx_view t).
Proof.
  intros L Hn. unfold nfree. f_equal. apply filter_false_ext.
  intros b Hb%elem_of_seqZ. apply used_write_ne.
  destruct (data_not_meta sb t L n Hn) as (_ & _ & H). apply H. lia.
Qed.

(** *** What [bmap] does to a file without block [bn] *)

(** [kl] blocks join the log and [kf] blocks are taken, at most. *)
Record grown (sb : superblock) (kl kf : nat) (t : tx) (i : inode) (t' : tx) (i' : inode) (bn a : Z) : Prop := {
  gr_layout : layout sb t';
  gr_held : tx_held t' = tx_held t;
  gr_log : tx_base t' = tx_base t /\ tx_size t' = tx_size t /\
    (length (tx_log t') <= length (tx_log t) + kl)%nat;
  gr_wf : file_wf sb (tx_view t') i';
  gr_ev : evolves sb (tx_view t) i (tx_view t') i';
  gr_map : forall bn', in_file bn' -> fblock (tx_view t') i' bn' =
    if decide (bn' = bn) then a else fblock (tx_view t) i bn';
  gr_new : dstart sb <= a < sb_size sb /\
    (fblock (tx_view t) i bn = a \/ fblock (tx_view t) i bn = 0 /\ tx_view t' !! a = Some zeros);
  gr_data : forall bn', in_file bn' -> fblock (tx_view t) i bn' <> 0 ->
    tx_view t' !! fblock (tx_view t) i bn' = tx_view t !! fblock (tx_view t) i bn';
  gr_same : fblock (tx_view t) i bn <> 0 -> i' = i;
  gr_free : (nfree sb (tx_view t) <= nfree sb (tx_view t') + kf)%nat;
}.

Lemma in_file_cases bn : in_file bn ->
  (bn < NDIRECT /\ (Z.to_nat bn < 12)%nat) \/
  (NDIRECT <= bn /\ (Z.to_nat (bn - NDIRECT) < 128)%nat).
Proof.
  unfold in_file, MAXFILE, NINDIRECT, NDIRECT, BSIZE. change (512 / 4) with 128. lia.
Qed.

Lemma bmapstart_lt sb t : layout sb t -> sb_bmapstart sb < dstart sb.
Proof.
  intros L. pose proof (ly_size _ _ L). unfold dstart.
  assert (0 <= (sb_size sb - 1) / BPB) by (apply Z.div_pos; [lia|reflexivity]). lia.
Qed.

Lemma dstart_pos sb t : layout sb t -> 2 < dstart sb.
Proof. intros L. pose proof (bmapstart_pos sb t L). pose proof (bmapstart_lt sb t L). lia. Qed.

Lemma tx_base_alloc sb t a : layout sb t -> 0 <= a < sb_size sb -> dstart sb <= a ->
  tx_base (alloc_tx sb a t) = tx_base t.
Proof.
  intros L Ha Hd. pose proof (bmapstart_pos sb t L). pose proof (bmapstart_lt sb t L).
  assert (0 <= a / BPB) by (apply Z.div_pos; [lia|reflexivity]).
  unfold alloc_tx, bmap_write. rewrite !tx_base_write; unfold BBLOCK; lia || done.
Qed.

Section grow.
Context (sb : superblock) (t : tx) (L : layout sb t).

Lemma alloc_data a n : 0 <= a < sb_size sb -> dstart sb <= n -> n <> a ->
  tx_view (alloc_tx sb a t) !! n = tx_view t !! n.
Proof.
  intros Ha Hn Hne. apply alloc_lookup_ne; [done|].
  destruct (data_not_meta sb t L n Hn) as (_ & _ & H). by apply H.
Qed.

Lemma alloc_meta a n : 0 <= a < sb_size sb -> dstart sb <= a -> 0 <= n < sb_bmapstart sb ->
  tx_view (alloc_tx sb a t) !! n = tx_view t !! n.
Proof.
  intros Ha Hd Hn. pose proof (bblock_range sb a Ha). apply alloc_lookup_ne; lia.
Qed.

Lemma used_alloc_mono a n : 0 <= a < sb_size sb -> dstart sb <= a -> 0 <= n < sb_size sb ->
  used sb (tx_view t) n = true -> used sb (tx_view (alloc_tx sb a t)) n = true.
Proof. intros. rewrite used_alloc by done. by case_decide. Qed.

Lemma evolves_alloc a i i' :
  0 <= a < sb_size sb -> used sb (tx_view t) a = false ->
  (forall n, owned (tx_view (alloc_tx sb a t)) i' n -> owned (tx_view t) i n \/ n = a) ->
  (forall bn, in_file bn -> fblock (tx_view t) i bn <> 0 ->
     fblock (tx_view (alloc_tx sb a t)) i' bn = fblock (tx_view t) i bn) ->
  evolves sb (tx_view t) i (tx_view (alloc_tx sb a t)) i'.
Proof.
  intros Ha Hu Ho Hm. pose proof (free_is_data sb t L a Ha Hu) as Hd. constructor; [| | | |done].
  - intros n Hn Hu' _. apply alloc_data; [done|lia|]. intros ->. congruence.
  - intros n Hn. by apply alloc_meta.
  - intros n Hn. by apply used_alloc_mono.
  - intros n Hn. destruct (Ho n Hn) as [?| ->]; [by left|right]. split; [lia|done].
Qed.

Context (i : inode) (W : file_wf sb (tx_view t) i).

Lemma owned_block bn : in_file bn -> fblock (tx_view t) i bn <> 0 ->
  owned (tx_view t) i (fblock (tx_view t) i bn).
Proof. intros Hb Hn. split; [done|]. right. by exists bn. Qed.

Lemma owned_ind : iblk i <> 0 -> owned (tx_view t) i (iblk i).
Proof. intros Hn. split; [done|]. by left. Qed.

Lemma owned_ne_free a n : used sb (tx_view t) a = false -> owned (tx_view t) i n -> n <> a.
Proof. intros Hu Ho ->. destruct (fw_own _ _ _ W a Ho). congruence. Qed.

(** The blocks of the file are untouched by an allocation. *)
Lemma alloc_owned a n : 0 <= a < sb_size sb -> used sb (tx_view t) a = false ->
  owned (tx_view t) i n -> tx_view (alloc_tx sb a t) !! n = tx_view t !! n.
Proof.
  intros Ha Hu Ho. destruct (fw_own _ _ _ W n Ho). apply alloc_data; [done|lia|].
  by apply owned_ne_free.
Qed.

Lemma fblock_alloc a bn : 0 <= a < sb_size sb -> used sb (tx_view t) a = false ->
  fblock (tx_view (alloc_tx sb a t)) i bn = fblock (tx_view t) i bn.
Proof. intros Ha Hu. apply fblock_ext. intros Hn. by apply alloc_owned, owned_ind. Qed.

(** A direct block. *)
Lemma grow_direct bn a :
  first_free sb t a -> in_file bn -> bn < NDIRECT -> fblock (tx_view t) i bn = 0 ->
  grown sb 2 1 t i (alloc_tx sb a t) (set_i_addrs (<[Z.to_nat bn := a]> (i_addrs i)) i) bn a.
Proof.
  intros (Ha & Hu & _) Hb Hd H0. pose proof (free_is_data sb t L a Ha Hu) as Hda.
  pose proof (dstart_pos sb t L) as Hds. pose proof (fw_len _ _ _ W) as Hlen.
  set (i' := set_i_addrs _ i).
  assert (iblk i' = iblk i) as Hi.
  { unfold iblk. simpl. rewrite list_lookup_total_insert_ne; [done|].
    destruct (in_file_cases bn Hb) as [[? ?]|[? ?]]; [|lia]. change (Z.to_nat NDIRECT) with 12%nat. lia. }
  assert (forall bn', in_file bn' -> fblock (tx_view (alloc_tx sb a t)) i' bn' =
    if decide (bn' = bn) then a else fblock (tx_view t) i bn') as Hf.
  { intros bn' Hb'. rewrite <- (fblock_alloc a) by done. unfold fblock. rewrite Hi.
    destruct (Z.ltb_spec bn' NDIRECT); simpl.
    - case_decide as E; [subst; apply list_lookup_total_insert_eq|
        apply list_lookup_total_insert_ne]; unfold in_file, NDIRECT in *; lia.
    - rewrite decide_False by lia. done. }
  constructor; [by apply layout_alloc|done| | | |done| | |done|].
  - split_and!; [by apply tx_base_alloc|done|]. simpl.
    pose proof (length_log_add (log_add (tx_log t) (BBLOCK a sb)) a).
    pose proof (length_log_add (tx_log t) (BBLOCK a sb)). lia.
  - apply (file_wf_extend sb (tx_view t) i _ _ bn a); try done; [..|lia|lia| |by left|].
    + simpl. by rewrite length_insert.
    + rewrite used_alloc by done. by rewrite decide_True.
    + intros n Hn. by apply used_alloc_mono.
  - apply evolves_alloc; [done|done| |].
    + intros n [Hn [-> |(bn' & Hb' & <-)]]; [left; rewrite Hi in *; by split; [|left]|].
      rewrite Hf in * by done. case_decide; [by right|left]. by apply owned_block.
    + intros bn' Hb' Hn. rewrite Hf by done. case_decide; [by subst|done].
  - split; [lia|]. right. split; [done|]. apply alloc_lookup_new.
  - intros bn' Hb' Hn. by apply alloc_owned, owned_block.
  - rewrite (nfree_alloc sb a t L Ha Hu). lia.
Qed.

(** An entry of the indirect block. *)
Lemma grow_indirect bn a d :
  first_free sb t a -> in_file bn -> NDIRECT <= bn -> iblk i <> 0 ->
  tx_view t !! iblk i = Some d -> fblock (tx_view t) i bn = 0 ->
  grown sb 3 1 t i
    (tx_write (iblk i) (st_addr d (Z.to_nat (bn - NDIRECT)) a) (alloc_tx sb a t)) i bn a.
Proof.
  intros (Ha & Hu & _) Hb Hn0 Hind Hd H0. pose proof (free_is_data sb t L a Ha Hu) as Hda.
  pose proof (dstart_pos sb t L) as Hds. pose proof (ly_size _ _ L) as Hsz.
  destruct (fw_own _ _ _ W _ (owned_ind Hind)) as [Hir Hiu].
  pose proof (owned_ne_free a _ Hu (owned_ind Hind)) as Hia.
  pose proof (layout_alloc sb a t L Ha Hda) as L1.
  assert (length d = Z.to_nat BSIZE) as Hl by by apply (ly_len _ _ L) in Hd.
  destruct (in_file_cases bn Hb) as [[? _]|[_ Hk]]; [lia|].
  set (k := Z.to_nat (bn - NDIRECT)) in *. set (t' := tx_write _ _ _).
  assert (forall n, used sb (tx_view t') n = used sb (tx_view (alloc_tx sb a t)) n
    \/ sb_size sb <= n \/ n < 0) as Hused.
  { intros n. destruct (decide (0 <= n < sb_size sb)); [left|right; lia].
    apply used_write_ne. by apply (data_not_meta sb t L (iblk i) ltac:(lia)). }
  assert (forall n, n <> iblk i -> tx_view t' !! n = tx_view (alloc_tx sb a t) !! n) as Hne.
  { intros n Hn. by apply lookup_insert_ne. }
  assert (forall bn', in_file bn' -> fblock (tx_view t') i bn' =
    if decide (bn' = bn) then a else fblock (tx_view t) i bn') as Hf.
  { intros bn' Hb'. unfold fblock. destruct (Z.ltb_spec bn' NDIRECT).
    { rewrite decide_False by lia. done. }
    destruct (Z.eqb_spec (iblk i) 0); [done|].
    destruct (in_file_cases bn' Hb') as [[? _]|[_ Hk']]; [lia|].
    assert (tx_view t' !!! iblk i = st_addr d k a) as ->
      by (apply lookup_total_correct, lookup_insert_eq).
    rewrite (lookup_total_correct _ _ _ Hd), ld_st_addr by (done || unfold is_u32; lia).
    subst k. repeat case_decide; try done; lia. }
  assert (forall n, 0 <= n < sb_size sb -> used sb (tx_view t) n = true ->
    used sb (tx_view t') n = true) as Hmono.
  { intros n Hn Hun. destruct (Hused n) as [-> |]; [|lia]. by apply used_alloc_mono. }
  constructor; [|done| | | |done| | |done|].
  - apply layout_write; [done|by unfold st_addr; rewrite length_stle|lia|
      by apply (ly_dom _ _ L1); lia|].
    intros b Hb'. destruct (Hused b) as [E|]; [|pose proof (ly_bmap _ _ L); lia].
    fold t'. rewrite E. by apply (ly_meta _ _ L1).
  - split_and!; [unfold t'; rewrite tx_base_write by lia; by apply tx_base_alloc|done|]. simpl.
    pose proof (length_log_add (log_add (log_add (tx_log t) (BBLOCK a sb)) a) (iblk i)).
    pose proof (length_log_add (log_add (tx_log t) (BBLOCK a sb)) a).
    pose proof (length_log_add (tx_log t) (BBLOCK a sb)). lia.
  - apply (file_wf_extend sb (tx_view t) i _ _ bn a); try done; [..|lia|lia| |by left].
    + apply (fw_len _ _ _ W).
    + destruct (Hused a) as [-> |]; [|lia]. rewrite used_alloc by done. by rewrite decide_True.
  - constructor; [| |done| |].
    + intros n Hn Hun Ho. rewrite Hne by (intros ->; by apply Ho, owned_ind).
      apply alloc_data; [done|lia|]. intros ->. congruence.
    + intros n Hn. rewrite Hne by (pose proof (bmapstart_lt sb t L); lia).
      by apply alloc_meta.
    + intros n [Hn [-> |(bn' & Hb' & <-)]]; [left; by apply owned_ind|].
      rewrite Hf in * by done. case_decide; [right; split; [lia|done]|left]. by apply owned_block.
    + intros bn' Hb' Hn. rewrite Hf by done. case_decide; [by subst|done].
  - split; [lia|]. right. split; [done|]. rewrite Hne by done. apply alloc_lookup_new.
  - intros bn' Hb' Hn. rewrite Hne by (by apply (fw_ind _ _ _ W)). by apply alloc_owned, owned_block.
  - rewrite (nfree_alloc sb a t L Ha Hu). unfold t'.
    rewrite (nfree_write_data sb (iblk i) _ (alloc_tx sb a t)) by (done || lia). lia.
Qed.

(** The indirect block itself. *)
Definition with_ind (a : Z) : inode := set_i_addrs (<[Z.to_nat NDIRECT := a]> (i_addrs i)) i.

Lemma iblk_with_ind a : iblk (with_ind a) = a.
Proof.
  unfold iblk. simpl. apply list_lookup_total_insert_eq. rewrite (fw_len _ _ _ W).
  change (Z.to_nat NDIRECT) with 12%nat. lia.
Qed.

Lemma fblock_with_ind a bn : 0 <= a < sb_size sb -> dstart sb <= a -> iblk i = 0 -> in_file bn ->
  fblock (tx_view (alloc_tx sb a t)) (with_ind a) bn = fblock (tx_view t) i bn.
Proof.
  intros Ha Hda H0 Hb. unfold fblock. rewrite iblk_with_ind, H0.
  pose proof (dstart_pos sb t L). rewrite (proj2 (Z.eqb_neq a 0)) by lia. simpl.
  destruct (in_file_cases bn Hb) as [[Hd Hk]|[Hd Hk]].
  - rewrite (proj2 (Z.ltb_lt _ _)) by done. simpl. apply list_lookup_total_insert_ne.
    change (Z.to_nat NDIRECT) with 12%nat. lia.
  - rewrite (proj2 (Z.ltb_ge _ _)) by done.
    rewrite (lookup_total_correct _ _ _ (alloc_lookup_new sb a t)). by apply ld_addr_zeros.
Qed.

Lemma grow_ind_alloc c :
  first_free sb t c -> iblk i = 0 ->
  file_wf sb (tx_view (alloc_tx sb c t)) (with_ind c) /\
  evolves sb (tx_view t) i (tx_view (alloc_tx sb c t)) (with_ind c).
Proof.
  intros (Ha & Hu & _) H0. pose proof (free_is_data sb t L c Ha Hu) as Hda.
  pose proof (dstart_pos sb t L) as Hds. split.
  - apply (file_wf_indirect sb (tx_view t) i); rewrite ?iblk_with_ind; try done; [..|lia| |lia|].
    + simpl. rewrite length_insert. apply (fw_len _ _ _ W).
    + intros bn Hb. by apply fblock_with_ind.
    + rewrite used_alloc by done. by rewrite decide_True.
    + intros n Hn. by apply used_alloc_mono.
  - apply evolves_alloc; [done|done| |].
    + intros n [Hn [-> |(bn & Hb & <-)]]; [right; by rewrite iblk_with_ind|left].
      rewrite fblock_with_ind in * by done. by apply owned_block.
    + intros bn Hb _. by apply fblock_with_ind.
Qed.

End grow.

(** A first entry of the indirect block: the block and then the entry. *)
Lemma grown_ind_trans sb t i c t2 bn a :
  layout sb t -> file_wf sb (tx_view t) i -> first_free sb t c -> iblk i = 0 -> in_file bn ->
  fblock (tx_view t) i bn = 0 ->
  grown sb 3 1 (alloc_tx sb c t) (with_ind i c) t2 (with_ind i c) bn a ->
  grown sb 5 2 t i t2 (with_ind i c) bn a.
Proof.
  intros L W Hc H0 Hb Hz G. pose proof Hc as (Ha & Hu & _). pose proof (dstart_pos sb t L) as Hds.
  pose proof (free_is_data sb t L c Ha Hu) as Hda.
  destruct (grow_ind_alloc sb t L i W c Hc H0) as [W1 E1].
  destruct (gr_log _ _ _ _ _ _ _ _ _ G) as (Hl1 & Hl2 & Hl3).
  constructor; [apply (gr_layout _ _ _ _ _ _ _ _ _ G)|apply (gr_held _ _ _ _ _ _ _ _ _ G)| |
    apply (gr_wf _ _ _ _ _ _ _ _ _ G)| | | | |done|].
  - split_and!; [by rewrite Hl1; apply tx_base_alloc|done|]. simpl in Hl3.
    pose proof (length_log_add (log_add (tx_log t) (BBLOCK c sb)) c).
    pose proof (length_log_add (tx_log t) (BBLOCK c sb)). lia.
  - eapply evolves_trans; [lia|exact E1|apply (gr_ev _ _ _ _ _ _ _ _ _ G)].
  - intros bn' Hb'. rewrite (gr_map _ _ _ _ _ _ _ _ _ G) by done.
    case_decide; [done|]. by apply fblock_with_ind.
  - destruct (gr_new _ _ _ _ _ _ _ _ _ G) as [Har Hn]. split; [done|].
    by rewrite (fblock_with_ind sb t L i W c bn Ha Hda H0 Hb) in Hn.
  - intros bn' Hb' Hn. pose proof (fblock_with_ind sb t L i W c bn' Ha Hda H0 Hb') as E.
    rewrite <- E, (gr_data _ _ _ _ _ _ _ _ _ G) by (done || by rewrite E). rewrite E.
    by apply (alloc_owned sb t L i W), owned_block.
  - pose proof (gr_free _ _ _ _ _ _ _ _ _ G). rewrite (nfree_alloc sb c t L Ha Hu). lia.
Qed.

(** *** bmap *)

Lemma grown_weaken sb kl kf kl' kf' t i t' i' bn a :
  grown sb kl kf t i t' i' bn a -> (kl <= kl')%nat -> (kf <= kf')%nat ->
  grown sb kl' kf' t i t' i' bn a.
Proof.
  intros [] H1 H2. constructor; try done; [|lia]. destruct gr_log0 as (? & ? & ?).
  split_and!; [done|done|lia].
Qed.

Section bmap.
Context {St : Type} `{!Blocks St, !BlocksLaws St}.
Implicit Types (s : fs St) (t : tx).

(** A state of the file system inside a transaction. *)
Record fs_ok s t : Prop := {
  fo_abs : blk_abs (fs_st s) t;
  fo_layout : layout (fs_sb s) t;
  fo_held : held_data (fs_sb s) t;
}.

Lemma fs_ok_mem s s' t : fs_ok s t -> fs_sb s' = fs_sb s -> blk_abs (fs_st s') t -> fs_ok s' t.
Proof. intros [Ha L H] E Ha'. constructor; by rewrite ?E. Qed.

Lemma inodeat_set ip i' s (b : St) :
  (ip < length (fs_icache s))%nat -> inodeat ip (Fs (fs_sb s) (<[ip := i']> (fs_icache s)) b) = i'.
Proof. intros. by apply list_lookup_total_insert_eq. Qed.

(** Reading an indirect entry and leaving everything as it was. *)
Lemma bmap_found s t ip bn :
  fs_ok s t -> tx_slot t -> file_wf (fs_sb s) (tx_view t) (inodeat ip s) ->
  in_file bn -> fblock (tx_view t) (inodeat ip s) bn <> 0 ->
  unheld t (iblk (inodeat ip s)) ->
  wp (bmap ip bn) (fun a s' => a = fblock (tx_view t) (inodeat ip s) bn /\
    same_mem s s' /\ blk_abs (fs_st s') t) s.
Proof.
  intros [Ha L Hh] Hs W Hb Hn Hu. unfold bmap. apply wp_bind, wp_gets.
  pose proof Hn as Hn'. unfold fblock in Hn |- *. rewrite (fw_dev _ _ _ W).
  destruct (in_file_cases bn Hb) as [[Hd Hk]|[Hd Hk]].
  - rewrite (proj2 (Z.ltb_lt _ _)) in * by done. rewrite (proj2 (Z.eqb_neq _ _)) by done.
    by apply wp_ret.
  - rewrite (proj2 (Z.ltb_ge _ _)) in * by done.
    destruct (Z.eqb_spec (iblk (inodeat ip s)) 0) as [|Hi]; [done|].
    rewrite (proj2 (Z.ltb_lt _ _)) by (unfold in_file, MAXFILE in Hb; lia).
    unfold iblk in Hi. rewrite (proj2 (Z.eqb_neq _ _) Hi). apply wp_bind, wp_ret.
    change (i_addrs (inodeat ip s) !!! Z.to_nat NDIRECT) with (iblk (inodeat ip s)) in *.
    destruct (fw_own _ _ _ W _ (owned_ind t _ Hi)) as [Hr _].
    pose proof (dstart_pos _ _ L).
    assert (iblk (inodeat ip s) ∈ dom (tx_view t)) as [d Hdv]%elem_of_dom
      by (apply (ly_dom _ _ L); lia).
    eapply wp_read; [exact Ha|by apply elem_of_dom; exists d|done|done|].
    intros bp b1 Hbp Hb1. eapply (wp_data bp _ d); [exact Hb1|apply lookup_insert_eq|done|].
    intros _. rewrite (lookup_total_correct _ _ _ Hdv) in *.
    rewrite (proj2 (Z.eqb_neq _ _)) by done. apply wp_bind, wp_ret, wp_bind.
    eapply wp_rel; [exact Hb1|done|by apply (blk_clean _ _ _ Ha)|]. intros b2 Hb2. by apply wp_ret.
Qed.

Lemma held_data_mono sb t t' :
  0 <= dstart sb -> held_data sb t -> tx_held t' = tx_held t ->
  (forall n, 0 <= n < sb_size sb -> used sb (tx_view t) n = true -> used sb (tx_view t') n = true) ->
  held_data sb t'.
Proof.
  intros Hd Hh E Hu j n Hj. rewrite E in Hj. apply Hh in Hj as [? ?]. split; [done|].
  apply Hu; [lia|done].
Qed.

Lemma held_data_insert sb t bp n :
  held_data sb t -> dstart sb <= n < sb_size sb -> used sb (tx_view t) n = true ->
  held_data sb (tx_set_held (<[bp := n]> (tx_held t)) t).
Proof.
  intros Hh Hn Hu j m. simpl. rewrite lookup_insert_Some. intros [[_ <-]|[_ ?]]; [done|by eapply Hh].
Qed.

Lemma layout_held sb t h : layout sb t -> layout sb (tx_set_held h t).
Proof. intros []. by constructor. Qed.

(** The search of the indirect block, and the allocation of its entry. *)
Lemma bmap_entry s t i bn Q :
  fs_ok s t -> budget 4 t -> file_wf (fs_sb s) (tx_view t) i -> in_file bn -> NDIRECT <= bn ->
  iblk i <> 0 -> unheld t (iblk i) -> fblock (tx_view t) i bn = 0 ->
  (1 <= nfree (fs_sb s) (tx_view t))%nat ->
  (forall a s' t', same_mem s s' -> fs_ok s' t' -> grown (fs_sb s) 3 1 t i t' i bn a -> Q a s') ->
  wp (let! bp := fslift (blk_read 1 (iblk i)) in
      let! d := fslift (blk_data bp) in
      let! addr :=
        (let addr := ld_addr d (Z.to_nat (bn - NDIRECT)) in
         if addr =? 0 then
           let! addr := balloc 1 in
           let! d := fslift (blk_data bp) in
           fslift (blk_set bp (st_addr d (Z.to_nat (bn - NDIRECT)) addr));;;
           fslift (blk_log bp);;; ret addr
         else ret addr) in
      fslift (blk_rel bp);;; ret addr) Q s.
Proof.
  intros [Ha L Hh] HB W Hb Hd Hi Hu H0 Hf HQ.
  pose proof (dstart_pos _ _ L) as Hds. set (sb := fs_sb s) in *.
  destruct (fw_own _ _ _ W _ (owned_ind t _ Hi)) as [Hr Hus].
  assert (iblk i ∈ dom (tx_view t)) as [d Hdv]%elem_of_dom by (apply (ly_dom _ _ L); lia).
  eapply wp_read; [exact Ha|by apply elem_of_dom; exists d|done|by eapply budget_slot|].
  intros bp b1 Hbp Hb1. set (t1 := tx_set_held _ t) in *.
  eapply (wp_data bp _ d); [exact Hb1|apply lookup_insert_eq|done|]. intros Hl.
  assert (ld_addr d (Z.to_nat (bn - NDIRECT)) = 0) as Hz.
  { unfold fblock in H0. rewrite (proj2 (Z.ltb_ge _ _)) in H0 by done.
    rewrite (proj2 (Z.eqb_neq _ _) Hi) in H0. by rewrite (lookup_total_correct _ _ _ Hdv) in H0. }
  rewrite Hz. simpl. apply wp_bind, wp_bind.
  eapply wp_mono; [apply (balloc_spec _ t1); simpl|].
  { done. } { by apply layout_held. } { by apply held_data_insert. }
  { apply budget_held; [done|]. eapply budget_le; [|exact HB]. lia. } { by apply nfree_pos. }
  simpl. intros a s2 (Hff' & [Hm1 Hm2] & Ha2').
  assert (blk_abs (fs_st s2) (tx_set_held (<[bp := iblk i]> (tx_held (alloc_tx sb a t)))
    (alloc_tx sb a t))) as Ha2 by exact Ha2'.
  assert (first_free sb t a) as Hff by exact Hff'. pose proof Hff as (Har & Hau & _).
  assert (tx_view (alloc_tx sb a t) !! iblk i = Some d) as Hdv2.
  { rewrite <- Hdv. apply (alloc_owned sb t L i W); [done|done|by apply owned_ind]. }
  eapply (wp_data bp _ d); [exact Ha2|apply lookup_insert_eq|exact Hdv2|]. intros _.
  eapply wp_set_log; [exact Ha2|by unfold st_addr; rewrite length_stle| | |].
  { apply (data_not_meta sb t L (iblk i)). lia. }
  { eapply budget_room, budget_write, budget_write, HB. }
  intros b3 Hb3. apply wp_ret, wp_bind.
  eapply wp_rel; [exact Hb3|done|left; apply elem_of_log_add; by left|]. intros b4 Hb4. apply wp_ret.
  pose proof (grow_indirect sb t L i W bn a d Hff Hb Hd Hi Hdv H0) as G.
  eapply HQ; [by split| |exact G]. constructor; simpl; [done|rewrite Hm1; apply G|].
  rewrite Hm1. apply (held_data_mono sb t); [lia|done|apply G|].
  apply (ev_used _ _ _ _ _ (gr_ev _ _ _ _ _ _ _ _ _ G)).
Qed.

(** [bmap] of a block the file does not have. *)
Lemma bmap_alloc s t ip bn :
  fs_ok s t -> budget 6 t -> (ip < length (fs_icache s))%nat ->
  file_wf (fs_sb s) (tx_view t) (inodeat ip s) -> in_file bn ->
  fblock (tx_view t) (inodeat ip s) bn = 0 -> unheld t (iblk (inodeat ip s)) ->
  (2 <= nfree (fs_sb s) (tx_view t))%nat ->
  wp (bmap ip bn) (fun a s' => exists A t',
    s' = Fs (fs_sb s) (<[ip := set_i_addrs A (inodeat ip s)]> (fs_icache s)) (fs_st s') /\
    fs_ok s' t' /\ grown (fs_sb s) 5 2 t (inodeat ip s) t' (set_i_addrs A (inodeat ip s)) bn a) s.
Proof.
  intros HO HB Hip W Hb H0 Hu Hf. unfold bmap. apply wp_bind, wp_gets.
  pose proof (fo_layout _ _ HO) as L. pose proof (dstart_pos _ _ L).
  set (i := inodeat ip s) in *. rewrite (fw_dev _ _ _ W).
  destruct (in_file_cases bn Hb) as [[Hd Hk]|[Hd Hk]].
  - rewrite (proj2 (Z.ltb_lt _ _)) by done.
    assert (i_addrs i !!! Z.to_nat bn = 0) as ->.
    { unfold fblock in H0. by rewrite (proj2 (Z.ltb_lt _ _)) in H0 by done. }
    simpl. apply wp_bind. destruct HO as [Ha _ Hh].
    eapply wp_mono; [apply (balloc_spec s t); try done|].
    { eapply budget_le; [|exact HB]. lia. } { apply nfree_pos. lia. }
    intros a s2 (Hff & [Hm1 Hm2] & Ha2). apply wp_bind, wp_modify, wp_ret.
    unfold inodeat. rewrite Hm2. change (fs_icache s !!! ip) with i.
    exists (<[Z.to_nat bn := a]> (i_addrs i)), (alloc_tx (fs_sb s) a t).
    pose proof (grow_direct _ t L i W bn a Hff Hb Hd H0) as G.
    split_and!; [by rewrite Hm1|..].
    + constructor; simpl; rewrite ?Hm1; [done|apply G|].
      apply (held_data_mono _ t); [lia|done|apply G|].
      apply (ev_used _ _ _ _ _ (gr_ev _ _ _ _ _ _ _ _ _ G)).
    + by apply (grown_weaken _ 2 1); [|lia|lia].
  - rewrite (proj2 (Z.ltb_ge _ _)) by done.
    rewrite (proj2 (Z.ltb_lt _ _)) by (unfold in_file, MAXFILE in Hb; lia).
    apply wp_bind. fold (iblk i). destruct (Z.eqb_spec (iblk i) 0) as [Hi|Hi].
    + apply wp_bind. destruct HO as [Ha _ Hh].
      eapply wp_mono; [apply (balloc_spec s t); try done|].
      { eapply budget_le; [|exact HB]. lia. } { apply nfree_pos. lia. }
      intros c s2 (Hff & [Hm1 Hm2] & Ha2). pose proof Hff as (Hc & Huc & _).
      apply wp_bind, wp_modify, wp_ret.
      unfold inodeat. rewrite Hm2. change (fs_icache s !!! ip) with i.
      change (set_i_addrs (<[Z.to_nat NDIRECT := c]> (i_addrs i)) i) with (with_ind i c).
      destruct (grow_ind_alloc _ t L i W c Hff Hi) as [W1 E1].
      pose proof (free_is_data _ _ L c Hc Huc) as Hdc.
      set (s3 := Fs _ _ _). rewrite <- (iblk_with_ind _ t i W c).
      apply (bmap_entry s3 (alloc_tx (fs_sb s) c t) (with_ind i c) bn);
        subst s3; simpl; rewrite ?Hm1; try done.
      * constructor; simpl; rewrite ?Hm1; [done|by apply layout_alloc|].
        apply (held_data_mono _ t); [lia|done|done|apply E1].
      * by apply budget_write, budget_write.
      * rewrite (iblk_with_ind _ t i W c). lia.
      * rewrite (iblk_with_ind _ t i W c). intros j Hj%Hh. destruct Hj; congruence.
      * rewrite <- H0. by apply (fblock_with_ind _ t L i W c bn).
      * rewrite (nfree_alloc _ c t L Hc Huc) in Hf. simpl in Hf. lia.
      * intros a s' t' [Hm1' Hm2'] HO' G. simpl in *.
        exists (<[Z.to_nat NDIRECT := c]> (i_addrs i)), t'.
        split_and!; [|done|by apply grown_ind_trans].
        unfold with_ind in Hm2'. destruct s'. simpl in *. by subst.
    + apply wp_ret. eapply bmap_entry; try done; [eapply budget_le; [|exact HB]; lia|lia|].
      intros a s' t' [Hm1 Hm2] HO' G. exists (i_addrs i), t'.
      assert (set_i_addrs (i_addrs i) i = i) as -> by by destruct i.
      split_and!; [|done|by apply (grown_weaken _ 3 1); [|lia|lia]].
      rewrite list_insert_id; [rewrite <- Hm1, <- Hm2; by destruct s'|].
      by apply list_lookup_lookup_total_lt.
Qed.

End bmap.

(** [bmap] of any block of a file. *)
Lemma bmap_spec {St} `{!Blocks St, !BlocksLaws St} (s : fs St) t ip bn :
  fs_ok s t -> budget 6 t -> (ip < length (fs_icache s))%nat ->
  file_wf (fs_sb s) (tx_view t) (inodeat ip s) -> in_file bn ->
  unheld t (iblk (inodeat ip s)) -> (2 <= nfree (fs_sb s) (tx_view t))%nat ->
  wp (bmap ip bn) (fun a s' => exists A t',
    s' = Fs (fs_sb s) (<[ip := set_i_addrs A (inodeat ip s)]> (fs_icache s)) (fs_st s') /\
    fs_ok s' t' /\ grown (fs_sb s) 5 2 t (inodeat ip s) t' (set_i_addrs A (inodeat ip s)) bn a) s.
Proof.
  intros HO HB Hip W Hb Hu Hf.
  destruct (decide (fblock (tx_view t) (inodeat ip s) bn = 0)) as [H0|H0]; [by apply bmap_alloc|].
  eapply wp_mono; [apply (bmap_found s t ip bn); try done; by eapply budget_slot|].
  intros a s' (-> & [Hm1 Hm2] & Ha'). exists (i_addrs (inodeat ip s)), t.
  assert (set_i_addrs (i_addrs (inodeat ip s)) (inodeat ip s) = inodeat ip s) as -> by by destruct (inodeat ip s).
  split_and!.
  - rewrite list_insert_id by (by apply list_lookup_lookup_total_lt). destruct s'. simpl in *. by subst.
  - by apply (fs_ok_mem s).
  - destruct HO as [_ L _]. constructor; try done; [split_and!; [done|done|lia]|apply evolves_refl| | |lia].
    + intros bn' Hb'. by case_decide; [subst|].
    + split; [|by left]. by apply (fw_own _ _ _ W), owned_block.
Qed.

(** *** Reading *)

(** The [n] bytes of a file from [off]. *)
Definition fbytes (v : bview) (i : inode) (off n : Z) : list Z :=
  (fun k => fbyte v i (off + k)) <$> seqZ 0 n.

Lemma fbytes_lookup v i off n (k : nat) :
  Z.of_nat k < n -> fbytes v i off n !! k = Some (fbyte v i (off + Z.of_nat k)).
Proof. intros. unfold fbytes. rewrite list_lookup_fmap, lookup_seqZ_lt by lia. done. Qed.

Lemma length_fbytes v i off n : length (fbytes v i off n) = Z.to_nat n.
Proof. unfold fbytes. by rewrite length_fmap, length_seqZ. Qed.

Lemma fbytes_app v i off m n : 0 <= m <= n ->
  fbytes v i off n = fbytes v i off m ++ fbytes v i (off + m) (n - m).
Proof.
  intros H. apply list_eq. intros k. destruct (decide (Z.of_nat k < m)).
  - rewrite lookup_app_l by (rewrite length_fbytes; lia). by rewrite !fbytes_lookup by lia.
  - rewrite lookup_app_r by (rewrite length_fbytes; lia). rewrite length_fbytes.
    destruct (decide (Z.of_nat k < n)).
    + rewrite !fbytes_lookup by lia. do 2 f_equal. lia.
    + rewrite !lookup_ge_None_2 by (rewrite length_fbytes; lia). done.
Qed.

(** The bytes of one block. *)
Lemma block_slice v i off m d :
  0 <= off -> 0 <= m <= BSIZE - off mod BSIZE -> v !! fblock v i (off / BSIZE) = Some d ->
  length d = Z.to_nat BSIZE ->
  slice (Z.to_nat (off mod BSIZE)) (Z.to_nat m) d = fbytes v i off m.
Proof.
  intros Ho Hm Hd Hl. apply list_eq. intros k. destruct (decide (Z.of_nat k < m)) as [Hk|Hk].
  - rewrite lookup_slice, fbytes_lookup by lia. unfold fbyte, BSIZE in *.
    assert ((off + Z.of_nat k) / 512 = off / 512 /\
      Z.to_nat ((off + Z.of_nat k) mod 512) = (Z.to_nat (off mod 512) + k)%nat) as [-> ->] by dlia.
    rewrite (lookup_total_correct _ _ _ Hd). apply list_lookup_lookup_total_lt. dlia.
  - rewrite lookup_slice_ge by lia. symmetry. apply lookup_ge_None_2. rewrite length_fbytes. lia.
Qed.

(** Every block before the end of the file is there. *)
Definition no_holes (v : bview) (i : inode) (size : Z) : Prop :=
  forall bn, 0 <= bn -> bn * BSIZE < size -> fblock v i bn <> 0.

(** No block of the file is held by the process. *)
Definition file_unheld (t : tx) (i : inode) : Prop :=
  forall n, owned (tx_view t) i n -> unheld t n.

Lemma in_file_off off : 0 <= off < MAXFILE * BSIZE -> in_file (off / BSIZE).
Proof. unfold in_file, BSIZE. intros. dlia. Qed.

Section readi.
Context {St : Type} `{!Blocks St, !BlocksLaws St, !Devsw St}.
Implicit Types (s : fs St) (t : tx).

Lemma unheld_ind s t i :
  fs_ok s t -> file_unheld t i -> unheld t (iblk i).
Proof.
  intros [_ L Hh] Hu. destruct (decide (iblk i = 0)) as [E|E]; [|by apply Hu, owned_ind].
  rewrite E. intros j Hj%Hh. pose proof (dstart_pos _ _ L). lia.
Qed.

(** A block of the file is on the disk, and its buffer is not held. *)
Lemma file_block s t i bn :
  fs_ok s t -> file_wf (fs_sb s) (tx_view t) i -> file_unheld t i -> in_file bn ->
  fblock (tx_view t) i bn <> 0 ->
  exists d, tx_view t !! fblock (tx_view t) i bn = Some d /\ length d = Z.to_nat BSIZE /\
    unheld t (fblock (tx_view t) i bn) /\ ~ tx_region t (fblock (tx_view t) i bn).
Proof.
  intros [_ L Hh] W Hu Hb Hn. pose proof (owned_block t i bn Hb Hn) as Ho.
  destruct (fw_own _ _ _ W _ Ho) as [Hr _]. pose proof (dstart_pos _ _ L).
  assert (fblock (tx_view t) i bn ∈ dom (tx_view t)) as [d Hd]%elem_of_dom
    by (apply (ly_dom _ _ L); lia).
  exists d. split_and!; [done|by apply (ly_len _ _ L) in Hd|by apply Hu|].
  apply (data_not_meta _ _ L). lia.
Qed.

Lemma readi_loop_spec fuel s t ip off n tot acc :
  fs_ok s t -> tx_slot t -> file_wf (fs_sb s) (tx_view t) (inodeat ip s) ->
  file_unheld t (inodeat ip s) -> no_holes (tx_view t) (inodeat ip s) (i_size (inodeat ip s)) ->
  i_size (inodeat ip s) <= MAXFILE * BSIZE -> 0 <= off -> tot <= n ->
  off + (n - tot) <= i_size (inodeat ip s) -> n - tot <= Z.of_nat fuel ->
  wp (readi_loop fuel ip off n tot acc) (fun x s' =>
    x = acc ++ fbytes (tx_view t) (inodeat ip s) off (n - tot) /\
    same_mem s s' /\ blk_abs (fs_st s') t) s.
Proof.
  revert s off tot acc. induction fuel as [|fuel IH];
    intros s off tot acc HO Hs W Hu Hh Hsz Ho Hle Hoff Hfuel; simpl.
  { rewrite (proj2 (Z.ltb_ge _ _)) by lia. apply wp_ret. replace (n - tot) with 0 by lia.
    rewrite app_nil_r. destruct HO. done. }
  destruct (Z.ltb_spec tot n) as [Hlt|]; [|apply wp_ret; replace (n - tot) with 0 by lia;
    rewrite app_nil_r; by destruct HO].
  set (i := inodeat ip s) in *.
  assert (in_file (off / BSIZE)) as Hbn by (apply in_file_off; lia).
  assert (fblock (tx_view t) i (off / BSIZE) <> 0) as Hn by (apply Hh; unfold BSIZE; dlia).
  destruct (file_block s t i _ HO W Hu Hbn Hn) as (d & Hd & Hl & Hud & _).
  apply wp_bind. eapply wp_mono.
  { apply (bmap_found s t ip (off / BSIZE)); try done. by eapply unheld_ind. }
  intros a s1 (-> & [Hm1 Hm2] & Ha1). apply wp_bind, wp_gets.
  unfold inodeat. rewrite Hm2. change (fs_icache s !!! ip) with i. rewrite (fw_dev _ _ _ W).
  eapply wp_read; [exact Ha1|by apply elem_of_dom; exists d|done|done|].
  intros bp b1 Hbp Hb1. eapply (wp_data bp _ d); [exact Hb1|apply lookup_insert_eq|done|].
  intros _. apply wp_bind. eapply wp_rel; [exact Hb1|done|by apply (blk_clean _ _ _ Ha1)|].
  intros b2 Hb2. set (m := Z.min (n - tot) (BSIZE - off mod BSIZE)).
  assert (0 < m <= BSIZE - off mod BSIZE) as Hm by (subst m; unfold BSIZE; dlia).
  set (s2 := fs_put b2 _). assert (inodeat ip s2 = i) as Ei by (unfold inodeat; simpl; by rewrite Hm2).
  eapply wp_mono; [apply (IH s2); rewrite ?Ei; try done; subst s2; simpl; rewrite ?Hm1; try done; try lia|].
  { destruct HO. constructor; simpl; by rewrite ?Hm1. }
  rewrite Ei. intros x s3 (-> & Hs3 & Ha3). split_and!; [|subst s2; destruct Hs3; split; simpl in *; congruence|done].
  rewrite <- app_assoc. f_equal. rewrite (block_slice (tx_view t) i) by (done || lia).
  rewrite (fbytes_app _ _ off m (n - tot)) by lia. f_equal. f_equal. lia.
Qed.

(** [readi] of a file returns the bytes from [off], up to the end. *)
Lemma readi_file s t ip off n :
  fs_ok s t -> tx_slot t -> file_wf (fs_sb s) (tx_view t) (inodeat ip s) ->
  file_unheld t (inodeat ip s) -> no_holes (tx_view t) (inodeat ip s) (i_size (inodeat ip s)) ->
  0 <= i_size (inodeat ip s) <= MAXFILE * BSIZE -> i_type (inodeat ip s) <> T_DEV ->
  0 <= off <= i_size (inodeat ip s) -> 0 <= n -> off + n < 4294967296 ->
  wp (readi ip off n) (fun r s' => same_mem s s' /\ blk_abs (fs_st s') t /\
    let m := Z.min n (i_size (inodeat ip s) - off) in
    r = (m, fbytes (tx_view t) (inodeat ip s) off m)) s.
Proof.
  intros HO Hs W Hu Hh Hsz Ht Ho Hn Hov. unfold readi. apply wp_bind, wp_gets.
  rewrite (proj2 (Z.eqb_neq _ _)) by done. rewrite u32_small by (unfold is_u32; lia).
  rewrite (proj2 (Z.ltb_ge _ _)), (proj2 (Z.ltb_ge (off + n) off)) by lia. simpl.
  set (m := if _ <? _ then _ else n).
  assert (m = Z.min n (i_size (inodeat ip s) - off)) as -> by
    (subst m; destruct (Z.ltb_spec (i_size (inodeat ip s)) (off + n)); lia).
  apply wp_bind. eapply wp_mono.
  { apply (readi_loop_spec _ s t); try done; lia. }
  intros x s' (-> & Hs' & Ha'). apply wp_ret. split_and!; [done|done|].
  unfold MAXFILE, NDIRECT, NINDIRECT, BSIZE in Hsz. change (512 / 4) with 128 in Hsz.
  rewrite i32_small by lia. by rewrite Z.sub_0_r.
Qed.

(** [readi] rejects an offset past the end and a range that overflows. *)
Lemma readi_range s ip off n :
  i_type (inodeat ip s) <> T_DEV ->
  i_size (inodeat ip s) < off \/ u32 (off + n) < off -> readi ip off n s = Ret (-1, []) s.
Proof.
  intros Ht H. unfold readi. rewrite (bind_Ret (gets (inodeat ip)) _ s (inodeat ip s) s eq_refl).
  rewrite (proj2 (Z.eqb_neq _ _)) by done.
  replace ((i_size (inodeat ip s) <? off) || (u32 (off + n) <? off)) with true; [done|].
  symmetry. apply orb_true_iff. destruct H; [left|right]; by apply Z.ltb_lt.
Qed.

End readi.
