(* ===== verification/FsWrite.v ===== *)
(** Writing files in fs.c: [writei] and [iupdate]. *)

From S2P Require Import Prelude Params Log Blocks Fs FsAlloc FsFile.

(** *** One block *)

Lemma used_write_data sb n d t b :
  layout sb t -> dstart sb <= n -> 0 <= b < sb_size sb ->
  used sb (tx_view (tx_write n d t)) b = used sb (tx_view t) b.
Proof.
  intros L Hn Hb. apply used_write_ne. by apply (data_not_meta sb t L n Hn).
Qed.

Lemma layout_write_data sb n d t :
  layout sb t -> dstart sb <= n < sb_size sb -> length d = Z.to_nat BSIZE ->
  layout sb (tx_write n d t).
Proof.
  intros L Hn Hd. pose proof (dstart_pos sb t L). pose proof (ly_bmap _ _ L).
  apply layout_write; [done|done|lia|apply (ly_dom _ _ L); lia|].
  intros b Hb. rewrite used_write_data by (done || lia). by apply (ly_meta _ _ L).
Qed.

Lemma lookup_inserts_total (x d : list Z) (o k : nat) :
  (o + length x <= length d)%nat ->
  list_inserts o x d !!! k =
    if decide (o <= k < o + length x)%nat then x !!! (k - o)%nat else d !!! k.
Proof.
  intros H. rewrite !list_lookup_total_alt. case_decide.
  - rewrite list_lookup_inserts by lia. done.
  - destruct (decide (k < o)%nat); [rewrite list_lookup_inserts_lt by lia; done|].
    rewrite list_lookup_inserts_ge by lia. done.
Qed.

(** Data block [bn] of the file gets the bytes [x] from offset [o]. *)
Lemma write_block sb t i bn d (o : nat) (x : list Z) :
  layout sb t -> file_wf sb (tx_view t) i -> in_file bn -> fblock (tx_view t) i bn <> 0 ->
  tx_view t !! fblock (tx_view t) i bn = Some d -> length d = Z.to_nat BSIZE ->
  (o + length x <= length d)%nat ->
  let t' := tx_write (fblock (tx_view t) i bn) (list_inserts o x d) t in
  layout sb t' /\ file_wf sb (tx_view t') i /\ evolves sb (tx_view t) i (tx_view t') i /\
  nfree sb (tx_view t') = nfree sb (tx_view t) /\
  (forall bn', fblock (tx_view t') i bn' = fblock (tx_view t) i bn') /\
  (forall p, 0 <= p -> in_file (p / BSIZE) -> fblock (tx_view t) i (p / BSIZE) <> 0 ->
    fbyte (tx_view t') i p =
      if decide (bn * BSIZE + Z.of_nat o <= p < bn * BSIZE + Z.of_nat o + Z.of_nat (length x))
      then x !!! Z.to_nat (p - (bn * BSIZE + Z.of_nat o)) else fbyte (tx_view t) i p).
Proof.
  intros L W Hb Hn Hd Hl Hx t'. pose proof (owned_block t i bn Hb Hn) as Ho.
  destruct (fw_own _ _ _ W _ Ho) as [Hr Hu]. set (a := fblock (tx_view t) i bn) in *.
  assert (forall bn', fblock (tx_view t') i bn' = fblock (tx_view t) i bn') as Hf.
  { intros bn'. apply fblock_ext. intros _. apply lookup_insert_ne. by apply (fw_ind _ _ _ W). }
  assert (forall n, owned (tx_view t') i n <-> owned (tx_view t) i n) as Hown.
  { intros n. unfold owned. by setoid_rewrite Hf. }
  assert (forall b, 0 <= b < sb_size sb -> used sb (tx_view t') b = used sb (tx_view t) b) as Hus.
  { intros b Hb'. apply used_write_data; [done|lia|done]. }
  pose proof (dstart_pos sb t L). split_and!; [|constructor|constructor| |done|].
  - apply layout_write_data; [done|done|by rewrite length_inserts].
  - apply (fw_dev _ _ _ W).
  - apply (fw_len _ _ _ W).
  - intros n Hn'%Hown. destruct (fw_own _ _ _ W n Hn'). split; [done|]. rewrite Hus by lia. done.
  - intros b1 b2. rewrite !Hf. apply (fw_inj _ _ _ W).
  - intros b1. rewrite Hf. apply (fw_ind _ _ _ W).
  - intros n Hn' Hu' Ho'. apply lookup_insert_ne. by intros <-.
  - intros n Hn'. apply lookup_insert_ne. pose proof (bmapstart_lt sb t L). lia.
  - intros n Hn' Hu'. by rewrite Hus.
  - intros n Hn'%Hown. by left.
  - intros b1 _ _. apply Hf.
  - apply nfree_write_data; [done|lia].
  - intros p Hp Hpb Hpn. unfold fbyte. rewrite Hf. unfold BSIZE in *.
    change (Z.to_nat 512) with 512%nat in Hl.
    destruct (decide (p / 512 = bn)) as [E|E].
    + subst bn. fold a. rewrite (lookup_total_correct _ _ (list_inserts o x d)) by apply lookup_insert_eq.
      rewrite (lookup_total_correct _ _ _ Hd), lookup_inserts_total by done.
      repeat case_decide; try done; try dlia. f_equal. dlia.
    + rewrite decide_False by dlia. rewrite (lookup_total_eq (tx_view t)); [done|].
      apply lookup_insert_ne. subst a. intros E'. apply E. symmetry. by apply (fw_inj _ _ _ W).
Qed.

(** [bmap] keeps the contents of a file. *)
Lemma grown_fbyte sb kl kf t i t' i' bn a p :
  grown sb kl kf t i t' i' bn a -> in_file (p / BSIZE) -> fblock (tx_view t) i (p / BSIZE) <> 0 ->
  fbyte (tx_view t') i' p = fbyte (tx_view t) i p.
Proof.
  intros G Hp Hn. unfold fbyte. rewrite (ev_map _ _ _ _ _ (gr_ev _ _ _ _ _ _ _ _ _ G)) by done.
  by rewrite (lookup_total_eq (tx_view t)) by (by apply (gr_data _ _ _ _ _ _ _ _ _ G)).
Qed.

(** *** The loop of [writei] *)

(** From [(t, i)] to [(t', i')] the bytes [off .. off + len) of the file are
    written with [f], the other bytes are kept; [kl] blocks join the log and
    [kf] free blocks are taken, at most. *)
Record wrote (sb : superblock) (kl kf : nat) (t : tx) (i : inode) (t' : tx) (i' : inode)
    (off len : Z) (f : Z -> Z) : Prop := {
  wr_layout : layout sb t';
  wr_held : tx_held t' = tx_held t;
  wr_log : tx_base t' = tx_base t /\ tx_size t' = tx_size t /\
    (length (tx_log t') <= length (tx_log t) + kl)%nat;
  wr_wf : file_wf sb (tx_view t') i';
  wr_ev : evolves sb (tx_view t) i (tx_view t') i';
  wr_free : (nfree sb (tx_view t) <= nfree sb (tx_view t') + kf)%nat;
  wr_there : forall p, 0 <= p -> in_file (p / BSIZE) ->
    off <= p < off + len \/ fblock (tx_view t) i (p / BSIZE) <> 0 ->
    fblock (tx_view t') i' (p / BSIZE) <> 0;
  wr_same : (forall p, off <= p < off + len ->
    0 <= p /\ in_file (p / BSIZE) /\ fblock (tx_view t) i (p / BSIZE) <> 0) -> i' = i;
  wr_bytes : forall p, 0 <= p -> in_file (p / BSIZE) ->
    off <= p < off + len \/ fblock (tx_view t) i (p / BSIZE) <> 0 ->
    fbyte (tx_view t') i' p =
      if decide (off <= p < off + len) then f p else fbyte (tx_view t) i p;
}.

Lemma wrote_weaken sb kl kf kl' kf' t i t' i' off len f :
  wrote sb kl kf t i t' i' off len f -> (kl <= kl')%nat -> (kf <= kf')%nat ->
  wrote sb kl' kf' t i t' i' off len f.
Proof.
  intros [] H1 H2. destruct wr_log0 as (? & ? & ?).
  constructor; try done; [split_and!; [done|done|lia]|lia].
Qed.

Lemma wrote_nil sb t i off f :
  layout sb t -> file_wf sb (tx_view t) i -> wrote sb 0 0 t i t i off 0 f.
Proof.
  intros L W. constructor; try done; [split_and!; [done|done|lia]|apply evolves_refl|lia| |].
  - intros p _ _ [|]; [lia|done].
  - intros p _ _ [|]; [lia|]. by rewrite decide_False by lia.
Qed.

Lemma wrote_trans sb kl kf kl' kf' t i t1 i1 t2 i2 off m len f :
  0 <= m <= len -> 0 <= dstart sb ->
  wrote sb kl kf t i t1 i1 off m f -> wrote sb kl' kf' t1 i1 t2 i2 (off + m) (len - m) f ->
  wrote sb (kl + kl') (kf + kf') t i t2 i2 off len f.
Proof.
  intros Hm Hd [] []. constructor; try done.
  - congruence.
  - destruct wr_log0 as (? & ? & ?), wr_log1 as (? & ? & ?). split_and!; [congruence..|lia].
  - by eapply evolves_trans.
  - lia.
  - intros p Hp Hb H. apply wr_there1; [done|done|].
    destruct (decide (off + m <= p < off + m + (len - m))); [by left|right].
    apply wr_there0; [done|done|]. destruct H; [left; lia|by right].
  - intros H. rewrite wr_same1; [apply wr_same0|].
    + intros p Hp. apply H. lia.
    + intros p Hp. destruct (H p) as (? & ? & ?); [lia|]. split_and!; [done|done|].
      apply wr_there0; auto.
  - intros p Hp Hb H. assert (off + m <= p < off + m + (len - m) \/
      off <= p < off + m \/ fblock (tx_view t) i (p / BSIZE) <> 0) as H'
      by (destruct H; [lia|auto]).
    rewrite wr_bytes1; [|done|done|destruct H' as [|[|]]; auto].
    case_decide; [by rewrite decide_True by lia|].
    rewrite wr_bytes0; [|done|done|destruct H' as [|[|]]; [done|auto|auto]].
    repeat case_decide; try done; lia.
Qed.

(** One iteration: [bmap], and the bytes of one block. *)
Lemma wrote_block sb t i t1 i1 a d (o : nat) x off f :
  layout sb t -> (0 < length x)%nat -> let bn := off / BSIZE in
  in_file bn -> 0 <= off -> grown sb 5 2 t i t1 i1 bn a ->
  tx_view t1 !! a = Some d -> length d = Z.to_nat BSIZE -> Z.of_nat o = off mod BSIZE ->
  (o + length x <= length d)%nat ->
  (forall k, (k < length x)%nat -> x !!! k = f (off + Z.of_nat k)) ->
  wrote sb 6 2 t i (tx_write a (list_inserts o x d) t1) i1 off (Z.of_nat (length x)) f.
Proof.
  intros L Hx0 bn Hb Ho G Hd Hl Hoo Hx Hf.
  assert (fblock (tx_view t1) i1 bn = a) as Ea.
  { rewrite (gr_map _ _ _ _ _ _ _ _ _ G) by done. by rewrite decide_True. }
  pose proof (dstart_pos sb t L) as Hds. destruct (gr_new _ _ _ _ _ _ _ _ _ G) as [Har _].
  destruct (write_block sb t1 i1 bn d o x (gr_layout _ _ _ _ _ _ _ _ _ G)
    (gr_wf _ _ _ _ _ _ _ _ _ G) Hb) as (L2 & W2 & E2 & F2 & M2 & B2);
    [rewrite Ea; lia|by rewrite Ea|done|done|].
  rewrite Ea in L2, W2, E2, F2, M2, B2. assert (bn * BSIZE + Z.of_nat o = off) as Eo.
  { rewrite Hoo. subst bn. unfold BSIZE. dlia. }
  rewrite Eo in B2. destruct (gr_log _ _ _ _ _ _ _ _ _ G) as (G1 & G2 & G3).
  assert (forall p, off <= p < off + Z.of_nat (length x) -> p / BSIZE = bn) as Hpb.
  { intros p Hp. subst bn. unfold BSIZE in *. change (Z.to_nat 512) with 512%nat in Hl. dlia. }
  assert (forall p, 0 <= p -> in_file (p / BSIZE) ->
    off <= p < off + Z.of_nat (length x) \/ fblock (tx_view t) i (p / BSIZE) <> 0 ->
    fblock (tx_view t1) i1 (p / BSIZE) <> 0) as Hthere.
  { intros p Hp Hpi [H|H]; [rewrite (Hpb p H), Ea; lia|].
    rewrite (gr_map _ _ _ _ _ _ _ _ _ G) by done. case_decide; [lia|done]. }
  constructor; [done|apply (gr_held _ _ _ _ _ _ _ _ _ G)| |done| | | | |].
  - split_and!; [rewrite tx_base_write by lia; done|done|]. simpl.
    pose proof (length_log_add (tx_log t1) a). lia.
  - eapply evolves_trans; [lia|apply (gr_ev _ _ _ _ _ _ _ _ _ G)|done].
  - pose proof (gr_free _ _ _ _ _ _ _ _ _ G). rewrite F2. lia.
  - intros p Hp Hpi H. rewrite M2. by apply Hthere.
  - intros H. apply (gr_same _ _ _ _ _ _ _ _ _ G). destruct (H off) as (_ & _ & ?); [lia|done].
  - intros p Hp Hpi H. rewrite B2; [|done|done|by apply Hthere]. case_decide as D.
    + rewrite Hf by lia. f_equal. lia.
    + destruct H as [|H]; [done|]. by apply (grown_fbyte sb 5 2 t i t1 i1 bn a).
Qed.

(** The number of blocks that [off .. off + len) meets. *)
Definition nblk (off len : Z) : Z :=
  if len <=? 0 then 0 else (off mod BSIZE + len + BSIZE - 1) / BSIZE.

Lemma nblk_step off len m : 0 <= off -> 0 < len -> m = Z.min len (BSIZE - off mod BSIZE) ->
  nblk off len = 1 + nblk (off + m) (len - m) /\ 0 <= nblk (off + m) (len - m).
Proof.
  intros H0 H1 Hm. unfold nblk, BSIZE in *. rewrite (proj2 (Z.leb_gt len 0)) by lia.
  destruct (Z.leb_spec (len - m) 0).
  - assert (m = len) by lia. assert (0 < off mod 512 + len <= 512) by dlia.
    split; [|lia]. dlia.
  - assert (m = 512 - off mod 512) as Em by lia. assert ((off + m) mod 512 = 0) as -> by dlia.
    rewrite Em. split; dlia.
Qed.

Lemma budget_log k j t t' :
  budget (j + k) t -> tx_held t' = tx_held t -> tx_size t' = tx_size t ->
  (length (tx_log t') <= length (tx_log t) + j)%nat -> budget k t'.
Proof. unfold budget, tx_room. intros [H1 H2] -> -> H3. lia. Qed.

Section writei.
Context {St : Type} `{!Blocks St, !BlocksLaws St, !Devsw St}.
Implicit Types (s : fs St) (t : tx).

Lemma file_unheld_grown s t t' i i' :
  fs_ok s t -> file_unheld t i -> tx_held t' = tx_held t ->
  evolves (fs_sb s) (tx_view t) i (tx_view t') i' -> file_unheld t' i'.
Proof.
  intros [_ _ Hh] Hu E Ev n Hn j Hj. rewrite E in Hj.
  destruct (ev_new _ _ _ _ _ Ev n Hn) as [Ho|[_ Ho]]; [by apply (Hu n Ho j)|].
  apply Hh in Hj as [_ Hj]. congruence.
Qed.

(** The state with the address list of inode [ip] replaced. *)
Definition at_inode s ip (i : inode) (s' : fs St) : Prop :=
  s' = Fs (fs_sb s) (<[ip := i]> (fs_icache s)) (fs_st s').

(** One iteration of the loop, then [k]. *)
Lemma writei_step s t ip src off m tot (k : M (fs St) Z) (Q : Z -> fs St -> Prop) :
  fs_ok s t -> (ip < length (fs_icache s))%nat -> budget 7 t ->
  (2 <= nfree (fs_sb s) (tx_view t))%nat ->
  file_wf (fs_sb s) (tx_view t) (inodeat ip s) -> file_unheld t (inodeat ip s) ->
  0 <= off < MAXFILE * BSIZE -> 0 <= tot -> 0 < m <= BSIZE - off mod BSIZE ->
  tot + m <= Z.of_nat (length src) ->
  (forall s' A t', at_inode s ip (set_i_addrs A (inodeat ip s)) s' -> fs_ok s' t' ->
    wrote (fs_sb s) 6 2 t (inodeat ip s) t' (set_i_addrs A (inodeat ip s)) off m
      (fun p => src !!! Z.to_nat (p - (off - tot))) -> wp k Q s') ->
  wp (let! a := bmap ip (off / BSIZE) in
      let! i := gets (inodeat ip) in
      let! bp := fslift (blk_read (i_dev i) a) in
      let! d := fslift (blk_data bp) in
      let x := slice (Z.to_nat tot) (Z.to_nat m) src in
      if decide (length x = Z.to_nat m) then
        fslift (blk_set bp (list_inserts (Z.to_nat (off mod BSIZE)) x d));;;
        fslift (blk_log bp);;; fslift (blk_rel bp);;; k
      else fail Undef) Q s.
Proof.
  intros HO Hip HB Hf W Hu Ho Ht Hm Hsrc HQ. pose proof (fo_layout _ _ HO) as L.
  set (i := inodeat ip s) in *. pose proof (in_file_off off Ho) as Hbn.
  apply wp_bind. eapply wp_mono.
  { apply (bmap_spec s t ip (off / BSIZE)); try done; [|by eapply unheld_ind].
    eapply budget_le; [|exact HB]. lia. }
  intros a s1 (A & t1 & -> & HO1 & G). fold i in G |- *. simpl in *.
  set (i1 := set_i_addrs A i) in *. set (s1' := Fs (fs_sb s) (<[ip:=i1]> (fs_icache s)) (fs_st s1)) in *.
  assert (inodeat ip s1' = i1) as Ei by (by apply inodeat_set).
  apply wp_bind, wp_gets. rewrite Ei.
  assert (fblock (tx_view t1) i1 (off / BSIZE) = a) as Ea.
  { rewrite (gr_map _ _ _ _ _ _ _ _ _ G) by done. by rewrite decide_True. }
  destruct (gr_new _ _ _ _ _ _ _ _ _ G) as [Har _]. pose proof (dstart_pos _ _ L) as Hds.
  assert (file_unheld t1 i1) as Hu1.
  { eapply file_unheld_grown; [exact HO|done|apply (gr_held _ _ _ _ _ _ _ _ _ G)|
      apply (gr_ev _ _ _ _ _ _ _ _ _ G)]. }
  destruct (file_block s1' t1 i1 (off / BSIZE) HO1 (gr_wf _ _ _ _ _ _ _ _ _ G) Hu1 Hbn)
    as (d & Hd & Hl & Hud & Hreg); [rewrite Ea; lia|]. rewrite Ea in Hd, Hud, Hreg.
  destruct (gr_log _ _ _ _ _ _ _ _ _ G) as (Gs & Gz & Gl).
  assert (budget 2 t1) as HB1.
  { apply (budget_log 2 5 t); [exact HB|apply (gr_held _ _ _ _ _ _ _ _ _ G)|done|done]. }
  rewrite (fw_dev _ _ _ (gr_wf _ _ _ _ _ _ _ _ _ G)).
  eapply wp_read; [apply (fo_abs _ _ HO1)|by apply elem_of_dom; exists d|done|by eapply budget_slot|].
  intros bp b1 Hbp Hb1. eapply (wp_data bp _ d); [exact Hb1|apply lookup_insert_eq|done|].
  intros _. set (x := slice _ _ src).
  assert (length x = Z.to_nat m) as Hx by (apply length_slice; lia).
  assert (Z.to_nat (off mod BSIZE) + length x <= length d)%nat as Hfit
    by (rewrite Hx, Hl; unfold BSIZE in *; dlia).
  simpl. rewrite decide_True by done.
  assert (wrote (fs_sb s) 6 2 t i (tx_write a (list_inserts (Z.to_nat (off mod BSIZE)) x d) t1) i1
    off m (fun p => src !!! Z.to_nat (p - (off - tot)))) as HW.
  { replace m with (Z.of_nat (length x)) by lia.
    eapply wrote_block; try done; [lia|lia|unfold BSIZE; dlia|].
    intros j Hj. rewrite !list_lookup_total_alt. subst x. rewrite lookup_slice by lia.
    do 2 f_equal. lia. }
  eapply wp_update_bind; [exact Hb1|done|by rewrite length_inserts|done|by eapply budget_room|].
  intros b2 Hb2. eapply HQ; [| |exact HW]; [done|].
  constructor; simpl; [done|apply HW|]. destruct HO as [_ _ Hh].
  apply (held_data_mono _ t); [lia|done|apply HW|]. apply (ev_used _ _ _ _ _ (wr_ev _ _ _ _ _ _ _ _ _ _ HW)).
Qed.

Lemma writei_loop_spec fuel s t ip src off n tot :
  fs_ok s t -> (ip < length (fs_icache s))%nat ->
  budget (7 * Z.to_nat (nblk off (n - tot))) t ->
  (2 * Z.to_nat (nblk off (n - tot)) <= nfree (fs_sb s) (tx_view t))%nat ->
  file_wf (fs_sb s) (tx_view t) (inodeat ip s) -> file_unheld t (inodeat ip s) ->
  0 <= off -> 0 <= tot <= n -> off + (n - tot) <= MAXFILE * BSIZE ->
  n - tot <= Z.of_nat fuel -> n <= Z.of_nat (length src) ->
  wp (writei_loop fuel ip src off n tot) (fun off' s' => off' = off + (n - tot) /\
    exists A t', at_inode s ip (set_i_addrs A (inodeat ip s)) s' /\ fs_ok s' t' /\
    let k := Z.to_nat (nblk off (n - tot)) in
    wrote (fs_sb s) (6 * k) (2 * k) t (inodeat ip s) t' (set_i_addrs A (inodeat ip s)) off (n - tot)
      (fun p => src !!! Z.to_nat (p - (off - tot)))) s.
Proof.
  revert s t off tot. induction fuel as [|fuel IH];
    intros s t off tot HO Hip HB Hf W Hu Ho Htot Hmax Hfuel Hsrc; simpl.
  1: rewrite (proj2 (Z.ltb_ge _ _)) by lia.
  2: destruct (Z.ltb_spec tot n) as [Hlt|].
  1, 3: apply wp_ret; replace (n - tot) with 0 by lia; split; [lia|];
    exists (i_addrs (inodeat ip s)), t;
    assert (set_i_addrs (i_addrs (inodeat ip s)) (inodeat ip s) = inodeat ip s) as ->
      by (by destruct (inodeat ip s));
    (split_and!; [unfold at_inode; rewrite list_insert_id by (by apply list_lookup_lookup_total_lt);
      by destruct s|done|apply wrote_nil; [apply HO|done]]).
  set (m := Z.min (n - tot) (BSIZE - off mod BSIZE)).
  assert (0 < m <= BSIZE - off mod BSIZE) as Hm by (subst m; unfold BSIZE; dlia).
  destruct (nblk_step off (n - tot) m Ho ltac:(lia) eq_refl) as [Ek Hk].
  replace (n - tot - m) with (n - (tot + m)) in Ek, Hk by lia.
  set (k := nblk (off + m) (n - (tot + m))) in *.
  apply writei_step with (t := t); try done; try lia.
  { eapply budget_le; [|exact HB]. lia. }
  intros s1 A t1 E1 HO1 W1. unfold at_inode in E1.
  assert (inodeat ip s1 = set_i_addrs A (inodeat ip s)) as Ei by (rewrite E1; by apply inodeat_set).
  assert (fs_sb s1 = fs_sb s) as Esb by (by rewrite E1).
  destruct (wr_log _ _ _ _ _ _ _ _ _ _ W1) as (Ls & Lz & Ll).
  pose proof (wr_free _ _ _ _ _ _ _ _ _ _ W1) as Lf.
  eapply wp_mono; [apply (IH s1 t1); rewrite ?Ei, ?Esb; fold k; try done; try lia|].
  - rewrite E1. simpl. by rewrite length_insert.
  - apply (budget_log _ 6 t); [|apply (wr_held _ _ _ _ _ _ _ _ _ _ W1)|done|done].
    fold k. eapply budget_le; [|exact HB]. lia.
  - apply (wr_wf _ _ _ _ _ _ _ _ _ _ W1).
  - eapply file_unheld_grown; [exact HO|done|apply (wr_held _ _ _ _ _ _ _ _ _ _ W1)|
      apply (wr_ev _ _ _ _ _ _ _ _ _ _ W1)].
  - rewrite Ei, Esb. fold k. intros off' s' (-> & A' & t' & E' & HO' & W'). split; [lia|].
    exists A', t'. split_and!; [|done|].
    + unfold at_inode in *. rewrite E' at 1. rewrite Esb. f_equal.
      rewrite E1. simpl. by rewrite list_insert_insert_eq.
    + pose proof (dstart_pos _ _ (fo_layout _ _ HO)).
      eapply (wrote_weaken _ (6 + 6 * Z.to_nat k) (2 + 2 * Z.to_nat k)); [|simpl; lia|simpl; lia].
      eapply (wrote_trans _ 6 2 _ _ _ _ _ _ _ _ off m); [lia|lia|exact W1|].
      replace (n - tot - m) with (n - (tot + m)) by lia.
      replace (off - tot) with (off + m - (tot + m)) by lia. exact W'.
Qed.
End writei.
