(* ===== verification/FsInode.v ===== *)
(** Inodes in fs.c: the on-disk format, [iupdate], [ilock], [ialloc],
    [iget] and [writei], which keeps the on-disk inode current. *)

From S2P Require Import Prelude Params Log Blocks Fs FsAlloc FsFile FsWrite.

(** *** The on-disk format *)

Definition st_addrs_n (d : list Z) (o : nat) (addrs : list Z) (n : nat) : list Z :=
  foldl (fun d k => stle 4 d (o + 4 * k) (addrs !!! k)) d (seq 0 n).

Lemma st_addrs_S d o addrs n :
  st_addrs_n d o addrs (S n) = stle 4 (st_addrs_n d o addrs n) (o + 4 * n) (addrs !!! n).
Proof. unfold st_addrs_n. rewrite seq_S, foldl_app. done. Qed.

Lemma length_st_addrs d o addrs n : length (st_addrs_n d o addrs n) = length d.
Proof. induction n as [|n IH]; [done|]. by rewrite st_addrs_S, length_stle. Qed.

(** The addresses are stored between [o] and [o + 4 * n) and nowhere else. *)
Lemma ld_st_addrs_ne d o addrs n m p :
  (o + 4 * n <= length d)%nat -> (p + m <= o \/ o + 4 * n <= p)%nat ->
  ldle m (st_addrs_n d o addrs n) p = ldle m d p.
Proof.
  induction n as [|n IH]; intros Hl H; [done|].
  rewrite st_addrs_S, ldle_stle_ne by lia. apply IH; lia.
Qed.

Lemma ld_st_addrs_eq d o addrs n k :
  (o + 4 * n <= length d)%nat -> (k < n)%nat -> is_u32 (addrs !!! k) ->
  ldle 4 (st_addrs_n d o addrs n) (o + 4 * k) = addrs !!! k.
Proof.
  induction n as [|n IH]; intros Hl Hk Ha; [lia|]. rewrite st_addrs_S.
  destruct (decide (k = n)) as [->|].
  - rewrite ldle_stle_eq by (rewrite length_st_addrs; lia). by apply u32_small.
  - rewrite ldle_stle_ne by lia. apply IH; [lia|lia|done].
Qed.

Record dinode_ok (i : dinode) : Prop := {
  dio_short : Forall (fun x => -32768 <= x < 32768) [di_type i; di_major i; di_minor i; di_nlink i];
  dio_size : is_u32 (di_size i);
  dio_len : length (di_addrs i) = 13%nat;
  dio_addrs : Forall is_u32 (di_addrs i);
}.

Lemma length_st_dinode d o i : length (st_dinode d o i) = length d.
Proof. unfold st_dinode. etransitivity; [apply (length_st_addrs _ _ _ 13)|]. by rewrite !length_stle. Qed.

Lemma i16_mod x : -32768 <= x < 32768 -> i16 (x mod 65536) = x.
Proof. intros. dlia. Qed.

(** Storing an inode and loading it gives the inode back. *)
Lemma ld_st_dinode d o i :
  (o + 64 <= length d)%nat -> dinode_ok i -> ld_dinode (st_dinode d o i) o = i.
Proof.
  intros Hl [Hs Hz Hn Ha]. destruct i as [ty ma mi nl sz addrs]. simpl in *.
  rewrite !Forall_cons in Hs. destruct Hs as (H1 & H2 & H3 & H4 & _).
  unfold ld_dinode, st_dinode. cbn [di_type di_major di_minor di_nlink di_size di_addrs].
  set (d5 := stle 4 _ (o + 8) sz).
  assert (length d5 = length d) as Hl5 by (subst d5; by rewrite !length_stle).
  change (st_addrs d5 (o + 12) addrs) with (st_addrs_n d5 (o + 12) addrs 13).
  f_equal.
  1-5: rewrite ld_st_addrs_ne by lia; subst d5;
    repeat (rewrite ldle_stle_ne by lia); rewrite ldle_stle_eq by (rewrite ?length_stle; lia).
  1-4: by apply i16_mod.
  - by apply u32_small.
  - apply list_eq. intros k. destruct (decide (k < 13)%nat) as [Hk|Hk].
    + assert (addrs !! k = Some (addrs !!! k)) as Ek by (apply list_lookup_lookup_total_lt; lia).
      rewrite Ek. rewrite list_lookup_fmap, lookup_seq_lt by done. apply (f_equal Some).
      apply ld_st_addrs_eq; [lia|done|]. by apply (proj1 (Forall_lookup _ _) Ha k).
    + rewrite !lookup_ge_None_2; [done|lia|]. rewrite length_fmap, length_seq. lia.
Qed.

(** Storing an inode keeps the bytes of the others. *)
Lemma st_dinode_ne d o o' i :
  (o + 64 <= length d)%nat -> (o' + 64 <= o \/ o + 64 <= o')%nat ->
  ld_dinode (st_dinode d o i) o' = ld_dinode d o'.
Proof.
  intros Hl H.
  assert (forall m p, (p + m <= o \/ o + 64 <= p)%nat -> ldle m (st_dinode d o i) p = ldle m d p) as E.
  { intros m p Hp. unfold st_dinode. set (d5 := stle 4 _ (o + 8) _).
    assert (length d5 = length d) as Hl5 by (subst d5; by rewrite !length_stle).
    change (st_addrs d5 (o + 12) (di_addrs i)) with (st_addrs_n d5 (o + 12) (di_addrs i) 13).
    rewrite ld_st_addrs_ne by lia. subst d5. by repeat (rewrite ldle_stle_ne by lia). }
  unfold ld_dinode. rewrite !E by lia. f_equal.
  apply list_fmap_ext. intros ? k Hk%lookup_seq. apply E. lia.
Qed.

(** *** iupdate *)

(** The inode [inum] as the disk has it. *)
Definition disk_inode (sb : superblock) (v : bview) (inum : Z) : dinode :=
  ld_dinode (v !!! IBLOCK inum sb) (dinode_off inum).

(** The inode has a number of the disk, and values that fit their fields. *)
Record inode_ok (sb : superblock) (i : inode) : Prop := {
  io_dev : i_dev i = 1;
  io_inum : 0 <= i_inum i < sb_ninodes sb;
  io_fields : dinode_ok (to_dinode i);
}.

(** What [iupdate] does. *)
Definition iupdate_tx (sb : superblock) (i : inode) (t : tx) : tx :=
  tx_write (IBLOCK (i_inum i) sb)
    (st_dinode (tx_view t !!! IBLOCK (i_inum i) sb) (dinode_off (i_inum i)) (to_dinode i)) t.

Lemma IPB_8 : IPB = 8.
Proof. reflexivity. Qed.

Lemma dinode_off_range inum : (dinode_off inum + 64 <= 512)%nat.
Proof. unfold dinode_off. rewrite IPB_8. unfold sizeof_dinode. dlia. Qed.

Lemma dinode_off_disjoint inum inum' :
  0 <= inum -> 0 <= inum' -> inum <> inum' -> inum / IPB = inum' / IPB ->
  (dinode_off inum' + 64 <= dinode_off inum \/ dinode_off inum + 64 <= dinode_off inum')%nat.
Proof. unfold dinode_off. rewrite IPB_8. unfold sizeof_dinode. intros. dlia. Qed.

Section inode_block.
Context (sb : superblock) (t : tx) (L : layout sb t).

Lemma iblock_range inum : 0 <= inum < sb_ninodes sb ->
  sb_inodestart sb <= IBLOCK inum sb < sb_bmapstart sb.
Proof.
  intros Hi. pose proof (ly_ino _ _ L). unfold IBLOCK. rewrite IPB_8 in *. dlia.
Qed.

Lemma iblock_dom inum : 0 <= inum < sb_ninodes sb -> exists d,
  tx_view t !! IBLOCK inum sb = Some d /\ tx_view t !!! IBLOCK inum sb = d /\
  length d = Z.to_nat BSIZE.
Proof.
  intros Hi. pose proof (iblock_range inum Hi). pose proof (bmapstart_pos sb t L).
  pose proof (bmapstart_lt sb t L). pose proof (ly_bmap _ _ L).
  assert (IBLOCK inum sb ∈ dom (tx_view t)) as [d Hd]%elem_of_dom by (apply (ly_dom _ _ L); lia).
  exists d. split_and!; [done|by apply lookup_total_correct|by apply (ly_len _ _ L) in Hd].
Qed.

Lemma iblock_meta inum : 0 <= inum < sb_ninodes sb ->
  ~ tx_region t (IBLOCK inum sb) /\ IBLOCK inum sb <> 1 /\
  (forall b, 0 <= b < sb_size sb -> IBLOCK inum sb <> BBLOCK b sb) /\
  (held_data sb t -> unheld t (IBLOCK inum sb)).
Proof.
  intros Hi. pose proof (iblock_range inum Hi). pose proof (bmapstart_pos sb t L).
  pose proof (ly_log _ _ L). pose proof (bmapstart_lt sb t L).
  split_and!; [unfold tx_region; lia|lia| |].
  - intros b Hb. pose proof (bblock_range sb b Hb). lia.
  - intros Hh j Hj%Hh. lia.
Qed.

(** Writing an inode block changes no file and no bitmap. *)
Lemma write_iblock inum d : 0 <= inum < sb_ninodes sb -> length d = Z.to_nat BSIZE ->
  let t' := tx_write (IBLOCK inum sb) d t in
  layout sb t' /\ (forall b, 0 <= b < sb_size sb -> used sb (tx_view t') b = used sb (tx_view t) b) /\
  (forall n, dstart sb <= n -> tx_view t' !! n = tx_view t !! n).
Proof.
  intros Hi Hl t'. destruct (iblock_meta inum Hi) as (_ & H1 & Hb & _).
  pose proof (iblock_range inum Hi). pose proof (bmapstart_lt sb t L).
  destruct (iblock_dom inum Hi) as (d0 & Hd0 & _). pose proof (ly_bmap _ _ L).
  assert (forall b, 0 <= b < sb_size sb -> used sb (tx_view t') b = used sb (tx_view t) b) as Hu
    by (intros b Hb'; apply used_write_ne; auto).
  split_and!; [|done|].
  - apply layout_write; [done|done|done|by apply elem_of_dom; exists d0|].
    intros b Hb'. fold t'. rewrite Hu by lia. by apply (ly_meta _ _ L).
  - intros n Hn. apply lookup_insert_ne. lia.
Qed.

Lemma disk_inode_update i inum :
  inode_ok sb i -> 0 <= inum < sb_ninodes sb ->
  disk_inode sb (tx_view (iupdate_tx sb i t)) inum =
    if decide (inum = i_inum i) then to_dinode i else disk_inode sb (tx_view t) inum.
Proof.
  intros [_ Hi Hf] Hin. destruct (iblock_dom _ Hi) as (d & Hd & Hd' & Hl).
  change (Z.to_nat BSIZE) with 512%nat in Hl.
  unfold disk_inode, iupdate_tx. rewrite Hd'. simpl.
  pose proof (dinode_off_range (i_inum i)). pose proof (dinode_off_range inum).
  case_decide as E.
  - rewrite E, (lookup_total_correct _ _ _ (lookup_insert_eq _ _ _)).
    apply ld_st_dinode; [lia|done].
  - destruct (decide (IBLOCK inum sb = IBLOCK (i_inum i) sb)) as [Eb|Eb].
    + rewrite Eb, (lookup_total_correct _ _ _ (lookup_insert_eq _ _ _)).
      rewrite st_dinode_ne; [by rewrite Hd'|lia|].
      unfold IBLOCK in Eb. apply dinode_off_disjoint; lia.
    + by rewrite (lookup_total_eq (tx_view t)) by (by apply lookup_insert_ne).
Qed.

End inode_block.

(** A file and its blocks, when the data blocks and the bitmap are as before. *)
Lemma file_same sb v v' i i' :
  i_addrs i' = i_addrs i -> i_dev i' = i_dev i -> 0 <= dstart sb -> file_wf sb v i ->
  (forall b, 0 <= b < sb_size sb -> used sb v' b = used sb v b) ->
  (forall n, dstart sb <= n -> v' !! n = v !! n) ->
  (forall bn, fblock v' i' bn = fblock v i bn) /\ file_wf sb v' i' /\
  (forall p, in_file (p / BSIZE) -> fblock v i (p / BSIZE) <> 0 -> fbyte v' i' p = fbyte v i p) /\
  (forall n, owned v' i' n <-> owned v i n).
Proof.
  intros Ea Ed Hds W Hu Hv.
  assert (iblk i' = iblk i) as Ei by (unfold iblk; by rewrite Ea).
  assert (forall bn, fblock v' i' bn = fblock v i bn) as Hf.
  { intros bn. unfold fblock. rewrite Ei, Ea. destruct (bn <? NDIRECT); [done|].
    destruct (Z.eqb_spec (iblk i) 0) as [|Hn]; [done|]. rewrite (lookup_total_eq v); [done|].
    apply Hv. apply (fw_own _ _ _ W). split; [done|by left]. }
  assert (forall n, owned v' i' n <-> owned v i n) as Ho.
  { intros n. unfold owned. rewrite Ei. by setoid_rewrite Hf. }
  split_and!; [done| | |done].
  - destruct W. constructor; rewrite ?Ea, ?Ed, ?Ei; try done.
    + intros n Hn%Ho. destruct (fw_own n Hn). split; [done|]. rewrite Hu by lia. done.
    + intros b1 b2. rewrite !Hf. auto.
    + intros b1. rewrite !Hf. auto.
  - intros p Hp Hn. unfold fbyte. rewrite Hf. rewrite (lookup_total_eq v); [done|].
    apply Hv. apply (fw_own _ _ _ W). split; [done|]. right. by eexists.
Qed.

Section iupdate.
Context {St : Type} `{!Blocks St, !BlocksLaws St}.
Implicit Types (s : fs St) (t : tx).

Lemma iupdate_spec s t ip :
  fs_ok s t -> budget 1 t -> inode_ok (fs_sb s) (inodeat ip s) ->
  wp (iupdate ip) (fun _ s' => same_mem s s' /\
    blk_abs (fs_st s') (iupdate_tx (fs_sb s) (inodeat ip s) t)) s.
Proof.
  intros [Ha L Hh] HB [Hdev Hin Hf]. unfold iupdate. apply wp_bind, wp_gets, wp_bind, wp_gets.
  destruct (iblock_dom _ t L _ Hin) as (d & Hd & Hd' & Hl).
  destruct (iblock_meta _ t L _ Hin) as (Hr & _ & _ & Hu). rewrite Hdev.
  eapply wp_read; [exact Ha|by apply elem_of_dom; exists d|by apply Hu|by eapply budget_slot|].
  intros bp b1 Hbp Hb1. eapply (wp_data bp _ d); [exact Hb1|apply lookup_insert_eq|done|]. intros _.
  eapply wp_update; [exact Hb1|done|by rewrite length_st_dinode|done|by eapply budget_room|].
  intros b2 Hb2. split; [done|]. unfold iupdate_tx. by rewrite Hd'.
Qed.

End iupdate.

(** *** writei *)

(** A file loaded in the inode cache: its blocks are sound, there are no
    holes, and the inode on the disk is the one in memory. *)
Record file_ok (sb : superblock) (t : tx) (i : inode) : Prop := {
  fk_wf : file_wf sb (tx_view t) i;
  fk_ok : inode_ok sb i;
  fk_type : i_type i <> T_DEV;
  fk_size : 0 <= i_size i <= MAXFILE * BSIZE;
  fk_holes : no_holes (tx_view t) i (i_size i);
  fk_sync : disk_inode sb (tx_view t) (i_inum i) = to_dinode i;
  fk_unheld : file_unheld t i;
}.

(** The contents of a file, as the sequence of its bytes. *)
Definition contents (v : bview) (i : inode) : list Z := fbytes v i 0 (i_size i).

(** Writing [x] at [off] into the bytes [c]; [off] is at most the length. *)
Definition overwrite (c : list Z) (off : nat) (x : list Z) : list Z :=
  take off c ++ x ++ drop (off + length x) c.

Lemma wf_addrs_u32 sb t i : layout sb t -> file_wf sb (tx_view t) i -> Forall is_u32 (i_addrs i).
Proof.
  intros L W. apply Forall_lookup. intros k a Hk. unfold is_u32. pose proof (ly_size _ _ L).
  destruct (decide (a = 0)) as [->|Hn]; [lia|]. pose proof (dstart_pos sb t L).
  apply list_lookup_total_correct in Hk as E. apply lookup_lt_Some in Hk. rewrite (fw_len _ _ _ W) in Hk.
  assert (owned (tx_view t) i a) as Ho; [|apply (fw_own _ _ _ W) in Ho; lia].
  split; [done|]. destruct (decide (k = 12%nat)) as [->|]; [left; by rewrite <- E|].
  right. exists (Z.of_nat k). split; [unfold in_file, MAXFILE, NDIRECT, NINDIRECT, BSIZE;
    change (512 / 4) with 128; lia|].
  unfold fblock. rewrite (proj2 (Z.ltb_lt _ _)) by (unfold NDIRECT; lia). by rewrite Nat2Z.id.
Qed.

Lemma in_file_lt p : 0 <= p < MAXFILE * BSIZE -> 0 <= p / BSIZE /\ p / BSIZE * BSIZE <= p.
Proof. unfold BSIZE. intros. dlia. Qed.

(** The inode [writei] leaves: new addresses, and a size that covers what
    was written. *)
Definition written (i : inode) (A : list Z) (off n : Z) : inode :=
  set_i_size (if (0 <? n) && (i_size i <? off + n) then off + n else i_size i) (set_i_addrs A i).

Lemma wrote_holes sb kl kf t i t' A off n f :
  wrote sb kl kf t i t' (set_i_addrs A i) off n f ->
  0 <= off <= i_size i -> 0 <= n -> off + n <= MAXFILE * BSIZE -> i_size i <= MAXFILE * BSIZE ->
  no_holes (tx_view t) i (i_size i) ->
  forall p, 0 <= p < Z.max (i_size i) (off + n) ->
    in_file (p / BSIZE) /\ (off <= p < off + n \/ fblock (tx_view t) i (p / BSIZE) <> 0).
Proof.
  intros W Ho Hn Hm Hs Hh p Hp. split; [apply in_file_off; lia|].
  destruct (decide (off <= p < off + n)); [by left|right].
  destruct (in_file_lt p); [lia|]. apply Hh; [done|]. lia.
Qed.

Section writei_spec.
Context {St : Type} `{!Blocks St, !BlocksLaws St, !Devsw St}.
Implicit Types (s : fs St) (t : tx).

(** What [writei] leaves, before the inode is written back. *)
Lemma written_mem s t i kl kf t' A off n (src : list Z) :
  fs_ok s t -> file_ok (fs_sb s) t i -> 0 <= off <= i_size i -> 0 <= n ->
  off + n <= MAXFILE * BSIZE ->
  wrote (fs_sb s) kl kf t i t' (set_i_addrs A i) off n (fun p => src !!! Z.to_nat (p - off)) ->
  let i' := written i A off n in
  file_wf (fs_sb s) (tx_view t') i' /\ inode_ok (fs_sb s) i' /\
  0 <= i_size i' <= MAXFILE * BSIZE /\ no_holes (tx_view t') i' (i_size i') /\
  file_unheld t' i' /\
  forall p, 0 <= p < i_size i' -> fbyte (tx_view t') i' p =
    if decide (off <= p < off + n) then src !!! Z.to_nat (p - off) else fbyte (tx_view t) i p.
Proof.
  intros HO F Ho Hn Hmax W i'.
  assert (i_size i' = if (0 <? n) && (i_size i <? off + n) then off + n else i_size i) as Es by done.
  assert (i_size i' <= Z.max (i_size i) (off + n)) as Esz
    by (rewrite Es; destruct (_ && _); lia).
  assert (0 <= i_size i') as Esz0 by (rewrite Es; pose proof (fk_size _ _ _ F); destruct (_ && _); lia).
  pose proof (wrote_holes _ _ _ _ _ _ _ _ _ _ W Ho Hn Hmax (proj2 (fk_size _ _ _ F)) (fk_holes _ _ _ F)) as Hp.
  pose proof (fk_size _ _ _ F). destruct (fk_ok _ _ _ F) as [Hdev Hin Hfd].
  assert (file_wf (fs_sb s) (tx_view t') (set_i_addrs A i)) as Wf by apply W.
  split_and!; [by destruct Wf| |done|lia| | |].
  - constructor; [done|done|]. destruct Hfd. constructor; simpl; [done| |apply Wf|].
    + change (is_u32 (i_size i')). unfold is_u32. unfold MAXFILE, NDIRECT, NINDIRECT, BSIZE in *.
      change (512 / 4) with 128 in *. lia.
    + eapply (wf_addrs_u32 _ t' (set_i_addrs A i)); apply W.
  - intros bn Hb Hlt. change (fblock (tx_view t') (set_i_addrs A i) bn <> 0).
    assert (bn * BSIZE / BSIZE = bn) as Eb by (apply Z.div_mul; unfold BSIZE; lia).
    rewrite <- Eb. assert (0 <= bn * BSIZE) by (unfold BSIZE; lia).
    destruct (Hp (bn * BSIZE)) as [? ?]; [lia|]. by apply (wr_there _ _ _ _ _ _ _ _ _ _ W).
  - eapply file_unheld_grown; [exact HO|apply (fk_unheld _ _ _ F)|apply W|].
    destruct (wr_ev _ _ _ _ _ _ _ _ _ _ W). by constructor.
  - intros p Hpr. destruct (Hp p) as [? ?]; [lia|].
    change (fbyte (tx_view t') i' p) with (fbyte (tx_view t') (set_i_addrs A i) p).
    apply (wr_bytes _ _ _ _ _ _ _ _ _ _ W); [lia|done|done].
Qed.

(** What changes outside the file: nothing but free blocks and the bitmap. *)
Record others_kept (sb : superblock) (t : tx) (i : inode) (t' : tx) : Prop := {
  ok_base : tx_base t' = tx_base t /\ tx_size t' = tx_size t;
  ok_data : forall m, dstart sb <= m < sb_size sb -> used sb (tx_view t) m = true ->
    ~ owned (tx_view t) i m -> tx_view t' !! m = tx_view t !! m;
  ok_used : forall m, 0 <= m < sb_size sb -> used sb (tx_view t) m = true ->
    used sb (tx_view t') m = true;
  ok_inode : forall inum, 0 <= inum < sb_ninodes sb -> inum <> i_inum i ->
    disk_inode sb (tx_view t') inum = disk_inode sb (tx_view t) inum;
}.

Lemma wrote_disk_inode s kl kf t i t' i' off n f inum :
  fs_ok s t -> wrote (fs_sb s) kl kf t i t' i' off n f -> 0 <= inum < sb_ninodes (fs_sb s) ->
  disk_inode (fs_sb s) (tx_view t') inum = disk_inode (fs_sb s) (tx_view t) inum.
Proof.
  intros [_ L _] W Hi. unfold disk_inode. rewrite (lookup_total_eq (tx_view t)); [done|].
  apply (ev_meta _ _ _ _ _ (wr_ev _ _ _ _ _ _ _ _ _ _ W)).
  pose proof (iblock_range _ t L inum Hi). pose proof (bmapstart_pos _ t L). lia.
Qed.

Lemma contents_overwrite v i v' i' off n (src : list Z) :
  0 <= off <= i_size i -> 0 <= n <= Z.of_nat (length src) ->
  i_size i' = (if (0 <? n) && (i_size i <? off + n) then off + n else i_size i) ->
  (forall p, 0 <= p < i_size i' -> fbyte v' i' p =
    if decide (off <= p < off + n) then src !!! Z.to_nat (p - off) else fbyte v i p) ->
  contents v' i' = overwrite (contents v i) (Z.to_nat off) (take (Z.to_nat n) src).
Proof.
  intros Ho Hn Es Hb. unfold contents, overwrite. apply list_eq. intros k.
  assert (length (take (Z.to_nat n) src) = Z.to_nat n) as Hl by (rewrite length_take; lia).
  assert (length (take (Z.to_nat off) (fbytes v i 0 (i_size i))) = Z.to_nat off) as Hl2
    by (rewrite length_take, length_fbytes; lia).
  assert (i_size i' = Z.max (i_size i) (off + n)) as Em.
  { rewrite Es. destruct (Z.ltb_spec 0 n), (Z.ltb_spec (i_size i) (off + n)); simpl; lia. }
  destruct (decide (Z.of_nat k < i_size i')) as [Hk|Hk].
  - rewrite fbytes_lookup, Hb by lia. simpl. case_decide as D.
    + rewrite lookup_app_r, Hl2, lookup_app_l, lookup_take_lt by lia.
      rewrite list_lookup_lookup_total_lt by lia. do 2 f_equal. lia.
    + destruct (decide (Z.of_nat k < off)).
      * rewrite lookup_app_l, lookup_take_lt, fbytes_lookup by lia. done.
      * rewrite lookup_app_r, Hl2, lookup_app_r, Hl, lookup_drop by lia.
        rewrite fbytes_lookup by lia. do 2 f_equal. lia.
  - rewrite !lookup_ge_None_2; [done| |rewrite length_fbytes; lia].
    rewrite !length_app, Hl, Hl2, length_drop, length_fbytes. lia.
Qed.

(** The files of a transaction whose step only rewrote an inode block. *)
Lemma iupdate_file s t1 i1 :
  fs_ok s t1 -> file_wf (fs_sb s) (tx_view t1) i1 -> inode_ok (fs_sb s) i1 ->
  i_type i1 <> T_DEV -> 0 <= i_size i1 <= MAXFILE * BSIZE ->
  no_holes (tx_view t1) i1 (i_size i1) -> file_unheld t1 i1 ->
  let t2 := iupdate_tx (fs_sb s) i1 t1 in
  file_ok (fs_sb s) t2 i1 /\ layout (fs_sb s) t2 /\
  (forall b, 0 <= b < sb_size (fs_sb s) ->
     used (fs_sb s) (tx_view t2) b = used (fs_sb s) (tx_view t1) b) /\
  (forall n, dstart (fs_sb s) <= n -> tx_view t2 !! n = tx_view t1 !! n) /\
  (forall p, 0 <= p < i_size i1 -> fbyte (tx_view t2) i1 p = fbyte (tx_view t1) i1 p).
Proof.
  intros [Ha L Hh] W Hok Hty Hsz Hno Hu t2. pose proof (io_inum _ _ Hok) as Hin.
  destruct (iblock_dom _ t1 L _ Hin) as (d & Hd & Hd' & Hl).
  destruct (write_iblock _ t1 L (i_inum i1) (st_dinode d (dinode_off (i_inum i1)) (to_dinode i1)) Hin)
    as (L2 & U2 & D2); [by rewrite length_st_dinode|].
  rewrite <- Hd' in L2, U2, D2. pose proof (dstart_pos _ _ L).
  destruct (file_same (fs_sb s) (tx_view t1) (tx_view t2) i1 i1) as (Hf & W2 & B2 & O2);
    [done|done|lia|done|done|done|].
  split_and!; [constructor|done|done|done|]; try done.
  - intros bn Hb Hlt. rewrite Hf. by apply Hno.
  - unfold t2. rewrite disk_inode_update by done. by rewrite decide_True.
  - intros n Hn. by apply Hu, O2.
  - intros p Hp. destruct (in_file_lt p); [lia|]. apply B2; [apply in_file_off; lia|].
    apply Hno; [done|lia].
Qed.

Lemma fs_ok_step s s' t t' :
  fs_ok s t -> fs_sb s' = fs_sb s -> blk_abs (fs_st s') t' -> layout (fs_sb s) t' ->
  tx_held t' = tx_held t ->
  (forall n, 0 <= n < sb_size (fs_sb s) -> used (fs_sb s) (tx_view t) n = true ->
     used (fs_sb s) (tx_view t') n = true) -> fs_ok s' t'.
Proof.
  intros [_ L Hh] E Ha L' Eh Hu. pose proof (dstart_pos _ _ L).
  constructor; rewrite ?E; [done|done|]. apply (held_data_mono _ t); [lia|done|done|done].
Qed.

(** The end of [writei]: the size and the inode on the disk. *)
Lemma writei_tail s t ip (src : list Z) off n kl kf A s1 t1 :
  fs_ok s t -> (ip < length (fs_icache s))%nat -> file_ok (fs_sb s) t (inodeat ip s) ->
  0 <= off <= i_size (inodeat ip s) -> 0 <= n -> off + n <= MAXFILE * BSIZE ->
  at_inode s ip (set_i_addrs A (inodeat ip s)) s1 -> fs_ok s1 t1 -> budget 1 t1 ->
  wrote (fs_sb s) kl kf t (inodeat ip s) t1 (set_i_addrs A (inodeat ip s)) off n
    (fun p => src !!! Z.to_nat (p - off)) ->
  wp (let! i := gets (inodeat ip) in
      (if (0 <? n) && (i_size i <? off + n) then iupd ip (set_i_size (off + n));;; iupdate ip
       else ret tt);;; ret (i32 n))
    (fun r s' => r = n /\ exists t', let i' := written (inodeat ip s) A off n in
      at_inode s ip i' s' /\ fs_ok s' t' /\
      file_ok (fs_sb s) t' i' /\ tx_held t' = tx_held t /\ others_kept (fs_sb s) t (inodeat ip s) t' /\
      (length (tx_log t') <= length (tx_log t) + kl + 1)%nat /\
      forall p, 0 <= p < i_size i' -> fbyte (tx_view t') i' p =
        if decide (off <= p < off + n) then src !!! Z.to_nat (p - off)
        else fbyte (tx_view t) (inodeat ip s) p) s1.
Proof.
  intros HO Hip F Ho Hn Hmax E1 HO1 HB W. set (i := inodeat ip s) in *.
  destruct (written_mem s t i kl kf t1 A off n src HO F Ho Hn Hmax W)
    as (Wf & Hok & Hsz & Hno & Hun & Hby). set (i' := written i A off n) in *.
  assert (inodeat ip s1 = set_i_addrs A i) as Ei by (rewrite E1; by apply inodeat_set).
  assert (fs_sb s1 = fs_sb s) as Esb by (by rewrite E1).
  assert (i32 n = n) as En.
  { apply i32_small. unfold MAXFILE, NDIRECT, NINDIRECT, BSIZE in Hmax.
    change (512 / 4) with 128 in Hmax. lia. }
  apply wp_bind, wp_gets. rewrite Ei, En. cbv zeta. change (i_size (set_i_addrs A i)) with (i_size i).
  destruct ((0 <? n) && (i_size i <? off + n)) eqn:Ec.
  - apply wp_bind, wp_bind, wp_modify. rewrite Ei.
    assert (set_i_size (off + n) (set_i_addrs A i) = i') as Ei' by (unfold i', written; by rewrite Ec).
    rewrite Ei'. set (s2 := Fs _ _ _).
    assert (at_inode s ip i' s2) as E2.
    { unfold at_inode, s2. simpl. rewrite Esb. f_equal. rewrite E1. simpl.
      by rewrite list_insert_insert_eq. }
    assert (inodeat ip s2 = i') as Ei2 by (rewrite E2; by apply inodeat_set).
    assert (fs_sb s2 = fs_sb s) as Esb2 by done.
    assert (fs_ok s2 t1) as HO2 by (apply (fs_ok_mem s1); [done|done|apply (fo_abs _ _ HO1)]).
    eapply wp_mono; [apply (iupdate_spec s2 t1 ip HO2 HB); rewrite Ei2; by rewrite Esb2|].
    rewrite Ei2. intros _ s3 [[Em1 Em2] Ha3]. apply wp_ret. split; [done|].
    destruct (iupdate_file s2 t1 i' HO2) as (F3 & L3 & U3 & D3 & B3);
      rewrite ?Esb2; try done; [apply (fk_type _ _ _ F)|].
    rewrite Esb2 in *. exists (iupdate_tx (fs_sb s) i' t1). split_and!; [| |done|apply W| | |].
    + pose proof (f_equal fs_icache E2) as E3. unfold at_inode.
      change (fs_icache s2 = <[ip := i']> (fs_icache s)) in E3. rewrite E3 in Em2.
      destruct s3; simpl in Em1, Em2 |- *. f_equal; congruence.
    + apply (fs_ok_step s2 _ t1); rewrite ?Em1, ?Esb2; try done. intros b Hb Hu. by rewrite U3.
    + destruct (wr_log _ _ _ _ _ _ _ _ _ _ W) as (Eb & Es & _). constructor.
      * split; [|done]. rewrite <- Eb. apply tx_base_write, (iblock_meta _ _ L3), (io_inum _ _ Hok).
      * intros m Hm Hu Hown. rewrite D3 by lia. by apply (ev_frame _ _ _ _ _ (wr_ev _ _ _ _ _ _ _ _ _ _ W)).
      * intros m Hm Hu. rewrite U3 by done. by apply (ev_used _ _ _ _ _ (wr_ev _ _ _ _ _ _ _ _ _ _ W)).
      * intros inum Hi Hne. rewrite disk_inode_update by (done || apply W).
        rewrite decide_False by done. by apply (wrote_disk_inode s kl kf t i t1 _ off n _ inum HO W).
    + destruct (wr_log _ _ _ _ _ _ _ _ _ _ W) as (_ & _ & Hl).
      pose proof (length_log_add (tx_log t1) (IBLOCK (i_inum i') (fs_sb s))).
      change (tx_log (iupdate_tx (fs_sb s) i' t1)) with (log_add (tx_log t1) (IBLOCK (i_inum i') (fs_sb s))).
      lia.
    + intros p Hp. rewrite B3 by done. by apply Hby.
  - apply wp_bind, wp_ret, wp_ret. split; [done|]. exists t1.
    assert (n = 0 \/ off + n <= i_size i) as Hsmall by (apply andb_false_iff in Ec; lia).
    assert (set_i_addrs A i = i) as EA.
    { apply (wr_same _ _ _ _ _ _ _ _ _ _ W). intros p Hp. destruct (in_file_lt p); [lia|].
      split_and!; [lia|apply in_file_off; lia|]. apply (fk_holes _ _ _ F); [done|lia]. }
    assert (i' = i) as Ei' by (unfold i', written; rewrite Ec, EA; by destruct i).
    rewrite Ei' in *. rewrite EA in E1.
    split_and!; [done|done| |apply W| |destruct (wr_log _ _ _ _ _ _ _ _ _ _ W) as (_ & _ & Hl); lia|done].
    + constructor; try done; [apply (fk_type _ _ _ F)|]. rewrite <- (fk_sync _ _ _ F).
      apply (wrote_disk_inode s kl kf t i t1 _ off n _ _ HO W), (io_inum _ _ Hok).
    + destruct (wr_log _ _ _ _ _ _ _ _ _ _ W) as (Eb & Es & _). constructor.
      * done.
      * intros m Hm Hu Hown. by apply (ev_frame _ _ _ _ _ (wr_ev _ _ _ _ _ _ _ _ _ _ W)).
      * intros m Hm Hu. by apply (ev_used _ _ _ _ _ (wr_ev _ _ _ _ _ _ _ _ _ _ W)).
      * intros inum Hi Hne. by apply (wrote_disk_inode s kl kf t i t1 _ off n _ inum HO W).
Qed.

Lemma writei_file s t ip src off n :
  fs_ok s t -> (ip < length (fs_icache s))%nat ->
  file_ok (fs_sb s) t (inodeat ip s) ->
  0 <= off <= i_size (inodeat ip s) -> 0 <= n <= Z.of_nat (length src) ->
  off + n <= MAXFILE * BSIZE ->
  budget (7 * Z.to_nat (nblk off n) + 1) t ->
  (2 * Z.to_nat (nblk off n) <= nfree (fs_sb s) (tx_view t))%nat ->
  wp (writei ip src off n) (fun r s' => r = n /\ exists i' t', at_inode s ip i' s' /\ fs_ok s' t' /\
    file_ok (fs_sb s) t' i' /\ tx_held t' = tx_held t /\ others_kept (fs_sb s) t (inodeat ip s) t' /\
    (length (tx_log t') <= length (tx_log t) + 6 * Z.to_nat (nblk off n) + 1)%nat /\
    contents (tx_view t') i' =
      overwrite (contents (tx_view t) (inodeat ip s)) (Z.to_nat off) (take (Z.to_nat n) src) /\
    exists A, i' = written (inodeat ip s) A off n) s.
Proof.
  intros HO Hip F Ho Hn Hmax HB Hf. set (i := inodeat ip s) in *.
  unfold writei. apply wp_bind, wp_gets. fold i.
  rewrite (proj2 (Z.eqb_neq _ _)) by apply (fk_type _ _ _ F).
  assert (0 <= off + n < 4294967296) as Hr
    by (unfold MAXFILE, NDIRECT, NINDIRECT, BSIZE in Hmax; change (512 / 4) with 128 in Hmax; lia).
  rewrite u32_small by done.
  rewrite (proj2 (Z.ltb_ge (i_size i) off)), (proj2 (Z.ltb_ge (off + n) off)) by lia. simpl orb.
  rewrite (proj2 (Z.ltb_ge (MAXFILE * BSIZE) (off + n))) by lia.
  apply wp_bind. eapply wp_mono.
  { apply (writei_loop_spec (Z.to_nat n) s t ip src off n 0); rewrite ?Z.sub_0_r; try done; try lia.
    - eapply budget_le; [|exact HB]. lia.
    - apply (fk_wf _ _ _ F).
    - apply (fk_unheld _ _ _ F). }
  rewrite !Z.sub_0_r. fold i. cbv zeta. intros off' s1 (-> & A & t1 & E1 & HO1 & W).
  destruct (wr_log _ _ _ _ _ _ _ _ _ _ W) as (_ & Lz & Ll).
  eapply wp_mono; [eapply (writei_tail s t ip src off n _ _ A s1 t1); try done; try lia|].
  { apply (budget_log 1 (6 * Z.to_nat (nblk off n)) t); [|apply W|done|done].
    eapply budget_le; [|exact HB]. lia. }
  intros r s' (-> & t' & E' & HO' & F' & Hh & Hk & Hlog & Hby). split; [done|].
  eexists _, t'. split_and!; [exact E'|done|done|done|done|done|by eapply contents_overwrite|by exists A].
Qed.

End writei_spec.
