(* ===== verification/FsName.v ===== *)
(** Path elements ([skipelem]) and the inode cache ([iget], [idup], [ilock])
    of fs.c. *)

From S2P Require Import Prelude Params KString Log Blocks Fs FsAlloc FsFile FsWrite FsInode.

(** *** Path elements *)

(** The elements of a path: the maximal runs of bytes other than a slash. *)
Fixpoint elems_aux (cur : list Z) (p : list Z) : list (list Z) :=
  match p with
  | [] => if decide (cur = []) then [] else [cur]
  | c :: p =>
    if c =? slash then (if decide (cur = []) then [] else [cur]) ++ elems_aux [] p
    else elems_aux (cur ++ [c]) p
  end.
Definition elems (p : list Z) : list (list Z) := elems_aux [] p.

(** The string a buffer of [DIRSIZ] bytes holds for the element [e]. *)
Definition elem_name (e : list Z) : list Z := take DIRSIZ e.

Lemma skip_slashes_spec p z : no_nul p ->
  exists q, skip_slashes (p ++ 0 :: z) = Some (q ++ 0 :: z) /\ elems q = elems p /\
    (forall c r, q = c :: r -> c <> slash) /\ (length q <= length p)%nat /\ no_nul q /\ q `suffix_of` p.
Proof.
  induction p as [|c p IH]; intros Hp.
  - exists []. simpl. split_and!; try done.
  - apply Forall_cons in Hp as [Hc Hp]. simpl. destruct (Z.eqb_spec c slash) as [->|Hne].
    + destruct (IH Hp) as (q & -> & E & Hq & Hl & Hn & Hs). exists q.
      split_and!; [done|exact E|done|simpl; lia|done|by apply suffix_cons_r].
    + exists (c :: p). split_and!; try done; [|by constructor]. by intros ? ? [= <- _].
Qed.

Lemma scan_elem_spec p z : no_nul p ->
  exists e r, scan_elem (p ++ 0 :: z) = Some (e, r ++ 0 :: z) /\ p = e ++ r /\
    Forall (fun c => c <> slash) e /\ (forall c r', r = c :: r' -> c = slash) /\
    (forall c q, p = c :: q -> c <> slash -> e <> []).
Proof.
  induction p as [|c p IH]; intros Hp.
  - exists [], []. simpl. split_and!; try done.
  - apply Forall_cons in Hp as [Hc Hp]. simpl.
    destruct (Z.eqb_spec c slash) as [->|Hne]; simpl.
    + exists [], (slash :: p). split_and!; try done; [by intros ? ? [= <- _]|].
      by intros ? ? [= <- _].
    + rewrite (proj2 (Z.eqb_neq c 0)) by done.
      destruct (IH Hp) as (e & r & -> & -> & He & Hr & _).
      exists (c :: e), r. split_and!; try done. by constructor.
Qed.

Lemma elems_aux_run e : forall cur r, Forall (fun c => c <> slash) e ->
  elems_aux cur (e ++ r) = elems_aux (cur ++ e) r.
Proof.
  induction e as [|c e IH]; intros cur r He; simpl; [by rewrite app_nil_r|].
  apply Forall_cons in He as [Hc He]. rewrite (proj2 (Z.eqb_neq c slash)) by done.
  rewrite IH by done. by rewrite <- app_assoc.
Qed.

Lemma elems_cons e r : e <> [] -> Forall (fun c => c <> slash) e ->
  (forall c r', r = c :: r' -> c = slash) -> elems (e ++ r) = e :: elems r.
Proof.
  intros He Hs Hr. unfold elems. rewrite elems_aux_run by done. simpl.
  destruct r as [|c r]; simpl; [by rewrite decide_False|].
  rewrite (Hr c r) by done. simpl. by rewrite !decide_False.
Qed.

Lemma inserts_all (x l : list Z) : length x = length l -> list_inserts 0 x l = x.
Proof.
  intros H. apply list_eq. intros k. destruct (decide (k < length x)%nat).
  - rewrite list_lookup_inserts by lia. f_equal. lia.
  - rewrite list_lookup_inserts_ge by lia. rewrite !lookup_ge_None_2 by lia. done.
Qed.

Lemma cstr_inserts e (l : list Z) :
  no_nul e -> (length e < length l)%nat -> cstr (list_inserts 0 (e ++ [0]) l) = e.
Proof.
  intros He Hl. assert (list_inserts 0 (e ++ [0]) l = e ++ 0 :: drop (S (length e)) l) as ->.
  { apply list_eq. intros k. destruct (decide (k < length e + 1)%nat).
    - rewrite list_lookup_inserts by (rewrite ?length_app; simpl; lia).
      rewrite Nat.sub_0_r. destruct (decide (k < length e)%nat).
      + by rewrite !lookup_app_l by lia.
      + assert (k = length e) as -> by lia. by rewrite !list_lookup_middle.
    - rewrite list_lookup_inserts_ge by (rewrite length_app; simpl; lia).
      rewrite lookup_app_r by lia. replace (k - length e)%nat with (S (k - S (length e))) by lia.
      simpl. rewrite lookup_drop. f_equal. lia. }
  by apply cstr_nul.
Qed.

(** [skipelem] in terms of the elements of the path. *)
Lemma skipelem_elems p z name : no_nul p -> length name = DIRSIZ ->
  match elems p with
  | [] => skipelem (p ++ 0 :: z) name = Some None
  | e :: es => exists q name', skipelem (p ++ 0 :: z) name = Some (Some (q ++ 0 :: z, name')) /\
      elems q = es /\ (forall c r, q = c :: r -> c <> slash) /\ no_nul q /\
      (length q < length p)%nat /\ length name' = DIRSIZ /\ cstrn DIRSIZ name' = elem_name e /\
      (Forall is_u8 p -> Forall is_u8 name -> Forall is_u8 q /\ Forall is_u8 name')
  end.
Proof.
  intros Hp Hn. unfold skipelem.
  destruct (skip_slashes_spec p z Hp) as (q & -> & <- & Hq & Hl & Hqn & Hsp).
  destruct q as [|c q]; [done|]. simpl app. cbv beta iota. pose proof (Forall_inv Hqn) as Hc. simpl in Hc.
  rewrite (proj2 (Z.eqb_neq c 0)) by done.
  destruct (scan_elem_spec (c :: q) z Hqn) as (e & r & E & Er & He & Hr & Hne).
  simpl app in E. rewrite E. specialize (Hne c q eq_refl (Hq c q eq_refl)).
  assert (no_nul e /\ no_nul r) as [Hen Hrn] by (rewrite Er in Hqn; by apply Forall_app in Hqn).
  rewrite Er, elems_cons by done.
  destruct (skip_slashes_spec r z Hrn) as (q' & -> & E' & Hq' & Hl' & Hqn' & Hsr).
  simpl. eexists q', _. split_and!; [done|done|done|done| | | |].
  - assert (0 < length e)%nat by (destruct e; simpl; [done|lia]).
    apply (f_equal length) in Er. rewrite length_app in Er. lia.
  - by case_match; rewrite length_inserts.
  - unfold cstrn. rewrite take_ge by (case_match; rewrite length_inserts, Hn; done).
    unfold elem_name. case_decide.
    + rewrite inserts_all by (rewrite length_take; lia). rewrite cstr_no_nul; [done|].
      by apply Forall_take.
    + rewrite take_ge by lia. apply cstr_inserts; [done|lia].
  - intros Hup Hun. destruct Hsp as [a ->]. apply Forall_app in Hup as [_ Hup]. rewrite Er in Hup.
    apply Forall_app in Hup as [Hue Hur]. split; [destruct Hsr as [b ->]; by apply Forall_app in Hur as [_ ?]|].
    case_match; apply Forall_inserts; try done; [by apply Forall_take|].
    apply Forall_app. split; [done|]. by repeat constructor; unfold is_u8.
Qed.

(** *** The inode cache *)

(** [ip] is a live entry for inode [inum] of device [dev]. *)
Definition refers (dev inum : Z) (i : inode) : Prop :=
  0 < i_ref i /\ i_dev i = dev /\ i_inum i = inum.

(** No inode has two live entries. *)
Record icache_ok (c : list inode) : Prop := {
  ic_ref : Forall (fun i => 0 <= i_ref i) c;
  ic_uniq : forall dev inum j k a b, c !! j = Some a -> c !! k = Some b ->
    refers dev inum a -> refers dev inum b -> j = k;
}.

Lemma iget_scan_hit dev inum c : forall empty k r,
  iget_scan dev inum empty k c = inl r ->
  exists j i, r = (k + j)%nat /\ c !! j = Some i /\ refers dev inum i /\
    forall j' i', (j' < j)%nat -> c !! j' = Some i' -> ~ refers dev inum i'.
Proof.
  induction c as [|i c IH]; intros empty k r H; simpl in H; [done|].
  destruct ((0 <? i_ref i) && (i_dev i =? dev) && (i_inum i =? inum)) eqn:E.
  - injection H as <-. rewrite !andb_true_iff in E.
    exists 0%nat, i. split_and!; [lia|done|unfold refers; lia|]. intros; lia.
  - apply IH in H as (j & i' & -> & Hj & Hr & Hb). exists (S j), i'. split_and!; [lia|done|done|].
    intros [|j'] i'' Hlt Hl; [|by apply (Hb j' i''); [lia|]]. simpl in Hl. injection Hl as ->.
    unfold refers. apply andb_false_iff in E. rewrite andb_false_iff in E. lia.
Qed.

Lemma iget_scan_miss dev inum c : forall empty k r,
  iget_scan dev inum empty k c = inr r ->
  (forall j i, c !! j = Some i -> ~ refers dev inum i) /\
  match empty with
  | Some e => r = Some e
  | None => match r with
            | Some e => exists j i, e = (k + j)%nat /\ c !! j = Some i /\ i_ref i = 0 /\
                forall j' i', (j' < j)%nat -> c !! j' = Some i' -> i_ref i' <> 0
            | None => forall j i, c !! j = Some i -> i_ref i <> 0
            end
  end.
Proof.
  induction c as [|i c IH]; intros empty k r H; simpl in H.
  { injection H as <-. split; [by intros|]. by destruct empty. }
  destruct ((0 <? i_ref i) && (i_dev i =? dev) && (i_inum i =? inum)) eqn:E; [done|].
  apply andb_false_iff in E. rewrite andb_false_iff in E.
  apply IH in H as [Hn Hr]. split.
  { intros [|j] i' Hl; [|by apply (Hn j)]. simpl in Hl. injection Hl as <-. unfold refers. lia. }
  destruct empty as [e|]; [done|]. destruct (Z.eqb_spec (i_ref i) 0) as [E0|E0].
  - subst r. exists 0%nat, i. split_and!; [lia|done|done|]. intros; lia.
  - destruct r as [e|].
    + destruct Hr as (j & i' & -> & Hj & H0 & Hb). exists (S j), i'. split_and!; [lia|done|done|].
      intros [|j'] i'' Hlt Hl; [|by apply (Hb j'); [lia|]]. simpl in Hl. by injection Hl as <-.
    + intros [|j] i' Hl; [|by apply (Hr j)]. simpl in Hl. by injection Hl as <-.
Qed.

Lemma icache_ok_insert c k a b :
  icache_ok c -> c !! k = Some a -> 0 <= i_ref b ->
  (forall dev inum j i, j <> k -> c !! j = Some i -> refers dev inum b -> ~ refers dev inum i) ->
  icache_ok (<[k := b]> c).
Proof.
  intros [Hr Hu] Hk Hb Hn. constructor.
  - by apply Forall_insert.
  - intros dev inum j j' x y. rewrite !list_lookup_insert_Some.
    intros [(-> & -> & _)|[Hj Hx]] [(-> & -> & _)|[Hj' Hy]] H1 H2.
    + done.
    + by destruct (Hn dev inum j' y).
    + by destruct (Hn dev inum j x).
    + by eapply Hu.
Qed.

Section iget.
Context {St : Type} `{!Blocks St}.
Implicit Types (s : fs St).

Definition with_icache (c : list inode) s : fs St := Fs (fs_sb s) c (fs_st s).

(** [iget] finds the live entry of the inode and counts one more reference;
    without one it takes the first entry that is free, not yet valid; with
    no free entry it stops. Uniqueness is kept in every case. *)
Lemma iget_spec s dev inum :
  icache_ok (fs_icache s) ->
  (exists ip i, fs_icache s !! ip = Some i /\ refers dev inum i /\
     let c := <[ip := set_i_ref (i_ref i + 1) i]> (fs_icache s) in
     iget dev inum s = Ret ip (with_icache c s) /\ icache_ok c) \/
  (exists ip i, (forall j a, fs_icache s !! j = Some a -> ~ refers dev inum a) /\
     fs_icache s !! ip = Some i /\ i_ref i = 0 /\
     (forall j a, (j < ip)%nat -> fs_icache s !! j = Some a -> 0 < i_ref a) /\
     let c := <[ip := set_i_ident dev inum 1 false i]> (fs_icache s) in
     iget dev inum s = Ret ip (with_icache c s) /\ icache_ok c) \/
  ((forall j a, fs_icache s !! j = Some a -> 0 < i_ref a /\ ~ refers dev inum a) /\
   iget dev inum s = Fail (Panic "iget: no inodes")).
Proof.
  intros Hok. pose proof (ic_ref _ Hok) as Href. rewrite Forall_lookup in Href.
  unfold iget. rewrite (bind_Ret (gets fs_icache) _ s (fs_icache s) s eq_refl).
  destruct (iget_scan dev inum None 0 (fs_icache s)) as [ip|[ip|]] eqn:E.
  - left. apply iget_scan_hit in E as (j & i & -> & Hj & Hr & _). exists j, i.
    split; [done|]. split; [done|]. cbv zeta.
    assert (inodeat j s = i) as Ei by by apply list_lookup_total_correct.
    split; [krun; simpl; by rewrite Ei|]. eapply icache_ok_insert; [done|done|simpl; unfold refers in Hr; lia|].
    intros d n j' a Hne Ha Hb Ha'. apply Hne. eapply (ic_uniq _ Hok d n); [done|done|done|].
    destruct Hr as (? & ? & ?), Hb as (? & ? & ?). simpl in *. split_and!; [lia|congruence|congruence].
  - right. left. apply iget_scan_miss in E as [Hn (j & i & -> & Hj & H0 & Hb)]. exists j, i.
    assert (inodeat j s = i) as Ei by by apply list_lookup_total_correct.
    split; [done|]. split; [done|]. split; [done|]. split.
    + intros j' a Hlt Ha. pose proof (Hb j' a Hlt Ha). pose proof (Href j' a Ha). simpl in *. lia.
    + cbv zeta. split; [krun; simpl; by rewrite Ei|].
      eapply icache_ok_insert; [done|done|simpl; lia|].
      intros d n j' a Hne Ha (_ & Hd & Hm). simpl in Hd, Hm. subst. by eapply Hn.
  - right. right. apply iget_scan_miss in E as [Hn Hr]. split; [|done].
    intros j a Ha. pose proof (Hr j a Ha). pose proof (Href j a Ha). simpl in *.
    split; [lia|by eapply Hn].
Qed.

End iget.

Section ilock.
Context {St : Type} `{!Blocks St, !BlocksLaws St}.
Implicit Types (s : fs St) (t : tx).

(** A locked, valid copy of the inode on the disk. *)
Definition loaded (di : dinode) (i : inode) : inode :=
  set_i_valid true (from_dinode di (set_i_locked true i)).

(** [ilock] of an entry not yet read returns with the entry locked and
    holding exactly the inode of the transaction's disk; nothing else in the
    inode cache and no block changes. *)
Lemma ilock_load s t ip :
  fs_ok s t -> tx_slot t -> (ip < length (fs_icache s))%nat ->
  let i := inodeat ip s in
  0 < i_ref i -> i_locked i = false -> i_valid i = false -> i_dev i = 1 ->
  0 <= i_inum i < sb_ninodes (fs_sb s) ->
  di_type (disk_inode (fs_sb s) (tx_view t) (i_inum i)) <> 0 ->
  wp (ilock ip) (fun _ s' => blk_abs (fs_st s') t /\
    at_inode s ip (loaded (disk_inode (fs_sb s) (tx_view t) (i_inum i)) i) s') s.
Proof.
  intros [Ha L Hh] Hs Hip i Hr Hk Hv Hd Hin Hty. unfold ilock. apply wp_bind, wp_gets. fold i.
  apply wp_bind, wp_panic_if; [lia|]. apply wp_bind.
  unfold i_acquiresleep. apply wp_bind, wp_gets. fold i. rewrite Hk. apply wp_modify.
  rewrite Hv. apply wp_bind, wp_gets. simpl. rewrite Hd.
  destruct (iblock_dom _ t L _ Hin) as (d & Hdv & Hd' & Hl).
  destruct (iblock_meta _ t L _ Hin) as (_ & _ & _ & Hu).
  eapply wp_read; [exact Ha|by apply elem_of_dom; exists d|by apply Hu|done|].
  intros bp b1 Hbp Hb1. eapply (wp_data bp _ d); [exact Hb1|apply lookup_insert_eq|done|]. intros _.
  apply wp_bind, wp_modify, wp_bind.
  eapply wp_rel; [exact Hb1|done|by apply (blk_clean _ _ _ Ha), Hu|]. intros b2 Hb2.
  apply wp_bind, wp_modify, wp_bind, wp_gets.
  unfold inodeat. simpl. rewrite !list_insert_insert_eq.
  assert (ip < length (<[ip := set_i_locked true i]> (fs_icache s)))%nat as Hip'
    by by rewrite length_insert.
  rewrite !list_lookup_total_insert_eq by (rewrite ?length_insert; done).
  unfold disk_inode in *. rewrite Hd' in *.
  apply wp_panic_if; [by apply Z.eqb_neq|]. split; [done|]. done.
Qed.

End ilock.
