(* ===== verification/FsDir.v ===== *)
(** Directories in fs.c: [dirlookup] and [dirlink].

    A directory is a file of 16-byte entries, an inode number and a name; an
    entry with inode number 0 is free. As a finite map from names to inode
    numbers it is [dir_get]. *)

From S2P Require Import Prelude Params KString Log Blocks Fs FsAlloc FsFile FsWrite FsInode FsName.

Definition entries (c : list Z) : list (list Z) := (fun k => slice (16 * k) 16 c) <$> seq 0 (length c / 16).

(** The entry is in use and its name is [name]: at most [DIRSIZ] bytes, up to a
    NUL. *)
Definition matches (name de : list Z) : Prop :=
  de_inum de <> 0 /\ cstrn DIRSIZ name = cstrn DIRSIZ (de_name de).
#[export] Instance matches_dec name de : Decision (matches name de).
Proof. apply _. Defined.

Definition dir_get (name c : list Z) : option Z :=
  (fun x => de_inum x.2) <$> list_find (matches name) (entries c).

Definition name_ok (name : list Z) : Prop := Forall is_u8 name /\ readable DIRSIZ name.

Record dir_ok (sb : superblock) (t : tx) (i : inode) : Prop := {
  do_file : file_ok sb t i;
  do_type : i_type i = T_DIR;
  do_size : i_size i mod 16 = 0;
  do_bytes : Forall is_u8 (contents (tx_view t) i);
}.

Lemma length_contents v i : length (contents v i) = Z.to_nat (i_size i).
Proof. apply length_fbytes. Qed.

Lemma length_entries c : length (entries c) = (length c / 16)%nat.
Proof. unfold entries. by rewrite length_fmap, length_seq. Qed.

Lemma entries_lookup c k : (k < length c / 16)%nat -> entries c !! k = Some (slice (16 * k) 16 c).
Proof. intros Hk. unfold entries. rewrite list_lookup_fmap, lookup_seq_lt by done. done. Qed.

Lemma fbytes_slice v i off n : 0 <= off -> 0 <= n -> off + n <= i_size i ->
  fbytes v i off n = slice (Z.to_nat off) (Z.to_nat n) (contents v i).
Proof.
  intros Ho Hn Hs. apply list_eq. intros k. destruct (decide (k < Z.to_nat n)%nat).
  - rewrite lookup_slice by done. unfold contents. rewrite !fbytes_lookup by lia. do 2 f_equal. lia.
  - rewrite lookup_slice_ge by lia. apply lookup_ge_None_2. rewrite length_fbytes. lia.
Qed.

Lemma slice_u8 off n (l : list Z) : Forall is_u8 l -> Forall is_u8 (slice off n l).
Proof. intros H. by apply Forall_take, Forall_drop. Qed.

(** ** A directory as a map *)

Definition find_entry (name : list Z) (l : list (list Z)) : option (list Z) :=
  snd <$> list_find (matches name) l.

Lemma find_entry_cons name de l :
  find_entry name (de :: l) = if decide (matches name de) then Some de else find_entry name l.
Proof. unfold find_entry. simpl. case_decide; [done|]. by destruct (list_find _ l). Qed.

Lemma find_entry_app name l1 l2 : find_entry name (l1 ++ l2) =
  match find_entry name l1 with Some de => Some de | None => find_entry name l2 end.
Proof.
  induction l1 as [|de l1 IH]; [done|]. rewrite <- app_comm_cons, !find_entry_cons, IH. by case_decide.
Qed.

Lemma find_entry_None name l : find_entry name l = None <-> Forall (fun de => ~ matches name de) l.
Proof.
  unfold find_entry. pose proof (list_find_None (matches name) l) as H. rewrite <- H.
  by destruct (list_find (matches name) l).
Qed.

Lemma dir_get_find name c : dir_get name c = de_inum <$> find_entry name (entries c).
Proof. unfold dir_get, find_entry. by destruct (list_find _ _). Qed.

Lemma length_overwrite c (off : nat) x : (off <= length c)%nat ->
  length (overwrite c off x) = Nat.max (length c) (off + length x).
Proof. intros. unfold overwrite. rewrite !length_app, length_take, length_drop. lia. Qed.

(** The entries after entry [k], or the first one past the end, is written. *)
Lemma entries_overwrite c k de : (length c mod 16 = 0)%nat -> (16 * k <= length c)%nat -> length de = 16%nat ->
  entries (overwrite c (16 * k) de) = take k (entries c) ++ de :: drop (S k) (entries c).
Proof.
  intros Hm Hk Hd. pose proof (Nat.div_mod_eq (length c) 16) as Hc. rewrite Hm in Hc.
  set (m := (length c / 16)%nat) in *.
  assert (length (entries c) = m) as Hl by apply length_entries.
  assert (length (overwrite c (16 * k) de) / 16 = Nat.max m (S k))%nat as Hl'.
  { rewrite length_overwrite, Hd by done. replace (Nat.max (length c) (16 * k + 16)) with (Nat.max m (S k) * 16)%nat by lia.
    by rewrite Nat.div_mul. }
  assert (length (take k (entries c)) = k) as Htk by (rewrite length_take; lia).
  apply list_eq. intros j. destruct (decide (j < Nat.max m (S k))%nat) as [Hj|Hj].
  - rewrite entries_lookup by (by rewrite Hl').
    unfold overwrite, slice. destruct (Nat.lt_trichotomy j k) as [Hjk|[->|Hjk]].
    + rewrite lookup_app_l, lookup_take_lt, entries_lookup by lia. f_equal.
      rewrite drop_app_le by (rewrite length_take; lia). rewrite take_app_le by (rewrite length_drop, length_take; lia).
      unfold slice. rewrite skipn_firstn_comm, take_take. f_equal. lia.
    + rewrite lookup_app_r, Htk, Nat.sub_diag by lia. simpl. f_equal.
      rewrite drop_app_length' by (rewrite length_take; lia). by rewrite take_app_length'.
    + rewrite lookup_app_r, Htk by lia. replace (j - k)%nat with (S (j - S k)) by lia. simpl.
      rewrite lookup_drop. replace (S (k + (j - S k))) with j by lia. rewrite entries_lookup by lia. f_equal.
      rewrite app_assoc, drop_app_ge by (rewrite length_app, length_take; lia).
      rewrite length_app, length_take, drop_drop. unfold slice. do 2 f_equal. lia.
  - rewrite !lookup_ge_None_2; [done| |rewrite length_entries; lia].
    rewrite length_app. simpl. rewrite length_drop. lia.
Qed.

Lemma matches_ext n n' de : cstrn DIRSIZ n = cstrn DIRSIZ n' -> matches n de <-> matches n' de.
Proof. unfold matches. by intros ->. Qed.

(** Writing an entry for a new name into a free slot is insertion into the map. *)
Lemma dir_get_insert name c k de : (length c mod 16 = 0)%nat -> (16 * k <= length c)%nat -> length de = 16%nat ->
  (forall x, entries c !! k = Some x -> de_inum x = 0) -> dir_get name c = None -> matches name de ->
  forall n, dir_get n (overwrite c (16 * k) de) =
    if decide (cstrn DIRSIZ n = cstrn DIRSIZ name) then Some (de_inum de) else dir_get n c.
Proof.
  intros Hm Hk Hd Hfree Hnone Hmatch n. rewrite !dir_get_find, entries_overwrite in * by done.
  rewrite find_entry_app, find_entry_cons.
  destruct (decide (cstrn DIRSIZ n = cstrn DIRSIZ name)) as [E|E].
  - rewrite decide_True by (by apply (matches_ext n name)).
    replace (find_entry n (take k (entries c))) with (None : option (list Z)); [done|].
    symmetry. apply find_entry_None, Forall_take.
    assert (find_entry name (entries c) = None) as H by (by destruct (find_entry name (entries c))).
    rewrite find_entry_None in H. eapply Forall_impl; [exact H|]. intros x Hx. by rewrite (matches_ext n name).
  - rewrite decide_False by (intros [_ H]; destruct Hmatch; congruence). f_equal.
    destruct (entries c !! k) as [x|] eqn:Ex.
    + trans (find_entry n (take k (entries c) ++ x :: drop (S k) (entries c)));
        [|by rewrite take_drop_middle].
      rewrite find_entry_app, find_entry_cons, (decide_False (P := matches n x)); [done|].
      intros [Hne _]. by apply Hne, Hfree.
    + apply lookup_ge_None in Ex. rewrite (take_ge (entries c)), (drop_ge (entries c)) by lia.
      by destruct (find_entry n (entries c)).
Qed.

Lemma cstr_u8 l : Forall is_u8 l -> Forall is_u8 (cstr l).
Proof. induction 1 as [|c l Hc Hl IH]; simpl; [done|]. destruct (c =? 0); [done|by constructor]. Qed.

(** The entry [dirlink] writes. *)
Lemma new_entry name inum nm : name_ok name -> 0 < inum < 65536 -> strncpy name DIRSIZ = Some nm ->
  let de := le_bytes 2 (u16 inum) ++ nm in
  length de = 16%nat /\ Forall is_u8 de /\ de_inum de = inum /\ matches name de.
Proof.
  intros [Hu Hr] Hi E. destruct (strncpy_spec DIRSIZ name Hr) as (l & E' & Hl & El).
  rewrite E in E'. injection E' as <-. intros de.
  assert (de_inum de = inum) as Hin.
  { unfold de_inum, de, ldle, slice. rewrite drop_0, take_app_length' by done.
    rewrite u16_small by (unfold is_u16; lia). rewrite le_val_bytes. change (256 ^ _) with 65536. apply Z.mod_small. lia. }
  assert (Forall is_u8 nm) as Hnm.
  { rewrite El. apply Forall_app. split; [|by apply Forall_replicate; unfold is_u8; lia].
    unfold cstrn. apply cstr_u8. by apply Forall_take. }
  split_and!; [unfold de; rewrite length_app, Hl; done| |done|].
  - apply Forall_app. split; [|done]. apply le_bytes_u8.
  - split; [lia|]. unfold de, de_name. rewrite drop_app_length' by done.
    assert (cstrn DIRSIZ nm = cstr nm) as -> by (unfold cstrn; by rewrite take_ge by lia).
    rewrite El. unfold cstrn. by rewrite cstr_app_nul.
Qed.

Section dir.
Context {St : Type} `{!Blocks St, !BlocksLaws St, !Devsw St}.
Implicit Types (s : fs St) (t : tx).

(** Reading entry [k] of a directory. *)
Lemma read_entry s t dp (k : nat) : fs_ok s t -> tx_slot t -> dir_ok (fs_sb s) t (inodeat dp s) ->
  let c := contents (tx_view t) (inodeat dp s) in
  (k < length c / 16)%nat ->
  wp (readi dp (16 * Z.of_nat k) sizeof_dirent) (fun r s' => same_mem s s' /\ blk_abs (fs_st s') t /\
    r = (sizeof_dirent, slice (16 * k) 16 c)) s.
Proof.
  intros HO Hs [[F1 F2 F3 F4 F5 F6 F7] Ht Hm _] c Hk. unfold c in Hk. rewrite length_contents in Hk.
  assert (16 * Z.of_nat k + 16 <= i_size (inodeat dp s)) as Hle
    by (pose proof (Nat.Div0.mul_div_le (Z.to_nat (i_size (inodeat dp s))) 16); lia).
  eapply wp_mono; [apply (readi_file s t dp (16 * Z.of_nat k) sizeof_dirent HO Hs F1 F7 F5 F4 F3);
    change sizeof_dirent with 16; try lia|].
  { change (MAXFILE * BSIZE) with 71680 in F4. lia. }
  intros r s' (H1 & H2 & ->). split_and!; [done|done|]. change sizeof_dirent with 16.
  rewrite Z.min_l by lia. rewrite fbytes_slice by lia. unfold c. do 2 f_equal; lia.
Qed.

Lemma dirents_eq sb t i : dir_ok sb t i -> dirents (i_size i) = (length (contents (tx_view t) i) / 16)%nat.
Proof.
  intros [F _ Hm _]. pose proof (fk_size _ _ _ F). rewrite length_contents. unfold dirents, sizeof_dirent.
  apply Nat2Z.inj. rewrite Nat2Z.inj_div, !Z2Nat.id by dlia. change (Z.of_nat 16) with 16. dlia.
Qed.

Lemma same_mem_trans s s1 s2 : same_mem s s1 -> same_mem s1 s2 -> same_mem s s2.
Proof. unfold same_mem. intros [] []. split; congruence. Qed.

(** The comparison of [dirlookup] with an entry that is in use. *)
Lemma namecmp_matches name de : name_ok name -> Forall is_u8 de -> (16 <= length de)%nat -> de_inum de <> 0 ->
  exists d, namecmp name (de_name de) = Some d /\ (d = 0 <-> matches name de).
Proof.
  intros [Hn Hr] Hd Hl Hne. destruct (strncmp_zero DIRSIZ name (de_name de)) as (d & E & Hd0);
    [done|by apply Forall_drop|done|left; unfold de_name; rewrite length_drop; unfold DIRSIZ; lia|].
  exists d. split; [done|]. rewrite Hd0. unfold matches. naive_solver.
Qed.

(** [dirlookup]: the first entry with the name, and an inode cache entry for
    its inode. *)
Lemma dirlookup_spec s t dp name (Q : option (nat * Z) -> fs St -> Prop) :
  fs_ok s t -> tx_slot t -> dir_ok (fs_sb s) t (inodeat dp s) -> name_ok name ->
  (forall s', same_mem s s' -> blk_abs (fs_st s') t ->
    match list_find (matches name) (entries (contents (tx_view t) (inodeat dp s))) with
    | None => Q None s'
    | Some (k, de) => wp (iget (i_dev (inodeat dp s)) (de_inum de)) (fun ip => Q (Some (ip, 16 * Z.of_nat k))) s'
    end) ->
  wp (dirlookup dp name) Q s.
Proof.
  intros HO Hs D Hn HQ. set (c := contents _ _) in *. unfold dirlookup. apply wp_bind, wp_gets.
  apply wp_bind, wp_panic_if; [by rewrite (do_type _ _ _ D)|]. rewrite (dirents_eq _ t) by done. fold c.
  apply (wp_find (fun k s' => same_mem s s' /\ blk_abs (fs_st s') t /\
    forall j de, (j < k)%nat -> entries c !! j = Some de -> ~ matches name de)).
  - split_and!; [done|apply HO|lia].
  - intros k s1 Hk (E1 & A1 & Hno). destruct (E1) as [Esb Eic].
    assert (inodeat dp s1 = inodeat dp s) as Ei by (unfold inodeat; by rewrite Eic).
    apply wp_bind. eapply wp_mono; [apply (read_entry s1 t dp k); rewrite ?Ei, ?Esb; try done|].
    { by apply (fs_ok_mem s). }
    rewrite Ei. fold c. intros r s2 (E2 & A2 & ->).
    assert (same_mem s s2) as E02 by by eapply same_mem_trans.
    apply wp_bind, wp_panic_if; [by rewrite Z.eqb_refl|]. set (de := slice (16 * k) 16 c).
    assert (entries c !! k = Some de) as Ede by by apply entries_lookup.
    destruct (Z.eqb_spec (de_inum de) 0) as [Hz|Hz].
    { apply wp_ret. split_and!; [done|done|]. intros j de' Hj E. destruct (decide (j = k)) as [->|].
      - rewrite Ede in E. injection E as <-. by intros [? _].
      - apply (Hno j); [lia|done]. }
    destruct (namecmp_matches name de) as (d & Ed & Hd); [done|by apply slice_u8, (do_bytes _ _ _ D)| |done|].
    { unfold de. rewrite length_slice; [done|]. pose proof (Nat.Div0.mul_div_le (length c) 16). lia. }
    rewrite Ed. apply wp_bind, wp_ret. destruct (Z.eqb_spec d 0) as [Hd0|Hd0].
    + apply wp_bind, wp_gets. assert (inodeat dp s2 = inodeat dp s) as -> by (unfold inodeat; by rewrite (proj2 E02)).
      apply wp_bind. specialize (HQ s2 E02 A2).
      replace (list_find (matches name) (entries c)) with (Some (k, de)) in HQ.
      * eapply wp_mono; [exact HQ|]. intros ip s3 H. apply wp_ret. exact H.
      * symmetry. apply list_find_Some. split_and!; [done|by apply Hd|]. intros j y Hy Hlt. by apply (Hno j).
    + apply wp_ret. split_and!; [done|done|]. intros j de' Hj E. destruct (decide (j = k)) as [->|].
      * rewrite Ede in E. injection E as <-. by rewrite <- Hd.
      * apply (Hno j); [lia|done].
  - intros s1 (E1 & A1 & Hno). specialize (HQ s1 E1 A1).
    replace (list_find (matches name) (entries c)) with (None : option (nat * list Z)) in HQ; [done|].
    symmetry. apply list_find_None, Forall_lookup. intros j de E. apply (Hno j); [|done].
    apply lookup_lt_Some in E. by rewrite length_entries in E.
Qed.

(** The search of [dirlink] for a free entry. *)
Lemma free_entry_spec s t dp (Q : option Z -> fs St -> Prop) :
  fs_ok s t -> tx_slot t -> dir_ok (fs_sb s) t (inodeat dp s) ->
  let c := contents (tx_view t) (inodeat dp s) in
  (forall s' r, same_mem s s' -> blk_abs (fs_st s') t ->
    (exists k : nat, 16 * Z.of_nat k = default (sizeof_dirent * Z.of_nat (dirents (i_size (inodeat dp s)))) r /\
      (k <= length c / 16)%nat /\ forall x, entries c !! k = Some x -> de_inum x = 0) -> Q r s') ->
  wp (for_find (dirents (i_size (inodeat dp s))) (fun k =>
      let off := sizeof_dirent * Z.of_nat k in
      let! (r, de) := readi dp off sizeof_dirent in
      panic_if (negb (r =? sizeof_dirent)) "dirlink read";;;
      ret (if de_inum de =? 0 then Some off else None))) Q s.
Proof.
  intros HO Hs D c HQ. rewrite (dirents_eq _ t) in * by done. fold c in HQ |- *.
  apply (wp_find (fun k s' => same_mem s s' /\ blk_abs (fs_st s') t)).
  - split; [done|apply HO].
  - intros k s1 Hk (E1 & A1). destruct (E1) as [Esb Eic].
    assert (inodeat dp s1 = inodeat dp s) as Ei by (unfold inodeat; by rewrite Eic).
    apply wp_bind. eapply wp_mono; [apply (read_entry s1 t dp k); rewrite ?Ei, ?Esb; try done|].
    { by apply (fs_ok_mem s). }
    rewrite Ei. fold c. intros r s2 (E2 & A2 & ->).
    assert (same_mem s s2) as E02 by by eapply same_mem_trans.
    apply wp_bind, wp_panic_if; [by rewrite Z.eqb_refl|]. apply wp_ret.
    destruct (Z.eqb_spec (de_inum (slice (16 * k) 16 c)) 0) as [Hz|Hz]; [|done].
    apply HQ; [done|done|]. exists k. split_and!; [done|lia|].
    intros x. rewrite entries_lookup by done. by intros [= <-].
  - intros s1 (E1 & A1). apply HQ; [done|done|]. exists (length c / 16)%nat. split_and!; [done|done|].
    intros x Hx%lookup_lt_Some. rewrite length_entries in Hx. lia.
Qed.


End dir.
