(* ===== verification/FsPath.v ===== *)
(** Path lookup in fs.c: [namex], [namei] and [nameiparent].

    [resolve] is what a path means: a walk through the directories of the
    disk. The inode cache changes on the way; [owns] says which references to
    its entries a walk holds, over those that others hold ([base]). *)

From S2P Require Import Prelude Params KString Log Blocks Fs FsAlloc FsFile FsWrite FsInode FsName FsDir.

(** *** What a path means *)

(** The inode [n] of the disk, as the inode cache has it when it is locked. *)
Definition inode_of (sb : superblock) (v : bview) (n : Z) : inode :=
  loaded (disk_inode sb v n) (Inode 1 n 1 false false 0 0 0 0 0 []).

Definition is_dir (sb : superblock) (v : bview) (n : Z) : bool := di_type (disk_inode sb v n) =? T_DIR.

(** The entry [name] of inode [n], when that is a directory. *)
Definition child (sb : superblock) (v : bview) (n : Z) (name : list Z) : option Z :=
  if is_dir sb v n then dir_get name (contents v (inode_of sb v n)) else None.

Fixpoint resolve (sb : superblock) (v : bview) (n : Z) (es : list (list Z)) : option Z :=
  match es with
  | [] => Some n
  | e :: es => match child sb v n e with Some m => resolve sb v m es | None => None end
  end.

(** The directory of the last element, and that element. *)
Fixpoint resolve_parent (sb : superblock) (v : bview) (n : Z) (es : list (list Z)) : option (Z * list Z) :=
  match es with
  | [] => None
  | [e] => if is_dir sb v n then Some (n, e) else None
  | e :: es => match child sb v n e with Some m => resolve_parent sb v m es | None => None end
  end.

(** *** The inode cache and the disk *)

(** The directories of the disk are well formed, and their entries are inodes
    in use. *)
Record tree_ok (sb : superblock) (t : tx) : Prop := {
  tr_dir : forall n, 0 <= n < sb_ninodes sb -> is_dir sb (tx_view t) n = true -> dir_ok sb t (inode_of sb (tx_view t) n);
  tr_child : forall n name m, 0 <= n < sb_ninodes sb -> child sb (tx_view t) n name = Some m ->
    0 <= m < sb_ninodes sb /\ di_type (disk_inode sb (tx_view t) m) <> 0;
  tr_nlink : forall n, 0 <= n < sb_ninodes sb -> di_type (disk_inode sb (tx_view t) n) <> 0 ->
    di_nlink (disk_inode sb (tx_view t) n) <> 0;
}.

Record live_ok (sb : superblock) (t : tx) (i : inode) : Prop := {
  lv_dev : i_dev i = 1;
  lv_inum : 0 <= i_inum i < sb_ninodes sb;
  lv_type : di_type (disk_inode sb (tx_view t) (i_inum i)) <> 0;
  lv_sync : i_valid i = true -> to_dinode i = disk_inode sb (tx_view t) (i_inum i);
}.

(** Every entry in use is one of an inode in use, and agrees with the disk
    once it is valid; only the entry [lk] is locked. *)
Record cache_ok (sb : superblock) (t : tx) (lk : option nat) (c : list inode) : Prop := {
  ca_ok : icache_ok c;
  ca_lock : forall j i, c !! j = Some i -> i_locked i = bool_decide (lk = Some j);
  ca_live : forall j i, c !! j = Some i -> 0 < i_ref i -> live_ok sb t i;
}.

Lemma cache_ok_insert sb t lk lk' c j i i' :
  cache_ok sb t lk c -> c !! j = Some i -> icache_ok (<[j := i']> c) ->
  i_locked i' = bool_decide (lk' = Some j) -> (forall k, k <> j -> lk = Some k <-> lk' = Some k) ->
  (0 < i_ref i' -> live_ok sb t i') -> cache_ok sb t lk' (<[j := i']> c).
Proof.
  intros [Hc Hl Hv] Hj Hok Hlk Hlk' Hlv. constructor; [done| |].
  - intros k a. rewrite list_lookup_insert_Some. intros [(-> & -> & _)|[Hne Ha]]; [done|].
    rewrite (Hl k a Ha). apply bool_decide_ext. by apply Hlk'.
  - intros k a. rewrite list_lookup_insert_Some. intros [(-> & -> & _)|[Hne Ha]]; [done|by eapply Hv].
Qed.

(** Changes that keep the identity of an entry keep the uniqueness of entries. *)
Lemma icache_ok_same c j i i' : icache_ok c -> c !! j = Some i -> i_dev i' = i_dev i -> i_inum i' = i_inum i ->
  0 <= i_ref i' -> (0 < i_ref i' -> 0 < i_ref i) -> icache_ok (<[j := i']> c).
Proof.
  intros Hc Hj Hd Hi Hr Hp. eapply icache_ok_insert; [done|done|done|].
  intros dev inum k a Hne Ha (H1 & H2 & H3) Hra. apply Hne.
  eapply (ic_uniq _ Hc dev inum k j a i); try done. unfold refers. rewrite <- Hd, <- Hi. auto.
Qed.

Lemma from_to_dinode i : from_dinode (to_dinode i) i = i.
Proof. by destruct i. Qed.

(** The directory properties depend on the identity and the disk fields. *)
Lemma dir_ok_ext sb t i i' : i_dev i' = i_dev i -> i_inum i' = i_inum i -> to_dinode i' = to_dinode i ->
  dir_ok sb t i -> dir_ok sb t i'.
Proof.
  destruct i, i'. unfold to_dinode. simpl. intros -> -> [= -> -> -> -> -> ->].
  intros [[[] [? ? []] ? ? ? ? ?] ? ? ?]. do 2 (constructor; try done).
Qed.

(** *** References *)

Definition refcnt (c : list inode) (j : nat) : Z := default 0 (i_ref <$> c !! j).
Definition held_refs (l : list (nat * Z)) (j : nat) : Z := Z.of_nat (length (filter (fun x => x.1 = j) l)).

Lemma refcnt_insert c k i i' j : c !! k = Some i ->
  refcnt (<[k := i']> c) j = if decide (j = k) then i_ref i' else refcnt c j.
Proof.
  intros Hk. unfold refcnt. case_decide as E.
  - subst. rewrite list_lookup_insert_eq by (by eapply lookup_lt_Some). done.
  - by rewrite list_lookup_insert_ne by congruence.
Qed.

Lemma held_refs_cons k n l j : held_refs ((k, n) :: l) j = (if decide (j = k) then 1 else 0) + held_refs l j.
Proof.
  unfold held_refs. rewrite filter_cons. simpl. repeat case_decide; simpl; try congruence; lia.
Qed.

Section path.
Context {St : Type} `{!Blocks St, !BlocksLaws St, !Devsw St}.
Implicit Types (s : fs St) (t : tx).

(** The walk holds the references [l] to inodes, others those of [base]; two
    entries of the cache are not in use by others. *)
Record owns (lk : option nat) s t (base : nat -> Z) (l : list (nat * Z)) : Prop := {
  ow_fs : fs_ok s t;
  ow_slot : tx_slot t;
  ow_tree : tree_ok (fs_sb s) t;
  ow_cache : cache_ok (fs_sb s) t lk (fs_icache s);
  ow_ref : forall j, refcnt (fs_icache s) j = base j + held_refs l j;
  ow_base : forall j, 0 <= base j;
  ow_ent : forall k n, (k, n) ∈ l -> exists i, fs_icache s !! k = Some i /\ i_inum i = n;
  ow_free : exists j1 j2, j1 <> j2 /\ (j1 < length (fs_icache s))%nat /\ (j2 < length (fs_icache s))%nat /\
    base j1 = 0 /\ base j2 = 0;
}.

Lemma owns_insert lk lk' s t base l l' j i i' st' :
  owns lk s t base l -> fs_icache s !! j = Some i -> blk_abs st' t ->
  icache_ok (<[j := i']> (fs_icache s)) -> i_locked i' = bool_decide (lk' = Some j) ->
  (forall k, k <> j -> lk = Some k <-> lk' = Some k) -> (0 < i_ref i' -> live_ok (fs_sb s) t i') ->
  (forall k, held_refs l' k = held_refs l k + if decide (k = j) then i_ref i' - i_ref i else 0) ->
  (forall k n, (k, n) ∈ l' -> (k, n) ∈ l /\ (k = j -> i_inum i' = i_inum i) \/ k = j /\ i_inum i' = n) ->
  owns lk' (Fs (fs_sb s) (<[j := i']> (fs_icache s)) st') t base l'.
Proof.
  intros [HO Hs Ht Hc Hr Hb He Hf] Hj Ha Hok Hlk Hlk' Hlv Hu Hl'. constructor; cbn [fs_sb fs_icache fs_st]; try done.
  - by apply (fs_ok_mem s).
  - by eapply cache_ok_insert.
  - intros k. rewrite (refcnt_insert _ _ i), Hu by done. specialize (Hr k). destruct (decide (k = j)) as [->|]; [|lia].
    unfold refcnt in Hr. rewrite Hj in Hr. simpl in Hr. lia.
  - intros k n [[Hin Hi]|[-> <-]]%Hl'.
    + destruct (He k n Hin) as (a & Hk & <-). destruct (decide (k = j)) as [->|Hne].
      * exists i'. rewrite Hj in Hk. injection Hk as <-. split; [|auto].
        apply list_lookup_insert_eq. by eapply lookup_lt_Some.
      * exists a. by rewrite list_lookup_insert_ne by congruence.
    + exists i'. split; [|done]. apply list_lookup_insert_eq. by eapply lookup_lt_Some.
  - by rewrite length_insert.
Qed.

(** A held reference is to an entry that is in use. *)
Lemma owns_live lk s t base l k n : owns lk s t base l -> (k, n) ∈ l ->
  exists i, fs_icache s !! k = Some i /\ i_inum i = n /\ 0 < i_ref i /\ live_ok (fs_sb s) t i /\
    i_locked i = bool_decide (lk = Some k).
Proof.
  intros [_ _ _ Hc Hr Hb He _] Hin. destruct (He k n Hin) as (i & Hk & Hi). exists i.
  assert (0 < i_ref i) as Hpos.
  { specialize (Hr k). specialize (Hb k). unfold refcnt in Hr. rewrite Hk in Hr. simpl in Hr.
    enough (0 < held_refs l k) by lia. unfold held_refs.
    destruct (filter _ l) as [|x l'] eqn:E; [|simpl; lia].
    assert ((k, n) ∈ filter (fun x => x.1 = k) l) as H by by apply list_elem_of_filter.
    rewrite E in H. by apply not_elem_of_nil in H. }
  split_and!; [done|done|done|by eapply (ca_live _ _ _ _ Hc)|by eapply (ca_lock _ _ _ _ Hc)].
Qed.

Lemma live_ok_loaded sb t i : live_ok sb t i -> live_ok sb t (loaded (disk_inode sb (tx_view t) (i_inum i)) i).
Proof.
  intros [H1 H2 H3 H4]. by constructor.
Qed.

(** [ilock] reads the inode if need be. *)
Lemma ilock_owns s t base l ip n : owns None s t base l -> (ip, n) ∈ l ->
  wp (ilock ip) (fun _ s' => fs_sb s' = fs_sb s /\ owns (Some ip) s' t base l /\ i_valid (inodeat ip s') = true) s.
Proof.
  intros O Hin. destruct (owns_live _ _ _ _ _ _ _ O Hin) as (i & Hi & Hn & Hr & Hlv & Hlk).
  rewrite bool_decide_eq_false_2 in Hlk by done. pose proof (list_lookup_total_correct _ _ _ Hi) as Ei.
  pose proof (lookup_lt_Some _ _ _ Hi) as Hlt.
  apply (wp_mono _ (fun _ s' => blk_abs (fs_st s') t /\
    at_inode s ip (loaded (disk_inode (fs_sb s) (tx_view t) (i_inum i)) i) s')).
  - destruct (i_valid i) eqn:Hv.
    + unfold ilock. apply wp_bind, wp_gets. unfold inodeat at 1. rewrite Ei.
      apply wp_bind, wp_panic_if; [lia|]. apply wp_bind. unfold i_acquiresleep. apply wp_bind, wp_gets.
      unfold inodeat. rewrite Ei, Hlk. apply wp_modify. rewrite Hv. apply wp_ret.
      split; [apply (ow_fs _ _ _ _ _ O)|]. unfold at_inode. cbn [fs_st]. do 2 f_equal.
      rewrite <- (lv_sync _ _ _ Hlv Hv). unfold inodeat. rewrite Ei. destruct i. simpl in *. by subst.
    + pose proof (ilock_load s t ip (ow_fs _ _ _ _ _ O) (ow_slot _ _ _ _ _ O) Hlt) as H.
      unfold inodeat in H. rewrite Ei in H. apply H; try done; apply Hlv.
  - intros [] s' [Ha E]. rewrite E. split; [done|]. split.
    + eapply owns_insert; [exact O|exact Hi|exact Ha| | | | | |].
      * by eapply icache_ok_same; [apply (ow_cache _ _ _ _ _ O)|exact Hi|..]; simpl; lia || done.
      * by rewrite bool_decide_eq_true_2.
      * intros k Hk. split; [done|]. congruence.
      * intros _. by apply live_ok_loaded.
      * intros k. simpl. case_decide; lia.
      * intros k m Hk. by left.
    + unfold inodeat. cbn [fs_icache]. by rewrite list_lookup_total_insert_eq.
Qed.

(** [iget] adds a reference; while the walk holds at most one other, the cache
    has an entry for it. *)
Lemma iget_owns lk s t base l m : owns lk s t base l -> (length l <= 1)%nat ->
  0 <= m < sb_ninodes (fs_sb s) -> di_type (disk_inode (fs_sb s) (tx_view t) m) <> 0 ->
  wp (iget 1 m) (fun ip' s' => fs_sb s' = fs_sb s /\ owns lk s' t base ((ip', m) :: l) /\
    forall k n, (k, n) ∈ l -> i_valid (inodeat k s') = i_valid (inodeat k s)) s.
Proof.
  intros O Hl Hm Hty. pose proof (ow_cache _ _ _ _ _ O) as Hc. pose proof (fo_abs _ _ (ow_fs _ _ _ _ _ O)) as Ha.
  assert (forall j a, fs_icache s !! j = Some a -> forall i', i_locked i' = i_locked a ->
    i_locked i' = bool_decide (lk = Some j)) as Hlock.
  { intros j a Hj i' ->. by eapply (ca_lock _ _ _ _ Hc). }
  destruct (iget_spec s 1 m (ca_ok _ _ _ _ Hc))
    as [(j & i & Hj & (Hr & Hd & Hn) & E & Hok)|[(j & i & _ & Hj & Hr & _ & E & Hok)|[Hfull _]]].
  - unfold wp. rewrite E. split; [done|]. split.
    + eapply (owns_insert lk lk); [exact O|exact Hj|exact Ha|done|by eapply Hlock|done| | |].
      * intros _. destruct (ca_live _ _ _ _ Hc _ _ Hj Hr). by constructor.
      * intros k. rewrite held_refs_cons. simpl. case_decide; lia.
      * intros k n [[= -> ->]|Hin]%elem_of_cons; [by right|by left].
    + intros k n Hin. unfold inodeat. cbn [fs_icache with_icache]. destruct (decide (k = j)) as [->|].
      * rewrite list_lookup_total_insert_eq by (by eapply lookup_lt_Some).
        by rewrite (list_lookup_total_correct _ _ _ Hj).
      * by rewrite list_lookup_total_insert_ne by congruence.
  - unfold wp. rewrite E. split; [done|]. split.
    + eapply (owns_insert lk lk); [exact O|exact Hj|exact Ha|done|by eapply Hlock|done| | |].
      * intros _. by constructor.
      * intros k. rewrite held_refs_cons. simpl. case_decide; lia.
      * intros k n [[= -> ->]|Hin]%elem_of_cons; [by right|]. left. split; [done|]. intros ->.
        destruct (owns_live _ _ _ _ _ _ _ O Hin) as (a & Hk & _ & Hpos & _).
        rewrite Hj in Hk. injection Hk as <-. lia.
    + intros k n Hin. destruct (owns_live _ _ _ _ _ _ _ O Hin) as (a & Hk & _ & Hpos & _).
      assert (k <> j) by (intros ->; rewrite Hj in Hk; injection Hk as <-; lia).
      unfold inodeat. cbn [fs_icache with_icache]. by rewrite list_lookup_total_insert_ne by congruence.
  - exfalso. destruct (ow_free _ _ _ _ _ O) as (j1 & j2 & Hne & H1 & H2 & Hb1 & Hb2).
    pose proof (ow_ref _ _ _ _ _ O j1) as R1. pose proof (ow_ref _ _ _ _ _ O j2) as R2.
    apply lookup_lt_is_Some in H1 as [a1 A1]. apply lookup_lt_is_Some in H2 as [a2 A2].
    destruct (Hfull _ _ A1) as [P1 _]. destruct (Hfull _ _ A2) as [P2 _].
    unfold refcnt in R1, R2. rewrite A1 in R1. rewrite A2 in R2. simpl in R1, R2.
    assert (0 < held_refs l j1 /\ 0 < held_refs l j2) as [U1 U2] by lia.
    destruct l as [|[k n] [|? ?]]; simpl in Hl; [done| |lia].
    rewrite held_refs_cons in U1, U2. change (held_refs [] _) with 0 in U1, U2. repeat case_decide; subst; lia.
Qed.

Lemma iunlock_owns s t base l ip n : owns (Some ip) s t base l -> (ip, n) ∈ l ->
  wp (iunlock ip) (fun _ s' => fs_sb s' = fs_sb s /\ owns None s' t base l) s.
Proof.
  intros O Hin. destruct (owns_live _ _ _ _ _ _ _ O Hin) as (i & Hi & Hn & Hr & Hlv & Hlk).
  rewrite bool_decide_eq_true_2 in Hlk by done. pose proof (list_lookup_total_correct _ _ _ Hi) as Ei.
  unfold iunlock. apply wp_bind, wp_gets. unfold inodeat at 1 2. rewrite Ei.
  apply wp_bind, wp_panic_if; [rewrite Hlk; apply Z.ltb_ge; lia|]. unfold i_releasesleep. apply wp_modify.
  split; [done|]. unfold inodeat. rewrite Ei.
  eapply (owns_insert (Some ip) None); [exact O|exact Hi|apply (ow_fs _ _ _ _ _ O)| | | | | |].
  - by eapply icache_ok_same; [apply (ow_cache _ _ _ _ _ O)|exact Hi|..]; simpl; lia || done.
  - done.
  - intros k Hk. split; [intros [= ->]; done|done].
  - intros _. destruct Hlv. by constructor.
  - intros k. simpl. case_decide; lia.
  - intros k m Hk. by left.
Qed.

(** [iput] gives a reference back; the inode has links, so it stays. *)
Lemma iput_owns s t base l ip n : owns None s t base (l ++ [(ip, n)]) ->
  wp (iput ip) (fun _ s' => fs_sb s' = fs_sb s /\ owns None s' t base l) s.
Proof.
  intros O. assert ((ip, n) ∈ l ++ [(ip, n)]) as Hin by (apply elem_of_app; right; by apply list_elem_of_singleton).
  destruct (owns_live _ _ _ _ _ _ _ O Hin) as (i & Hi & Hn & Hr & Hlv & Hlk).
  rewrite bool_decide_eq_false_2 in Hlk by done. pose proof (list_lookup_total_correct _ _ _ Hi) as Ei.
  pose proof (lookup_lt_Some _ _ _ Hi) as Hlt.
  assert (i_valid i && (i_nlink i =? 0) = false) as Hkeep.
  { destruct (i_valid i) eqn:Hv; [|done]. apply Z.eqb_neq. change (i_nlink i) with (di_nlink (to_dinode i)).
    rewrite (lv_sync _ _ _ Hlv Hv). apply (tr_nlink _ _ (ow_tree _ _ _ _ _ O)); apply Hlv. }
  apply (wp_mono _ (fun _ s' => s' = Fs (fs_sb s)
    (<[ip := set_i_ref (i_ref i - 1) (set_i_locked false i)]> (fs_icache s)) (fs_st s))).
  { unfold iput. apply wp_bind. unfold i_acquiresleep. apply wp_bind, wp_gets.
    unfold inodeat. rewrite Ei, Hlk. apply wp_modify. apply wp_bind, wp_gets.
    unfold inodeat. cbn [fs_icache fs_sb fs_st]. rewrite Ei, !list_lookup_total_insert_eq by done.
    cbn [i_valid i_nlink i_ref set_i_locked]. rewrite Hkeep. apply wp_bind, wp_ret.
    apply wp_bind, wp_modify, wp_modify. unfold inodeat. cbn [fs_icache fs_sb fs_st].
    rewrite !list_insert_insert_eq, !list_lookup_total_insert_eq by (rewrite ?length_insert; done).
    done. }
  intros [] s' ->. split; [done|].
  eapply (owns_insert None None); [exact O|exact Hi|apply (ow_fs _ _ _ _ _ O)| | | | | |].
  - by eapply icache_ok_same; [apply (ow_cache _ _ _ _ _ O)|exact Hi|..]; simpl; lia || done.
  - done.
  - done.
  - intros _. destruct Hlv. by constructor.
  - intros k. unfold held_refs. rewrite filter_app, length_app. simpl. rewrite filter_cons, filter_nil. simpl.
    repeat case_decide; simpl; subst; lia || done.
  - intros k m Hk. left. split; [apply elem_of_app; by left|done].
Qed.

Lemma iunlockput_owns s t base l ip n : owns (Some ip) s t base (l ++ [(ip, n)]) ->
  wp (iunlockput ip) (fun _ s' => fs_sb s' = fs_sb s /\ owns None s' t base l) s.
Proof.
  intros O. unfold iunlockput. apply wp_bind. eapply wp_mono.
  { apply (iunlock_owns s t base _ ip n O), elem_of_app. right. by apply list_elem_of_singleton. }
  intros [] s1 [E1 O1]. eapply wp_mono; [by eapply iput_owns|]. intros [] s2 [E2 O2]. split; [congruence|done].
Qed.

Lemma owns_same_mem lk s s' t base l : owns lk s t base l -> same_mem s s' -> blk_abs (fs_st s') t ->
  owns lk s' t base l.
Proof.
  intros [HO Hs Ht Hc Hr Hb He Hf] [E1 E2] Ha. constructor; rewrite ?E1, ?E2; try done. by apply (fs_ok_mem s).
Qed.

(** *** One step of the walk *)

Lemma contents_ext v i i' : to_dinode i' = to_dinode i -> contents v i' = contents v i.
Proof. destruct i, i'. unfold to_dinode. simpl. by intros [= -> -> -> -> -> ->]. Qed.

(** A locked entry that has been read is the inode of the disk. *)
Lemma owns_locked lk s t base l ip n : owns lk s t base l -> (ip, n) ∈ l -> i_valid (inodeat ip s) = true ->
  let i := inodeat ip s in i_dev i = 1 /\ i_inum i = n /\ 0 <= n < sb_ninodes (fs_sb s) /\
    to_dinode i = disk_inode (fs_sb s) (tx_view t) n.
Proof.
  intros O Hin Hv i. destruct (owns_live _ _ _ _ _ _ _ O Hin) as (a & Hi & Hn & Hr & Hlv & Hlk).
  assert (i = a) as -> by (unfold i, inodeat; by rewrite (list_lookup_total_correct _ _ _ Hi)).
  unfold inodeat in Hv. rewrite (list_lookup_total_correct _ _ _ Hi) in Hv. subst n.
  split_and!; [apply Hlv|done|apply Hlv|apply Hlv|by apply Hlv].
Qed.

Lemma dirlookup_owns s t base ip n name : owns (Some ip) s t base [(ip, n)] -> i_valid (inodeat ip s) = true ->
  is_dir (fs_sb s) (tx_view t) n = true -> name_ok name ->
  wp (dirlookup ip name) (fun r s' => fs_sb s' = fs_sb s /\
    match child (fs_sb s) (tx_view t) n name with
    | Some m => exists ip' off, r = Some (ip', off) /\ owns (Some ip) s' t base [(ip', m); (ip, n)]
    | None => r = None /\ owns (Some ip) s' t base [(ip, n)]
    end) s.
Proof.
  intros O Hv Hd Hn. assert ((ip, n) ∈ [(ip, n)]) as Hin by by apply list_elem_of_singleton.
  destruct (owns_locked _ _ _ _ _ _ _ O Hin Hv) as (Hdev & Hinum & Hrange & Hdi).
  pose proof (ow_tree _ _ _ _ _ O) as T.
  assert (to_dinode (inodeat ip s) = to_dinode (inode_of (fs_sb s) (tx_view t) n)) as Hsame
    by (rewrite Hdi; unfold inode_of; by destruct (disk_inode _ _ _)).
  assert (dir_ok (fs_sb s) t (inodeat ip s)) as D.
  { eapply dir_ok_ext; [| |exact Hsame|by apply T]; [exact Hdev|exact Hinum]. }
  apply (dirlookup_spec s t ip name); [apply O|apply O|done|done|]. intros s1 E1 A1.
  pose proof (owns_same_mem _ _ _ _ _ _ O E1 A1) as O1. destruct (E1) as [Esb _].
  pose proof (tr_child _ _ T n name) as Hch. unfold child in *. rewrite Hd in *. unfold dir_get in *.
  rewrite <- (contents_ext (tx_view t) _ _ Hsame) in *.
  destruct (list_find _ _) as [[k de]|]; simpl in *; [|done].
  destruct (Hch _ Hrange eq_refl) as [Hm Hty]. rewrite Hdev.
  eapply wp_mono; [apply (iget_owns (Some ip) s1 t base _ (de_inum de) O1); rewrite ?Esb; done|].
  intros ip' s2 (E2 & O2 & _). split; [congruence|]. eexists _, _. split; [done|exact O2].
Qed.

(** *** The walk *)

(** The outcome of a walk from inode [n] along [es]: the inode the path names,
    with one more reference to its cache entry, or a null pointer and no
    reference left behind. For [nameiparent] it is the directory of the last
    element, whose name is in the buffer. *)
Definition walked (sb : superblock) t base (n : Z) (es : list (list Z)) (parent : bool)
    (r : option nat * list Z) (s' : fs St) : Prop :=
  fs_sb s' = sb /\
  match (if parent then resolve_parent sb (tx_view t) n es
         else (fun m => (m, [])) <$> resolve sb (tx_view t) n es) with
  | Some (m, e) => exists ip, r.1 = Some ip /\ owns None s' t base [(ip, m)] /\
      (parent = true -> cstrn DIRSIZ r.2 = elem_name e)
  | None => r.1 = None /\ owns None s' t base []
  end.

Lemma dir_get_ext n n' c : cstrn DIRSIZ n = cstrn DIRSIZ n' -> dir_get n c = dir_get n' c.
Proof.
  intros E. rewrite !dir_get_find. f_equal. induction (entries c) as [|de l IH]; [done|].
  rewrite !find_entry_cons, IH. destruct (decide (matches n de)) as [H|H]; [by rewrite decide_True by by rewrite <- (matches_ext n n')|].
  by rewrite decide_False by by rewrite <- (matches_ext n n').
Qed.

Lemma child_name sb v n e name : cstrn DIRSIZ name = elem_name e -> child sb v n name = child sb v n e.
Proof.
  intros E. unfold child. destruct (is_dir sb v n); [|done]. apply dir_get_ext. rewrite E.
  unfold cstrn in *. fold (elem_name e). rewrite <- E. symmetry.
  pose proof (cstr_app_nul (take DIRSIZ name) 0) as H. by rewrite app_nil_r in H.
Qed.

Lemma elems_start c q : c <> slash -> elems (c :: q) <> [].
Proof.
  intros Hc. unfold elems. simpl. rewrite (proj2 (Z.eqb_neq c slash)) by done.
  assert (forall q cur, cur <> [] -> elems_aux cur q <> []) as H; [|by apply H].
  clear. induction q as [|c q IH]; intros cur Hcur; simpl; [by rewrite decide_False|].
  destruct (c =? slash); [by rewrite decide_False|]. apply IH. by destruct cur.
Qed.

Lemma namex_loop_spec parent z : forall es p fuel ip n name s t base,
  elems p = es -> no_nul p -> Forall is_u8 p -> length name = DIRSIZ -> Forall is_u8 name ->
  (length p <= fuel)%nat -> owns None s t base [(ip, n)] ->
  wp (namex_loop fuel ip (p ++ 0 :: z) parent name) (walked (fs_sb s) t base n es parent) s.
Proof.
  induction es as [|e es IH]; intros p fuel ip n name s t base He Hp Hup Hl Hun Hf O;
    pose proof (skipelem_elems p z name Hp Hl) as Hsk; rewrite He in Hsk;
    assert ((ip, n) ∈ [(ip, n)]) as Hin by (by apply list_elem_of_singleton).
  { destruct fuel; cbn [namex_loop]; rewrite Hsk; apply wp_bind, wp_ret; destruct parent.
    all: try (apply wp_bind; eapply wp_mono; [apply (iput_owns s t base [] ip n O)|];
      intros [] s1 [E1 O1]; apply wp_ret; split; [done|]; split; done).
    all: apply wp_ret; split; [done|]; exists ip; split_and!; done. }
  destruct Hsk as (q & name' & Esk & Eq & Hqs & Hqn & Hql & Hnl & Hnc & Hbytes).
  destruct (Hbytes Hup Hun) as [Huq Hun']. assert (name_ok name') as Hnok by (split; [done|left; lia]).
  destruct fuel as [|fuel]; [lia|]. cbn [namex_loop]. rewrite Esk. apply wp_bind, wp_ret.
  apply wp_bind. eapply wp_mono; [by eapply ilock_owns|]. intros [] s1 (E1 & O1 & Hv1).
  apply wp_bind, wp_gets. destruct (owns_locked _ _ _ _ _ _ _ O1 Hin Hv1) as (_ & _ & _ & Hdi).
  assert ((i_type (inodeat ip s1) =? T_DIR) = is_dir (fs_sb s) (tx_view t) n) as Hty.
  { unfold is_dir. rewrite <- E1, <- Hdi. done. }
  rewrite Hty. destruct (is_dir (fs_sb s) (tx_view t) n) eqn:Hd; cbn [negb].
  2: { apply wp_bind. eapply wp_mono; [apply (iunlockput_owns s1 t base [] ip n O1)|]. intros [] s2 [E2 O2].
    apply wp_ret. split; [congruence|].
    assert (child (fs_sb s) (tx_view t) n e = None) as Hc by (unfold child; by rewrite Hd).
    destruct parent; simpl; rewrite ?Hd, ?Hc; [destruct es; done|done]. }
  assert (match q ++ 0 :: z with c :: _ => c =? 0 | [] => false end = bool_decide (es = [])) as Hend.
  { destruct q as [|c q]; simpl.
    - rewrite <- Eq. by rewrite bool_decide_eq_true_2.
    - pose proof (Forall_inv Hqn) as Hc. simpl in Hc. rewrite (proj2 (Z.eqb_neq c 0)) by done.
      rewrite bool_decide_eq_false_2; [done|]. rewrite <- Eq. apply elems_start. by eapply Hqs. }
  rewrite Hend. destruct (parent && bool_decide (es = [])) eqn:Hpar.
  { apply andb_prop in Hpar as [-> ->%bool_decide_eq_true].
    apply wp_bind. eapply wp_mono; [by eapply iunlock_owns|]. intros [] s2 [E2 O2]. apply wp_ret.
    split; [congruence|]. simpl. rewrite Hd. exists ip. by split_and!. }
  apply wp_bind. eapply wp_mono; [apply (dirlookup_owns s1 t base ip n name' O1 Hv1); by rewrite ?E1|].
  rewrite E1, (child_name _ _ _ e) by done. intros r s2 [E2 Hr].
  destruct (child (fs_sb s) (tx_view t) n e) as [m|] eqn:Hc.
  - destruct Hr as (ip' & off & -> & O2). apply wp_bind.
    eapply wp_mono; [apply (iunlockput_owns s2 t base [(ip', m)] ip n O2)|]. intros [] s3 [E3 O3].
    assert (fs_sb s3 = fs_sb s) as E03 by congruence.
    eapply wp_mono; [apply (IH q fuel ip' m name' s3 t base); try done; lia|].
    rewrite E03. intros r s4 [E4 H]. split; [congruence|].
    destruct parent; simpl in *; rewrite ?Hc; [|done].
    destruct es; [done|]. exact H.
  - destruct Hr as [-> O2]. apply wp_bind. eapply wp_mono; [apply (iunlockput_owns s2 t base [] ip n O2)|].
    intros [] s3 [E3 O3]. apply wp_ret. split; [congruence|].
    destruct parent; simpl in *; rewrite ?Hc; [|done]. destruct es; done.
Qed.

Lemma idup_owns s t base ip i : owns None s t base [] -> fs_icache s !! ip = Some i -> 0 < i_ref i ->
  wp (idup ip) (fun r s' => r = ip /\ fs_sb s' = fs_sb s /\ owns None s' t base [(ip, i_inum i)]) s.
Proof.
  intros O Hi Hr. unfold idup. apply wp_bind, wp_modify, wp_ret. split; [done|]. split; [done|].
  unfold inodeat. rewrite (list_lookup_total_correct _ _ _ Hi). pose proof (ow_cache _ _ _ _ _ O) as Hc.
  eapply (owns_insert None None); [exact O|exact Hi|apply (ow_fs _ _ _ _ _ O)| | | | | |].
  - eapply icache_ok_same; [apply Hc|exact Hi|..]; simpl; lia || done.
  - exact (ca_lock _ _ _ _ Hc _ _ Hi).
  - done.
  - intros _. destruct (ca_live _ _ _ _ Hc _ _ Hi Hr). by constructor.
  - intros k. rewrite held_refs_cons. simpl. case_decide; lia.
  - intros k m [[= -> ->]|H]%elem_of_cons; [by right|by apply not_elem_of_nil in H].
Qed.


End path.
