(* ===== verification/FsImage.v ===== *)
(** The file system on the image of Image.v: its two files are well formed, and
    a machine started from it has an inode cache that agrees with it. The
    witnesses of the file system theorems run here. *)

From S2P Require Import Prelude Params KString Bio Log Blocks Image LogCrash Fs FsAlloc FsFile FsWrite.
From S2P Require Import FsInode FsName FsDir FsPath.

Definition image_super : superblock := sb_of image_sb.
Definition image_inode : inode := Inode 1 2 1 true true T_FILE 0 0 1 3 (35 :: replicate 12 0).
Definition image_root : inode := Inode 1 1 1 true true T_DIR 0 0 1 48 (36 :: replicate 12 0).
Definition image_fs (s : lstate) : fs lstate := Fs image_super [image_inode; image_root] s.

#[export] Instance no_devices : Devsw lstate := {| devsw_read _ := None; devsw_write _ := None |}.

Section image.
Context (bm : list Z) (s : lstate) (d : gmap Z (list Z)) (B : booted bm s d).

Lemma image_home n : ~ (2 <= n < 32) -> d !! n = image bm !! n.
Proof. intros H. apply (bt_home _ _ _ B). lia. Qed.

Lemma image_used n : 0 <= n < 48 -> used image_super d n = bit bm n.
Proof.
  intros H. unfold used. assert (BBLOCK n image_super = 34) as ->.
  { unfold BBLOCK. change BPB with 4096. change (sb_bmapstart image_super) with 34. dlia. }
  rewrite image_home by lia. unfold image. rewrite !lookup_insert_ne, lookup_insert_eq by lia.
  f_equal. change BPB with 4096. dlia.
Qed.

Context (Hmeta : forall n, 0 <= n < 37 -> bit bm n = true).

Lemma image_layout : layout image_super (tx0 d).
Proof.
  pose proof (bt_dom _ _ _ B) as Hd. constructor; change (sb_size image_super) with 48; try done.
  - exists image_sb. split; [|done]. simpl. rewrite image_home by lia. apply lookup_insert_eq.
  - intros n Hn. apply Hd. lia.
  - apply (dk_len _ _ _ _ _ (bt_disk _ _ _ B)).
  - intros n Hn. change (dstart image_super) with 35 in Hn. simpl. rewrite image_used by lia.
    apply Hmeta. lia.
Qed.

Lemma image_fs_ok : fs_ok (image_fs s) (tx0 d).
Proof. constructor; [apply B|apply image_layout|]. intros i n. simpl. by rewrite lookup_empty. Qed.

(** The two files of the image have one block each. *)
Lemma image_fblock i b bn : i_addrs i = b :: replicate 12 0 -> in_file bn ->
  fblock d i bn = if decide (bn = 0) then b else 0.
Proof.
  intros E [H1 H2]. unfold fblock, iblk, NDIRECT. rewrite E. simpl.
  destruct (Z.ltb_spec bn 12); [|by rewrite decide_False by lia].
  case_decide; [by subst|]. destruct (Z.to_nat bn) eqn:En; [lia|]. simpl.
  rewrite list_lookup_total_alt. change (_ :: _) with (replicate 12 0). by rewrite lookup_replicate_2 by lia.
Qed.

Lemma image_one_block i b : i_addrs i = b :: replicate 12 0 -> 35 <= b < 37 -> 0 < i_size i <= 512 ->
  inode_ok image_super i -> i_type i <> T_DEV ->
  disk_inode image_super d (i_inum i) = to_dinode i -> file_ok image_super (tx0 d) i.
Proof.
  intros E Hb Hsz Hok Hty Hdi.
  assert (forall n, owned d i n -> n = b) as Hown.
  { intros n [Hn [->|(bn & Hbn & <-)]]; [unfold iblk in Hn; by rewrite E in Hn|].
    rewrite (image_fblock i b) in * by done. by case_decide. }
  constructor; simpl; try done.
  - constructor; simpl.
    + apply (io_dev _ _ Hok).
    + by rewrite E.
    + intros n ->%Hown. split; [change (dstart image_super) with 35; change (ldle 4 image_sb 0) with 48; lia|].
      rewrite image_used by lia. apply Hmeta. lia.
    + intros b1 b2 H1 H2. rewrite !(image_fblock i b) by done. by repeat case_decide; subst.
    + intros bn _ Hn. unfold iblk. by rewrite E.
  - change (MAXFILE * BSIZE) with 71680. lia.
  - intros bn Hbn Hlt. unfold BSIZE in Hlt. rewrite (image_fblock i b) by (done || unfold in_file; change MAXFILE with 140; lia).
    rewrite decide_True by lia. lia.
Qed.

Lemma image_dinode n : 0 <= n < 8 -> disk_inode image_super d n = ld_dinode image_inodes (dinode_off n).
Proof.
  intros Hn. unfold disk_inode. replace (IBLOCK n image_super) with 32
    by (unfold IBLOCK; change IPB with 8; change (sb_inodestart image_super) with 32; dlia).
  rewrite (lookup_total_correct d 32 image_inodes); [done|].
  rewrite image_home by lia. unfold image. by rewrite lookup_insert_ne, lookup_insert_eq by lia.
Qed.

Ltac image_inode_ok := constructor; simpl; try done; constructor; simpl; try done;
  repeat (apply Forall_cons; split; [unfold is_u32, T_FILE, T_DIR; lia|]); by apply Forall_nil_2.

Lemma image_file_ok : file_ok image_super (tx0 d) image_inode.
Proof.
  apply (image_one_block _ 35); [done|lia|simpl; lia|image_inode_ok|done|].
  rewrite image_dinode by (simpl; lia). by vm_compute.
Qed.

Lemma image_root_ok : file_ok image_super (tx0 d) image_root.
Proof.
  apply (image_one_block _ 36); [done|lia|simpl; lia|image_inode_ok|done|].
  rewrite image_dinode by (simpl; lia). by vm_compute.
Qed.

Lemma image_contents i b x : i_addrs i = b :: replicate 12 0 -> d !! b = Some x -> length x = 512%nat ->
  0 <= i_size i <= 512 -> contents d i = take (Z.to_nat (i_size i)) x.
Proof.
  intros E Hx Hl Hs. apply list_eq. intros k. unfold contents. destruct (decide (k < Z.to_nat (i_size i))%nat).
  - rewrite fbytes_lookup, lookup_take_lt by lia. unfold fbyte, BSIZE. simpl.
    assert (in_file (Z.of_nat k / 512)) by (unfold in_file; change MAXFILE with 140; dlia).
    rewrite (image_fblock i b) by done. rewrite decide_True by dlia.
    rewrite (lookup_total_correct _ _ _ Hx). replace (Z.to_nat _) with k by dlia. symmetry.
    apply list_lookup_lookup_total_lt. lia.
  - rewrite !lookup_ge_None_2; [done|rewrite length_take; lia|rewrite length_fbytes; lia].
Qed.

Lemma image_dir_block : d !! 36 = Some image_dir.
Proof. rewrite image_home by lia. unfold image. by rewrite !lookup_insert_ne, lookup_insert_eq by lia. Qed.

(** Inodes 1 and 2 are in use, the other fourteen are not. *)
Lemma image_types n : 0 <= n < 16 ->
  disk_inode image_super d n = ld_dinode (if decide (n < 8) then image_inodes else empty_block) (dinode_off n).
Proof.
  intros Hn. case_decide; [by apply image_dinode; lia|]. unfold disk_inode.
  replace (IBLOCK n image_super) with 33
    by (unfold IBLOCK; change IPB with 8; change (sb_inodestart image_super) with 32; dlia).
  rewrite (lookup_total_correct d 33 empty_block); [done|]. rewrite image_home by lia. apply image_empty; lia.
Qed.

Lemma image_type n : 0 <= n < 16 -> di_type (disk_inode image_super d n) =
  if decide (n = 1) then 1 else if decide (n = 2) then 2 else 0.
Proof.
  intros Hn. rewrite image_types by done.
  assert (Forall (fun n => di_type (ld_dinode (if decide (n < 8) then image_inodes else empty_block) (dinode_off n)) =
    if decide (n = 1) then 1 else if decide (n = 2) then 2 else 0) (seqZ 0 16)) as H
    by (apply (bool_decide_unpack _); by vm_compute).
  rewrite Forall_forall in H. apply H, elem_of_seqZ. lia.
Qed.

Lemma image_root_contents : contents d image_root = take 48 image_dir.
Proof.
  rewrite (image_contents image_root 36 image_dir); [done|done|apply image_dir_block|done|simpl; lia].
Qed.

Lemma image_root_dir : dir_ok image_super (tx0 d) image_root.
Proof.
  constructor; [apply image_root_ok|done|done|]. cbn [tx_view tx0]. rewrite image_root_contents.
  apply (bool_decide_unpack _). by vm_compute.
Qed.

Lemma image_is_dir n : 0 <= n < 16 -> is_dir image_super d n = true -> n = 1.
Proof.
  intros Hn. unfold is_dir. rewrite image_type by done. unfold T_DIR. repeat case_decide; [done|lia|lia].
Qed.

Lemma image_root_inode : to_dinode (inode_of image_super d 1) = to_dinode image_root.
Proof. unfold inode_of. rewrite image_dinode by lia. by vm_compute. Qed.

Lemma image_tree : tree_ok image_super (tx0 d).
Proof.
  constructor; change (sb_ninodes image_super) with 16; cbn [tx_view tx0].
  - intros n Hn ->%image_is_dir; [|done]. eapply dir_ok_ext; [..|exact image_root_dir]; try done.
    apply image_root_inode.
  - intros n name m Hn. unfold child. destruct (is_dir image_super d n) eqn:E; [|done].
    apply image_is_dir in E as ->; [|done]. rewrite (contents_ext d image_root) by apply image_root_inode.
    rewrite image_root_contents. unfold dir_get.
    destruct (list_find _ _) as [[k de]|] eqn:Ef; [|done]. intros [= <-].
    apply list_find_Some in Ef as (Hk & _ & _). apply list_elem_of_lookup_2 in Hk.
    assert (Forall (fun de => de_inum de = 1 \/ de_inum de = 2) (entries (take 48 image_dir))) as H
      by (apply (bool_decide_unpack _); by vm_compute).
    rewrite Forall_forall in H. apply H in Hk as [-> | ->]; (split; [lia|]); rewrite image_type by lia;
      by repeat case_decide.
  - intros n Hn. rewrite image_type by done. intros Ht.
    assert (n = 1 \/ n = 2) as [-> | ->] by (repeat case_decide; auto; done); rewrite image_dinode by lia; by vm_compute.
Qed.

Lemma image_child : child image_super d 1 (chars "README") = Some 2.
Proof.
  unfold child. replace (is_dir image_super d 1) with true by (unfold is_dir; by rewrite image_type by lia).
  rewrite (contents_ext d image_root) by apply image_root_inode. rewrite image_root_contents. by vm_compute.
Qed.

(** The current directory is the root; two entries of the cache are free. *)
Definition cwd_inode : inode := Inode 1 1 1 false true T_DIR 0 0 1 48 (36 :: replicate 12 0).
Definition free_inode : inode := Inode 0 0 0 false false 0 0 0 0 0 (replicate 13 0).
Definition cwd_fs : fs lstate := Fs image_super [cwd_inode; free_inode; free_inode] s.

Lemma cwd_icache_ok : icache_ok [cwd_inode; free_inode; free_inode].
Proof.
  constructor; [by repeat constructor|].
  intros dev inum [|[|[|j]]] [|[|[|k]]] a b; simpl; rewrite ?lookup_nil; try done;
    intros [= <-] [= <-] (Ha & _) (Hb & _); simpl in *; lia.
Qed.

Lemma cwd_owns : owns None cwd_fs (tx0 d) (fun j => if decide (j = 0%nat) then 1 else 0) [].
Proof.
  constructor; cbn [fs_sb fs_icache cwd_fs].
  - constructor; [apply B|apply image_layout|]. intros i n. simpl. by rewrite lookup_empty.
  - by vm_compute; lia.
  - apply image_tree.
  - constructor; [apply cwd_icache_ok| |].
    + intros [|[|[|j]]] i; simpl; rewrite ?lookup_nil; by intros [= <-].
    + intros [|[|[|j]]] i; simpl; rewrite ?lookup_nil; intros [= <-] Hr; simpl in Hr; try lia.
      constructor; [done|by vm_compute|..]; cbn [i_inum cwd_inode tx_view tx0].
      * rewrite image_type by lia. done.
      * intros _. rewrite image_dinode by lia. by vm_compute.
  - intros [|[|[|j]]]; reflexivity.
  - intros j. case_decide; lia.
  - intros k n H. by apply not_elem_of_nil in H.
  - exists 1%nat, 2%nat. simpl. split_and!; (done || lia).
Qed.

End image.

Lemma image_bits n : 0 <= n < 37 -> bit image_bitmap n = true.
Proof.
  intros Hn. assert (Forall (fun n => bit image_bitmap n = true) (seqZ 0 37)) as H
    by (apply (bool_decide_unpack _); by vm_compute).
  rewrite Forall_forall in H. apply H, elem_of_seqZ. lia.
Qed.

(** The image has eleven free blocks. *)
Lemma image_nfree s d : booted image_bitmap s d -> nfree image_super d = 11%nat.
Proof.
  intros B. unfold nfree. change (sb_size image_super) with 48.
  rewrite (filter_false_ext _ _ (fun n => bit image_bitmap n)); [by vm_compute|].
  intros b Hb%elem_of_seqZ. by apply (image_used image_bitmap s d B).
Qed.

Lemma image_icache_ok : icache_ok [image_inode; image_root].
Proof.
  constructor; [by repeat constructor|].
  intros dev inum [|[|j]] [|[|k]] a b; simpl; rewrite ?lookup_nil; try done;
    intros [= <-] [= <-] (_ & _ & Ha) (_ & _ & Hb); simpl in *; congruence.
Qed.
