(* ===== verification/FsProps.v ===== *)
(** What the file system promises (fs.c, log.c): files keep what is written
    to them, also across crashes, and blocks are not given out twice. The
    theorems compose the specifications of the earlier files; the witnesses
    run them on the image of Image.v. *)

From S2P Require Import Prelude Params KString Bio Log Blocks Image LogCrash Fs FsAlloc FsFile FsWrite.
From S2P Require Import FsInode FsName FsDir FsPath FsImage.

Section promises.
Context {St : Type} `{!Blocks St, !BlocksLaws St, !Devsw St}.
Implicit Types (s : fs St) (t : tx).

Lemma overwrite_read v i off c x :
  contents v i = overwrite c (Z.to_nat off) x -> 0 <= off -> (Z.to_nat off <= length c)%nat ->
  fbytes v i off (Z.of_nat (length x)) = x.
Proof.
  intros Hc Ho Hl. pose proof (f_equal length Hc) as Hlen. unfold contents in Hlen.
  rewrite length_fbytes in Hlen. unfold overwrite in Hlen.
  rewrite !length_app, length_drop, length_take in Hlen.
  apply list_eq. intros k. destruct (decide (k < length x)%nat).
  - apply (f_equal (lookup (Z.to_nat off + k)%nat)) in Hc. unfold contents, overwrite in Hc.
    rewrite fbytes_lookup in Hc by lia. rewrite lookup_app_r in Hc by (rewrite length_take; lia).
    rewrite lookup_app_l in Hc by (rewrite length_take; lia).
    rewrite fbytes_lookup by lia. rewrite length_take in Hc.
    replace (off + Z.of_nat k) with (0 + Z.of_nat (Z.to_nat off + k)) by lia. rewrite Hc. f_equal. lia.
  - rewrite !lookup_ge_None_2; [done|lia|rewrite length_fbytes; lia].
Qed.

(** C10: a file keeps what is written to it: [writei] of [n] bytes at [off], inside
    the file or at its end, returns [n], and [readi] from [off] then gives the
    same [n] bytes. *)
Theorem writei_readi s t ip src off n :
  fs_ok s t -> (ip < length (fs_icache s))%nat -> file_ok (fs_sb s) t (inodeat ip s) ->
  0 <= off <= i_size (inodeat ip s) -> 0 <= n <= Z.of_nat (length src) ->
  off + n <= MAXFILE * BSIZE -> budget (7 * Z.to_nat (nblk off n) + 2) t ->
  (2 * Z.to_nat (nblk off n) <= nfree (fs_sb s) (tx_view t))%nat ->
  wp (let! r := writei ip src off n in let! x := readi ip off n in ret (r, x))
    (fun r _ => r = (n, (n, take (Z.to_nat n) src))) s.
Proof.
  intros HO Hip F Ho Hn Hmax HB Hf. wp_use writei_file; try done; [by eapply budget_le; [|exact HB]; lia|].
  intros r s' (-> & i' & t' & E & HO' & F' & Hh & _ & Hlog & Hc & _).
  assert (inodeat ip s' = i') as Ei by (rewrite E; by apply inodeat_set).
  assert (fs_sb s' = fs_sb s) as Esb by (by rewrite E).
  pose proof (f_equal length Hc) as Hl. unfold contents in Hl. rewrite length_fbytes in Hl.
  unfold overwrite in Hl. rewrite !length_app, length_drop, !length_take, length_fbytes in Hl.
  destruct F' as [F1 F2 F3 F4 F5 F6 F7].
  assert (off + n < 4294967296) 
    by (unfold MAXFILE, NDIRECT, NINDIRECT, BSIZE in Hmax; change (512 / 4) with 128 in Hmax; lia).
  apply wp_bind. eapply wp_mono; [apply (readi_file s' t' ip off n); rewrite ?Ei, ?Esb; try done; try lia|].
  - unfold budget, tx_slot in *. rewrite Hh. lia.
  - intros x s2 (_ & _ & ->). apply wp_ret. rewrite Ei.
    replace (Z.min n (i_size i' - off)) with n by lia. do 2 f_equal.
    apply (overwrite_read _ _ off) in Hc; [|lia|unfold contents; rewrite length_fbytes; lia].
    by rewrite length_take, Nat.min_l, Z2Nat.id in Hc by lia.
Qed.

(** the block allocator: [balloc] gives out the first block that is not in
    use, zeroed; after [bfree] of it the same blocks are in use as before. *)
Theorem balloc_bfree s t :
  fs_ok s t -> budget 3 t ->
  (exists b, 0 <= b < sb_size (fs_sb s) /\ used (fs_sb s) (tx_view t) b = false) ->
  wp (let! b := balloc 1 in let! s1 := get in bfree 1 b;;; ret (b, s1))
    (fun r s' => let '(b, s1) := r in first_free (fs_sb s) t b /\
      exists t1 t2, blk_abs (fs_st s1) t1 /\ tx_view t1 !! b = Some zeros /\
        (forall b', 0 <= b' < sb_size (fs_sb s) ->
           used (fs_sb s) (tx_view t1) b' = if decide (b' = b) then true else used (fs_sb s) (tx_view t) b') /\
        blk_abs (fs_st s') t2 /\
        forall b', 0 <= b' < sb_size (fs_sb s) ->
          used (fs_sb s) (tx_view t2) b' = used (fs_sb s) (tx_view t) b') s.
Proof.
  intros [Ha L Hh] HB Hex. wp_use (balloc_spec s t); try done; [by eapply budget_le; [|exact HB]; lia|].
  intros b s1 (Hb & [Esb Eic] & Ha1). pose proof Hb as (Hr & Hu & _).
  pose proof (free_is_data _ _ L b Hr Hu) as Hd.
  set (t1 := alloc_tx (fs_sb s) b t) in *.
  pose proof (layout_alloc _ _ _ L Hr Hd) as L1. fold t1 in L1.
  assert (forall b', 0 <= b' < sb_size (fs_sb s) -> used (fs_sb s) (tx_view t1) b' =
    if decide (b' = b) then true else used (fs_sb s) (tx_view t) b') as Hused
    by (intros b' Hb'; by apply used_alloc).
  apply wp_bind. change (wp get ?Q s1) with (Q s1 s1). cbv beta.
  wp_use (bfree_spec s1 t1 b); rewrite ?Esb; try done.
  - intros j n Hj. destruct (Hh j n Hj) as [H1 H2]. split; [done|]. pose proof (dstart_pos _ _ L).
    rewrite Hused by lia. by case_decide.
  - unfold budget, tx_room, t1 in *. simpl.
    pose proof (length_log_add (log_add (tx_log t) (BBLOCK b (fs_sb s))) b).
    pose proof (length_log_add (tx_log t) (BBLOCK b (fs_sb s))). lia.
  - rewrite Hused by done. by rewrite decide_True.
  - intros [] s2 [[Esb2 _] Ha2]. apply wp_ret. split; [done|]. eexists t1, _.
    split_and!; [done|apply alloc_lookup_new|done|exact Ha2|].
    intros b' Hb'. rewrite used_free by done. case_decide; [by subst|].
    rewrite Hused by done. by rewrite decide_False.
Qed.

End promises.

(** *** Files across crashes *)

(** The disk [d] has the file [i] with the contents [c]. *)
Definition disk_file (sb : superblock) (d : gmap Z (list Z)) (i : inode) (c : list Z) : Prop :=
  disk_inode sb d (i_inum i) = to_dinode i /\ contents d i = c.

(** A file is outside of the log: a disk with the home blocks of the
    transaction has the file. *)
Lemma home_file sb t i d :
  layout sb t -> file_ok sb t i -> home_eq (tx_start t) (tx_size t) d (tx_view t) ->
  disk_file sb d i (contents (tx_view t) i).
Proof.
  intros L [W Hok _ Hsz Hno Hsync _] Hd. pose proof (bmapstart_lt sb t L). pose proof (ly_log _ _ L).
  pose proof (iblock_range sb t L (i_inum i) (io_inum _ _ Hok)).
  assert (forall n, dstart sb <= n -> d !! n = tx_view t !! n) as Hn by (intros n Hge; apply Hd; lia).
  split.
  - rewrite <- Hsync. unfold disk_inode. f_equal. apply lookup_total_eq, Hd. lia.
  - assert (forall bn, fblock d i bn = fblock (tx_view t) i bn) as Hf.
    { intros bn. apply fblock_ext. intros Hi. apply Hn, (fw_own _ _ _ W). split; [done|by left]. }
    apply list_fmap_ext. intros j k [-> Hk]%lookup_seqZ. unfold fbyte. rewrite Hf.
    destruct (in_file_lt (0 + (0 + Z.of_nat j))) as [Hb1 Hb2]; [lia|].
    f_equal. apply lookup_total_eq, Hn, (fw_own _ _ _ W).
    split; [apply Hno; [done|lia]|]. right. eexists. split; [|done]. apply in_file_off. lia.
Qed.

Section crash_safe.
Context `{!Devsw lstate}.

(** C1: a write to a file is atomic. In an operation that starts with an empty
    log, [writei] returns [n] and leaves a transaction that commits; if the
    machine crashes at any point of the commit, and any number of times while
    it recovers, then after the recovery that completes the disk has the file
    either as it was before or as [writei] left it. *)
Theorem writei_crash_safe (s : fs lstate) t ip src off n :
  fs_ok s t -> tx_held t = ∅ -> tx_log t = [] ->
  disk_log (tx_start t) (tx_size t) (tx_disk t) [] [] ->
  (ip < length (fs_icache s))%nat -> file_ok (fs_sb s) t (inodeat ip s) ->
  0 <= off <= i_size (inodeat ip s) -> 0 <= n <= Z.of_nat (length src) ->
  off + n <= MAXFILE * BSIZE -> budget (7 * Z.to_nat (nblk off n) + 1) t ->
  (2 * Z.to_nat (nblk off n) <= nfree (fs_sb s) (tx_view t))%nat ->
  let old := contents (tx_view t) (inodeat ip s) in
  wp (writei ip src off n) (fun r s1 => r = n /\ exists s2, commit (fs_st s1) = Ret tt s2 /\
    forall k d1 d2, d1 = apply_writes (take k (writes_since (fs_st s1) s2)) (tx_disk t) ->
      rtc recovery_crash d1 d2 ->
      exists s3, initlog 1 (LState log0 (binit d2)) = Ret tt s3 /\
        (disk_file (fs_sb s) (disk (lb s3)) (inodeat ip s) old \/
         disk_file (fs_sb s) (disk (lb s3)) (inodeat ip s1)
           (overwrite old (Z.to_nat off) (take (Z.to_nat n) src)))) s.
Proof.
  intros HO Hh0 Hl0 K Hip F Ho Hn Hmax HB Hf old. eapply wp_mono; [by apply writei_file|].
  intros r s1 (-> & i' & t' & E & HO' & F' & Hh & Hk & _ & Hc & _). split; [done|].
  assert (inodeat ip s1 = i') as -> by (rewrite E; by apply inodeat_set).
  assert (fs_sb s1 = fs_sb s) as Esb by (by rewrite E).
  destruct (ok_base _ _ _ _ Hk) as [[= Es Ed El] Ez]. rewrite Hh0 in Hh.
  assert (1 ∉ tx_log t') as H1.
  { apply (bool_decide_eq_false_1 (1 ∈ tx_log t')). rewrite El, Hl0. apply bool_decide_eq_false_2, not_elem_of_nil. }
  pose proof (fo_abs _ _ HO') as Ha.
  assert (committable (fs_st s1) (tx_log t')) as HC.
  { apply committable_abs; [exact Ha|done|done|]. by rewrite Es, Ez, Ed. }
  destruct Ha as (_ & _ & Et). destruct (commit_any _ _ HC) as (s2 & Hrun & Hany).
  exists s2. split; [exact Hrun|]. clear Hrun. rewrite Et in Es, Ed, Ez. simpl in Es, Ed, Ez.
  intros k d1 d2 -> Hd2. rewrite <- Ed in *. rewrite Es, Ez in Hany.
  destruct (Hany k) as [H|H]; apply (recovers_to_crashes _ _ _ _ _ Hd2), recover_run in H
    as (s3 & Hrun3 & _ & _ & H3 & _); exists s3; (split; [exact Hrun3|]); clear Hrun3; [left|right].
  - apply home_file; [apply HO|done|]. intros m Hm. rewrite H3 by done. rewrite Ed.
    destruct (blk_clean _ _ m (fo_abs _ _ HO)) as [Hin|Hv]; [by rewrite Hh0|..|done].
    rewrite Hl0 in Hin. by apply not_elem_of_nil in Hin.
  - unfold old. rewrite <- Hc. apply home_file; [rewrite <- Esb; apply HO'|done|].
    rewrite Et. simpl. rewrite Es, Ez. exact H3.
Qed.

End crash_safe.

(** *** Paths *)

(** *** Witnesses *)

Lemma writei_readi_witness : exists s : fs lstate,
  wp (let! r := writei 0 (chars "6.S081") 1 6 in let! x := readi 0 1 6 in ret (r, x))
    (fun r _ => r = (6, (6, chars "6.S081"))) s.
Proof.
  destruct (image_boot image_bitmap eq_refl) as (s & d & _ & B). exists (image_fs s).
  apply (writei_readi (image_fs s) (tx0 d) 0 (chars "6.S081") 1 6).
  - exact (image_fs_ok image_bitmap s d B image_bits).
  - by vm_compute; lia.
  - exact (image_file_ok image_bitmap s d B image_bits).
  - by vm_compute.
  - by vm_compute.
  - by vm_compute.
  - split; [by vm_compute|]. apply Nat.leb_le. by vm_compute.
  - change (fs_sb (image_fs s)) with image_super. change (tx_view (tx0 d)) with d.
    rewrite (image_nfree s d B). apply Nat.leb_le. by vm_compute.
Defined.

Lemma writei_crash_safe_witness : exists s : fs lstate, exists old,
  wp (writei 0 (chars "6.S081") 1 6) (fun r s1 => r = 6 /\ exists s2, commit (fs_st s1) = Ret tt s2 /\
    forall k d1 d2, d1 = apply_writes (take k (writes_since (fs_st s1) s2)) (disk (lb (fs_st s))) ->
      rtc recovery_crash d1 d2 ->
      exists s3, initlog 1 (LState log0 (binit d2)) = Ret tt s3 /\
        (disk_file image_super (disk (lb s3)) image_inode old \/
         disk_file image_super (disk (lb s3)) (inodeat 0 s1) (overwrite old 1 (chars "6.S081")))) s.
Proof.
  destruct (image_boot image_bitmap eq_refl) as (s & d & _ & B). exists (image_fs s).
  exists (contents d image_inode).
  assert (d = disk (lb s)) as Ed by (destruct (bt_abs _ _ _ B) as (_ & _ & Et); by injection Et).
  cbn [fs_st image_fs]. rewrite <- Ed.
  apply (writei_crash_safe (image_fs s) (tx0 d) 0 (chars "6.S081") 1 6).
  - exact (image_fs_ok image_bitmap s d B image_bits).
  - reflexivity.
  - reflexivity.
  - exact (bt_disk _ _ _ B).
  - by vm_compute; lia.
  - exact (image_file_ok image_bitmap s d B image_bits).
  - by vm_compute.
  - by vm_compute.
  - by vm_compute.
  - split; [by vm_compute|]. apply Nat.leb_le. by vm_compute.
  - change (fs_sb (image_fs s)) with image_super. change (tx_view (tx0 d)) with d.
    rewrite (image_nfree s d B). apply Nat.leb_le. by vm_compute.
Defined.

Lemma balloc_bfree_witness : exists s : fs lstate,
  wp (let! b := balloc 1 in let! s1 := get in bfree 1 b;;; ret (b, s1))
    (fun r s' => exists t2, blk_abs (fs_st s') t2 /\ used image_super (tx_view t2) r.1 = false) s.
Proof.
  destruct (image_boot image_bitmap eq_refl) as (s & d & _ & B). exists (image_fs s).
  eapply wp_mono; [apply (balloc_bfree (image_fs s) (tx0 d))|].
  - exact (image_fs_ok image_bitmap s d B image_bits).
  - split; [by vm_compute|]. apply Nat.leb_le. by vm_compute.
  - exists 37. split; [by vm_compute|]. cbn [fs_sb image_fs tx_view tx0].
    rewrite (image_used image_bitmap s d B) by lia. by vm_compute.
  - intros [b s1] s' ((Hb & Hu & _) & t1 & t2 & _ & _ & _ & H2 & H). exists t2. split; [exact H2|].
    rewrite <- Hu. by apply H.
Defined.


