(* ===== verification/Mkfs.v ===== *)
(** mkfs.c: the program that makes the disk image.

    The state is the image as a map from block numbers to blocks, and the two
    counters [freeinode] and [freeblock]. A file given on the command line is
    its name and the pieces in which [read] delivers its contents. Failing
    system calls of the host are not modelled, except that a read behind the
    end of the image is an error.

    The theorem at the end of MkfsProofs.v says that the image is one the
    kernel's file system (Fs.v and its proofs) is correct on, with the files
    that were given. *)

From S2P Require Import Prelude Params KString Log Blocks Fs FsAlloc.

Definition NINODES : Z := 200.
Definition nbitmap : Z := FSSIZE / (BSIZE * 8) + 1.
Definition ninodeblocks : Z := NINODES / IPB + 1.
Definition nlog : Z := LOGSIZE.

(** convert to intel byte order: the host's number with the bytes [a[0]], ... *)
Definition xshort (x : Z) : Z := le_val [u8 x; u8 (Z.shiftr x 8)].
Definition xint (x : Z) : Z := le_val [u8 x; u8 (Z.shiftr x 8); u8 (Z.shiftr x 16); u8 (Z.shiftr x 24)].

Definition nmeta : Z := 2 + nlog + ninodeblocks + nbitmap.
Definition nblocks : Z := FSSIZE - nmeta.
Definition mksb : superblock :=
  SB (xint FSSIZE) (xint nblocks) (xint NINODES) (xint nlog) (xint 2) (xint (2 + nlog)) (xint (2 + nlog + ninodeblocks)).
(** [memmove(buf, &sb, sizeof(sb))] *)
Definition sb_bytes (sb : superblock) : list Z :=
  le_bytes 4 (sb_size sb) ++ le_bytes 4 (sb_nblocks sb) ++ le_bytes 4 (sb_ninodes sb) ++ le_bytes 4 (sb_nlog sb) ++
  le_bytes 4 (sb_logstart sb) ++ le_bytes 4 (sb_inodestart sb) ++ le_bytes 4 (sb_bmapstart sb).

Record mkfs := Mkfs { mk_img : gmap Z (list Z); mk_freeinode : Z; mk_freeblock : Z }.

Definition zeroes : list Z := replicate (Z.to_nat BSIZE) 0.

Definition wsect (sec : Z) (buf : list Z) : M mkfs unit :=
  modify (fun s => Mkfs (<[sec := buf]> (mk_img s)) (mk_freeinode s) (mk_freeblock s)).
Definition rsect (sec : Z) : M mkfs (list Z) :=
  let! b := gets (fun s => mk_img s !! sec) in
  match b with Some buf => ret buf | None => panic "read" end.

Definition winode (inum : Z) (ip : dinode) : M mkfs unit :=
  let bn := IBLOCK inum mksb in
  let! buf := rsect bn in
  wsect bn (st_dinode buf (dinode_off inum) ip).
Definition rinode (inum : Z) : M mkfs dinode :=
  let bn := IBLOCK inum mksb in
  let! buf := rsect bn in
  ret (ld_dinode buf (dinode_off inum)).

Definition ialloc (type : Z) : M mkfs Z :=
  let! inum := gets mk_freeinode in
  modify (fun s => Mkfs (mk_img s) (u32 (inum + 1)) (mk_freeblock s));;;
  winode inum (Dinode (xshort type) 0 0 (xshort 1) (xint 0) (replicate 13 0));;;
  ret inum.

Definition balloc (used : Z) : M mkfs unit :=
  panic_if (negb (used <? BSIZE * 8)) "assert";;;
  wsect (sb_bmapstart mksb) (foldl set_bit zeroes (seqZ 0 used)).

(** [freeblock++] *)
Definition next_block : M mkfs Z :=
  let! b := gets mk_freeblock in
  modify (fun s => Mkfs (mk_img s) (mk_freeinode s) (u32 (b + 1)));;;
  ret b.

(** The block for block [fbn] of the file, allocated if there is none: the new
    [din.addrs] and the block. *)
Definition iappend_block (addrs : list Z) (fbn : Z) : M mkfs (list Z * Z) :=
  if fbn <? NDIRECT then
    let! addrs :=
      if xint (addrs !!! Z.to_nat fbn) =? 0
      then let! b := next_block in ret (<[Z.to_nat fbn := xint b]> addrs)
      else ret addrs in
    ret (addrs, xint (addrs !!! Z.to_nat fbn))
  else
    let nd := Z.to_nat NDIRECT in
    let! addrs :=
      if xint (addrs !!! nd) =? 0
      then let! b := next_block in ret (<[nd := xint b]> addrs)
      else ret addrs in
    let! indirect := rsect (xint (addrs !!! nd)) in
    let k := Z.to_nat (fbn - NDIRECT) in
    let! indirect :=
      if ld_addr indirect k =? 0 then
        let! b := next_block in
        let indirect := st_addr indirect k (xint b) in
        wsect (xint (addrs !!! nd)) indirect;;;
        ret indirect
      else ret indirect in
    ret (addrs, xint (ld_addr indirect k)).

(** The loop of [iappend], with the bytes of [p] still to be written: the new
    [din.addrs] and [off]. *)
Fixpoint iappend_loop (fuel : nat) (addrs : list Z) (off : Z) (p : list Z) : M mkfs (list Z * Z) :=
  match p with
  | [] => ret (addrs, off)
  | _ =>
    match fuel with
    | O => fail NoFuel
    | S fuel =>
      let fbn := off / BSIZE in
      panic_if (negb (fbn <? MAXFILE)) "assert";;;
      let! (addrs, x) := iappend_block addrs fbn in
      let n1 := Z.min (Z.of_nat (length p)) ((fbn + 1) * BSIZE - off) in
      let! buf := rsect x in
      wsect x (list_inserts (Z.to_nat (off - fbn * BSIZE)) (take (Z.to_nat n1) p) buf);;;
      iappend_loop fuel addrs (off + n1) (drop (Z.to_nat n1) p)
    end
  end.
Definition iappend (inum : Z) (xp : list Z) : M mkfs unit :=
  let! din := rinode inum in
  let! (addrs, off) := iappend_loop (length xp) (di_addrs din) (xint (di_size din)) xp in
  winode inum (Dinode (di_type din) (di_major din) (di_minor din) (di_nlink din) (xint off) addrs).

(** A directory entry: [bzero(&de, sizeof(de)); de.inum = ...; strncpy(...)]. *)
Definition dirent (inum : Z) (name : list Z) : list Z := le_bytes 2 (xshort inum) ++ name.

Fixpoint append_all (inum : Z) (chunks : list (list Z)) : M mkfs unit :=
  match chunks with [] => ret tt | c :: chunks => iappend inum c;;; append_all inum chunks end.

(** One file of the command line. *)
Definition add_file (rootino : Z) (name : list Z) (chunks : list (list Z)) : M mkfs unit :=
  panic_if (bool_decide (47 ∈ name)) "assert";;;
  let name := match name with 95 :: name => name | _ => name end in
  let! inum := ialloc T_FILE in
  let! nm := of_option (strncpy (name ++ [0]) DIRSIZ) in
  iappend rootino (dirent inum nm);;;
  append_all inum chunks.
Fixpoint add_files (rootino : Z) (files : list (list Z * list (list Z))) : M mkfs unit :=
  match files with
  | [] => ret tt
  | (name, chunks) :: files => add_file rootino name chunks;;; add_files rootino files
  end.

Definition main (files : list (list Z * list (list Z))) : M mkfs unit :=
  modify (fun s => Mkfs (mk_img s) (mk_freeinode s) nmeta);;;
  for_ (Z.to_nat FSSIZE) (fun i => wsect (Z.of_nat i) zeroes);;;
  wsect 1 (list_inserts 0 (sb_bytes mksb) zeroes);;;
  let! rootino := ialloc T_DIR in
  panic_if (negb (rootino =? ROOTINO)) "assert";;;
  iappend rootino (dirent rootino (chars "." ++ replicate 13 0));;;
  iappend rootino (dirent rootino (chars ".." ++ replicate 12 0));;;
  add_files rootino files;;;
  let! din := rinode rootino in
  let off := (xint (di_size din) / BSIZE + 1) * BSIZE in
  winode rootino (Dinode (di_type din) (di_major din) (di_minor din) (di_nlink din) (xint off) (di_addrs din));;;
  let! used := gets mk_freeblock in
  balloc used.

(** The program's globals when it starts. *)
Definition mkfs0 : mkfs := Mkfs ∅ 1 0.
