(* ===== verification/MkfsProofs.v ===== *)
(** The image mkfs makes (Mkfs.v).

    [afile] says that the addresses of an inode describe a file with given
    contents in blocks below [freeblock]; [good] is the state of the image
    between two calls: which inodes are in use, with which contents, and that
    their blocks are disjoint. *)

From S2P Require Import Prelude Params KString Log Blocks LogCrash Fs FsAlloc FsFile FsInode FsName FsDir FsPath Mkfs.

Lemma xint_id x : is_u32 x -> xint x = x.
Proof.
  intros Hx. unfold xint. rewrite !Z.shiftr_div_pow2 by lia. cbn [le_val]. change (2 ^ 8) with 256. change (2 ^ 16) with 65536. change (2 ^ 24) with 16777216.
  unfold u8, is_u32 in *. dlia.
Qed.
Lemma xshort_id x : is_u16 x -> xshort x = x.
Proof. intros Hx. unfold xshort. rewrite !Z.shiftr_div_pow2 by lia. cbn [le_val]. change (2 ^ 8) with 256. unfold u8, is_u16 in *. dlia. Qed.

Lemma mksb_eq : mksb = SB 1000 941 200 30 2 32 58.
Proof. reflexivity. Qed.
Lemma nmeta_eq : nmeta = 59.
Proof. reflexivity. Qed.

(** *** The blocks of one file *)

(** An inode with the addresses [a]: the block functions use nothing else. *)
Definition ino (a : list Z) : inode := Inode 1 0 1 true true 0 0 0 1 0 a.

Record afile (v : bview) (a c : list Z) (nb fb : Z) : Prop := {
  af_len : length a = 13%nat;
  af_nb : 0 <= nb <= 140;
  af_size : Z.of_nat (length c) <= nb * 512;
  af_blocks : forall bn, 0 <= bn < 140 -> if decide (bn < nb) then 59 <= fblock v (ino a) bn < fb else fblock v (ino a) bn = 0;
  af_ind : if decide (12 < nb) then 59 <= iblk (ino a) < fb else iblk (ino a) = 0;
  af_inj : forall bn bn', 0 <= bn < nb -> 0 <= bn' < nb -> fblock v (ino a) bn = fblock v (ino a) bn' -> bn = bn';
  af_indne : forall bn, 0 <= bn < nb -> fblock v (ino a) bn <> iblk (ino a);
  af_data : forall o, 0 <= o < nb * 512 -> fbyte v (ino a) o = default 0 (c !! Z.to_nat o);
}.

Lemma afile_owned v a c nb fb n : afile v a c nb fb -> owned v (ino a) n -> 59 <= n < fb.
Proof.
  intros F [Hn [->|(bn & Hbn & <-)]].
  - pose proof (af_ind _ _ _ _ _ F) as H. case_decide; [done|]. done.
  - pose proof (af_blocks _ _ _ _ _ F bn Hbn) as H. case_decide; [done|]. done.
Qed.
Lemma afile_block v a c nb fb bn : afile v a c nb fb -> 0 <= bn < nb -> 59 <= fblock v (ino a) bn < fb /\ owned v (ino a) (fblock v (ino a) bn).
Proof.
  intros F Hbn. pose proof (af_nb _ _ _ _ _ F). pose proof (af_blocks _ _ _ _ _ F bn ltac:(lia)) as H'. rewrite decide_True in H' by lia.
  split; [done|]. split; [lia|]. right. exists bn. split; [unfold in_file; change MAXFILE with 140; lia|done].
Qed.
Lemma afile_iblk v a c nb fb : afile v a c nb fb -> iblk (ino a) <> 0 -> owned v (ino a) (iblk (ino a)).
Proof. intros F H. split; [done|by left]. Qed.

(** Blocks of others and more free blocks taken: the file is as it was. *)
Lemma afile_frame v v' a c nb fb fb' : afile v a c nb fb -> fb <= fb' -> (forall n, owned v (ino a) n -> v' !! n = v !! n) -> afile v' a c nb fb'.
Proof.
  intros F Hfb Hv. pose proof F as [H1 H2 H3 H4 H5 H6 H7 H8].
  assert (E : forall bn, fblock v' (ino a) bn = fblock v (ino a) bn) by (intros bn; apply fblock_ext; intros Hi; apply Hv; by eapply afile_iblk).
  constructor; try done.
  - intros bn Hbn. rewrite E. specialize (H4 bn Hbn). repeat case_decide; lia.
  - repeat case_decide; lia.
  - intros bn bn' Hb Hb'. rewrite !E. by apply H6.
  - intros bn Hb. rewrite E. by apply H7.
  - intros o Ho. rewrite <- (H8 o Ho). unfold fbyte. rewrite E. f_equal. apply lookup_total_eq, Hv.
    apply (afile_block _ _ _ _ _ _ F). unfold BSIZE. dlia.
Qed.

(** An inode without blocks. *)
Lemma afile_empty v fb : afile v (replicate 13 0) [] 0 fb.
Proof.
  assert (Hz : forall k, (k < 13)%nat -> replicate 13 0 !!! k = 0) by (intros k Hk; by rewrite lookup_total_replicate_2).
  constructor; try done; try lia.
  intros bn Hbn. rewrite decide_False by lia. unfold fblock, iblk, ino, NDIRECT. cbn [i_addrs].
  destruct (Z.ltb_spec bn 12); [by apply Hz; lia|]. by rewrite Hz by lia.
Qed.

(** Bytes written behind the contents, within the blocks that are there. *)
Lemma afile_write v a c nb fb q d : afile v a c nb fb ->
  let off := Z.of_nat (length c) in let bn := off / 512 in
  bn < nb -> off + Z.of_nat (length q) <= (bn + 1) * 512 -> v !! fblock v (ino a) bn = Some d -> length d = 512%nat ->
  afile (<[fblock v (ino a) bn := list_inserts (Z.to_nat (off mod 512)) q d]> v) a (c ++ q) nb fb.
Proof.
  intros F off bn Hbn Hq Hd Hl. set (x := fblock v (ino a) bn) in *. set (d' := list_inserts _ q d). set (v' := <[x := d']> v).
  pose proof F as [H1 H2 H3 H4 H5 H6 H7 H8]. assert (Hbn0 : 0 <= bn) by (unfold bn, off; dlia).
  assert (E : forall k, fblock v' (ino a) k = fblock v (ino a) k).
  { intros k. apply fblock_ext. intros Hi. apply lookup_insert_ne. apply H7. lia. }
  constructor; try done.
  - rewrite length_app. lia.
  - intros k Hk. rewrite E. by apply H4.
  - intros k k' Hk Hk'. rewrite !E. by apply H6.
  - intros k Hk. rewrite E. by apply H7.
  - intros o Ho. pose proof (Z.div_mod o 512 ltac:(lia)) as Hom. pose proof (Z.mod_pos_bound o 512 ltac:(lia)) as Hob.
    pose proof (Z.div_mod off 512 ltac:(lia)) as Hoff. fold bn in Hoff. pose proof (Z.mod_pos_bound off 512 ltac:(lia)) as Hfb. fold off in H3.
    unfold fbyte. change BSIZE with 512. rewrite E. specialize (H8 o Ho). unfold fbyte in H8. change BSIZE with 512 in H8.
    destruct (decide (o / 512 = bn)) as [Eo|Eo].
    + rewrite Eo in *. fold x in H8 |- *. unfold v'. rewrite lookup_total_insert_eq. rewrite (lookup_total_correct _ _ _ Hd) in H8.
      unfold d'.
      destruct (decide (o < off)) as [Hlt|Hge]; [|destruct (decide (o < off + Z.of_nat (length q))) as [Hlt|Hge']].
      * rewrite list_lookup_total_alt, list_lookup_inserts_lt by lia. rewrite <- list_lookup_total_alt, H8. rewrite lookup_app_l by lia. done.
      * rewrite list_lookup_total_alt, list_lookup_inserts by lia. rewrite lookup_app_r by lia.
        replace (Z.to_nat o - length c)%nat with (Z.to_nat (o mod 512) - Z.to_nat (off mod 512))%nat by lia.
        by rewrite (list_lookup_lookup_total_lt q) by lia.
      * rewrite list_lookup_total_alt, list_lookup_inserts_ge by lia. rewrite <- list_lookup_total_alt, H8. by rewrite !lookup_ge_None_2 by (rewrite ?length_app; lia).
    + unfold v'. rewrite lookup_total_insert_ne.
      * rewrite H8. f_equal. destruct (decide (o < off)); [by rewrite lookup_app_l by lia|].
        rewrite !lookup_ge_None_2; [done|rewrite length_app; lia|lia].
      * intros Ex. apply Eo. symmetry. apply H6; [lia|lia|done].
Qed.

(** A fresh block [x] of zeros becomes block [nb] of the file. *)
Lemma afile_grow v a c nb fb v' a' x fb' : afile v a c nb fb -> nb < 140 -> length a' = 13%nat -> fb <= fb' ->
  (forall bn, 0 <= bn < 140 -> fblock v' (ino a') bn = if decide (bn = nb) then x else fblock v (ino a) bn) ->
  (if decide (12 < nb + 1) then 59 <= iblk (ino a') < fb' else iblk (ino a') = 0) ->
  59 <= x < fb' -> fb <= x -> x <> iblk (ino a') -> (forall bn, 0 <= bn < nb -> fblock v (ino a) bn <> iblk (ino a')) ->
  v' !! x = Some zeroes -> (forall bn, 0 <= bn < nb -> v' !! fblock v (ino a) bn = v !! fblock v (ino a) bn) ->
  afile v' a' c (nb + 1) fb'.
Proof.
  intros F Hnb Hl Hfb Hf Hi Hx Hxf Hxi Hne Hz Hsame. pose proof F as [H1 H2 H3 H4 H5 H6 H7 H8].
  assert (Hlt : forall bn, 0 <= bn < nb -> fblock v' (ino a') bn = fblock v (ino a) bn) by (intros bn Hb; rewrite Hf by lia; by rewrite decide_False by lia).
  assert (Hnbx : fblock v' (ino a') nb = x) by (rewrite Hf by lia; by rewrite decide_True).
  constructor; try done; try lia.
  - intros bn Hbn. rewrite Hf by lia. specialize (H4 bn Hbn). repeat case_decide; lia.
  - intros bn bn' Hb Hb'. rewrite !Hf by lia.
    assert (Hbx : forall k, 0 <= k < nb -> fblock v (ino a) k <> x) by (intros k Hk; destruct (afile_block _ _ _ _ _ k F Hk); lia).
    clear H5 Hi. destruct (decide (bn = nb)) as [->|?], (decide (bn' = nb)) as [->|?]; intros E; [done|..].
    + exfalso. apply (Hbx bn'); [lia|done].
    + exfalso. apply (Hbx bn); [lia|done].
    + apply H6; [lia|lia|done].
  - intros bn Hb. rewrite Hf by lia. destruct (decide (bn = nb)); [done|]. apply Hne. lia.
  - intros o Ho. unfold fbyte. change BSIZE with 512. pose proof (Z.mod_pos_bound o 512 ltac:(lia)). assert (0 <= o / 512 <= nb) by dlia.
    destruct (decide (o / 512 = nb)) as [Eo|Eo].
    + rewrite Eo, Hnbx, (lookup_total_correct _ _ _ Hz). rewrite lookup_ge_None_2 by dlia.
      apply lookup_total_replicate_2. change (Z.to_nat BSIZE) with 512%nat. lia.
    + rewrite Hlt by lia. rewrite <- (H8 o) by dlia. unfold fbyte. change BSIZE with 512. f_equal. apply lookup_total_eq, Hsame. lia.
Qed.

Lemma grow_owned v a nb v' a' x fb n :
  (forall bn, 0 <= bn < 140 -> fblock v' (ino a') bn = if decide (bn = nb) then x else fblock v (ino a) bn) -> fb <= x ->
  (iblk (ino a') = iblk (ino a) \/ fb <= iblk (ino a')) -> n < fb -> owned v' (ino a') n -> owned v (ino a) n.
Proof.
  intros Hf Hx Hi Hn [H0 [->|(bn & Hbn & E)]]; (split; [done|]); [left; lia|]. right. exists bn. split; [done|].
  rewrite Hf in E by (unfold in_file in Hbn; change MAXFILE with 140 in Hbn; lia). destruct (decide (bn = nb)); [lia|done].
Qed.

Lemma iblk_insert a k x : (k < 12)%nat -> iblk (ino (<[k := x]> a)) = iblk (ino a).
Proof. intros Hk. unfold iblk, ino, NDIRECT. cbn. rewrite list_lookup_total_insert_ne; [done|lia]. Qed.

Lemma afile_direct v a c nb fb : afile v a c nb fb -> nb < 12 -> 59 <= fb -> v !! fb = Some zeroes ->
  afile v (<[Z.to_nat nb := fb]> a) c (nb + 1) (fb + 1) /\ fblock v (ino (<[Z.to_nat nb := fb]> a)) nb = fb /\
  forall n, n < fb -> owned v (ino (<[Z.to_nat nb := fb]> a)) n -> owned v (ino a) n.
Proof.
  intros F Hnb Hfb Hz. pose proof F as [H1 H2 H3 H4 H5 H6 H7 H8]. rewrite decide_False in H5 by lia.
  assert (Ei : iblk (ino (<[Z.to_nat nb := fb]> a)) = 0) by (by rewrite iblk_insert by lia).
  assert (Hf : forall bn, 0 <= bn < 140 -> fblock v (ino (<[Z.to_nat nb := fb]> a)) bn = if decide (bn = nb) then fb else fblock v (ino a) bn).
  { intros bn Hbn. unfold fblock. rewrite Ei, H5. cbn [i_addrs ino]. unfold NDIRECT. destruct (Z.ltb_spec bn 12).
    - destruct (decide (bn = nb)); subst; [apply list_lookup_total_insert_eq; lia|]. apply list_lookup_total_insert_ne. lia.
    - by rewrite decide_False by lia. }
  split; [|split; [rewrite Hf by lia; by rewrite decide_True|]].
  2: { intros n Hn. apply (grow_owned v a nb v _ fb fb); first [done | lia | left; by rewrite Ei]. }
  apply (afile_grow v a c nb fb _ _ fb); try done; try lia.
  - by rewrite length_insert.
  - rewrite decide_False by lia. done.
  - rewrite Ei. intros bn Hb. destruct (afile_block _ _ _ _ _ bn F Hb). lia.
Qed.

(** Entry [nb] of the indirect block, which is in place. *)
Lemma afile_entry v a c nb fb a' d x fb' : afile v a c nb fb -> 12 <= nb < 140 -> 59 <= fb -> fb' <= 1000 -> length a' = 13%nat ->
  (forall k, (k < 12)%nat -> a' !!! k = a !!! k) -> let ib := iblk (ino a') in
  59 <= ib < fb' -> (forall bn, 0 <= bn < nb -> fblock v (ino a) bn <> ib) -> length d = 512%nat ->
  (forall bn, 12 <= bn < 140 -> ld_addr d (Z.to_nat (bn - 12)) = fblock v (ino a) bn) ->
  fb <= x < fb' -> x <> ib -> v !! x = Some zeroes -> (ib = iblk (ino a) \/ fb <= ib) ->
  let v' := <[ib := st_addr d (Z.to_nat (nb - 12)) x]> v in
  afile v' a' c (nb + 1) fb' /\ fblock v' (ino a') nb = x /\ forall n, n < fb -> owned v' (ino a') n -> owned v (ino a) n.
Proof.
  intros F Hnb Hfb Hfb' Hl Ha ib Hib Hne Hd Hld Hx Hxi Hz Hib2 v'. pose proof F as [H1 H2 H3 H4 H5 H6 H7 H8].
  assert (Hf : forall bn, 0 <= bn < 140 -> fblock v' (ino a') bn = if decide (bn = nb) then x else fblock v (ino a) bn).
  { intros bn Hbn. unfold fblock at 1. fold ib. unfold NDIRECT. destruct (Z.ltb_spec bn 12).
    - rewrite decide_False by lia. unfold fblock, NDIRECT. rewrite (proj2 (Z.ltb_lt bn 12)) by lia. cbn. apply Ha. lia.
    - rewrite (proj2 (Z.eqb_neq ib 0)) by lia. unfold v'. rewrite lookup_total_insert_eq.
      rewrite ld_st_addr by (done || lia || unfold is_u32; lia). rewrite <- (Hld bn) by lia. repeat case_decide; done || lia. }
  split; [|split; [rewrite Hf by lia; by rewrite decide_True|]].
  2: { intros n Hn. apply (grow_owned v a nb v' a' x fb); first [done | lia]. }
  apply (afile_grow v a c nb fb _ _ x); try done; try lia.
  - rewrite decide_True by lia. done.
  - unfold v'. by rewrite lookup_insert_ne.
  - intros bn Hb. unfold v'. rewrite lookup_insert_ne; [done|]. intros E. by apply (Hne bn Hb).
Qed.

(** *** Appending *)

Record blocks_ok (s : mkfs) : Prop := {
  bk_all : forall n, 0 <= n < 1000 -> exists b, mk_img s !! n = Some b;
  bk_dom : forall n, n ∈ dom (mk_img s) -> 0 <= n < 1000;
  bk_len : map_Forall (fun _ b => length b = 512%nat) (mk_img s);
  bk_free : 59 <= mk_freeblock s <= 1000;
  bk_zero : forall n, mk_freeblock s <= n < 1000 -> mk_img s !! n = Some zeroes;
}.

Lemma blocks_ok_write s x d : blocks_ok s -> 0 <= x < mk_freeblock s -> length d = 512%nat ->
  blocks_ok (Mkfs (<[x := d]> (mk_img s)) (mk_freeinode s) (mk_freeblock s)).
Proof.
  intros [H1 H0 H2 H3 H4] Hx Hd. constructor; cbn; try done.
  - intros n Hn. destruct (decide (n = x)) as [->|]; [by exists d; rewrite lookup_insert_eq|]. rewrite lookup_insert_ne by done. by apply H1.
  - intros n. rewrite dom_insert, elem_of_union, elem_of_singleton. intros [->|Hn]; [lia|by apply H0].
  - by apply map_Forall_insert_2.
  - intros n Hn. rewrite lookup_insert_ne by lia. by apply H4.
Qed.
Lemma blocks_ok_next s : blocks_ok s -> mk_freeblock s < 1000 -> blocks_ok (Mkfs (mk_img s) (mk_freeinode s) (mk_freeblock s + 1)).
Proof. intros [H1 H0 H2 H3 H4] Hlt. constructor; cbn; try done; [lia|]. intros n Hn. apply H4. lia. Qed.

Lemma wp_next_block s (Q : Z -> mkfs -> Prop) : blocks_ok s -> Q (mk_freeblock s) (Mkfs (mk_img s) (mk_freeinode s) (mk_freeblock s + 1)) ->
  wp next_block Q s.
Proof.
  intros [_ _ _ H3 _] HQ. apply wp_bind, wp_gets, wp_bind, wp_modify, wp_ret. by rewrite u32_small by (unfold is_u32; lia).
Qed.
Lemma wp_rsect s x d (Q : list Z -> mkfs -> Prop) : mk_img s !! x = Some d -> Q d s -> wp (rsect x) Q s.
Proof. intros E HQ. apply wp_bind, wp_gets. rewrite E. by apply wp_ret. Qed.

(** Blocks a file of [nb] blocks takes, with the indirect block. *)
Definition nblk (nb : Z) : Z := nb + if decide (12 < nb) then 1 else 0.

Lemma iappend_block_old s a c nb fbn : blocks_ok s -> afile (mk_img s) a c nb (mk_freeblock s) -> 0 <= fbn < nb ->
  wp (iappend_block a fbn) (fun r s' => s' = s /\ r = (a, fblock (mk_img s) (ino a) fbn)) s.
Proof.
  intros B F Hfbn. destruct (afile_block _ _ _ _ _ fbn F Hfbn) as [Hr _]. pose proof (bk_free _ B) as Hfb. pose proof (af_ind _ _ _ _ _ F) as Hi.
  pose proof (af_nb _ _ _ _ _ F) as Hnb. unfold iappend_block, fblock, NDIRECT in *. destruct (Z.ltb_spec fbn 12).
  - cbn [ino i_addrs] in *. rewrite !xint_id by (unfold is_u32; lia). rewrite (proj2 (Z.eqb_neq _ 0)) by lia. apply wp_bind, wp_ret, wp_ret.
    by rewrite xint_id by (unfold is_u32; lia).
  - rewrite decide_True in Hi by lia. unfold iblk, NDIRECT in *. cbn [ino i_addrs] in *. change (Z.to_nat 12) with 12%nat in *.
    rewrite !xint_id by (unfold is_u32; lia). rewrite (proj2 (Z.eqb_neq _ 0)) in * by lia. apply wp_bind, wp_ret.
    destruct (bk_all _ B (a !!! 12%nat)) as [d Hd]; [lia|]. rewrite !xint_id by (unfold is_u32; lia). apply wp_bind, (wp_rsect _ _ d); [done|].
    rewrite (lookup_total_correct _ _ _ Hd) in *. rewrite (proj2 (Z.eqb_neq _ 0)) by lia. apply wp_bind, wp_ret, wp_ret.
    by rewrite xint_id by (unfold is_u32; lia).
Qed.

Lemma iappend_block_new s a c nb : blocks_ok s -> afile (mk_img s) a c nb (mk_freeblock s) -> nb < 140 ->
  mk_freeblock s + nblk (nb + 1) - nblk nb <= 1000 ->
  wp (iappend_block a nb) (fun r s' => blocks_ok s' /\ mk_freeinode s' = mk_freeinode s /\ mk_freeblock s' = mk_freeblock s + nblk (nb + 1) - nblk nb /\
    afile (mk_img s') r.1 c (nb + 1) (mk_freeblock s') /\ r.2 = fblock (mk_img s') (ino r.1) nb /\
    (forall n, n < mk_freeblock s -> ~ owned (mk_img s) (ino a) n -> mk_img s' !! n = mk_img s !! n) /\
    (forall n, n < mk_freeblock s -> owned (mk_img s') (ino r.1) n -> owned (mk_img s) (ino a) n)) s.
Proof.
  intros B F Hnb Hroom. pose proof (bk_free _ B) as Hfb. pose proof (af_nb _ _ _ _ _ F) as Hnb0. pose proof (af_len _ _ _ _ _ F) as Hla.
  pose proof (af_ind _ _ _ _ _ F) as Hi. pose proof (af_blocks _ _ _ _ _ F nb ltac:(lia)) as H0. rewrite decide_False in H0 by lia.
  unfold iappend_block, NDIRECT, nblk in *. destruct (Z.ltb_spec nb 12) as [Hlt|Hge].
  - rewrite !decide_False in * by lia. unfold fblock, NDIRECT in H0. rewrite (proj2 (Z.ltb_lt nb 12)) in H0 by lia. cbn [ino i_addrs] in H0.
    rewrite H0. change (xint 0 =? 0) with true. cbv iota. apply wp_bind, wp_bind, wp_next_block; [done|]. apply wp_ret, wp_ret.
    rewrite list_lookup_total_insert_eq, !xint_id by (lia || unfold is_u32; lia). cbn [fst snd].
    destruct (afile_direct _ _ _ _ _ F) as (F' & E & Ho); [lia|lia|apply (bk_zero _ B); lia|].
    cbn. split_and!; [by apply blocks_ok_next; [|lia]|done|lia| |done|done|done].
    eapply afile_frame; [exact F'|lia|done].
  - rewrite (decide_True (P := 12 < nb + 1)) in * by lia. change (Z.to_nat 12) with 12%nat. destruct (decide (12 < nb)) as [Hgt|Hle].
    + change (iblk (ino a)) with (a !!! 12%nat) in Hi. rewrite (xint_id (a !!! 12%nat)) by (unfold is_u32; lia).
      rewrite (proj2 (Z.eqb_neq _ 0)) by lia. apply wp_bind, wp_ret. rewrite (xint_id (a !!! 12%nat)) by (unfold is_u32; lia).
      destruct (bk_all _ B (a !!! 12%nat)) as [d Hd]; [lia|]. pose proof (bk_len _ B _ _ Hd) as Hdl. cbn in Hdl. apply wp_bind, (wp_rsect _ _ d); [done|].
      assert (Hld : forall bn, 12 <= bn < 140 -> ld_addr d (Z.to_nat (bn - 12)) = fblock (mk_img s) (ino a) bn).
      { intros bn Hbn. unfold fblock, NDIRECT. rewrite (proj2 (Z.ltb_ge bn 12)) by lia. change (iblk (ino a)) with (a !!! 12%nat).
        rewrite (proj2 (Z.eqb_neq _ 0)) by lia. by rewrite (lookup_total_correct _ _ _ Hd). }
      rewrite Hld, H0 by lia. cbn [Z.eqb]. apply wp_bind, wp_bind, wp_next_block; [done|]. rewrite (xint_id (mk_freeblock s)) by (unfold is_u32; lia).
      apply wp_bind, wp_modify, wp_ret, wp_ret. cbn [fst snd mk_img mk_freeinode mk_freeblock].
      destruct (afile_entry _ _ _ _ _ a d (mk_freeblock s) (mk_freeblock s + 1) F) as (F' & E & Ho);
        first [done | lia | change (iblk (ino a)) with (a !!! 12%nat); lia | by apply (af_indne _ _ _ _ _ F) | apply (bk_zero _ B); lia | by left | idtac].
      change (iblk (ino a)) with (a !!! 12%nat) in *.
      split_and!; [apply (blocks_ok_write (Mkfs (mk_img s) (mk_freeinode s) (mk_freeblock s + 1))); [by apply blocks_ok_next; [|lia]|cbn; lia|unfold st_addr; by rewrite length_stle]|done|lia|exact F'| | |exact Ho].
      * rewrite E. rewrite ld_st_addr, decide_True by (done || lia || unfold is_u32; lia). by rewrite xint_id by (unfold is_u32; lia).
      * intros n Hn Hno. rewrite lookup_insert_ne; [done|]. intros <-. apply Hno. split; [lia|by left].
    + assert (Enb : nb = 12) by lia. change (iblk (ino a)) with (a !!! 12%nat) in Hi. rewrite Hi. change (xint 0 =? 0) with true. cbv iota.
      apply wp_bind, wp_bind, wp_next_block; [done|]. apply wp_ret. rewrite (xint_id (mk_freeblock s)) by (unfold is_u32; lia).
      set (a1 := <[12%nat := mk_freeblock s]> a). assert (Ea1 : a1 !!! 12%nat = mk_freeblock s) by (apply list_lookup_total_insert_eq; lia).
      rewrite Ea1, xint_id by (unfold is_u32; lia). apply wp_bind, (wp_rsect _ _ zeroes); [apply (bk_zero _ B); lia|].
      assert (Hlz : forall k, (k < 128)%nat -> ld_addr zeroes k = 0) by apply ld_addr_zeros.
      rewrite Hlz by lia. cbn [Z.eqb]. apply wp_bind, wp_bind, wp_next_block; [by apply blocks_ok_next; [|lia]|].
      cbn [mk_img mk_freeinode mk_freeblock]. rewrite (xint_id (mk_freeblock s + 1)) by (unfold is_u32; lia).
      apply wp_bind, wp_modify, wp_ret, wp_ret. cbn [fst snd mk_img mk_freeinode mk_freeblock].
      destruct (afile_entry _ _ _ _ _ a1 zeroes (mk_freeblock s + 1) (mk_freeblock s + 2) F) as (F' & E & Ho);
        first [done | lia | change (iblk (ino a1)) with (a1 !!! 12%nat); lia | apply (bk_zero _ B); lia | right; change (iblk (ino a1)) with (a1 !!! 12%nat); lia | idtac].
      { unfold a1. by rewrite length_insert. }
      { intros k Hk. unfold a1. apply list_lookup_total_insert_ne. lia. }
      { change (iblk (ino a1)) with (a1 !!! 12%nat). intros bn Hbn. destruct (afile_block _ _ _ _ _ bn F Hbn). lia. }
      { intros bn Hbn. rewrite Hlz by lia. pose proof (af_blocks _ _ _ _ _ F bn ltac:(lia)) as H. by rewrite decide_False in H by lia. }
      change (iblk (ino a1)) with (a1 !!! 12%nat) in *. rewrite Ea1 in *.
      split_and!; [|done|lia| | | |exact Ho].
      * apply (blocks_ok_write (Mkfs (mk_img s) (mk_freeinode s) (mk_freeblock s + 1 + 1))); [|cbn; lia|unfold st_addr; by rewrite length_stle].
        apply (blocks_ok_next (Mkfs (mk_img s) (mk_freeinode s) (mk_freeblock s + 1))); [by apply blocks_ok_next; [|lia]|cbn; lia].
      * by replace (mk_freeblock s + 1 + 1) with (mk_freeblock s + 2) by lia.
      * rewrite E. rewrite ld_st_addr, decide_True by (done || lia || unfold is_u32; lia). by rewrite xint_id by (unfold is_u32; lia).
      * intros n Hn Hno. by rewrite lookup_insert_ne by lia.
Qed.

(** The blocks of contents [c]. *)
Definition nbs (c : list Z) : Z := (Z.of_nat (length c) + 511) / 512.

Lemma nblk_mono x y : x <= y -> nblk x <= nblk y.
Proof. intros H. unfold nblk. repeat case_decide; lia. Qed.
Lemma nbs_mono c p : nbs c <= nbs (c ++ p).
Proof. unfold nbs. rewrite length_app. dlia. Qed.

(** What an append may do: [s] to [s'], the addresses from [a] to [a']. *)
Record appended (s : mkfs) (a c : list Z) (s' : mkfs) (a' c' : list Z) (nb' : Z) : Prop := {
  ap_blocks : blocks_ok s';
  ap_inode : mk_freeinode s' = mk_freeinode s;
  ap_free : mk_freeblock s' = mk_freeblock s + nblk nb' - nblk (nbs c);
  ap_file : afile (mk_img s') a' c' nb' (mk_freeblock s');
  ap_frame : forall n, n < mk_freeblock s -> ~ owned (mk_img s) (ino a) n -> mk_img s' !! n = mk_img s !! n;
  ap_owned : forall n, n < mk_freeblock s -> owned (mk_img s') (ino a') n -> owned (mk_img s) (ino a) n;
}.

Lemma iappend_block_spec s a c : blocks_ok s -> afile (mk_img s) a c (nbs c) (mk_freeblock s) ->
  let fbn := Z.of_nat (length c) / 512 in fbn < 140 -> mk_freeblock s + nblk (fbn + 1) - nblk (nbs c) <= 1000 ->
  wp (iappend_block a fbn) (fun r s' => appended s a c s' r.1 c (fbn + 1) /\ r.2 = fblock (mk_img s') (ino r.1) fbn) s.
Proof.
  intros B F fbn Hfbn Hroom. destruct (decide (fbn < nbs c)) as [Hlt|Hge].
  - assert (E : nbs c = fbn + 1) by (unfold nbs, fbn in *; dlia). eapply wp_mono; [apply (iappend_block_old s a c (nbs c) fbn B F); unfold fbn in *; dlia|].
    intros r s' [-> ->]. cbn [fst snd]. split; [|done]. constructor; try done; [rewrite E; lia|by rewrite <- E].
  - assert (E : nbs c = fbn) by (unfold nbs, fbn in *; dlia). rewrite E in *. eapply wp_mono; [by apply (iappend_block_new s a c fbn)|].
    intros r s' (H1 & H2 & H3 & H4 & H5 & H6 & H7). split; [|done]. constructor; try done. by rewrite E.
Qed.

Lemma appended_write s a c s1 a1 fbn q d : appended s a c s1 a1 c (fbn + 1) -> fbn = Z.of_nat (length c) / 512 ->
  Z.of_nat (length c) + Z.of_nat (length q) <= (fbn + 1) * 512 -> q <> [] ->
  let x := fblock (mk_img s1) (ino a1) fbn in mk_img s1 !! x = Some d ->
  appended s a c (Mkfs (<[x := list_inserts (Z.to_nat (Z.of_nat (length c) mod 512)) q d]> (mk_img s1)) (mk_freeinode s1) (mk_freeblock s1)) a1 (c ++ q) (nbs (c ++ q)).
Proof.
  intros [H1 H2 H3 H4 H5 H6] Ef Hq Hne x Hd. pose proof (bk_len _ H1 _ _ Hd) as Hl. cbn in Hl.
  assert (En : nbs (c ++ q) = fbn + 1).
  { unfold nbs. rewrite length_app. destruct q; [done|]. cbn [length] in *. dlia. }
  rewrite En. assert (Hfbn : 0 <= fbn < fbn + 1) by dlia. destruct (afile_block _ _ _ _ _ fbn H4 Hfbn) as [Hx Hxo]. fold x in Hx, Hxo.
  assert (Eb : forall bn, fblock (<[x := list_inserts (Z.to_nat (Z.of_nat (length c) mod 512)) q d]> (mk_img s1)) (ino a1) bn = fblock (mk_img s1) (ino a1) bn).
  { intros bn. apply fblock_ext. intros _. apply lookup_insert_ne. by apply (af_indne _ _ _ _ _ H4). }
  constructor; cbn [mk_img mk_freeinode mk_freeblock]; try done.
  - apply blocks_ok_write; [done|lia|]. by rewrite length_inserts.
  - subst fbn. apply (afile_write (mk_img s1) a1 c _ _ q d H4); try done; lia.
  - intros n Hn Hno. rewrite lookup_insert_ne; [by apply H5|]. intros <-. apply Hno. by apply H6.
  - intros n Hn [H0 [->|(bn & Hbn & E)]]; apply H6; try done; (split; [done|]); [by left|]. right. exists bn. split; [done|]. by rewrite <- Eb.
Qed.

Lemma appended_trans s a c s1 a1 c1 s2 a2 c2 : appended s a c s1 a1 c1 (nbs c1) -> appended s1 a1 c1 s2 a2 c2 (nbs c2) ->
  nbs c <= nbs c1 -> appended s a c s2 a2 c2 (nbs c2).
Proof.
  intros [H1 H2 H3 H4 H5 H6] [K1 K2 K3 K4 K5 K6] Hm. pose proof (nblk_mono _ _ Hm). constructor; try done; [congruence|lia| |].
  - intros n Hn Hno. rewrite K5 by (lia || intros Ho; apply Hno, H6; done). by apply H5.
  - intros n Hn Ho. apply H6; [done|]. apply K6; [lia|done].
Qed.

Lemma iappend_loop_spec fuel : forall s a c p, blocks_ok s -> afile (mk_img s) a c (nbs c) (mk_freeblock s) ->
  Z.of_nat (length (c ++ p)) <= 71680 -> mk_freeblock s + nblk (nbs (c ++ p)) - nblk (nbs c) <= 1000 -> (length p <= fuel)%nat ->
  wp (iappend_loop fuel a (Z.of_nat (length c)) p) (fun r s' =>
    appended s a c s' r.1 (c ++ p) (nbs (c ++ p)) /\ r.2 = Z.of_nat (length (c ++ p))) s.
Proof.
  induction fuel as [|fuel IH]; intros s a c p B F Hsz Hroom Hf.
  { destruct p; [|simpl in Hf; lia]. cbn [iappend_loop]. apply wp_ret. rewrite app_nil_r in *. split; [|done]. constructor; try done. lia. }
  destruct p as [|b p]; [cbn [iappend_loop]; apply wp_ret; rewrite app_nil_r in *; split; [|done]; constructor; try done; lia|].
  cbn [iappend_loop]. set (p0 := b :: p) in *. set (off := Z.of_nat (length c)) in *. change BSIZE with 512. set (fbn := off / 512).
  assert (Hp0 : (0 < length p0)%nat) by (unfold p0; simpl; lia). rewrite length_app in Hsz. assert (Hfbn : 0 <= fbn < 140) by (unfold fbn, off in *; dlia).
  apply wp_bind, wp_panic_if; [change MAXFILE with 140; rewrite (proj2 (Z.ltb_lt _ _)) by lia; done|].
  set (n1 := Z.min (Z.of_nat (length p0)) ((fbn + 1) * 512 - off)). assert (Hn1 : 0 < n1 <= Z.of_nat (length p0) /\ off + n1 <= (fbn + 1) * 512) by (unfold n1, fbn in *; dlia).
  set (q := take (Z.to_nat n1) p0). assert (Hq : length q = Z.to_nat n1) by (unfold q; rewrite length_take; lia).
  assert (Eq : q ++ drop (Z.to_nat n1) p0 = p0) by apply take_drop.
  assert (Hq0 : q <> []) by (intros E; rewrite E in Hq; simpl in Hq; lia).
  assert (Hnb : nblk (fbn + 1) <= nblk (nbs (c ++ p0))).
  { apply nblk_mono. unfold nbs. rewrite length_app. fold off. unfold fbn. dlia. }
  apply wp_bind. eapply wp_mono; [apply (iappend_block_spec s a c); try done; fold off fbn; lia|]. fold off fbn.
  intros [a1 x] s1 [A1 Ex]. cbn [fst snd] in *. pose proof A1 as [B1 _ _ F1 _ _].
  destruct (afile_block _ _ _ _ _ fbn F1 ltac:(lia)) as [Hx _]. rewrite <- Ex in Hx. pose proof (bk_free _ B1).
  destruct (bk_all _ B1 x) as [d Hd]; [lia|]. apply wp_bind, (wp_rsect _ _ d); [done|]. apply wp_bind, wp_modify.
  replace (off - fbn * 512) with (off mod 512) by (unfold fbn; dlia). rewrite Ex in Hd |- *.
  pose proof (appended_write s a c s1 a1 fbn q d A1 eq_refl ltac:(fold off; lia) Hq0 Hd) as A2. fold off in A2.
  set (s2 := Mkfs _ _ _) in *. pose proof A2 as [B2 _ Ef2 F2 _ _].
  assert (Eoff : off + n1 = Z.of_nat (length (c ++ q))) by (rewrite length_app; fold off; lia). rewrite Eoff.
  eapply wp_mono; [apply (IH s2 a1 (c ++ q) (drop (Z.to_nat n1) p0)); try done|].
  - rewrite <- app_assoc, Eq, length_app. lia.
  - rewrite <- app_assoc, Eq. lia.
  - rewrite length_drop. lia.
  - rewrite <- app_assoc, Eq. intros r s3 [A3 Er]. split; [|done]. eapply appended_trans; [exact A2|exact A3|apply nbs_mono].
Qed.

(** *** Inodes *)

Lemma IBLOCK_mksb n : 0 <= n < 200 -> 32 <= IBLOCK n mksb < 57 /\ IBLOCK n mksb = n / 8 + 32.
Proof. intros Hn. unfold IBLOCK. change IPB with 8. change (sb_inodestart mksb) with 32. split; dlia. Qed.

Lemma rinode_spec s n : blocks_ok s -> 0 <= n < 200 -> wp (rinode n) (fun r s' => s' = s /\ r = disk_inode mksb (mk_img s) n) s.
Proof.
  intros B Hn. destruct (IBLOCK_mksb n Hn) as [H1 _]. destruct (bk_all _ B (IBLOCK n mksb)) as [d Hd]; [lia|].
  apply wp_bind, (wp_rsect _ _ d); [done|]. apply wp_ret. split; [done|]. unfold disk_inode. by rewrite (lookup_total_correct _ _ _ Hd).
Qed.

Record inode_written (s : mkfs) (n : Z) (din : dinode) (s' : mkfs) : Prop := {
  iw_blocks : blocks_ok s';
  iw_inode : mk_freeinode s' = mk_freeinode s;
  iw_free : mk_freeblock s' = mk_freeblock s;
  iw_new : disk_inode mksb (mk_img s') n = din;
  iw_old : forall m, 0 <= m < 200 -> m <> n -> disk_inode mksb (mk_img s') m = disk_inode mksb (mk_img s) m;
  iw_frame : forall b, ~ (32 <= b < 57) -> mk_img s' !! b = mk_img s !! b;
}.

Lemma winode_spec s n din : blocks_ok s -> 0 <= n < 200 -> dinode_ok din -> wp (winode n din) (fun _ s' => inode_written s n din s') s.
Proof.
  intros B Hn Hok. destruct (IBLOCK_mksb n Hn) as [H1 H2]. destruct (bk_all _ B (IBLOCK n mksb)) as [d Hd]; [lia|].
  pose proof (bk_len _ B _ _ Hd) as Hl. cbn in Hl. pose proof (bk_free _ B). pose proof (dinode_off_range n).
  apply wp_bind, (wp_rsect _ _ d); [done|]. apply wp_modify. constructor; cbn [mk_img mk_freeinode mk_freeblock]; try done.
  - apply blocks_ok_write; [done|lia|]. by rewrite length_st_dinode.
  - unfold disk_inode. rewrite lookup_total_insert_eq. by apply ld_st_dinode; [rewrite Hl|].
  - intros m Hm Hne. destruct (IBLOCK_mksb m Hm) as [M1 M2]. unfold disk_inode. destruct (decide (IBLOCK m mksb = IBLOCK n mksb)) as [E|E].
    + rewrite E, lookup_total_insert_eq, (lookup_total_correct _ _ _ Hd). apply st_dinode_ne; [by rewrite Hl|].
      unfold dinode_off. change IPB with 8. change sizeof_dinode with 64. dlia.
    + by rewrite lookup_total_insert_ne by congruence.
  - intros b Hb. rewrite lookup_insert_ne; [done|]. lia.
Qed.

(** *** The image between two calls *)

Definition addrs (v : bview) (k : nat) : list Z := di_addrs (disk_inode mksb v (Z.of_nat k + 1)).
Definition total (fs : list (Z * list Z)) : Z := foldr (fun f n => nblk (nbs f.2) + n) 0 fs.

(** The inodes 1, 2, ... have the types and contents [fs]; no block belongs to
    two of them; the other inodes are free. *)
Record good (s : mkfs) (fs : list (Z * list Z)) : Prop := {
  gd_blocks : blocks_ok s;
  gd_meta : forall n, 0 <= n < 58 -> ~ (32 <= n < 57) -> mk_img s !! n = Some (if decide (n = 1) then list_inserts 0 (sb_bytes mksb) zeroes else zeroes);
  gd_inode : mk_freeinode s = Z.of_nat (length fs) + 1 /\ mk_freeinode s <= 200;
  gd_free : mk_freeblock s = 59 + total fs;
  gd_files : forall k ty c, fs !! k = Some (ty, c) -> (ty = T_DIR \/ ty = T_FILE) /\ Z.of_nat (length c) <= 71680 /\
    disk_inode mksb (mk_img s) (Z.of_nat k + 1) = Dinode ty 0 0 1 (Z.of_nat (length c)) (addrs (mk_img s) k) /\
    afile (mk_img s) (addrs (mk_img s) k) c (nbs c) (mk_freeblock s);
  gd_other : forall n, 0 <= n < 200 -> n = 0 \/ Z.of_nat (length fs) < n -> disk_inode mksb (mk_img s) n = Dinode 0 0 0 0 0 (replicate 13 0);
  gd_disj : forall j k n, (j < length fs)%nat -> (k < length fs)%nat -> j <> k ->
    owned (mk_img s) (ino (addrs (mk_img s) j)) n -> ~ owned (mk_img s) (ino (addrs (mk_img s) k)) n;
}.

Lemma nbs_nonneg c : 0 <= nbs c.
Proof. unfold nbs. dlia. Qed.
Lemma nblk_nonneg c : 0 <= nblk (nbs c).
Proof. pose proof (nbs_nonneg c). unfold nblk. case_decide; lia. Qed.
Lemma total_app fs gs : total (fs ++ gs) = total fs + total gs.
Proof. induction fs as [|f fs IH]; [done|]. cbn. fold (total (fs ++ gs)) (total fs). rewrite IH. lia. Qed.
Lemma total_insert fs k ty c ty' c' : fs !! k = Some (ty, c) -> total (<[k := (ty', c')]> fs) = total fs - nblk (nbs c) + nblk (nbs c').
Proof.
  intros H. rewrite insert_take_drop by (by apply lookup_lt_Some in H).
  assert (E : total fs = total (take k fs) + total ((ty, c) :: drop (S k) fs)) by (by rewrite <- total_app, take_drop_middle).
  rewrite total_app, E. cbn. lia.
Qed.

Lemma afile_u32 v a c nb fb : afile v a c nb fb -> fb <= 1000 -> Forall is_u32 a.
Proof.
  intros F Hfb. apply Forall_lookup. intros k x Hk. pose proof (lookup_lt_Some _ _ _ Hk) as Hl. rewrite (af_len _ _ _ _ _ F) in Hl.
  apply list_lookup_total_correct in Hk. unfold is_u32. destruct (decide (k = 12%nat)) as [->|Hne].
  - pose proof (af_ind _ _ _ _ _ F) as Hi. change (iblk (ino a)) with (a !!! 12%nat) in Hi. case_decide; lia.
  - pose proof (af_blocks _ _ _ _ _ F (Z.of_nat k) ltac:(lia)) as Hb. unfold fblock, NDIRECT in Hb. rewrite (proj2 (Z.ltb_lt _ 12)) in Hb by lia.
    cbn [ino i_addrs] in Hb. rewrite Nat2Z.id in Hb. case_decide; lia.
Qed.
Lemma file_dinode_ok v a c nb fb ty : (ty = T_DIR \/ ty = T_FILE) -> Z.of_nat (length c) <= 71680 -> afile v a c nb fb -> fb <= 1000 ->
  dinode_ok (Dinode ty 0 0 1 (Z.of_nat (length c)) a).
Proof.
  intros Hty Hc F Hfb. constructor; cbn.
  - unfold T_DIR, T_FILE in Hty. repeat (apply Forall_cons; split; [lia|]). by apply Forall_nil_2.
  - unfold is_u32. lia.
  - apply (af_len _ _ _ _ _ F).
  - by eapply afile_u32.
Qed.
Lemma owned_ext v v' a n : (forall n, owned v (ino a) n -> v' !! n = v !! n) -> owned v' (ino a) n -> owned v (ino a) n.
Proof.
  intros Hv [H0 [->|(bn & Hbn & E)]]; (split; [done|]); [by left|]. right. exists bn. split; [done|]. rewrite <- E. symmetry.
  apply fblock_ext. intros Hi. apply Hv. split; [done|by left].
Qed.

(** A change of the inode blocks keeps the contents of a file. *)
Lemma afile_inode s n din s' a c nb : inode_written s n din s' -> afile (mk_img s) a c nb (mk_freeblock s) ->
  afile (mk_img s') a c nb (mk_freeblock s') /\ forall m, owned (mk_img s') (ino a) m -> owned (mk_img s) (ino a) m.
Proof.
  intros W F. assert (Hv : forall m, owned (mk_img s) (ino a) m -> mk_img s' !! m = mk_img s !! m).
  { intros m Hm. apply (iw_frame _ _ _ _ W). pose proof (afile_owned _ _ _ _ _ _ F Hm). lia. }
  split; [rewrite (iw_free _ _ _ _ W); by eapply afile_frame|]. intros m. by apply owned_ext.
Qed.

Lemma ialloc_spec s fs ty : good s fs -> (ty = T_DIR \/ ty = T_FILE) -> Z.of_nat (length fs) + 1 < 200 ->
  wp (ialloc ty) (fun r s' => r = Z.of_nat (length fs) + 1 /\ good s' (fs ++ [(ty, [])])) s.
Proof.
  intros [G1 G2 [G3 G3'] G4 G5 G6 G7] Hty Hlen. unfold ialloc. apply wp_bind, wp_gets, wp_bind, wp_modify. rewrite G3, u32_small by (unfold is_u32; lia).
  rewrite !xshort_id by (unfold is_u16, T_DIR, T_FILE in *; lia). rewrite xint_id by done. set (s1 := Mkfs _ _ _).
  assert (B1 : blocks_ok s1) by (destruct G1; by constructor). set (n := Z.of_nat (length fs) + 1) in *.
  assert (Hd : dinode_ok (Dinode ty 0 0 1 0 (replicate 13 0))).
  { apply (file_dinode_ok (mk_img s) _ [] 0 1000); [done|done|apply afile_empty|lia]. }
  apply wp_bind. eapply wp_mono; [apply (winode_spec s1 n _ B1); [lia|exact Hd]|]. intros [] s2 W. apply wp_ret. split; [done|].
  assert (Ha : forall k, (k < length fs)%nat -> addrs (mk_img s2) k = addrs (mk_img s) k).
  { intros k Hk. unfold addrs. rewrite (iw_old _ _ _ _ W) by lia. done. }
  assert (Hn : addrs (mk_img s2) (length fs) = replicate 13 0) by (unfold addrs; fold n; by rewrite (iw_new _ _ _ _ W)).
  assert (Hf2 : mk_freeblock s2 = mk_freeblock s) by (by rewrite (iw_free _ _ _ _ W)).
  assert (Hnone : forall m, ~ owned (mk_img s2) (ino (replicate 13 0)) m).
  { intros m Hm. pose proof (afile_owned _ _ _ _ _ _ (afile_empty (mk_img s2) 59) Hm). lia. }
  constructor.
  - apply (iw_blocks _ _ _ _ W).
  - intros m Hm Hm'. rewrite (iw_frame _ _ _ _ W) by lia. by apply G2.
  - rewrite (iw_inode _ _ _ _ W), length_app. cbn. lia.
  - rewrite Hf2, G4, total_app. change (total [(ty, [])]) with 0. lia.
  - intros k ty' c Hk. apply lookup_app_Some in Hk as [Hk|[Hk1 Hk2]].
    + pose proof (lookup_lt_Some _ _ _ Hk). destruct (G5 k ty' c Hk) as (K1 & K2 & K3 & K4). rewrite Ha by done. split_and!; [done|done| |].
      * by rewrite (iw_old _ _ _ _ W) by lia.
      * apply (afile_inode _ _ _ _ _ _ _ W K4).
    + assert (k = length fs) as -> by (apply lookup_lt_Some in Hk2; cbn in Hk2; lia). rewrite Nat.sub_diag in Hk2. injection Hk2 as <- <-.
      rewrite Hn. fold n. rewrite (iw_new _ _ _ _ W). split_and!; [done|done|done|apply afile_empty].
  - intros m Hm Ho. rewrite length_app in Ho. cbn in Ho. rewrite (iw_old _ _ _ _ W) by lia. apply G6; [done|lia].
  - rewrite length_app. cbn [length]. intros j k m Hj Hk Hne. destruct (decide (j = length fs)) as [->|]; [rewrite Hn; intros Hm; by apply Hnone in Hm|].
    destruct (decide (k = length fs)) as [->|]; [rewrite Hn; intros _; apply Hnone|]. rewrite !Ha by lia.
    destruct (lookup_lt_is_Some_2 fs j) as [[tj cj] Ej]; [lia|]. destruct (lookup_lt_is_Some_2 fs k) as [[tk ck] Ek]; [lia|].
    intros Oj Ok. apply (G7 j k m); try lia; [apply (proj2 (afile_inode _ _ _ _ _ _ _ W (proj2 (proj2 (proj2 (G5 j _ _ Ej)))))); done|].
    apply (proj2 (afile_inode _ _ _ _ _ _ _ W (proj2 (proj2 (proj2 (G5 k _ _ Ek)))))). done.
Qed.

(** The inode [k + 1] gets the contents [c'], which need no fewer blocks. *)
Lemma good_append s fs k ty c s1 a c' s2 : good s fs -> fs !! k = Some (ty, c) -> nbs c <= nbs c' -> Z.of_nat (length c') <= 71680 ->
  appended s (addrs (mk_img s) k) c s1 a c' (nbs c') -> inode_written s1 (Z.of_nat k + 1) (Dinode ty 0 0 1 (Z.of_nat (length c')) a) s2 ->
  good s2 (<[k := (ty, c')]> fs).
Proof.
  intros [G1 G2 [G3 G3'] G4 G5 G6 G7] Hk Hmono Hsz A W. pose proof (lookup_lt_Some _ _ _ Hk) as Hkl. destruct (G5 k ty c Hk) as (Hty & Hc & Hd & F).
  pose proof A as [B1 E1 Ef1 F1 Hfr1 Ho1]. pose proof (bk_free _ B1).
  pose proof (iw_free _ _ _ _ W) as Ef2. destruct (afile_inode _ _ _ _ _ _ _ W F1) as [F2 Ho2].
  assert (Hlow : forall n, n < 59 -> mk_img s1 !! n = mk_img s !! n).
  { intros n Hn. pose proof (bk_free _ G1). apply Hfr1; [lia|]. intros Ho. pose proof (afile_owned _ _ _ _ _ _ F Ho). lia. }
  assert (Hdi : forall m, 0 <= m < 200 -> disk_inode mksb (mk_img s1) m = disk_inode mksb (mk_img s) m).
  { intros m Hm. unfold disk_inode. f_equal. apply lookup_total_eq, Hlow. destruct (IBLOCK_mksb m Hm). lia. }
  assert (Hd2 : forall j, (j < length fs)%nat -> j <> k -> disk_inode mksb (mk_img s2) (Z.of_nat j + 1) = disk_inode mksb (mk_img s) (Z.of_nat j + 1)).
  { intros j Hj Hne. rewrite (iw_old _ _ _ _ W), Hdi by lia. done. }
  assert (Ha : forall j, (j < length fs)%nat -> j <> k -> addrs (mk_img s2) j = addrs (mk_img s) j) by (intros j Hj Hne; unfold addrs; by rewrite Hd2).
  assert (Hak : addrs (mk_img s2) k = a) by (unfold addrs; by rewrite (iw_new _ _ _ _ W)).
  assert (Hmono' : nblk (nbs c) <= nblk (nbs c')) by (by apply nblk_mono).
  (* the files that are not appended to *)
  assert (Hoth : forall j tj cj, fs !! j = Some (tj, cj) -> j <> k -> afile (mk_img s2) (addrs (mk_img s) j) cj (nbs cj) (mk_freeblock s2) /\
    forall n, owned (mk_img s2) (ino (addrs (mk_img s) j)) n -> owned (mk_img s) (ino (addrs (mk_img s) j)) n).
  { intros j tj cj Hj Hne. pose proof (lookup_lt_Some _ _ _ Hj). destruct (G5 j tj cj Hj) as (_ & _ & _ & Fj).
    assert (Hv : forall n, owned (mk_img s) (ino (addrs (mk_img s) j)) n -> mk_img s1 !! n = mk_img s !! n).
    { intros n Hn. apply Hfr1; [by apply (afile_owned _ _ _ _ _ _ Fj)|]. by apply (G7 j k). }
    destruct (afile_inode _ _ _ _ _ _ _ W (afile_frame _ _ _ _ _ _ (mk_freeblock s1) Fj ltac:(lia) Hv)) as [Fj2 Hj2].
    split; [done|]. intros n Hn. apply (owned_ext _ (mk_img s1)); [done|]. by apply Hj2. }
  constructor.
  - apply (iw_blocks _ _ _ _ W).
  - intros n Hn Hn'. rewrite (iw_frame _ _ _ _ W), Hlow by lia. by apply G2.
  - rewrite (iw_inode _ _ _ _ W), length_insert. lia.
  - rewrite Ef2, Ef1, (total_insert _ _ _ _ _ _ Hk). lia.
  - intros j tj cj Hj. destruct (decide (j = k)) as [->|Hne].
    + rewrite list_lookup_insert_eq in Hj by done. injection Hj as <- <-. rewrite Hak. split_and!; [done|done|by rewrite (iw_new _ _ _ _ W)|done].
    + rewrite list_lookup_insert_ne in Hj by done. pose proof (lookup_lt_Some _ _ _ Hj). destruct (G5 j tj cj Hj) as (K1 & K2 & K3 & K4).
      rewrite Ha, Hd2 by done. split_and!; [done|done|done|]. by apply (Hoth j tj cj).
  - intros m Hm Ho. rewrite length_insert in Ho. rewrite (iw_old _ _ _ _ W), Hdi by lia. by apply G6.
  - rewrite length_insert. intros j l n Hj Hl Hne.
    assert (Hsym : forall j, (j < length fs)%nat -> j <> k -> owned (mk_img s2) (ino (addrs (mk_img s2) j)) n -> ~ owned (mk_img s2) (ino a) n).
    { intros i Hi Hik. rewrite Ha by done. destruct (lookup_lt_is_Some_2 fs i) as [[ti ci] Ei]; [lia|]. intros Oi Ok.
      destruct (Hoth i ti ci Ei Hik) as [_ Hoi]. apply Hoi in Oi. destruct (G5 i ti ci Ei) as (_ & _ & _ & Fi).
      apply (G7 i k n); try done. apply Ho1; [by apply (afile_owned _ _ _ _ _ _ Fi)|]. by apply Ho2. }
    destruct (decide (j = k)) as [->|Hjk]; [rewrite Hak; intros Oj Ol; by apply (Hsym l) in Ol|].
    destruct (decide (l = k)) as [->|Hlk]; [rewrite Hak; by apply Hsym|]. rewrite !Ha by done.
    destruct (lookup_lt_is_Some_2 fs j) as [[tj cj] Ej]; [lia|]. destruct (lookup_lt_is_Some_2 fs l) as [[tl cl] El]; [lia|].
    intros Oj Ol. apply (Hoth j tj cj Ej Hjk) in Oj. apply (Hoth l tl cl El Hlk) in Ol. by apply (G7 j l n).
Qed.

Lemma iappend_spec s fs k ty c q : good s fs -> fs !! k = Some (ty, c) -> Z.of_nat (length (c ++ q)) <= 71680 ->
  59 + total (<[k := (ty, c ++ q)]> fs) <= 1000 ->
  wp (iappend (Z.of_nat k + 1) q) (fun _ s' => good s' (<[k := (ty, c ++ q)]> fs)) s.
Proof.
  intros G Hk Hsz Hroom. rewrite (total_insert _ _ _ _ _ _ Hk) in Hroom. pose proof (gd_blocks _ _ G) as G1. pose proof (gd_inode _ _ G).
  pose proof (gd_free _ _ G). pose proof (lookup_lt_Some _ _ _ Hk). destruct (gd_files _ _ G k ty c Hk) as (Hty & Hc & Hd & F).
  unfold iappend. apply wp_bind. eapply wp_mono; [apply (rinode_spec s (Z.of_nat k + 1) G1); lia|].
  intros din s0 [-> ->]. rewrite Hd. cbn [di_addrs di_size di_type di_major di_minor di_nlink]. rewrite xint_id by (unfold is_u32; lia).
  apply wp_bind. eapply wp_mono; [apply (iappend_loop_spec _ s _ c q G1 F Hsz); lia|]. intros [a off] s1 [A Eoff]. cbn [fst snd] in *. subst off.
  rewrite xint_id by (unfold is_u32; lia). pose proof (ap_blocks _ _ _ _ _ _ _ A) as B1. pose proof (bk_free _ B1).
  eapply wp_mono; [apply (winode_spec s1 (Z.of_nat k + 1)); [done|lia|eapply file_dinode_ok; [done|done|apply (ap_file _ _ _ _ _ _ _ A)|lia]]|].
  intros [] s2 W. eapply good_append; try done. apply nbs_mono.
Qed.

Lemma append_all_spec chunks : forall s fs k ty c, good s fs -> fs !! k = Some (ty, c) -> Z.of_nat (length (c ++ concat chunks)) <= 71680 ->
  59 + total (<[k := (ty, c ++ concat chunks)]> fs) <= 1000 ->
  wp (append_all (Z.of_nat k + 1) chunks) (fun _ s' => good s' (<[k := (ty, c ++ concat chunks)]> fs)) s.
Proof.
  induction chunks as [|q chunks IH]; intros s fs k ty c G Hk Hsz Hroom; cbn [append_all concat] in *.
  - apply wp_ret. rewrite app_nil_r. by rewrite list_insert_id.
  - rewrite app_assoc in *. pose proof (nbs_mono (c ++ q) (concat chunks)) as Hm. apply nblk_mono in Hm. rewrite (total_insert _ _ _ _ _ _ Hk) in Hroom.
    apply wp_bind. eapply wp_mono; [apply (iappend_spec s fs k ty c q G Hk); [rewrite length_app in Hsz; lia|rewrite (total_insert _ _ _ _ _ _ Hk); lia]|].
    intros [] s1 G1. pose proof (lookup_lt_Some _ _ _ Hk). eapply wp_mono; [apply (IH s1 _ k ty (c ++ q) G1)|].
    + by apply list_lookup_insert_eq.
    + done.
    + rewrite list_insert_insert_eq, (total_insert _ _ _ _ _ _ Hk). lia.
    + intros [] s2. by rewrite list_insert_insert_eq.
Qed.
