(* ===== verification/MkfsImage.v ===== *)
(** The image mkfs makes (Mkfs.v) as the kernel's file system sees it: the
    layout fs.h describes, an empty log, a root directory with an entry for
    every file of the command line, and the files with their contents. *)

From S2P Require Import Prelude Params KString Log Blocks Image LogCrash Fs FsAlloc FsFile FsWrite FsInode FsName FsDir FsPath Mkfs MkfsProofs.

(** *** What is put on the image *)

(** The name of a file, as a C string: without the leading underscore. *)
Definition fname (name : list Z) : list Z := match name with 95 :: name => name | _ => name end ++ [0].
Definition fentry (k : nat) (name : list Z) : list Z := dirent (Z.of_nat k + 2) (default [] (strncpy (fname name) DIRSIZ)).
Definition root_entries (files : list (list Z * list (list Z))) : list (list Z) :=
  dirent 1 (chars "." ++ replicate 13 0) :: dirent 1 (chars ".." ++ replicate 12 0) :: imap (fun k f => fentry k f.1) files.
(** The types and contents of the inodes 1, 2, ... *)
Definition fs_of (files : list (list Z * list (list Z))) : list (Z * list Z) :=
  (T_DIR, concat (root_entries files)) :: ((fun f => (T_FILE, concat f.2)) <$> files).

(** The names are C strings without slashes, and different in the bytes that
    count; the files fit on the disk; there is an inode for each. The entries
    do not fill the last block of the root directory: [main] rounds the size of
    the directory up, and would go one block too far. *)
Record files_ok (files : list (list Z * list (list Z))) : Prop := {
  fl_names : Forall (fun f => Forall is_u8 f.1 /\ (0 ∉ f.1) /\ (47 ∉ f.1)) files;
  fl_distinct : NoDup (cstrn DIRSIZ <$> (cstring "." :: cstring ".." :: ((fun f => fname f.1) <$> files)));
  fl_sizes : Forall (fun f => Z.of_nat (length (concat f.2)) <= MAXFILE * BSIZE) files;
  fl_inodes : Z.of_nat (length files) + 2 < NINODES;
  fl_root : (Z.of_nat (length files) + 2) mod 32 <> 0;
  fl_blocks : nmeta + total (fs_of files) <= FSSIZE;
}.

(** *** The empty image *)

Lemma zero_inode n : ld_dinode zeroes (dinode_off n) = Dinode 0 0 0 0 0 (replicate 13 0).
Proof.
  unfold dinode_off. change IPB with 8. change sizeof_dinode with 64. pose proof (Z.mod_pos_bound n 8 ltac:(lia)) as H.
  assert (Forall (fun r => ld_dinode zeroes (Z.to_nat (64 * r)) = Dinode 0 0 0 0 0 (replicate 13 0)) (seqZ 0 8)) as HF
    by (repeat constructor; vm_compute; reflexivity).
  rewrite Forall_forall in HF. apply HF, elem_of_seqZ. lia.
Qed.

Lemma main_zeroes s : mk_img s = ∅ -> wp (for_ (Z.to_nat FSSIZE) (fun i => wsect (Z.of_nat i) zeroes)) (fun _ s' =>
  (forall n, mk_img s' !! n = if decide (0 <= n < 1000) then Some zeroes else None) /\ mk_freeinode s' = mk_freeinode s /\ mk_freeblock s' = mk_freeblock s) s.
Proof.
  intros E. eapply wp_mono; [apply (wp_for (fun i s' => (forall n, mk_img s' !! n = if decide (0 <= n < Z.of_nat i) then Some zeroes else None) /\
    mk_freeinode s' = mk_freeinode s /\ mk_freeblock s' = mk_freeblock s))|].
  - split; [|done]. intros n. rewrite E, lookup_empty. by rewrite decide_False by lia.
  - intros i s' Hi (H1 & H2 & H3). apply wp_modify. split; [|done]. intros n. cbn [mk_img]. destruct (decide (n = Z.of_nat i)) as [->|Hne].
    + rewrite lookup_insert_eq. by rewrite decide_True by lia.
    + rewrite lookup_insert_ne, H1 by done. repeat case_decide; lia || done.
  - intros u s'. by change (Z.of_nat (Z.to_nat FSSIZE)) with 1000.
Qed.

Lemma good_empty s sbb : (forall n, mk_img s !! n = if decide (0 <= n < 1000) then Some zeroes else None) -> sbb = list_inserts 0 (sb_bytes mksb) zeroes ->
  mk_freeinode s = 1 -> mk_freeblock s = 59 -> good (Mkfs (<[1 := sbb]> (mk_img s)) (mk_freeinode s) (mk_freeblock s)) [].
Proof.
  intros H1 -> H2 H3. assert (B : blocks_ok s).
  { constructor.
    - intros n Hn. rewrite H1, decide_True by done. by eexists.
    - intros n Hn. apply elem_of_dom in Hn as [b Hb]. rewrite H1 in Hb. by case_decide.
    - intros n b Hb. rewrite H1 in Hb. case_decide; [by injection Hb as <-|done].
    - lia.
    - intros n Hn. rewrite H1, decide_True by lia. done. }
  constructor; cbn [mk_img mk_freeinode mk_freeblock length].
  - by apply blocks_ok_write; [|lia|].
  - intros n Hn Hn'. case_decide as E; [by rewrite E, lookup_insert_eq|]. rewrite lookup_insert_ne, H1 by done. by rewrite decide_True by lia.
  - lia.
  - done.
  - done.
  - intros n Hn _. destruct (IBLOCK_mksb n Hn). unfold disk_inode. rewrite lookup_total_insert_ne by lia. rewrite lookup_total_alt, H1, decide_True by lia.
    apply zero_inode.
  - lia.
Qed.

(** *** The files *)

Lemma root_entries_snoc files f : root_entries (files ++ [f]) = root_entries files ++ [fentry (length files) f.1].
Proof. unfold root_entries. rewrite imap_app. cbn. by rewrite Nat.add_0_r. Qed.
Lemma fs_of_snoc files f : fs_of (files ++ [f]) = <[0%nat := (T_DIR, concat (root_entries files) ++ fentry (length files) f.1)]> (fs_of files) ++ [(T_FILE, concat f.2)].
Proof. unfold fs_of. rewrite root_entries_snoc, concat_app, fmap_app. cbn. by rewrite app_nil_r. Qed.
Lemma length_fs_of files : length (fs_of files) = S (length files).
Proof. unfold fs_of. cbn. by rewrite length_fmap. Qed.

Lemma nblk_nbs_app c q : nblk (nbs c) <= nblk (nbs (c ++ q)).
Proof. apply nblk_mono, nbs_mono. Qed.
Lemma total_fs_of_app files rest : total (fs_of files) <= total (fs_of (files ++ rest)).
Proof.
  induction rest as [|f rest IH] using rev_ind; [by rewrite app_nil_r|]. rewrite app_assoc, fs_of_snoc, total_app.
  rewrite (total_insert _ 0%nat T_DIR (concat (root_entries (files ++ rest)))) by done.
  pose proof (nblk_nbs_app (concat (root_entries (files ++ rest))) (fentry (length (files ++ rest)) f.1)).
  change (total [(T_FILE, concat f.2)]) with (nblk (nbs (concat f.2)) + 0). pose proof (nblk_nonneg (concat f.2)). lia.
Qed.

Lemma fname_ok name : Forall is_u8 name -> name_ok (fname name).
Proof.
  intros H. split; [|right; apply in_or_app; right; by left]. apply Forall_app. split; [|by repeat constructor].
  destruct H as [|c name Hc H]; [done|]. destruct c as [|c|c]; try by constructor. repeat (destruct c as [c|c|]; try by constructor). done.
Qed.
Lemma length_fentry k name : Forall is_u8 name -> length (fentry k name) = 16%nat.
Proof.
  intros H. destruct (strncpy_spec DIRSIZ (fname name) (proj2 (fname_ok _ H))) as (nm & E & Hl & _).
  unfold fentry, dirent. rewrite E. change (default [] (Some nm)) with nm. by rewrite length_app, length_le_bytes, Hl.
Qed.

Lemma length_root_entries files : Forall (fun f => Forall is_u8 f.1) files ->
  Forall (fun e => length e = 16%nat) (root_entries files) /\ length (root_entries files) = (length files + 2)%nat.
Proof.
  intros H. split; [|unfold root_entries; cbn; rewrite length_imap; lia]. unfold root_entries. do 2 (constructor; [done|]).
  apply Forall_lookup. intros k e He. apply list_lookup_imap_Some in He as (f & Hf & ->). apply length_fentry. by apply (Forall_lookup_1 _ _ _ _ H Hf).
Qed.
Lemma length_concat_16 (l : list (list Z)) : Forall (fun e => length e = 16%nat) l -> length (concat l) = (16 * length l)%nat.
Proof. induction 1 as [|e l He Hl IH]; [done|]. cbn [concat]. rewrite length_app, He, IH. cbn. lia. Qed.

(** One file more. *)
Lemma add_file_spec s files name chunks : good s (fs_of files) -> Forall (fun f => Forall is_u8 f.1) (files ++ [(name, chunks)]) -> 47 ∉ name ->
  Z.of_nat (length (concat chunks)) <= 71680 -> Z.of_nat (length files) + 2 < 200 -> 59 + total (fs_of (files ++ [(name, chunks)])) <= 1000 ->
  wp (add_file 1 name chunks) (fun _ s' => good s' (fs_of (files ++ [(name, chunks)]))) s.
Proof.
  intros G Hu Hs Hsz Hn Hroom. destruct (length_root_entries _ Hu) as [L1 L2]. apply length_concat_16 in L1. rewrite L2, length_app in L1. cbn [length] in L1.
  apply Forall_app in Hu as [Hu1 Hu2]. rewrite Forall_singleton in Hu2. cbn [fst] in Hu2.
  destruct (strncpy_spec DIRSIZ (fname name) (proj2 (fname_ok _ Hu2))) as (nm & Enm & _ & _).
  rewrite fs_of_snoc, total_app, (total_insert _ 0%nat T_DIR (concat (root_entries files))) in Hroom by done.
  cbn [fst snd] in Hroom. change (total [(T_FILE, concat chunks)]) with (nblk (nbs (concat chunks)) + 0) in Hroom. pose proof (nblk_nonneg (concat chunks)).
  unfold add_file. apply wp_bind, wp_panic_if; [by apply bool_decide_eq_false_2|]. apply wp_bind.
  eapply wp_mono; [apply (ialloc_spec s _ T_FILE G); [by right|rewrite length_fs_of; lia]|]. intros inum s1 [-> G1]. rewrite length_fs_of in *.
  fold (fname name). apply wp_bind, (wp_of_option _ nm); [done|]. apply wp_bind. change (iappend 1) with (iappend (Z.of_nat 0 + 1)).
  replace (Z.of_nat (S (length files)) + 1) with (Z.of_nat (length files) + 2) by lia.
  replace (dirent (Z.of_nat (length files) + 2) nm) with (fentry (length files) name) by (unfold fentry; by rewrite Enm).
  assert (E1 : forall x, <[0%nat := x]> (fs_of files ++ [(T_FILE, [])]) = <[0%nat := x]> (fs_of files) ++ [(T_FILE, [])]) by done.
  eapply wp_mono; [eapply (iappend_spec s1 _ 0 T_DIR (concat (root_entries files)) _ G1); [done| |]|].
  - rewrite root_entries_snoc, concat_app in L1. cbn [concat fst] in L1. rewrite app_nil_r in L1. lia.
  - rewrite E1, total_app, (total_insert _ 0%nat T_DIR (concat (root_entries files))) by done. change (total [(T_FILE, [])]) with 0. lia.
  - intros [] s2 G2. rewrite E1 in G2. set (fs1 := <[0%nat := _]> (fs_of files)) in *.
    assert (Hl1 : length fs1 = S (length files)) by (unfold fs1; by rewrite length_insert, length_fs_of).
    assert (E2 : forall x, <[length fs1 := x]> (fs1 ++ [(T_FILE, [])]) = fs1 ++ [x]).
    { intros x. rewrite insert_app_r_alt by lia. by rewrite Nat.sub_diag. }
    replace (Z.of_nat (length files) + 2) with (Z.of_nat (length fs1) + 1) by lia.
    eapply wp_mono; [apply (append_all_spec chunks s2 _ (length fs1) T_FILE [] G2); [by rewrite list_lookup_middle|done|]|].
    + rewrite E2, total_app. unfold fs1. rewrite (total_insert _ 0%nat T_DIR (concat (root_entries files))) by done.
      change (total [(T_FILE, [] ++ concat chunks)]) with (nblk (nbs (concat chunks)) + 0). lia.
    + intros [] s3. rewrite E2, fs_of_snoc. done.
Qed.

Lemma add_files_spec rest : forall s files, good s (fs_of files) -> files_ok (files ++ rest) ->
  wp (add_files 1 rest) (fun _ s' => good s' (fs_of (files ++ rest))) s.
Proof.
  induction rest as [|[name chunks] rest IH]; intros s files G F; cbn [add_files]; [apply wp_ret; by rewrite app_nil_r|].
  rewrite (cons_middle (name, chunks)), app_assoc in F |- *. pose proof F as [F1 _ F3 F4 _ F6]. change (MAXFILE * BSIZE) with 71680 in F3.
  change NINODES with 200 in F4. change nmeta with 59 in F6. change FSSIZE with 1000 in F6. pose proof (total_fs_of_app (files ++ [(name, chunks)]) rest).
  apply Forall_app in F1 as [F1 _]. apply Forall_app in F3 as [F3 _]. rewrite !length_app in F4. cbn [length] in F4.
  apply wp_bind. eapply wp_mono; [apply (add_file_spec s files name chunks G)|].
  - eapply Forall_impl; [exact F1|]. by intros f (? & _).
  - apply Forall_app in F1 as [_ F1]. rewrite Forall_singleton in F1. apply F1.
  - apply Forall_app in F3 as [_ F3]. by rewrite Forall_singleton in F3.
  - lia.
  - lia.
  - intros [] s1 G1. by apply IH.
Qed.

(** *** The end of [main] *)

Lemma afile_pad v a c nb fb p : afile v a c nb fb -> Z.of_nat (length c + p) <= nb * 512 -> afile v a (c ++ replicate p 0) nb fb.
Proof.
  intros [H1 H2 H3 H4 H5 H6 H7 H8] Hp. constructor; try done; [rewrite length_app, length_replicate; lia|].
  intros o Ho. rewrite H8 by done. destruct (decide (Z.to_nat o < length c)%nat); [by rewrite lookup_app_l|].
  rewrite lookup_app_r, (lookup_ge_None_2 c) by lia. destruct (decide (Z.to_nat o - length c < p)%nat); [by rewrite lookup_replicate_2|].
  rewrite lookup_ge_None_2; [done|]. rewrite length_replicate. lia.
Qed.

Definition bitmap (used : Z) : list Z := foldl set_bit zeroes (seqZ 0 used).

Lemma bitmap_bits (m : nat) : (m <= 4096)%nat -> length (bitmap (Z.of_nat m)) = 512%nat /\
  forall k, 0 <= k < 4096 -> bit (bitmap (Z.of_nat m)) k = bool_decide (k < Z.of_nat m).
Proof.
  induction m as [|m IH]; intros Hm.
  - split; [done|]. intros k Hk. rewrite bool_decide_eq_false_2 by lia. unfold bit, bitmap. cbn [foldl seqZ]. change (seqZ 0 (Z.of_nat 0)) with ([] : list Z).
    cbn [foldl]. unfold zeroes. rewrite lookup_total_replicate_2 by (change (Z.to_nat BSIZE) with 512%nat; dlia). apply Z.bits_0.
  - destruct IH as [IH1 IH2]; [lia|]. assert (E : bitmap (Z.of_nat (S m)) = set_bit (bitmap (Z.of_nat m)) (Z.of_nat m)).
    { unfold bitmap. rewrite seqZ_S, foldl_app. done. }
    rewrite E. split; [unfold set_bit; by rewrite length_insert|]. intros k Hk.
    rewrite bit_set_bit by (change BPB with 4096; lia || done). rewrite IH2 by done. destruct (decide (k = Z.of_nat m)) as [->|].
    + symmetry. apply bool_decide_eq_true_2. lia.
    + apply bool_decide_ext. lia.
Qed.

Lemma balloc_good s fs : good s fs -> wp (balloc (mk_freeblock s)) (fun _ s' => good s' fs /\ mk_freeblock s' = mk_freeblock s /\
  mk_img s' !! 58 = Some (bitmap (mk_freeblock s))) s.
Proof.
  intros [G1 G2 G3 G4 G5 G6 G7]. pose proof (bk_free _ G1). apply wp_bind, wp_panic_if.
  { rewrite (proj2 (Z.ltb_lt _ _)); [done|]. change (BSIZE * 8) with 4096. lia. }
  apply wp_modify. change (sb_bmapstart mksb) with 58. fold (bitmap (mk_freeblock s)). cbn [mk_img mk_freeblock].
  split_and!; [|done|by rewrite lookup_insert_eq]. set (v := <[58 := _]> (mk_img s)).
  assert (Hd : forall n, 0 <= n < 200 -> disk_inode mksb v n = disk_inode mksb (mk_img s) n).
  { intros n Hn. destruct (IBLOCK_mksb n Hn). unfold disk_inode, v. by rewrite lookup_total_insert_ne by lia. }
  assert (Ha : forall k, (k < length fs)%nat -> addrs v k = addrs (mk_img s) k) by (intros k Hk; unfold addrs; rewrite Hd; [done|lia]).
  assert (Hv : forall k n, (k < length fs)%nat -> owned (mk_img s) (ino (addrs (mk_img s) k)) n -> v !! n = mk_img s !! n).
  { intros k n Hk Ho. destruct (lookup_lt_is_Some_2 fs k Hk) as [[ty c] Ek]. destruct (G5 k ty c Ek) as (_ & _ & _ & F).
    pose proof (afile_owned _ _ _ _ _ _ F Ho). unfold v. by rewrite lookup_insert_ne by lia. }
  constructor; cbn [mk_img mk_freeinode mk_freeblock]; try done.
  - apply blocks_ok_write; [done|lia|]. rewrite <- (Z2Nat.id (mk_freeblock s)) by lia. apply bitmap_bits. lia.
  - intros n Hn Hn'. unfold v. rewrite lookup_insert_ne by lia. by apply G2.
  - intros k ty c Hk. pose proof (lookup_lt_Some _ _ _ Hk). destruct (G5 k ty c Hk) as (K1 & K2 & K3 & K4). rewrite Ha, Hd by lia.
    split_and!; [done|done|done|]. eapply afile_frame; [exact K4|lia|]. intros n. by apply Hv.
  - intros n Hn Ho. rewrite Hd by done. by apply G6.
  - intros j k n Hj Hk Hne. rewrite !Ha by done. intros Oj Ok. apply (G7 j k n); try done; (eapply owned_ext; [|done]); intros m; by apply Hv.
Qed.

(** The root directory is as long as its blocks. *)
Definition root_contents (files : list (list Z * list (list Z))) : list Z :=
  let c := concat (root_entries files) in c ++ replicate (Z.to_nat (nbs c * 512 - Z.of_nat (length c))) 0.
Definition final_fs (files : list (list Z * list (list Z))) : list (Z * list Z) := <[0%nat := (T_DIR, root_contents files)]> (fs_of files).

Lemma root_contents_length files : Z.of_nat (length (root_contents files)) = nbs (concat (root_entries files)) * 512.
Proof. unfold root_contents. rewrite length_app, length_replicate. unfold nbs. dlia. Qed.

(** The size of the root directory is rounded up. *)
Lemma root_size_spec s files (k : M mkfs unit) Q : good s (fs_of files) -> files_ok files -> (forall s', good s' (final_fs files) -> wp k Q s') ->
  wp (let! din := rinode 1 in
      let off := (xint (di_size din) / BSIZE + 1) * BSIZE in
      winode 1 (Dinode (di_type din) (di_major din) (di_minor din) (di_nlink din) (xint off) (di_addrs din));;; k) Q s.
Proof.
  intros G F0 HQ. destruct F0 as [F1 _ _ F4 F5 _]. change NINODES with 200 in F4. pose proof (gd_blocks _ _ G) as G1. pose proof (gd_free _ _ G). pose proof (bk_free _ G1).
  assert (Hu : Forall (fun f => Forall is_u8 f.1) files) by (eapply Forall_impl; [exact F1|]; by intros f (? & _)).
  destruct (length_root_entries _ Hu) as [L1 L2]. apply length_concat_16 in L1. rewrite L2 in L1. clear L2.
  destruct (gd_files _ _ G 0 T_DIR (concat (root_entries files)) eq_refl) as (Hty & Hc & Hd & F). pose proof (root_contents_length files) as Hlen.
  set (c := concat (root_entries files)) in *. assert (Hnb : nbs (root_contents files) = nbs c) by (unfold nbs in *; rewrite Hlen; dlia).
  assert (Hrsz : Z.of_nat (length (root_contents files)) <= 71680) by (rewrite Hlen; unfold nbs; dlia).
  assert (F' : afile (mk_img s) (addrs (mk_img s) 0) (root_contents files) (nbs (root_contents files)) (mk_freeblock s)).
  { rewrite Hnb. apply afile_pad; [done|]. fold c. pose proof (af_size _ _ _ _ _ F). lia. }
  apply wp_bind. eapply wp_mono; [apply (rinode_spec s 1 G1); lia|]. intros din s0 [-> ->].
  change (disk_inode mksb (mk_img s) 1) with (disk_inode mksb (mk_img s) (Z.of_nat 0 + 1)). rewrite Hd. cbv zeta.
  cbn [di_addrs di_size di_type di_major di_minor di_nlink]. rewrite (xint_id (Z.of_nat (length c))) by (unfold is_u32; lia). change BSIZE with 512.
  replace ((Z.of_nat (length c) / 512 + 1) * 512) with (Z.of_nat (length (root_contents files)))
    by (rewrite Hlen; unfold nbs; rewrite L1 in *; dlia).
  rewrite xint_id by (unfold is_u32; lia). apply wp_bind. eapply wp_mono; [apply (winode_spec s (Z.of_nat 0 + 1)); [done|lia|eapply file_dinode_ok; [done|done|exact F'|lia]]|].
  intros [] s2 W. apply HQ. eapply (good_append s _ 0 T_DIR c s); [done|done|lia|done| |exact W]. constructor; try done. rewrite Hnb. lia.
Qed.

Lemma main_good files : files_ok files ->
  wp (main files) (fun _ s => good s (final_fs files) /\ mk_img s !! 58 = Some (bitmap (mk_freeblock s))) mkfs0.
Proof.
  intros F. apply wp_bind, wp_modify, wp_bind. eapply wp_mono; [by apply main_zeroes|]. intros [] s1 (H1 & H2 & H3).
  apply wp_bind, wp_modify. pose proof (good_empty s1 _ H1 eq_refl H2 H3) as G.
  apply wp_bind. eapply wp_mono; [apply (ialloc_spec _ [] T_DIR G); [by left|done]|]. intros r s3 [-> G3].
  apply wp_bind, wp_panic_if; [done|]. change (Z.of_nat (length (@nil (Z * list Z))) + 1) with (Z.of_nat 0 + 1).
  apply wp_bind. eapply wp_mono; [by apply (iappend_spec s3 _ 0 T_DIR [] _ G3)|]. intros [] s4 G4.
  apply wp_bind. eapply wp_mono; [by eapply (iappend_spec s4 _ 0 T_DIR _ _ G4)|]. intros [] s5 G5.
  apply wp_bind. eapply wp_mono; [by apply (add_files_spec files s5 [] G5)|]. intros [] s6 G6.
  apply (root_size_spec s6 files); [done|done|]. intros s7 G7. apply wp_bind, wp_gets. eapply wp_mono; [by apply balloc_good|].
  intros [] s8 (G8 & E & Hb). split; [done|]. by rewrite E.
Qed.

(** *** What the kernel finds *)

Section image.
Context (s : mkfs) (fs : list (Z * list Z)) (G : good s fs) (Hbm : mk_img s !! 58 = Some (bitmap (mk_freeblock s))).

Lemma img_used n : 0 <= n < 1000 -> used mksb (mk_img s) n = bool_decide (n < mk_freeblock s).
Proof.
  intros Hn. pose proof (bk_free _ (gd_blocks _ _ G)). unfold used. assert (BBLOCK n mksb = 58) as ->.
  { unfold BBLOCK. change BPB with 4096. change (sb_bmapstart mksb) with 58. dlia. }
  rewrite Hbm. change BPB with 4096. rewrite Z.mod_small by lia. rewrite <- (Z2Nat.id (mk_freeblock s)) by lia. apply bitmap_bits; lia.
Qed.

Lemma img_layout : layout mksb (tx0 (mk_img s)).
Proof.
  pose proof (gd_blocks _ _ G) as B. pose proof (bk_free _ B). constructor; try done.
  - eexists. split; [apply (gd_meta _ _ G); lia|]. by vm_compute.
  - intros n Hn. apply elem_of_dom, (bk_all _ B), Hn.
  - apply (bk_len _ B).
  - intros n Hn. change (dstart mksb) with 59 in Hn. cbn [tx_view tx0]. rewrite img_used by lia. apply bool_decide_eq_true_2. lia.
Qed.

Lemma img_log : recovers_to 2 30 (mk_img s) (mk_img s).
Proof.
  pose proof (gd_blocks _ _ G) as B. exists [], []. split; [|done]. constructor; try done.
  - apply (bk_len _ B).
  - eexists. split; [apply (gd_meta _ _ G); lia|]. by vm_compute.
  - intros n Hn. apply elem_of_dom, (bk_all _ B). lia.
  - intros n Hn. pose proof (bk_dom _ B n Hn). lia.
  - exists zeroes. split; [by rewrite (gd_meta _ _ G) by lia|]. apply empty_header.
  - constructor.
Qed.

Lemma img_file k ty c : fs !! k = Some (ty, c) ->
  let i := inode_of mksb (mk_img s) (Z.of_nat k + 1) in
  file_ok mksb (tx0 (mk_img s)) i /\ i_type i = ty /\ contents (mk_img s) i = c.
Proof.
  intros Hk. destruct (gd_files _ _ G k ty c Hk) as (Hty & Hc & Hd & F). pose proof (lookup_lt_Some _ _ _ Hk). pose proof (gd_inode _ _ G).
  pose proof (bk_free _ (gd_blocks _ _ G)) as Hfb. intros i. assert (Ei : i = Inode 1 (Z.of_nat k + 1) 1 true true ty 0 0 1 (Z.of_nat (length c)) (addrs (mk_img s) k)).
  { unfold i, inode_of. by rewrite Hd. }
  assert (Hf : forall bn, fblock (mk_img s) i bn = fblock (mk_img s) (ino (addrs (mk_img s) k)) bn) by (rewrite Ei; done).
  assert (Hi : iblk i = iblk (ino (addrs (mk_img s) k))) by (rewrite Ei; done).
  assert (Ho : forall n, owned (mk_img s) i n -> 59 <= n < mk_freeblock s).
  { intros n Hn. apply (afile_owned _ _ _ _ _ _ F). rewrite Ei in Hn. exact Hn. }
  assert (Hnb : forall bn, in_file bn -> fblock (mk_img s) i bn <> 0 -> 0 <= bn < nbs c).
  { intros bn Hbn Hne. unfold in_file in Hbn. change MAXFILE with 140 in Hbn. pose proof (af_blocks _ _ _ _ _ F bn Hbn) as Hb. rewrite Hf in Hne.
    destruct (decide (bn < nbs c)); [lia|done]. }
  split_and!; [|by rewrite Ei|].
  - assert (dinode_ok (to_dinode i)) by (rewrite Ei; eapply file_dinode_ok; [done|done|exact F|lia]).
    assert (i_dev i = 1 /\ i_inum i = Z.of_nat k + 1 /\ i_size i = Z.of_nat (length c) /\ i_type i = ty) as (E1 & E2 & E3 & E4) by (by rewrite Ei).
    constructor; cbn [tx_view tx0].
    + constructor; [done|by rewrite Ei; apply (af_len _ _ _ _ _ F)| | |].
      * intros n Hn%Ho. change (dstart mksb) with 59. change (sb_size mksb) with 1000. rewrite img_used by lia. rewrite bool_decide_eq_true_2 by lia. lia.
      * intros bn bn' K1 K2 Hne E. pose proof (Hnb bn K1 Hne). rewrite E in Hne. pose proof (Hnb bn' K2 Hne). rewrite !Hf in E. by apply (af_inj _ _ _ _ _ F).
      * intros bn K1 Hne. rewrite Hf, Hi. by apply (af_indne _ _ _ _ _ F), Hnb.
    + constructor; [done|rewrite E2; change (sb_ninodes mksb) with 200; lia|done].
    + rewrite E4. by destruct Hty as [->| ->].
    + rewrite E3. change (MAXFILE * BSIZE) with 71680. lia.
    + intros bn Hbn Hlt. rewrite E3 in Hlt. unfold BSIZE in Hlt. assert (bn < nbs c) by (unfold nbs; dlia). rewrite Hf.
      destruct (afile_block _ _ _ _ _ bn F ltac:(lia)). lia.
    + rewrite E2, Hd. by rewrite Ei.
    + intros n Hn j. cbn [tx_held tx0]. by rewrite lookup_empty.
  - unfold contents. rewrite Ei. cbn [i_size]. rewrite <- Ei. apply list_eq. intros o. destruct (decide (o < length c)%nat) as [Hlt|Hge].
    + rewrite fbytes_lookup by lia. change (fbyte (mk_img s) i (0 + Z.of_nat o)) with (fbyte (mk_img s) i (Z.of_nat o)). rewrite Ei.
      pose proof (af_data _ _ _ _ _ F (Z.of_nat o)) as Hb. rewrite Nat2Z.id in Hb. destruct (lookup_lt_is_Some_2 c o Hlt) as [b Eb]. rewrite Eb in Hb |- *.
      f_equal. apply Hb. unfold nbs. dlia.
    + rewrite !lookup_ge_None_2; [done|lia|rewrite length_fbytes; lia].
Qed.
End image.

(** *** The root directory *)

Lemma entries_cons e c : length e = 16%nat -> entries (e ++ c) = e :: entries c.
Proof.
  intros He. unfold entries. rewrite length_app, He. replace ((16 + length c) / 16)%nat with (S (length c / 16))
    by (rewrite <- (Nat.div_add_l 1) by lia; f_equal; lia).
  cbn [seq fmap list_fmap]. f_equal.
  - unfold slice. rewrite drop_0. by rewrite take_app_length'.
  - rewrite <- fmap_S_seq, <- list_fmap_compose. apply list_fmap_ext. intros k x Hx. unfold slice, compose.
    rewrite drop_app_ge by lia. do 2 f_equal. lia.
Qed.
Lemma entries_concat l : Forall (fun e => length e = 16%nat) l -> entries (concat l) = l.
Proof. induction 1 as [|e l He Hl IH]; [done|]. cbn [concat]. by rewrite entries_cons, IH. Qed.
Lemma replicate_entries m : replicate (16 * m) 0 = concat (replicate m (replicate 16 0)).
Proof.
  induction m as [|m IH]; [done|]. replace (16 * S m)%nat with (16 + 16 * m)%nat by lia. rewrite replicate_add, IH. done.
Qed.

Lemma fentry_spec k name : Forall is_u8 name -> (k < 200)%nat ->
  Forall is_u8 (fentry k name) /\ de_inum (fentry k name) = Z.of_nat k + 2 /\
  forall n, matches n (fentry k name) <-> cstrn DIRSIZ n = cstrn DIRSIZ (fname name).
Proof.
  intros Hu Hk. pose proof (fname_ok _ Hu) as Hok. destruct (strncpy_spec DIRSIZ (fname name) (proj2 Hok)) as (nm & E & _).
  destruct (new_entry (fname name) (Z.of_nat k + 2) nm Hok ltac:(lia) E) as (_ & H2 & H3 & H4 & H5).
  assert (fentry k name = le_bytes 2 (u16 (Z.of_nat k + 2)) ++ nm) as ->.
  { unfold fentry, dirent. rewrite E. rewrite xshort_id, u16_small by (unfold is_u16; lia). done. }
  split_and!; [done|done|]. intros n. unfold matches. rewrite H5. split; [by intros [_ ?]|done].
Qed.

(** The names of the entries of the root directory, and their inodes. *)
Definition root_names (files : list (list Z * list (list Z))) : list (list Z) := cstring "." :: cstring ".." :: ((fun f => fname f.1) <$> files).
Definition root_inum (k : nat) : Z := if decide (k < 2)%nat then 1 else Z.of_nat k.

Lemma root_entry files k e : files_ok files -> root_entries files !! k = Some e -> exists n, root_names files !! k = Some n /\
  Forall is_u8 e /\ de_inum e = root_inum k /\ forall m, matches m e <-> cstrn DIRSIZ m = cstrn DIRSIZ n.
Proof.
  intros [F1 _ _ F4 _ _] He. change NINODES with 200 in F4. destruct k as [|[|k]]; cbn in He.
  - injection He as <-. exists (cstring "."). split_and!; [done|by apply (bool_decide_unpack _); vm_compute|done|]. intros m. unfold matches.
    split; [by intros [_ ->]|]. by intros ->.
  - injection He as <-. exists (cstring ".."). split_and!; [done|by apply (bool_decide_unpack _); vm_compute|done|]. intros m. unfold matches.
    split; [by intros [_ ->]|]. by intros ->.
  - apply list_lookup_imap_Some in He as (f & Hf & ->). pose proof (lookup_lt_Some _ _ _ Hf).
    destruct (fentry_spec k f.1) as (K1 & K2 & K3); [apply (Forall_lookup_1 _ _ _ _ F1 Hf)|lia|].
    exists (fname f.1). split_and!; [change (((fun f => fname f.1) <$> files) !! k = Some (fname f.1)); rewrite list_lookup_fmap, Hf; done|done|etrans; [exact K2|]; unfold root_inum; rewrite decide_False by lia; lia|done].
Qed.

Lemma root_contents_entries files : files_ok files -> exists m,
  root_contents files = concat (root_entries files ++ replicate m (replicate 16 0)) /\
  entries (root_contents files) = root_entries files ++ replicate m (replicate 16 0).
Proof.
  intros [F1 _ _ _ _ _]. assert (Hu : Forall (fun f => Forall is_u8 f.1) files) by (eapply Forall_impl; [exact F1|]; by intros f (? & _)).
  destruct (length_root_entries _ Hu) as [L1 L2]. pose proof (length_concat_16 _ L1) as L3. unfold root_contents. set (c := concat (root_entries files)) in *.
  set (p := nbs c * 512 - Z.of_nat (length c)). exists (Z.to_nat (p / 16)).
  assert (replicate (Z.to_nat p) 0 = concat (replicate (Z.to_nat (p / 16)) (replicate 16 0))) as ->.
  { rewrite <- replicate_entries. f_equal. unfold p, nbs. rewrite L3. dlia. }
  unfold c. rewrite <- concat_app. split; [done|]. apply entries_concat. apply Forall_app. split; [done|]. by apply Forall_replicate.
Qed.

Lemma find_entry_unique n l k e : l !! k = Some e -> matches n e -> (forall j e', l !! j = Some e' -> matches n e' -> j = k) -> find_entry n l = Some e.
Proof.
  intros Hk Hm Hu. unfold find_entry. assert (list_find (matches n) l = Some (k, e)) as ->; [|done].
  apply list_find_Some. split_and!; [done|done|]. intros j y Hy Hj Hmy. pose proof (Hu j y Hy Hmy). lia.
Qed.
Lemma pad_no_match n m j e : replicate m (replicate 16 0) !! j = Some e -> ~ matches n e.
Proof. intros [-> _]%lookup_replicate [H _]. by apply H. Qed.

Lemma root_get files k n : files_ok files -> root_names files !! k = Some n -> dir_get n (root_contents files) = Some (root_inum k).
Proof.
  intros F Hk. destruct (root_contents_entries files F) as (m & _ & E). rewrite dir_get_find, E.
  assert (Hl : length (root_names files) = length (root_entries files)) by (unfold root_names, root_entries; cbn; by rewrite length_fmap, length_imap).
  destruct (lookup_lt_is_Some_2 (root_entries files) k) as [e He]; [rewrite <- Hl; by eapply lookup_lt_Some|].
  destruct (root_entry files k e F He) as (n' & Hn' & _ & Hi & Hm). rewrite Hk in Hn'. injection Hn' as <-.
  rewrite (find_entry_unique n _ k e); [by cbn; rewrite Hi|by apply lookup_app_l_Some|by apply Hm|].
  intros j e' Hj Hm'. apply lookup_app_Some in Hj as [Hj|[_ Hj]]; [|by apply pad_no_match with (n := n) in Hj].
  destruct (root_entry files j e' F Hj) as (n' & Hn' & _ & _ & Hmj). apply Hmj in Hm'. apply (NoDup_lookup _ _ _ (cstrn DIRSIZ n) (fl_distinct _ F)).
  - fold (root_names files). rewrite list_lookup_fmap, Hn'. change (Some (cstrn DIRSIZ n') = Some (cstrn DIRSIZ n)). by rewrite Hm'.
  - fold (root_names files). rewrite list_lookup_fmap, Hk. done.
Qed.

Lemma root_get_inv files n m : files_ok files -> dir_get n (root_contents files) = Some m -> 1 <= m <= Z.of_nat (length files) + 1.
Proof.
  intros F. destruct (root_contents_entries files F) as (p & _ & E). rewrite dir_get_find, E. unfold find_entry.
  destruct (list_find _ _) as [[k e]|] eqn:Hf; [|done]. change (Some (de_inum e) = Some m -> 1 <= m <= Z.of_nat (length files) + 1). intros [= <-]. apply list_find_Some in Hf as (Hk & Hm & _).
  apply lookup_app_Some in Hk as [Hk|[_ Hk]]; [|by apply pad_no_match with (n := n) in Hk].
  destruct (root_entry files k e F Hk) as (n' & _ & _ & -> & _). apply lookup_lt_Some in Hk. unfold root_entries in Hk. cbn in Hk. rewrite length_imap in Hk.
  unfold root_inum. case_decide; lia.
Qed.

(** *** The image *)

Section main_image.
Context (files : list (list Z * list (list Z))) (F : files_ok files) (s : mkfs) (G : good s (final_fs files)).
Context (Hbm : mk_img s !! 58 = Some (bitmap (mk_freeblock s))).

Lemma final_root : final_fs files !! 0%nat = Some (T_DIR, root_contents files).
Proof. done. Qed.
Lemma final_file k : final_fs files !! S k = (fun f => (T_FILE, concat f.2)) <$> files !! k.
Proof. change (((fun f => (T_FILE, concat f.2)) <$> files) !! k = (fun f => (T_FILE, concat f.2)) <$> files !! k). apply list_lookup_fmap. Qed.
Lemma length_final : length (final_fs files) = S (length files).
Proof. unfold final_fs. by rewrite length_insert, length_fs_of. Qed.

(** The inodes in use. *)
Lemma final_inode n : 0 <= n < 200 -> (exists k ty c, n = Z.of_nat k + 1 /\ final_fs files !! k = Some (ty, c) /\ di_type (disk_inode mksb (mk_img s) n) = ty /\
  di_nlink (disk_inode mksb (mk_img s) n) = 1) \/ di_type (disk_inode mksb (mk_img s) n) = 0.
Proof.
  intros Hn. destruct (decide (n = 0 \/ Z.of_nat (length (final_fs files)) < n)) as [Ho|Ho]; [right; by rewrite (gd_other _ _ G n Hn Ho)|].
  destruct (lookup_lt_is_Some_2 (final_fs files) (Z.to_nat (n - 1))) as [[ty c] Ek]; [lia|]. left. exists (Z.to_nat (n - 1)), ty, c.
  destruct (gd_files _ _ G _ _ _ Ek) as (_ & _ & Hd & _). replace (Z.of_nat (Z.to_nat (n - 1)) + 1) with n in * by lia. rewrite Hd. done.
Qed.

Lemma final_is_dir n : 0 <= n < 200 -> is_dir mksb (mk_img s) n = true -> n = 1.
Proof.
  intros Hn. unfold is_dir. destruct (final_inode n Hn) as [(k & ty & c & -> & Hk & -> & _)| ->]; [|done]. destruct k as [|k]; [done|].
  rewrite final_file in Hk. destruct (files !! k); [|done]. by injection Hk as <- _.
Qed.
Lemma final_root_dir : is_dir mksb (mk_img s) 1 = true.
Proof.
  unfold is_dir. destruct (gd_files _ _ G 0 _ _ final_root) as (_ & _ & Hd & _). change (Z.of_nat 0 + 1) with 1 in Hd. by rewrite Hd.
Qed.
Lemma final_child name : child mksb (mk_img s) 1 name = dir_get name (root_contents files).
Proof. unfold child. rewrite final_root_dir. destruct (img_file s _ G Hbm 0 _ _ final_root) as (_ & _ & E). change (Z.of_nat 0 + 1) with 1 in E. by rewrite E. Qed.

Lemma final_tree : tree_ok mksb (tx0 (mk_img s)).
Proof.
  constructor; change (sb_ninodes mksb) with 200; cbn [tx_view tx0].
  - intros n Hn ->%final_is_dir; [|done]. destruct (img_file s _ G Hbm 0 _ _ final_root) as (F1 & F2 & F3). change (Z.of_nat 0 + 1) with 1 in *.
    constructor; cbn [tx_view tx0]; [done|done| |].
    + pose proof (f_equal length F3) as Hl. rewrite length_contents in Hl. pose proof (root_contents_length files). pose proof (fk_size _ _ _ F1). dlia.
    + rewrite F3. destruct (root_contents_entries files F) as (m & -> & _). apply Forall_concat, Forall_app. split.
      * apply Forall_lookup. intros k e He. by destruct (root_entry files k e F He) as (_ & _ & ? & _).
      * apply Forall_replicate, Forall_replicate. unfold is_u8. lia.
  - intros n name m Hn. destruct (decide (is_dir mksb (mk_img s) n = true)) as [E|E]; [|unfold child; by destruct (is_dir _ _ _)].
    apply final_is_dir in E as ->; [|done]. rewrite final_child. intros Hm%root_get_inv; [|done]. pose proof (fl_inodes _ F) as Hi. change NINODES with 200 in Hi.
    split; [lia|]. destruct (lookup_lt_is_Some_2 (final_fs files) (Z.to_nat (m - 1))) as [[ty c] Ek]; [rewrite length_final; lia|].
    destruct (gd_files _ _ G _ _ _ Ek) as (Hty & _ & Hd & _). replace (Z.of_nat (Z.to_nat (m - 1)) + 1) with m in Hd by lia. rewrite Hd. by destruct Hty as [->| ->].
  - intros n Hn Hne. destruct (final_inode n Hn) as [(k & ty & c & _ & _ & _ & ->)|?]; done.
Qed.
End main_image.


Definition two_files : list (list Z * list (list Z)) := [(chars "_cat", [chars "meow"; chars "!"]); (chars "README", [chars "xv6"])].

