(* ===== verification/SpinLock.v ===== *)
(** Spin locks and sleep locks: spinlock.c and sleeplock.c.

    [pushcli]/[popcli] act on one processor; [acquire] and [release] are given
    both as sequential functions and, for several processors, as the sequence
    of their memory accesses ([lstep]).  [holding] reads [lk->locked] and then
    [lk->cpu], without a lock; the two reads are two steps.  The theorems are
    mutual exclusion, that the sanity checks of [acquire] and [release] never
    fire on a processor that uses the lock as intended, and that interrupts
    are off on a processor from [acquire] to [release].

    The rest of the development reads a critical section as one atomic step;
    [spinlock_mutex] is what licenses that reading. *)

From S2P Require Import Prelude Params.

(** The part of [struct cpu] the locks use, and the interrupt flag. *)
Record cpu := Cpu {
  c_ncli : Z;
  c_intena : bool;
  c_if : bool          (* FL_IF of eflags *)
}.

Definition pushcli : M cpu unit :=
  let! eflags := gets c_if in
  modify (fun c => Cpu (c_ncli c) (c_intena c) false);;;      (* cli() *)
  modify (fun c => if c_ncli c =? 0 then Cpu (c_ncli c) eflags (c_if c) else c);;;
  modify (fun c => Cpu (c_ncli c + 1) (c_intena c) (c_if c)).

Definition popcli : M cpu unit :=
  let! eflags := gets c_if in
  panic_if eflags "popcli - interruptible";;;
  modify (fun c => Cpu (c_ncli c - 1) (c_intena c) (c_if c));;;
  let! n := gets c_ncli in
  panic_if (n <? 0) "popcli";;;
  let! intena := gets c_intena in
  if (n =? 0) && intena
  then modify (fun c => Cpu (c_ncli c) (c_intena c) true)      (* sti() *)
  else ret tt.

(** [struct spinlock]: [lk->cpu] is the processor's index, [None] for 0. *)
Record spinlock := Spin { locked : Z; lk_cpu : option nat }.

Definition initlock : spinlock := Spin 0 None.

Definition holding (lk : spinlock) (me : nat) : bool :=
  negb (locked lk =? 0) && bool_decide (lk_cpu lk = Some me).

(** [xchg(&lk->locked, 1)]. *)
Definition xchg_locked (lk : spinlock) : Z * spinlock := (locked lk, Spin 1 (lk_cpu lk)).

Definition cpu_lift {A} (m : M cpu A) : M (cpu * spinlock) A :=
  fun s => match m s.1 with Ret a c => Ret a (c, s.2) | Fail e => Fail e end.

(** On one processor a lock that is taken stays taken: the spin loop of
    [acquire] is then [Block]. *)
Definition acquire (me : nat) : M (cpu * spinlock) unit :=
  cpu_lift pushcli;;;
  let! h := gets (fun s => holding s.2 me) in
  panic_if h "acquire";;;
  let! old := (fun s => let (v, lk) := xchg_locked s.2 in Ret v (s.1, lk)) in
  if negb (old =? 0) then fail Block
  else modify (fun s => (s.1, Spin (locked s.2) (Some me))).

Definition release (me : nat) : M (cpu * spinlock) unit :=
  let! h := gets (fun s => holding s.2 me) in
  panic_if (negb h) "release";;;
  modify (fun s => (s.1, Spin (locked s.2) None));;;
  modify (fun s => (s.1, Spin 0 (lk_cpu s.2)));;;
  cpu_lift popcli.

(** ** Nesting of pushcli and popcli *)

Definition cpu_ok (c : cpu) : Prop :=
  0 <= c_ncli c /\ (0 < c_ncli c -> c_if c = false).

Fixpoint times {S} (n : nat) (m : M S unit) : M S unit :=
  match n with O => ret tt | S n => m;;; times n m end.

Lemma pushcli_run c :
  pushcli c = Ret tt (Cpu (c_ncli c + 1)
                          (if c_ncli c =? 0 then c_if c else c_intena c) false).
Proof. unfold pushcli. krun. cbn. by destruct (c_ncli c =? 0). Qed.

Lemma popcli_run c :
  c_if c = false -> 0 < c_ncli c ->
  popcli c = Ret tt (Cpu (c_ncli c - 1) (c_intena c) ((c_ncli c =? 1) && c_intena c)).
Proof.
  intros Hif Hn. unfold popcli. krun. cbn. rewrite Hif. cbn.
  replace (c_ncli c - 1 <? 0) with false by lia.
  replace (c_ncli c - 1 =? 0) with (c_ncli c =? 1) by lia.
  destruct (c_ncli c =? 1), (c_intena c); cbn; by rewrite ?Hif.
Qed.

Lemma times_pushcli n c :
  cpu_ok c -> (0 < n)%nat ->
  times n pushcli c =
    Ret tt (Cpu (c_ncli c + Z.of_nat n)
                (if c_ncli c =? 0 then c_if c else c_intena c) false).
Proof.
  revert c. induction n as [|n IH]; intros c [H0 Hif] Hn; [lia|].
  simpl times. rewrite (bind_Ret _ _ _ _ _ (pushcli_run c)).
  destruct n as [|n]; [simpl; f_equal; f_equal; lia|].
  rewrite IH; [|split; simpl; [lia|done]|lia]. simpl c_ncli. simpl c_intena.
  replace (c_ncli c + 1 =? 0) with false by lia. f_equal. f_equal. lia.
Qed.

Lemma times_popcli n c :
  c_if c = false -> 0 < Z.of_nat n <= c_ncli c ->
  times n popcli c =
    Ret tt (Cpu (c_ncli c - Z.of_nat n) (c_intena c)
                ((c_ncli c =? Z.of_nat n) && c_intena c)).
Proof.
  revert c. induction n as [|n IH]; intros c Hif Hn; [lia|].
  simpl times. rewrite (bind_Ret _ _ _ _ _ (popcli_run c Hif ltac:(lia))).
  destruct n as [|n]; [simpl; f_equal|].
  replace (c_ncli c =? 1) with false by lia.
  rewrite IH; simpl c_ncli; simpl c_intena; [|done|lia].
  replace (c_ncli c - 1 =? Z.of_nat (S n)) with (c_ncli c =? Z.of_nat (S (S n)))
    by (apply eq_true_iff_eq; rewrite !Z.eqb_eq; lia).
  f_equal. f_equal. lia.
Qed.

Lemma pushcli_popcli_back c :
  cpu_ok c ->
  exists c2, popcli (Cpu (c_ncli c + 1) (if c_ncli c =? 0 then c_if c else c_intena c) false)
             = Ret tt c2 /\ c_if c2 = c_if c.
Proof.
  intros [H0 Hif]. rewrite popcli_run by (simpl; done || lia). eexists. split; [done|].
  simpl. destruct (Z.eqb_spec (c_ncli c) 0) as [->|]; [done|].
  replace (_ =? _) with false by lia. symmetry. apply Hif. lia.
Qed.

(** matched [pushcli]/[popcli] nest: after any depth of [pushcli] and the
    same depth of [popcli] the interrupt flag and the nesting count are what
    they were before, and in between interrupts are off. *)
Theorem pushcli_popcli_nest n c :
  cpu_ok c -> (0 < n)%nat ->
  exists c1 c2, times n pushcli c = Ret tt c1 /\ c_if c1 = false /\
    times n popcli c1 = Ret tt c2 /\ c_ncli c2 = c_ncli c /\ c_if c2 = c_if c.
Proof.
  intros Hc Hn. destruct (Hc) as [H0 Hif].
  eexists _, _. split; [by apply times_pushcli|]. split; [done|].
  split; [apply times_popcli; [done|]; simpl; lia|]. simpl. split; [lia|].
  destruct (Z.eqb_spec (c_ncli c) 0) as [E|].
  - rewrite E. simpl. by rewrite Z.eqb_refl.
  - rewrite Hif by lia. replace (_ =? _) with false by lia. done.
Qed.

(** ** Several processors *)

(** Where a processor is in [acquire] or [release] of the lock. *)
Inductive lpc :=
  | LIdle       (* does not hold the lock *)
  | AHold1      (* in acquire: interrupts off, [holding] reads locked *)
  | AHold2      (* [holding] has read locked <> 0, reads cpu *)
  | ASpin       (* about to xchg *)
  | AGot        (* the xchg returned 0, cpu not written yet *)
  | Crit        (* between acquire and release *)
  | RHold2      (* in release: [holding] has read locked <> 0, reads cpu *)
  | RClear      (* about to clear cpu *)
  | RUnlock     (* about to clear locked *)
  | RPop        (* about to popcli *)
  | LPanic.     (* a panic *)

Definition lnext (me : nat) (lk : spinlock) (pc : lpc) (c : cpu) : spinlock * lpc * cpu :=
  match pc with
  | LIdle => match pushcli c with Ret _ c' => (lk, AHold1, c') | Fail _ => (lk, LPanic, c) end
  | AHold1 => (lk, (if locked lk =? 0 then ASpin else AHold2), c)
  | AHold2 => (lk, (if bool_decide (lk_cpu lk = Some me) then LPanic else ASpin), c)
  | ASpin => let (old, lk') := xchg_locked lk in (lk', (if old =? 0 then AGot else ASpin), c)
  | AGot => (Spin (locked lk) (Some me), Crit, c)
  | Crit => (lk, (if locked lk =? 0 then LPanic else RHold2), c)
  | RHold2 => (lk, (if bool_decide (lk_cpu lk = Some me) then RClear else LPanic), c)
  | RClear => (Spin (locked lk) None, RUnlock, c)
  | RUnlock => (Spin 0 (lk_cpu lk), RPop, c)
  | RPop => match popcli c with Ret _ c' => (lk, LIdle, c') | Fail _ => (lk, LPanic, c) end
  | LPanic => (lk, LPanic, c)
  end.

Record lsys := LSys { ls_lock : spinlock; ls_cpus : list (lpc * cpu) }.

(** One step of one processor: the next access of [acquire] or [release];
    a [pushcli] or [popcli] of another lock, nested properly; an instruction
    that sets or clears the interrupt flag outside any [pushcli]. *)
Inductive lstep : lsys -> lsys -> Prop :=
  | lstep_own i pc c lk cs :
      cs !! i = Some (pc, c) ->
      lstep (LSys lk cs)
            (LSys (lnext i lk pc c).1.1
                  (<[i := ((lnext i lk pc c).1.2, (lnext i lk pc c).2)]> cs))
  | lstep_push i pc c c' lk cs :
      cs !! i = Some (pc, c) -> pc = LIdle \/ pc = Crit ->
      pushcli c = Ret tt c' ->
      lstep (LSys lk cs) (LSys lk (<[i := (pc, c')]> cs))
  | lstep_pop i pc c c' lk cs :
      cs !! i = Some (pc, c) -> pc = LIdle \/ pc = Crit /\ 1 < c_ncli c ->
      0 < c_ncli c -> popcli c = Ret tt c' ->
      lstep (LSys lk cs) (LSys lk (<[i := (pc, c')]> cs))
  | lstep_if i c b lk cs :
      cs !! i = Some (LIdle, c) -> c_ncli c = 0 ->
      lstep (LSys lk cs) (LSys lk (<[i := (LIdle, Cpu 0 (c_intena c) b)]> cs)).

(** The processor has won the [xchg] and not yet cleared [locked]. *)
Definition in_lock (pc : lpc) : bool :=
  match pc with AGot | Crit | RHold2 | RClear | RUnlock => true | _ => false end.
(** [lk->cpu] names the processor. *)
Definition is_owner (pc : lpc) : bool :=
  match pc with Crit | RHold2 | RClear => true | _ => false end.

Definition pc_ok (pc : lpc) (c : cpu) : Prop :=
  cpu_ok c /\ pc <> LPanic /\ (pc <> LIdle -> 0 < c_ncli c).

Record linv (s : lsys) (h : option nat) : Prop := {
  li_locked : locked (ls_lock s) = match h with Some _ => 1 | None => 0 end;
  li_holder : forall i, option_map (fun x => in_lock x.1) (ls_cpus s !! i) = Some true <-> h = Some i;
  li_owner : forall i, option_map (fun x => is_owner x.1) (ls_cpus s !! i) = Some true
                       <-> lk_cpu (ls_lock s) = Some i;
  li_pcs : forall i pc c, ls_cpus s !! i = Some (pc, c) -> pc_ok pc c
}.

(** The start: nobody holds the lock. *)
Definition lstart (s : lsys) : Prop :=
  ls_lock s = initlock /\ Forall (fun x => x.1 = LIdle /\ cpu_ok x.2) (ls_cpus s).

Lemma linv_start s : lstart s -> linv s None.
Proof.
  intros [Hl Hc]. destruct s as [lk cs]. simpl in *. subst lk.
  assert (forall f : lpc -> bool, f LIdle = false -> forall i, 
    option_map (fun x : lpc * cpu => f x.1) (cs !! i) = Some true <-> None = Some i) as A.
  { intros f Hf i. split; [|done]. destruct (cs !! i) as [[pc c]|] eqn:E; [|done].
    destruct (Forall_lookup_1 _ _ _ _ Hc E) as [E' _]. simpl in *. subst. by rewrite Hf. }
  constructor; [done|by apply (A in_lock)|by apply (A is_owner)|].
  intros i pc c E. destruct (Forall_lookup_1 _ _ _ _ Hc E) as [E' ?]. simpl in *. by subst.
Qed.

Lemma linv_set i pc c pc' c' lk lk' cs h h' :
  linv (LSys lk cs) h -> cs !! i = Some (pc, c) -> pc_ok pc' c' ->
  locked lk' = match h' with Some _ => 1 | None => 0 end ->
  (in_lock pc' = true <-> h' = Some i) ->
  (forall j, j <> i -> h = Some j <-> h' = Some j) ->
  (is_owner pc' = true <-> lk_cpu lk' = Some i) ->
  (forall j, j <> i -> lk_cpu lk = Some j <-> lk_cpu lk' = Some j) ->
  linv (LSys lk' (<[i := (pc', c')]> cs)) h'.
Proof.
  intros [Hl Hh Ho Hp] E Hpc Hl' Hi Hne Hio Hne'. simpl in *.
  pose proof (lookup_lt_Some _ _ _ E).
  constructor; simpl; [done| | |].
  - intros j. destruct (decide (j = i)) as [->|].
    + rewrite list_lookup_insert_eq by done. simpl. rewrite <- Hi. split; congruence.
    + rewrite list_lookup_insert_ne by done. rewrite Hh. by apply Hne.
  - intros j. destruct (decide (j = i)) as [->|].
    + rewrite list_lookup_insert_eq by done. simpl. rewrite <- Hio. split; congruence.
    + rewrite list_lookup_insert_ne by done. rewrite Ho. by apply Hne'.
  - intros j q d. destruct (decide (j = i)) as [->|].
    + rewrite list_lookup_insert_eq by done. intros Eq. by simplify_eq.
    + rewrite list_lookup_insert_ne by done. apply Hp.
Qed.

Lemma pushcli_ok c c' : cpu_ok c -> pushcli c = Ret tt c' -> cpu_ok c' /\ 0 < c_ncli c' /\ c_if c' = false.
Proof.
  intros [H0 Hif] E. rewrite pushcli_run in E. injection E as <-.
  split; [split|split]; simpl; try done; lia.
Qed.

Lemma popcli_ok c :
  cpu_ok c -> 0 < c_ncli c ->
  exists c', popcli c = Ret tt c' /\ cpu_ok c' /\ c_ncli c' = c_ncli c - 1.
Proof.
  intros [H0 Hif] Hn. rewrite popcli_run by auto. eexists. split; [done|].
  split; [|done]. split; simpl; [lia|]. intros. by replace (c_ncli c =? 1) with false by lia.
Qed.

(** What the invariant says of one processor. *)
Lemma linv_cpu s h i pc c :
  linv s h -> ls_cpus s !! i = Some (pc, c) ->
  pc_ok pc c /\ (in_lock pc = true <-> h = Some i) /\
  (is_owner pc = true <-> lk_cpu (ls_lock s) = Some i).
Proof.
  intros [Hl Hh Ho Hp] E. split; [by eapply Hp|].
  specialize (Hh i). specialize (Ho i). rewrite E in Hh, Ho. simpl in *. rewrite <- Hh, <- Ho. split; split; congruence.
Qed.

Lemma iff_true_if (b : bool) (P : Prop) : (b = true <-> P) <-> (if b then P else ~ P).
Proof. destruct b; intuition congruence. Qed.

(** Two processors are not both past the [xchg]. *)
Lemma linv_unique s h i j pc pc' c c' :
  linv s h -> ls_cpus s !! i = Some (pc, c) -> ls_cpus s !! j = Some (pc', c') ->
  in_lock pc = true -> in_lock pc' = true -> i = j.
Proof.
  intros H Ei Ej Hi Hj. destruct (linv_cpu _ _ _ _ _ H Ei) as (_ & Hi' & _).
  destruct (linv_cpu _ _ _ _ _ H Ej) as (_ & Hj' & _).
  apply Hi' in Hi. apply Hj' in Hj. congruence.
Qed.

(** [lk->cpu] names at most the processor that won the [xchg]. *)
Lemma linv_owner s h j : linv s h -> lk_cpu (ls_lock s) = Some j -> h = Some j.
Proof.
  intros H E. apply (li_owner _ _ H) in E. apply (li_holder _ _ H).
  destruct (ls_cpus s !! j) as [[[] ?]|]; simpl in *; congruence.
Qed.

Ltac lk_set :=
  eapply linv_set; try done; rewrite ?iff_true_if; simpl; try done;
  try match goal with H : _ -> forall q, _ -> pc_ok q _ |- _ => by apply H end.

Lemma linv_own s h i pc c :
  linv s h -> ls_cpus s !! i = Some (pc, c) ->
  exists h', linv (LSys (lnext i (ls_lock s) pc c).1.1
    (<[i := ((lnext i (ls_lock s) pc c).1.2, (lnext i (ls_lock s) pc c).2)]> (ls_cpus s))) h'.
Proof.
  intros Hinv E. destruct s as [lk cs]. cbn [ls_lock ls_cpus] in *.
  destruct (linv_cpu _ _ _ _ _ Hinv E) as ((Hc & Hnp & Hn) & Hi & Ho).
  rewrite iff_true_if in Hi, Ho.
  pose proof (li_locked _ _ Hinv) as Hl. pose proof (linv_owner _ _ i Hinv) as Hoi.
  assert (pc <> LIdle -> forall q, q <> LPanic -> pc_ok q c) as Hpk by (intros; split; auto).
  cbn [ls_lock ls_cpus] in *.
  destruct pc; cbn [lnext in_lock is_owner] in *.
  - rewrite pushcli_run. destruct (pushcli_ok c _ Hc (pushcli_run c)) as (? & ? & _).
    exists h. lk_set.
  - exists h. destruct (locked lk =? 0); lk_set.
  - exists h. rewrite bool_decide_false by done. lk_set.
  - cbn. destruct h as [j|]; rewrite Hl; cbn; [exists (Some j)|exists (Some i)]; lk_set.
    intros; split; congruence.
  - exists h. lk_set. intros j Hj. split; [|congruence]. intros Hj'.
    apply (linv_owner _ _ _ Hinv) in Hj'. congruence.
  - exists h. subst h. rewrite Hl. lk_set.
  - exists h. rewrite bool_decide_true by done. lk_set.
  - exists h. lk_set. intros j Hj. split; congruence.
  - exists None. lk_set; intros; split; congruence.
  - destruct (popcli_ok c Hc (Hn ltac:(done))) as (c' & -> & ? & ?). exists h. lk_set.
  - done.
Qed.

Lemma linv_step s s' h : linv s h -> lstep s s' -> exists h', linv s' h'.
Proof.
  intros Hinv Hst. destruct Hst as [i pc c lk cs E|i pc c c' lk cs E Hpc Hrun
    |i pc c c' lk cs E Hpc Hn Hrun|i c b lk cs E Hn].
  - by apply (linv_own (LSys lk cs) h).
  - exists h. destruct (linv_cpu _ _ _ _ _ Hinv E) as ((Hc & Hnp & _) & Hi & Ho).
    destruct (pushcli_ok _ _ Hc Hrun) as (? & ? & _).
    pose proof (li_locked _ _ Hinv). eapply linv_set; try done.
  - exists h. destruct (linv_cpu _ _ _ _ _ Hinv E) as ((Hc & Hnp & _) & Hi & Ho).
    destruct (popcli_ok _ Hc Hn) as (c2 & Hrun' & ? & Hn').
    rewrite Hrun in Hrun'. injection Hrun' as <-.
    pose proof (li_locked _ _ Hinv). eapply linv_set; try done.
    split; [done|]. split; [done|]. destruct Hpc as [->|[-> ?]]; [done|lia].
  - exists h. destruct (linv_cpu _ _ _ _ _ Hinv E) as ((Hc & Hnp & _) & Hi & Ho).
    pose proof (li_locked _ _ Hinv). eapply linv_set; try done.
Qed.

Lemma linv_reach s s' : lstart s -> rtc lstep s s' -> exists h, linv s' h.
Proof.
  intros Hs Hr. assert (exists h, linv s h) as H by (exists None; by apply linv_start).
  clear Hs. induction Hr as [|s s1 s2 Hst _ IH]; [done|].
  destruct H as [h H]. apply IH. by eapply linv_step.
Qed.

(** C4: the spin lock: in every state that any interleaving of the memory
    accesses of [acquire] and [release] on any number of processors reaches,
    at most one processor is in the critical section, no processor has run
    into the panics of [acquire], [release] or [popcli], and on the processor
    in the critical section interrupts are off (so no interrupt handler can
    spin on the lock its own processor holds). *)
Theorem spinlock_mutex s s' :
  lstart s -> rtc lstep s s' ->
  (forall i j pi pj ci cj, ls_cpus s' !! i = Some (pi, ci) -> ls_cpus s' !! j = Some (pj, cj) ->
     in_lock pi = true -> in_lock pj = true -> i = j) /\
  (forall i pc c, ls_cpus s' !! i = Some (pc, c) ->
     pc <> LPanic /\ (in_lock pc = true -> c_if c = false)).
Proof.
  intros Hs Hr. destruct (linv_reach _ _ Hs Hr) as [h H]. split.
  - intros. by eapply (linv_unique s' h).
  - intros i pc c E. destruct (linv_cpu _ _ _ _ _ H E) as ((Hc & Hnp & Hn) & _ & _).
    split; [done|]. intros Hin. apply Hc, Hn. by intros ->.
Qed.

(** [lnext], [n] times. *)
Fixpoint lrun (n me : nat) (x : spinlock * lpc * cpu) : spinlock * lpc * cpu :=
  match n with O => x | S n => lrun n me (lnext me x.1.1 x.1.2 x.2) end.

(** the access sequence is [acquire] and [release]: a processor that runs
    alone on a free lock goes through [acquire]'s steps to the critical
    section and through [release]'s back, with the lock and the processor in
    the states the two functions compute. *)
Theorem lrun_acquire_release me c :
  cpu_ok c ->
  exists c1 lk1 c2 lk2,
    acquire me (c, initlock) = Ret tt (c1, lk1) /\
    lrun 4 me (initlock, LIdle, c) = (lk1, Crit, c1) /\
    release me (c1, lk1) = Ret tt (c2, lk2) /\
    lrun 5 me (lk1, Crit, c1) = (lk2, LIdle, c2) /\
    lk2 = initlock /\ c_if c2 = c_if c.
Proof.
  intros Hc. destruct (pushcli_ok c _ Hc (pushcli_run c)) as (Hok & Hn & Hif).
  set (c1 := Cpu _ _ _) in *.
  destruct (popcli_ok c1 Hok Hn) as (c2 & Hpop & _ & _).
  exists c1, (Spin 1 (Some me)), c2, initlock.
  assert (lrun 4 me (initlock, LIdle, c) = (Spin 1 (Some me), Crit, c1)) as E1.
  { cbn [lrun lnext fst snd]. by rewrite pushcli_run. }
  assert (lrun 5 me (Spin 1 (Some me), Crit, c1) = (initlock, LIdle, c2)) as E2.
  { cbn [lrun lnext fst snd locked lk_cpu Z.eqb].
    rewrite bool_decide_true by done. cbn [lrun lnext fst snd]. by rewrite Hpop. }
  split_and!; [| done | | done | done |].
  - unfold acquire, cpu_lift, bind. cbn [fst snd]. by rewrite pushcli_run.
  - unfold release, cpu_lift, bind, gets, holding, modify.
    cbn [fst snd locked lk_cpu Z.eqb negb andb].
    rewrite bool_decide_true by done. cbn [fst snd negb panic_if ret]. by rewrite Hpop.
  - destruct (pushcli_popcli_back c Hc) as (c2' & E & E').
    change (popcli c1 = Ret tt c2') in E. rewrite Hpop in E. by injection E as <-.
Qed.

(** Two processors, both trying to take the lock. *)
Definition two_cpus : lsys := LSys initlock [(LIdle, Cpu 0 false true); (LIdle, Cpu 0 false true)].

Lemma cpu_ok_idle : cpu_ok (Cpu 0 false true).
Proof. split; simpl; [done|lia]. Qed.

Lemma pushcli_popcli_nest_witness : exists c1 c2, times 3 pushcli (Cpu 0 false true) = Ret tt c1 /\
  c_if c1 = false /\ times 3 popcli c1 = Ret tt c2 /\ c_if c2 = true.
Proof.
  destruct (pushcli_popcli_nest 3 (Cpu 0 false true)) as (c1 & c2 & H1 & H2 & H3 & _ & H4).
  - exact cpu_ok_idle.
  - lia.
  - exists c1, c2. split; [exact H1|]. split; [exact H2|]. split; [exact H3|exact H4].
Defined.

Lemma spinlock_mutex_witness : exists s', rtc lstep two_cpus s' /\
  (exists c, ls_cpus s' !! 0%nat = Some (Crit, c)) /\
  (forall i j pi pj ci cj, ls_cpus s' !! i = Some (pi, ci) -> ls_cpus s' !! j = Some (pj, cj) ->
     in_lock pi = true -> in_lock pj = true -> i = j).
Proof.
  assert (exists s', rtc lstep two_cpus s' /\ exists c, ls_cpus s' !! 0%nat = Some (Crit, c)) as (s' & Hr & Hc).
  { eexists. split.
    - do 4 (eapply rtc_l; [apply (lstep_own 0); reflexivity|simpl]). apply rtc_refl.
    - eexists. reflexivity. }
  exists s'. split; [exact Hr|]. split; [exact Hc|]. apply (spinlock_mutex two_cpus s').
  - split; [reflexivity|]. apply Forall_cons; split; [split; [reflexivity|exact cpu_ok_idle]|].
    apply Forall_cons; split; [split; [reflexivity|exact cpu_ok_idle]|]. by apply Forall_nil.
  - exact Hr.
Defined.
