(* ===== verification/Pipe.v ===== *)
(** Pipes (pipe.c).

    [pipewrite] and [piperead] hold [p->lock] except inside [sleep], so a
    call is a sequence of segments, each run with the lock held: a segment
    ends when the function returns or when it goes to sleep. The segments are
    functions; [step] interleaves the calls of any number of processes, with
    [sleep], [wakeup] and [kill] as state changes. *)

From S2P Require Import Prelude.

Definition PIPESIZE := 512.

Record pipe := Pipe {
  p_data : list Z;      (* data[PIPESIZE] *)
  p_nread : Z;
  p_nwrite : Z;
  p_readopen : bool;
  p_writeopen : bool;
}.

(** What [pipealloc] leaves in a page with the bytes [d]. *)
Definition pipe_init (d : list Z) : pipe := Pipe d 0 0 true true.

(** [p->data[p->nwrite++ % PIPESIZE] = c] *)
Definition pipe_put (c : Z) (p : pipe) : pipe :=
  Pipe (<[Z.to_nat (p_nwrite p mod PIPESIZE) := c]> (p_data p)) (p_nread p) (u32 (p_nwrite p + 1))
       (p_readopen p) (p_writeopen p).

(** [p->data[p->nread++ % PIPESIZE]] *)
Definition pipe_get (p : pipe) : Z * pipe :=
  (p_data p !!! Z.to_nat (p_nread p mod PIPESIZE),
   Pipe (p_data p) (u32 (p_nread p + 1)) (p_nwrite p) (p_readopen p) (p_writeopen p)).

Definition pipe_full (p : pipe) : bool := p_nwrite p =? u32 (p_nread p + PIPESIZE).
Definition pipe_empty (p : pipe) : bool := p_nread p =? p_nwrite p.

(** How a segment ends: with a return value, or asleep. *)
Inductive seg (A : Type) := Return (a : A) | Sleep.
Arguments Return {A} _.
Arguments Sleep {A}.

(** [pipewrite] from the top of the loop with [rest] still to be written;
    the result has what is left when it sleeps. *)
Fixpoint pipewrite (killed : bool) (n : Z) (rest : list Z) (p : pipe)
  : seg Z * list Z * pipe :=
  match rest with
  | [] => (Return n, [], p)
  | c :: rest' =>
    if pipe_full p then
      if negb (p_readopen p) || killed then (Return (-1), rest, p) else (Sleep, rest, p)
    else pipewrite killed n rest' (pipe_put c p)
  end.

(** [for(i = 0; i < n; i++) { if(p->nread == p->nwrite) break; addr[i] = ...; }] *)
Fixpoint piperead_copy (n : nat) (p : pipe) : list Z * pipe :=
  match n with
  | O => ([], p)
  | S n =>
    if pipe_empty p then ([], p)
    else let '(c, p) := pipe_get p in
         let '(l, p) := piperead_copy n p in (c :: l, p)
  end.

(** [piperead] from the test of the empty pipe: the value returned and the
    bytes stored at [addr]. *)
Definition piperead (killed : bool) (n : Z) (p : pipe) : seg (Z * list Z) * pipe :=
  if pipe_empty p && p_writeopen p then
    if killed then (Return (-1, []), p) else (Sleep, p)
  else
    let '(l, p) := piperead_copy (Z.to_nat n) p in (Return (Z.of_nat (length l), l), p).

(** [pipeclose]; the result tells whether the page is freed. *)
Definition pipeclose (writable : bool) (p : pipe) : bool * pipe :=
  let p := if writable then Pipe (p_data p) (p_nread p) (p_nwrite p) (p_readopen p) false
           else Pipe (p_data p) (p_nread p) (p_nwrite p) false (p_writeopen p) in
  (negb (p_readopen p) && negb (p_writeopen p), p).

(** *** The pipe as a queue *)

Definition plen (p : pipe) : Z := u32 (p_nwrite p - p_nread p).

Record pipe_ok (p : pipe) : Prop := {
  pk_data : length (p_data p) = Z.to_nat PIPESIZE;
  pk_nread : is_u32 (p_nread p);
  pk_nwrite : is_u32 (p_nwrite p);
  pk_len : plen p <= PIPESIZE;
}.

(** The bytes in the pipe, oldest first. *)
Definition pcontents (p : pipe) : list Z :=
  (fun k => p_data p !!! Z.to_nat ((p_nread p + k) mod PIPESIZE)) <$> seqZ 0 (plen p).

Lemma plen_nonneg p : 0 <= plen p.
Proof. unfold plen. pose proof (u32_range (p_nwrite p - p_nread p)). unfold is_u32 in *. lia. Qed.

Lemma length_pcontents p : length (pcontents p) = Z.to_nat (plen p).
Proof. unfold pcontents. by rewrite length_fmap, length_seqZ. Qed.

(** The counters wrap around at [2^32], which [PIPESIZE] divides, so the
    tests and the indices mean what they mean without wrap-around. *)
Lemma pipe_full_len p : pipe_ok p -> pipe_full p = (plen p =? PIPESIZE).
Proof.
  intros [_ Hr Hw Hl]. unfold pipe_full, plen, PIPESIZE, is_u32 in *.
  apply eq_true_iff_eq. rewrite !Z.eqb_eq. dlia.
Qed.

Lemma pipe_empty_len p : pipe_ok p -> pipe_empty p = (plen p =? 0).
Proof.
  intros [_ Hr Hw Hl]. unfold pipe_empty, plen, is_u32 in *.
  apply eq_true_iff_eq. rewrite !Z.eqb_eq. dlia.
Qed.

Lemma pipe_put_ok c p : pipe_ok p -> plen p < PIPESIZE ->
  pipe_ok (pipe_put c p) /\ pcontents (pipe_put c p) = pcontents p ++ [c].
Proof.
  intros [Hd Hr Hw Hl] Hlt.
  assert (plen (pipe_put c p) = plen p + 1) as El
    by (unfold plen, PIPESIZE, is_u32 in *; simpl; dlia).
  split.
  - constructor; simpl; [by rewrite length_insert|done|apply u32_range|unfold PIPESIZE in *; lia].
  - unfold pcontents. rewrite El. pose proof (plen_nonneg p).
    rewrite seqZ_app, fmap_app by lia. simpl. f_equal.
    + apply list_fmap_ext. intros ? k [-> Hk]%lookup_seqZ. simpl.
      apply list_lookup_total_insert_ne. unfold plen, PIPESIZE, is_u32 in *. dlia.
    + f_equal. unfold PIPESIZE in *.
      replace (Z.to_nat ((p_nread p + (Z.of_nat 0 + (0 + plen p))) mod 512))
        with (Z.to_nat (p_nwrite p mod 512)) by (unfold plen, is_u32 in *; dlia).
      apply list_lookup_total_insert_eq. rewrite Hd. dlia.
Qed.

Lemma pipe_get_ok p : pipe_ok p -> 0 < plen p ->
  let '(c, p') := pipe_get p in pipe_ok p' /\ pcontents p = c :: pcontents p'.
Proof.
  intros [Hd Hr Hw Hl] Hlt. simpl. set (p' := Pipe _ _ _ _ _).
  assert (plen p' = plen p - 1) as El by (unfold plen, PIPESIZE, is_u32 in *; simpl; dlia).
  split.
  - constructor; simpl; [done|apply u32_range|done|lia].
  - unfold pcontents. rewrite El. rewrite seqZ_cons by lia. rewrite fmap_cons. f_equal.
    + by rewrite Z.add_0_r.
    + apply list_eq. intros k. rewrite !list_lookup_fmap.
      destruct (decide (Z.of_nat k < plen p - 1)).
      * rewrite !lookup_seqZ_lt by lia. simpl. do 3 f_equal. unfold PIPESIZE, is_u32 in *. dlia.
      * by rewrite !lookup_seqZ_ge by lia.
Qed.

(** A segment of [pipewrite] appends a prefix of its data: all of it and
    returns [n], or up to the point where the pipe is full. *)
Lemma pipewrite_spec killed n rest : forall p, pipe_ok p ->
  let '(r, rest', p') := pipewrite killed n rest p in
  exists sent, rest = sent ++ rest' /\ pipe_ok p' /\ pcontents p' = pcontents p ++ sent /\
    p_readopen p' = p_readopen p /\ p_writeopen p' = p_writeopen p /\
    match r with
    | Return v => v = n /\ rest' = [] \/
                  v = -1 /\ rest' <> [] /\ plen p' = PIPESIZE /\ (p_readopen p = false \/ killed = true)
    | Sleep => rest' <> [] /\ plen p' = PIPESIZE /\ p_readopen p = true /\ killed = false
    end.
Proof.
  induction rest as [|c rest IH]; intros p Hp; simpl.
  { exists []. rewrite !app_nil_r. split_and!; try done. by left. }
  rewrite pipe_full_len by done. destruct (Z.eqb_spec (plen p) PIPESIZE) as [E|E].
  - destruct (p_readopen p) eqn:Er, killed; simpl; exists []; rewrite !app_nil_r;
      split_and!; try done; right; auto.
  - destruct (pipe_put_ok c p Hp) as [Hp' Hc]; [pose proof (pk_len _ Hp); lia|].
    specialize (IH (pipe_put c p) Hp'). destruct (pipewrite killed n rest _) as [[r rest'] p'].
    destruct IH as (d & -> & Hp2 & Hc2 & Hr2 & Hw2 & Hr). exists (c :: d).
    split_and!; try done. rewrite Hc2, Hc. by rewrite <- app_assoc.
Qed.

Lemma piperead_copy_spec n : forall p, pipe_ok p ->
  let '(l, p') := piperead_copy n p in
  pipe_ok p' /\ pcontents p = l ++ pcontents p' /\ length l = Nat.min n (length (pcontents p)) /\
  p_readopen p' = p_readopen p /\ p_writeopen p' = p_writeopen p.
Proof.
  induction n as [|n IH]; intros p Hp; simpl; [done|].
  rewrite pipe_empty_len by done. destruct (Z.eqb_spec (plen p) 0) as [E|E].
  - split_and!; try done. by rewrite length_pcontents, E.
  - pose proof (plen_nonneg p). destruct (pipe_get_ok p Hp) as [Hp' Hc]; [lia|].
    set (p1 := Pipe _ _ _ _ _) in *. specialize (IH p1 Hp').
    destruct (piperead_copy n p1) as [l p']. destruct IH as (Hp2 & Hc2 & Hl & Hr & Hw).
    split_and!; try done; [by rewrite Hc, Hc2|]. rewrite Hc. simpl. by rewrite Hl.
Qed.

(** A segment of [piperead] takes a prefix of the contents, as long as
    possible; it waits only on an empty pipe with a writer. *)
Lemma piperead_spec killed n p : pipe_ok p -> 0 <= n ->
  let '(r, p') := piperead killed n p in
  pipe_ok p' /\ p_readopen p' = p_readopen p /\ p_writeopen p' = p_writeopen p /\
  match r with
  | Return (v, l) => pcontents p = l ++ pcontents p' /\
      (v = -1 /\ l = [] /\ killed = true /\ pcontents p = [] \/
       v = Z.min n (plen p) /\ v = Z.of_nat (length l))
  | Sleep => p' = p /\ pcontents p = [] /\ p_writeopen p = true /\ killed = false
  end.
Proof.
  intros Hp Hn. unfold piperead. rewrite pipe_empty_len by done.
  assert (plen p = 0 -> pcontents p = []) as H0.
  { intros E. apply nil_length_inv. by rewrite length_pcontents, E. }
  destruct ((plen p =? 0) && p_writeopen p) eqn:Ec.
  - apply andb_prop in Ec as [E%Z.eqb_eq Ew]. specialize (H0 E).
    destruct killed; split_and!; try done. by left.
  - pose proof (piperead_copy_spec (Z.to_nat n) p Hp) as H.
    destruct (piperead_copy (Z.to_nat n) p) as [l p']. destruct H as (Hp' & Hc & Hl & Hr & Hw).
    split_and!; try done. right.
    rewrite length_pcontents in Hl. pose proof (plen_nonneg p). lia.
Qed.

(** *** Several processes on one pipe *)

(** A process outside the pipe, in [pipewrite] with [rest] still to write, or
    in [piperead]; [asleep] on [&p->nwrite] or [&p->nread]. *)
Inductive pst :=
  | Idle
  | Writing (asleep : bool) (n : Z) (rest : list Z)
  | Reading (asleep : bool) (n : Z).

Record psys := PSys {
  ps_pipe : pipe;
  ps_procs : list (bool * pst);   (* killed, and what the process does *)
  ps_written : list Z;            (* all bytes ever put in the pipe *)
  ps_read : list Z;               (* all bytes ever taken out *)
}.

(** [wakeup(&p->nread)] and [wakeup(&p->nwrite)] *)
Definition wake_reader (x : pst) : pst :=
  match x with Reading _ n => Reading false n | _ => x end.
Definition wake_writer (x : pst) : pst :=
  match x with Writing _ n r => Writing false n r | _ => x end.
Definition wake_readers (l : list (bool * pst)) : list (bool * pst) := prod_map id wake_reader <$> l.
Definition wake_writers (l : list (bool * pst)) : list (bool * pst) := prod_map id wake_writer <$> l.

(** The return of [-1] is the only end of a segment of [pipewrite] that does
    not wake the readers. *)
Definition wakes {A} (r : seg A) (rest : list Z) : bool :=
  match r, rest with Return _, _ :: _ => false | _, _ => true end.

(** The end of the pipe that a call has open. *)
Definition uses (x : pst) : option bool :=
  match x with Idle => None | Writing _ _ _ => Some true | Reading _ _ => Some false end.

(** The last reference to an end is closed only when no call uses it. *)
Inductive pstep : psys -> psys -> Prop :=
  | PWriteCall s i k n data :
      ps_procs s !! i = Some (k, Idle) -> length data = Z.to_nat n ->
      p_writeopen (ps_pipe s) = true ->
      pstep s (PSys (ps_pipe s) (<[i := (k, Writing false n data)]> (ps_procs s))
                    (ps_written s) (ps_read s))
  | PReadCall s i k n :
      ps_procs s !! i = Some (k, Idle) -> 0 <= n -> p_readopen (ps_pipe s) = true ->
      pstep s (PSys (ps_pipe s) (<[i := (k, Reading false n)]> (ps_procs s))
                    (ps_written s) (ps_read s))
  | PWrite s i k n rest r rest' p' sent :
      ps_procs s !! i = Some (k, Writing false n rest) ->
      pipewrite k n rest (ps_pipe s) = (r, rest', p') -> rest = sent ++ rest' ->
      pstep s (PSys p'
        (<[i := (k, match r with Return _ => Idle | Sleep => Writing true n rest' end)]>
           (if wakes r rest' then wake_readers (ps_procs s) else ps_procs s))
        (ps_written s ++ sent) (ps_read s))
  | PRead s i k n r p' :
      ps_procs s !! i = Some (k, Reading false n) ->
      piperead k n (ps_pipe s) = (r, p') ->
      pstep s (PSys p'
        match r with
        | Sleep => <[i := (k, Reading true n)]> (ps_procs s)
        | Return (v, _) =>
            <[i := (k, Idle)]> (if v =? -1 then ps_procs s else wake_writers (ps_procs s))
        end
        (ps_written s)
        (ps_read s ++ match r with Sleep => [] | Return (_, l) => l end))
  | PClose s (writable : bool) :
      (forall i k x, ps_procs s !! i = Some (k, x) -> uses x <> Some writable) ->
      pstep s (PSys (pipeclose writable (ps_pipe s)).2
        (if writable then wake_readers (ps_procs s) else wake_writers (ps_procs s))
        (ps_written s) (ps_read s))
  | PKill s i k x :
      ps_procs s !! i = Some (k, x) ->
      pstep s (PSys (ps_pipe s)
        (<[i := (true, match x with
                       | Writing _ n r => Writing false n r
                       | Reading _ n => Reading false n
                       | Idle => Idle
                       end)]> (ps_procs s)) (ps_written s) (ps_read s)).

(** The start: an empty pipe and processes that have not used it. *)
Definition pstart (s : psys) : Prop :=
  exists d m, length d = Z.to_nat PIPESIZE /\
    s = PSys (pipe_init d) (replicate m (false, Idle)) [] [].

(** A call of [read] has a length that is not negative. *)
Definition calls_ok (l : list (bool * pst)) : Prop :=
  forall i k a n, l !! i = Some (k, Reading a n) -> 0 <= n.

Definition no_kills (l : list (bool * pst)) : Prop := Forall (fun x => x.1 = false) l.

Lemma pipe_init_ok d : length d = Z.to_nat PIPESIZE -> pipe_ok (pipe_init d) /\ pcontents (pipe_init d) = [].
Proof. intros Hd. split; [|done]. by constructor. Qed.

Lemma pipeclose_ok w p : pipe_ok p ->
  pipe_ok (pipeclose w p).2 /\ pcontents (pipeclose w p).2 = pcontents p /\ plen (pipeclose w p).2 = plen p.
Proof. intros []. by destruct w. Qed.

(** The invariant of the system. *)
Record psys_ok (s : psys) : Prop := {
  po_pipe : pipe_ok (ps_pipe s);
  po_fifo : ps_written s = ps_read s ++ pcontents (ps_pipe s);
  po_calls : calls_ok (ps_procs s);
}.

Lemma wake_readers_lookup l i k x : wake_readers l !! i = Some (k, x) ->
  exists x', l !! i = Some (k, x') /\ x = wake_reader x'.
Proof.
  unfold wake_readers. rewrite list_lookup_fmap_Some. intros ([k' x'] & [= -> ->] & Hl). eauto.
Qed.

Lemma wake_writers_lookup l i k x : wake_writers l !! i = Some (k, x) ->
  exists x', l !! i = Some (k, x') /\ x = wake_writer x'.
Proof.
  unfold wake_writers. rewrite list_lookup_fmap_Some. intros ([k' x'] & [= -> ->] & Hl). eauto.
Qed.

Lemma calls_ok_wake_readers l : calls_ok l -> calls_ok (wake_readers l).
Proof.
  intros H i k a n (x & Hx & E)%wake_readers_lookup. destruct x; try done.
  injection E as -> <-. by eapply H.
Qed.

Lemma calls_ok_wake_writers l : calls_ok l -> calls_ok (wake_writers l).
Proof.
  intros H i k a n (x & Hx & E)%wake_writers_lookup. destruct x; try done.
  injection E as <- <-. by eapply H.
Qed.

Lemma calls_ok_insert l i k x : calls_ok l -> (forall a n, x = Reading a n -> 0 <= n) ->
  calls_ok (<[i := (k, x)]> l).
Proof.
  intros H Hx j k' a n. rewrite list_lookup_insert_Some.
  intros [(-> & [= -> ->] & _)|[_ Hl]]; [by eapply Hx|by eapply H].
Qed.

Lemma psys_ok_step s s' : psys_ok s -> pstep s s' -> psys_ok s'.
Proof.
  intros [Hp Hf Hc] Hs. destruct Hs as [s i k n data Hi Hl Ho|s i k n Hi Hn Ho|
    s i k n rest r rest' p' sent Hi E Er|s i k n r p' Hi E|s w Hw|s i k x Hi].
  - constructor; simpl; [done|done|]. by apply calls_ok_insert.
  - constructor; simpl; [done|done|]. apply calls_ok_insert; [done|]. by intros ? ? [= _ <-].
  - pose proof (pipewrite_spec k n rest (ps_pipe s) Hp) as H. rewrite E in H.
    destruct H as (sent' & Er' & Hp' & Hc' & _). rewrite Er' in Er. apply app_inv_tail in Er as ->.
    constructor; simpl; [done|by rewrite Hf, Hc', app_assoc|].
    apply calls_ok_insert; [|by destruct r].
    destruct (wakes r rest'); [by apply calls_ok_wake_readers|done].
  - pose proof (piperead_spec k n (ps_pipe s) Hp (Hc i k false n Hi)) as H. rewrite E in H.
    destruct H as (Hp' & _ & _ & H). constructor; simpl; [done| |].
    + destruct r as [[v l]|]; [destruct H as [H _]; by rewrite Hf, H, app_assoc|].
      destruct H as (-> & _). by rewrite app_nil_r.
    + destruct r as [[v l]|]; apply calls_ok_insert; try done.
      * destruct (v =? -1); [done|by apply calls_ok_wake_writers].
      * intros a m [= _ <-]. by eapply Hc.
  - destruct (pipeclose_ok w _ Hp) as (? & E & _).
    constructor; cbn [ps_pipe ps_procs ps_written ps_read]; [done|by rewrite E|].
    destruct w; [by apply calls_ok_wake_readers|by apply calls_ok_wake_writers].
  - constructor; simpl; [done|done|]. apply calls_ok_insert; [done|].
    intros a m. destruct x; [done|done|]. intros [= _ <-]. by eapply Hc.
Qed.

Lemma psys_ok_start s : pstart s -> psys_ok s.
Proof.
  intros (d & m & Hd & ->). destruct (pipe_init_ok d Hd). constructor; [done|done|].
  intros i k a n. simpl. rewrite lookup_replicate. by intros [[=] _].
Qed.

Lemma psys_ok_reach s s' : pstart s -> rtc pstep s s' -> psys_ok s'.
Proof.
  intros H0%psys_ok_start H. induction H as [|s s1 s2 H1 _ IH]; [done|].
  by apply IH, (psys_ok_step s).
Qed.

(** *** Sleeping and waking *)

(** [x] sleeps although it could go on. *)
Definition stuck (p : pipe) (x : pst) : Prop :=
  match x with
  | Writing true _ _ => plen p <> PIPESIZE \/ p_readopen p = false
  | Reading true _ => plen p <> 0 \/ p_writeopen p = false
  | _ => False
  end.

(** The processes considered: the writers, and with [b] the readers. *)
Definition sel (b : bool) (x : pst) : bool := match x with Reading _ _ => b | _ => true end.

(** Every end in use is open, and the processes selected by [f] sleep only
    with reason. *)
Record waits (f : pst -> bool) (p : pipe) (l : list (bool * pst)) : Prop := {
  wt_open : forall i k x, l !! i = Some (k, x) ->
    match uses x with Some true => p_writeopen p | Some false => p_readopen p | None => true end = true;
  wt_sleep : forall i k x, l !! i = Some (k, x) -> f x = true -> ~ stuck p x;
}.

Lemma waits_insert f p l i k x :
  waits f p l ->
  match uses x with Some true => p_writeopen p | Some false => p_readopen p | None => true end = true ->
  (f x = true -> ~ stuck p x) -> waits f p (<[i := (k, x)]> l).
Proof.
  intros [Ho Hs] H1 H2. constructor; intros j k' x'; rewrite list_lookup_insert_Some;
    intros [(-> & [= -> ->] & _)|[_ Hl]]; eauto.
Qed.

(** A change of the pipe after which the processes that might be stuck have
    been woken. *)
Lemma waits_wake (f : pst -> bool) p p' l l' :
  waits f p l -> p_readopen p' = p_readopen p -> p_writeopen p' = p_writeopen p ->
  (forall i k x, l' !! i = Some (k, x) -> exists x', l !! i = Some (k, x') /\ uses x' = uses x /\
     (f x = true -> f x' = true) /\ (f x = true -> stuck p' x -> stuck p x')) ->
  waits f p' l'.
Proof.
  intros [Ho Hs] Hr Hw H. constructor; intros i k x Hl; destruct (H i k x Hl) as (x' & Hl' & Eu & Hf & Hst).
  - rewrite <- Eu, Hr, Hw. eauto.
  - intros Hfx Hx. eapply Hs; eauto.
Qed.

Lemma plen_contents p p' : pipe_ok p -> pipe_ok p' ->
  pcontents p' = pcontents p -> plen p' = plen p.
Proof.
  intros _ _ E. apply (f_equal length) in E. rewrite !length_pcontents in E.
  pose proof (plen_nonneg p). pose proof (plen_nonneg p'). lia.
Qed.

Lemma waits_readers_woken b p p' l :
  waits (sel b) p l -> p_readopen p' = p_readopen p -> p_writeopen p' = p_writeopen p ->
  (plen p = PIPESIZE -> plen p' = PIPESIZE) -> waits (sel b) p' (wake_readers l).
Proof.
  intros H Hr Hw Hl. apply (waits_wake _ p _ l); [done|done|done|].
  intros i k x (x' & Hx & ->)%wake_readers_lookup. exists x'. split; [done|].
  destruct x' as [|[] n r|a n]; simpl; try done. split_and!; [done|done|]. rewrite Hr.
  intros _ [?|?]; [|by right]. left. auto.
Qed.

Lemma waits_writers_woken b p p' l :
  waits (sel b) p l -> p_readopen p' = p_readopen p -> p_writeopen p' = p_writeopen p ->
  (plen p = 0 -> plen p' = 0) -> waits (sel b) p' (wake_writers l).
Proof.
  intros H Hr Hw Hl. apply (waits_wake _ p _ l); [done|done|done|].
  intros i k x (x' & Hx & ->)%wake_writers_lookup. exists x'. split; [done|].
  destruct x' as [|a n r|[] n]; simpl; try done. split_and!; [done|done|]. rewrite Hw.
  intros _ [?|?]; [|by right]. left. auto.
Qed.

Lemma waits_len p p' b l :
  waits (sel b) p l -> p_readopen p' = p_readopen p -> p_writeopen p' = p_writeopen p ->
  plen p' = plen p -> waits (sel b) p' l.
Proof.
  intros H Hr Hw Hl. apply (waits_wake _ p _ l); [done|done|done|].
  intros i k x Hx. exists x. split_and!; try done.
  intros _. destruct x as [|[] n r|[] n]; simpl; by rewrite ?Hr, ?Hw, ?Hl.
Qed.

(** Under [b], no process is killed. *)
Lemma waits_step b s s' :
  psys_ok s -> (b = true -> no_kills (ps_procs s)) ->
  waits (sel b) (ps_pipe s) (ps_procs s) -> pstep s s' -> waits (sel b) (ps_pipe s') (ps_procs s').
Proof.
  intros [Hp Hf Hc] Hk H Hs. destruct Hs as [s i k n data Hi Hl Ho|s i k n Hi Hn Ho|
    s i k n rest r rest' p' sent Hi E Er|s i k n r p' Hi E|s w Hw|s i k x Hi]; simpl.
  - apply waits_insert; [done|done|by intros _ []].
  - apply waits_insert; [done|done|by intros _ []].
  - pose proof (pipewrite_spec k n rest (ps_pipe s) Hp) as Hspec. rewrite E in Hspec.
    destruct Hspec as (sent' & Er' & Hp' & Hc' & Hr' & Hw' & Hr).
    pose proof (wt_open _ _ _ H i k _ Hi) as How. simpl in How.
    assert (plen (ps_pipe s) = PIPESIZE -> plen p' = PIPESIZE) as Hfull.
    { intros Ef. apply (f_equal length) in Hc'. rewrite length_app, !length_pcontents in Hc'.
      pose proof (pk_len _ Hp'). pose proof (plen_nonneg p'). lia. }
    apply waits_insert.
    + destruct (wakes r rest') eqn:Ew; [by apply (waits_readers_woken b (ps_pipe s))|].
      apply (waits_wake _ (ps_pipe s) _ (ps_procs s)); [done|done|done|].
      intros j k' x Hx. exists x. split_and!; try done. intros Hsel Hst.
      destruct x as [|[] m q|[] m]; simpl in *; try done.
      * destruct Hst; [left; auto|right; congruence].
      * subst b. destruct r as [v|]; [|done].
        destruct Hr as [[_ ->]|(_ & _ & _ & [Hro| ->])]; [done| |].
        -- pose proof (wt_open _ _ _ H j k' _ Hx) as Hop. simpl in Hop. congruence.
        -- specialize (Hk eq_refl). unfold no_kills in Hk. rewrite Forall_lookup in Hk.
           by apply Hk in Hi.
    + destruct r as [v|]; simpl; [done|]. congruence.
    + intros _. destruct r as [v|]; simpl; [by intros []|]. destruct Hr as (_ & Hl & Hro & _).
      intros [?|?]; congruence.
  - pose proof (piperead_spec k n (ps_pipe s) Hp (Hc i k false n Hi)) as Hspec. rewrite E in Hspec.
    destruct Hspec as (Hp' & Hr' & Hw' & Hr).
    pose proof (wt_open _ _ _ H i k _ Hi) as Hor. simpl in Hor.
    destruct r as [[v l]|].
    + destruct Hr as [Hcont Hv]. apply waits_insert; [|done|by intros _ []].
      assert (plen (ps_pipe s) = 0 -> plen p' = 0) as H0.
      { intros E0. apply (f_equal length) in Hcont. rewrite length_app, !length_pcontents in Hcont.
        pose proof (plen_nonneg p'). lia. }
      destruct (Z.eqb_spec v (-1)) as [->|Hne]; [|by apply (waits_writers_woken b (ps_pipe s))].
      destruct Hv as [(_ & -> & _)|[? _]]; [|pose proof (plen_nonneg (ps_pipe s));
        pose proof (Hc i k false n Hi); lia].
      apply (waits_len (ps_pipe s)); [done|done|done|]. by apply plen_contents.
    + destruct Hr as (-> & He & Hwo & _). apply waits_insert; [done|done|]. intros _ [Hx|Hx]; [|congruence].
      apply (f_equal length) in He. rewrite length_pcontents in He. simpl in He.
      pose proof (plen_nonneg (ps_pipe s)). lia.
  - destruct H as [Ho Hs]. constructor.
    + intros j k x Hx. assert (exists x', ps_procs s !! j = Some (k, x') /\ uses x' = uses x) as (x' & Hx' & <-).
      { destruct w; [apply wake_readers_lookup in Hx as (x' & ? & ->)|
          apply wake_writers_lookup in Hx as (x' & ? & ->)]; exists x'; by destruct x'. }
      specialize (Ho j k x' Hx'). pose proof (Hw j k x' Hx') as Hu.
      destruct w, x' as [|a m q|a m]; simpl in *; congruence.
    + intros j k x Hx. destruct w;
        [apply wake_readers_lookup in Hx as (x' & Hx & ->)|apply wake_writers_lookup in Hx as (x' & Hx & ->)];
        specialize (Hs j k x' Hx); specialize (Hw j k x' Hx); destruct x' as [|[] m q|[] m]; simpl in *;
        intros Hb Hst; try done; by apply Hs.
  - apply waits_insert; [done| |].
    + pose proof (wt_open _ _ _ H i k x Hi) as Ho. by destruct x.
    + intros _. destruct x; by intros [].
Qed.

Lemma waits_start b s : pstart s -> waits (sel b) (ps_pipe s) (ps_procs s).
Proof.
  intros (d & m & _ & ->). constructor; simpl; intros i k x; rewrite lookup_replicate;
    intros [[= -> ->] _]; [done|]. by intros _ [].
Qed.

(** A run in which no process is killed. *)
Definition live_step (s s' : psys) : Prop := no_kills (ps_procs s) /\ pstep s s'.

Lemma waits_reach b s s' :
  pstart s -> rtc (fun s s' => (b = true -> no_kills (ps_procs s)) /\ pstep s s') s s' ->
  psys_ok s' /\ waits (sel b) (ps_pipe s') (ps_procs s').
Proof.
  intros H0 H. assert (psys_ok s /\ waits (sel b) (ps_pipe s) (ps_procs s)) as H1
    by (split; [by apply psys_ok_start|by apply waits_start]).
  clear H0. induction H as [|s s1 s2 [Hk Hs] _ IH]; [done|]. destruct H1 as [Hok Hw].
  apply IH. split; [by eapply psys_ok_step|by eapply waits_step].
Qed.

(** C21: A pipe delivers the bytes written to it, in order, each once: at
    any point of any interleaving of calls, closes and kills, what has been
    read followed by what is in the pipe is what has been written, and the
    pipe holds at most [PIPESIZE] bytes. *)
Theorem pipe_fifo s s' :
  pstart s -> rtc pstep s s' ->
  ps_written s' = ps_read s' ++ pcontents (ps_pipe s') /\ (length (pcontents (ps_pipe s')) <= 512)%nat.
Proof.
  intros H0 H. destruct (psys_ok_reach s s' H0 H) as [Hp Hf _]. split; [done|].
  rewrite length_pcontents. pose proof (pk_len _ Hp). unfold PIPESIZE in *. lia.
Qed.

(** No wakeup of a writer is lost: a writer sleeps only while the
    pipe is full and its read end is open. *)
Theorem pipe_writer_wakeup s s' i k n rest :
  pstart s -> rtc pstep s s' -> ps_procs s' !! i = Some (k, Writing true n rest) ->
  plen (ps_pipe s') = PIPESIZE /\ p_readopen (ps_pipe s') = true.
Proof.
  intros H0 H Hi. destruct (waits_reach false s s' H0) as [_ [_ Hw]].
  { eapply rtc_subrel; [|exact H]. intros ? ? ?. by split. }
  specialize (Hw i k _ Hi eq_refl). simpl in Hw.
  destruct (decide (plen (ps_pipe s') = PIPESIZE)), (p_readopen (ps_pipe s')); tauto.
Qed.

(** C22: Without kills no wakeup of a reader is lost either: a reader
    sleeps only while the pipe is empty and its write end is open. *)
Theorem pipe_reader_wakeup s s' i k n :
  pstart s -> rtc live_step s s' -> ps_procs s' !! i = Some (k, Reading true n) ->
  plen (ps_pipe s') = 0 /\ p_writeopen (ps_pipe s') = true.
Proof.
  intros H0 H Hi. destruct (waits_reach true s s' H0) as [_ [_ Hw]].
  { eapply rtc_subrel; [|exact H]. intros ? ? [? ?]. by split. }
  specialize (Hw i k _ Hi eq_refl). simpl in Hw.
  destruct (decide (plen (ps_pipe s') = 0)), (p_writeopen (ps_pipe s')); tauto.
Qed.

(** The state in which a killed writer leaves a reader asleep. *)
Definition pipe_s0 : psys :=
  PSys (pipe_init (replicate 512 0)) [(false, Idle); (false, Idle)] [] [].

Lemma pstep_then s s1 s2 : pstep s s1 -> rtc pstep s1 s2 -> rtc pstep s s2.
Proof. apply rtc_l. Qed.

(** C23: A reader can be left asleep on a pipe that has data and whose write end
    is open: a killed writer that finds the pipe full returns without waking
    the readers of the bytes it put. *)
Theorem pipe_killed_writer_loses_wakeup :
  pstart pipe_s0 /\
  exists s' k n, rtc pstep pipe_s0 s' /\ ps_procs s' !! 0%nat = Some (k, Reading true n) /\
    ps_procs s' !! 1%nat = Some (true, Idle) /\
    plen (ps_pipe s') = PIPESIZE /\ p_writeopen (ps_pipe s') = true.
Proof.
  split; [exists (replicate 512 0), 2%nat; done|].
  do 3 eexists. split.
  - eapply pstep_then; [apply (PReadCall _ 0 false 10); [done|lia|done]|].
    eapply pstep_then; [eapply (PRead _ 0); [reflexivity|reflexivity]|].
    eapply pstep_then; [apply (PWriteCall _ 1 false 513 (replicate 513 7)); [done|done|done]|].
    eapply pstep_then; [eapply (PKill _ 1); reflexivity|].
    eapply pstep_then; [eapply (PWrite _ 1 true 513 _ (Return (-1)) [7] _ (replicate 512 7));
      [reflexivity|vm_compute; reflexivity|vm_compute; reflexivity]|].
    apply rtc_refl.
  - vm_compute. done.
Qed.

Lemma pstart_s0 : pstart pipe_s0.
Proof. exists (replicate 512 0), 2%nat. done. Qed.

(** A reader finds the pipe empty and goes to sleep; a writer brings data. *)
Lemma pipe_run : exists s1 s2, rtc live_step pipe_s0 s1 /\ rtc pstep s1 s2 /\
  ps_procs s1 !! 0%nat = Some (false, Reading true 10) /\ ps_written s2 = [1; 2; 3] /\ ps_read s2 = [].
Proof.
  eexists _, _. split_and!.
  - eapply rtc_l; [split; [by repeat constructor|apply (PReadCall _ 0 false 10); [done|lia|done]]|].
    eapply rtc_l; [split; [by repeat constructor|eapply (PRead _ 0); [reflexivity|reflexivity]]|].
    apply rtc_refl.
  - eapply pstep_then; [apply (PWriteCall _ 1 false 3 [1; 2; 3]); [done|done|done]|].
    eapply pstep_then; [eapply (PWrite _ 1 false 3 _ (Return 3) [] _ [1; 2; 3]);
      [reflexivity|vm_compute; reflexivity|reflexivity]|].
    apply rtc_refl.
  - reflexivity.
  - reflexivity.
  - reflexivity.
Qed.

Lemma pipe_fifo_witness : exists s', rtc pstep pipe_s0 s' /\ ps_written s' = [1; 2; 3] /\
  ps_written s' = ps_read s' ++ pcontents (ps_pipe s').
Proof.
  destruct pipe_run as (s1 & s2 & H1 & H2 & _ & Hw & _). exists s2.
  assert (rtc pstep pipe_s0 s2) as H.
  { etrans; [|exact H2]. eapply rtc_subrel; [|exact H1]. by intros ? ? []. }
  split; [exact H|]. split; [exact Hw|]. apply (pipe_fifo pipe_s0 s2 pstart_s0 H).
Defined.

Lemma pipe_reader_wakeup_witness : exists s', ps_procs s' !! 0%nat = Some (false, Reading true 10) /\
  plen (ps_pipe s') = 0.
Proof.
  destruct pipe_run as (s1 & s2 & H1 & _ & Hp & _). exists s1. split; [exact Hp|].
  apply (pipe_reader_wakeup pipe_s0 s1 0 false 10 pstart_s0 H1 Hp).
Defined.

Lemma pipe_writer_wakeup_witness : exists s', ps_procs s' !! 1%nat = Some (false, Writing true 513 [7]) /\
  plen (ps_pipe s') = PIPESIZE.
Proof.
  assert (exists s', rtc pstep pipe_s0 s' /\ ps_procs s' !! 1%nat = Some (false, Writing true 513 [7]))
    as (s' & H & Hp).
  { eexists. split.
    - eapply pstep_then; [apply (PWriteCall _ 1 false 513 (replicate 513 7)); [done|done|done]|].
      eapply pstep_then; [eapply (PWrite _ 1 false 513 _ Sleep [7] _ (replicate 512 7));
        [reflexivity|vm_compute; reflexivity|vm_compute; reflexivity]|].
      apply rtc_refl.
    - reflexivity. }
  exists s'. split; [exact Hp|]. apply (pipe_writer_wakeup pipe_s0 s' 1 false 513 [7] pstart_s0 H Hp).
Defined.
