(* ===== verification/Kalloc.v ===== *)
(** The physical page allocator (kalloc.c).

    The free list is threaded through the free pages themselves: the first
    word of a free page is the address of the next one. The kernel's memory
    is the byte function of KString.v; [kend] is the linker's symbol [end]. *)

From S2P Require Import Prelude Params KString.

Record kmem := Kmem {
  km_mem : mem;
  km_freelist : Z;      (* 0 at the end *)
  km_use_lock : bool;
}.

(** A little-endian 32-bit load. *)
Definition mread16 (m : mem) (a : Z) : Z := m a + 256 * m (a + 1).
Definition mread32 (m : mem) (a : Z) : Z :=
  m a + 256 * (m (a + 1) + 256 * (m (a + 2) + 256 * m (a + 3))).

Section kalloc.
Context (kend : Z).

Definition kfree (v : Z) : M kmem unit :=
  panic_if (negb (v mod PGSIZE =? 0) || (v <? kend) || (PHYSTOP <=? V2P v)) "kfree";;;
  modify (fun s =>
    let m := memset (km_mem s) v 1 PGSIZE in
    Kmem (mwrite32 m v (km_freelist s)) v (km_use_lock s)).

Definition kalloc : M kmem Z :=
  let! r := gets km_freelist in
  (if r =? 0 then ret tt
   else modify (fun s => Kmem (km_mem s) (mread32 (km_mem s) r) (km_use_lock s)));;;
  ret r.

(** [for(; p + PGSIZE <= vend; p += PGSIZE) kfree(p);] *)
Fixpoint freerange_loop (n : nat) (p : Z) : M kmem unit :=
  match n with
  | O => ret tt
  | S n => kfree p;;; freerange_loop n (p + PGSIZE)
  end.

Definition freerange (vstart vend : Z) : M kmem unit :=
  let p := PGROUNDUP vstart in
  freerange_loop (Z.to_nat ((vend - p) / PGSIZE)) p.

Definition kinit1 (vstart vend : Z) : M kmem unit :=
  modify (fun s => Kmem (km_mem s) (km_freelist s) false);;;
  freerange vstart vend.
Definition kinit2 (vstart vend : Z) : M kmem unit :=
  freerange vstart vend;;;
  modify (fun s => Kmem (km_mem s) (km_freelist s) true).

(** *** The free list *)

(** A page [kfree] accepts. *)
Definition is_page (p : Z) : Prop :=
  p mod PGSIZE = 0 /\ 0 < kend <= p /\ KERNBASE <= p /\ p - KERNBASE < PHYSTOP.

(** [p] heads the list [l] in memory [m]. *)
Fixpoint chain (m : mem) (p : Z) (l : list Z) : Prop :=
  match l with
  | [] => p = 0
  | q :: l => p = q /\ chain m (mread32 m q) l
  end.

(** The free list holds the pages [l], each once. *)
Record kmem_ok (s : kmem) (l : list Z) : Prop := {
  ko_chain : chain (km_mem s) (km_freelist s) l;
  ko_nodup : NoDup l;
  ko_pages : Forall is_page l;
}.

Lemma mread32_write m a v : is_u32 v -> mread32 (mwrite32 m a v) a = v.
Proof.
  intros Hv. unfold mread32, mwrite32, mwrite, is_u32 in *.
  repeat (case_decide; [try lia|try lia]).
  rewrite !Z.shiftr_div_pow2 by lia. change (2 ^ 8) with 256. change (2 ^ 16) with 65536.
  change (2 ^ 24) with 16777216. dlia.
Qed.

Lemma mread32_ext m m' a :
  (forall x, a <= x < a + 4 -> m' x = m x) -> mread32 m' a = mread32 m a.
Proof. intros H. unfold mread32. by rewrite !H by lia. Qed.

Lemma page_range p : is_page p -> 0 < p /\ p + PGSIZE < 4294967296.
Proof. unfold is_page, KERNBASE, PHYSTOP, PGSIZE. lia. Qed.

(** Bytes outside the page that [kfree] fills are kept. *)
Lemma kfree_frame m v w x :
  is_page v -> x < v \/ v + PGSIZE <= x ->
  mwrite32 (memset m v 1 PGSIZE) v w x = m x.
Proof.
  intros Hp Hx. pose proof (page_range v Hp). unfold PGSIZE in *.
  transitivity (memset m v 1 4096 x).
  - unfold mwrite32, mwrite. by rewrite !decide_False by lia.
  - rewrite memset_spec by lia. by rewrite decide_False by lia.
Qed.

Lemma page_disjoint p q x : is_page p -> is_page q -> p <> q -> q <= x < q + 4 ->
  x < p \/ p + PGSIZE <= x.
Proof. unfold is_page, PGSIZE. intros (? & _) (? & _) ? ?. dlia. Qed.

Lemma chain_kfree m v w l : forall p,
  is_page v -> Forall is_page l -> v ∉ l ->
  chain m p l -> chain (mwrite32 (memset m v 1 PGSIZE) v w) p l.
Proof.
  induction l as [|q l IH]; intros p Hv Hl Hn Hc; [done|]. simpl in *.
  apply Forall_cons in Hl as [Hq Hl]. destruct Hc as [-> Hc]. split; [done|].
  rewrite (mread32_ext m); [apply IH; [done|done|set_solver|done]|].
  intros x Hx. apply kfree_frame; [done|].
  eapply (page_disjoint _ q); [done|done| |done]. set_solver.
Qed.

Lemma freelist_ext m m' l : forall p,
  (forall q, q ∈ l -> mread32 m' q = mread32 m q) -> chain m p l -> chain m' p l.
Proof.
  induction l as [|q l IH]; intros p H Hc; [done|]. simpl in *. destruct Hc as [-> Hc].
  split; [done|]. rewrite H by set_solver. apply IH; [|done]. intros q' Hq'. apply H. set_solver.
Qed.

(** Writes outside the free pages keep the free list. *)
Lemma kmem_ok_write s l m u :
  kmem_ok s l -> (forall q, q ∈ l -> mread32 m q = mread32 (km_mem s) q) ->
  kmem_ok (Kmem m (km_freelist s) u) l.
Proof. intros [Hc Hn Hp] H. constructor; [by eapply freelist_ext|done|done]. Qed.

Lemma V2P_page p : is_page p -> V2P p = p - KERNBASE.
Proof. intros Hp. unfold V2P. apply u32_small. unfold is_page, is_u32, PHYSTOP in *. lia. Qed.

Lemma chain_head m p l : chain m p l -> p = match l with [] => 0 | q :: _ => q end.
Proof. destruct l; simpl; [done|by intros []]. Qed.

(** [kfree] of a page that is not free puts it at the head of the list. *)
Lemma kfree_spec s l v :
  kmem_ok s l -> is_page v -> v ∉ l ->
  wp (kfree v) (fun _ s' => kmem_ok s' (v :: l) /\
    (forall x, x < v \/ v + PGSIZE <= x -> km_mem s' x = km_mem s x) /\
    (forall x, v + 4 <= x < v + PGSIZE -> km_mem s' x = 1)) s.
Proof.
  intros [Hc Hn Hp] Hv Hni. unfold kfree. pose proof (page_range v Hv) as Hr.
  apply wp_bind, wp_panic_if.
  { rewrite V2P_page by done. unfold is_page in Hv.
    rewrite !orb_false_iff, negb_false_iff. lia. }
  apply wp_modify. simpl. split_and!.
  - constructor; simpl; [|by constructor|by constructor]. split; [done|].
    rewrite mread32_write; [by apply chain_kfree|]. rewrite (chain_head _ _ _ Hc).
    unfold is_u32. destruct l as [|q l]; [lia|]. apply Forall_cons in Hp as [Hq _].
    pose proof (page_range q Hq). unfold PGSIZE in *. lia.
  - intros x Hx. by apply kfree_frame.
  - intros x Hx. transitivity (memset (km_mem s) v 1 PGSIZE x).
    + unfold mwrite32, mwrite. by rewrite !decide_False by lia.
    + unfold PGSIZE in *. rewrite memset_spec by lia. by rewrite decide_True by lia.
Qed.

(** [kfree] refuses an address that is not a page of the kernel's memory. *)
Lemma kfree_panics s v :
  v mod PGSIZE <> 0 \/ v < kend \/ PHYSTOP <= V2P v -> kfree v s = Fail (Panic "kfree").
Proof.
  intros H. unfold kfree, panic_if, bind.
  replace (negb (v mod PGSIZE =? 0) || (v <? kend) || (PHYSTOP <=? V2P v)) with true; [done|].
  symmetry. rewrite !orb_true_iff, negb_true_iff. lia.
Qed.

(** [kalloc] returns the head of the list, or 0 when it is empty. *)
Lemma kalloc_spec s l :
  kmem_ok s l ->
  wp kalloc (fun r s' => km_mem s' = km_mem s /\
    match l with
    | [] => r = 0 /\ s' = s
    | q :: l' => r = q /\ r <> 0 /\ kmem_ok s' l'
    end) s.
Proof.
  intros [Hc Hn Hp]. unfold kalloc. apply wp_bind, wp_gets. apply wp_bind.
  destruct l as [|q l]; simpl in Hc.
  - rewrite Hc. by apply wp_ret, wp_ret.
  - destruct Hc as [-> Hc]. apply Forall_cons in Hp as [Hq Hp]. apply NoDup_cons in Hn as [Hni Hn].
    pose proof (page_range q Hq). rewrite (proj2 (Z.eqb_neq q 0)) by lia.
    apply wp_modify, wp_ret. simpl. split_and!; [done|done|lia|by constructor].
Qed.

(** The pages from [p] up, last first. *)
Definition pages (p : Z) (n : nat) : list Z := reverse ((fun k => p + PGSIZE * Z.of_nat k) <$> seq 0 n).

Lemma pages_S p n : pages p (S n) = pages (p + PGSIZE) n ++ [p].
Proof.
  unfold pages. rewrite <- cons_seq, fmap_cons, reverse_cons.
  f_equal; [|f_equal; unfold PGSIZE; lia]. f_equal. rewrite <- (fmap_S_seq 0 n), <- list_fmap_compose.
  apply list_fmap_ext. intros ? k _. simpl. unfold PGSIZE. lia.
Qed.

Lemma freerange_loop_spec n : forall s l p,
  kmem_ok s l -> (forall k, (k < n)%nat -> is_page (p + PGSIZE * Z.of_nat k)) ->
  (forall q, q ∈ l -> q < p) ->
  wp (freerange_loop n p) (fun _ s' => kmem_ok s' (pages p n ++ l)) s.
Proof.
  induction n as [|n IH]; intros s l p Hs Hp Hl; [done|]. simpl.
  assert (is_page p) as Hp0 by (specialize (Hp 0%nat ltac:(lia)); by rewrite Z.mul_0_r, Z.add_0_r in Hp).
  apply wp_bind. eapply wp_mono; [apply kfree_spec; [done|done|]|].
  { intros Hin. specialize (Hl p Hin). lia. }
  intros _ s1 [Hs1 _]. eapply wp_mono; [apply (IH s1 (p :: l))|]; [done| | |].
  - intros k Hk. specialize (Hp (S k) ltac:(lia)).
    replace (p + PGSIZE + PGSIZE * Z.of_nat k) with (p + PGSIZE * Z.of_nat (S k)) by lia. done.
  - intros q [->|Hq]%elem_of_cons; [unfold PGSIZE; lia|]. specialize (Hl q Hq). unfold PGSIZE. lia.
  - intros [] s2 Hs2. rewrite pages_S, <- app_assoc. done.
Qed.

Fixpoint kallocs (n : nat) : M kmem (list Z) :=
  match n with
  | O => ret []
  | S n => let! p := kalloc in let! l := kallocs n in ret (p :: l)
  end.

Lemma kallocs_spec l : forall s l',
  kmem_ok s (l ++ l') -> wp (kallocs (length l)) (fun ps s' => ps = l /\ kmem_ok s' l') s.
Proof.
  induction l as [|p l IH]; intros s l' Hs; simpl; [by apply wp_ret|].
  apply wp_bind. eapply wp_mono; [apply kalloc_spec, Hs|]. intros r s1 (_ & -> & _ & Hs1).
  apply wp_bind. eapply wp_mono; [by apply IH|]. intros ps s2 [-> Hs2]. by apply wp_ret.
Qed.

Lemma freerange_spec s vstart vend :
  km_freelist s = 0 -> 0 < kend <= vstart -> KERNBASE <= vstart <= vend -> vend <= KERNBASE + PHYSTOP ->
  wp (freerange vstart vend)
     (fun _ s' => kmem_ok s' (pages (PGROUNDUP vstart) (Z.to_nat ((vend - PGROUNDUP vstart) / PGSIZE)))) s.
Proof.
  intros Hf Hk Hv He. unfold freerange.
  assert (kmem_ok s []) as Hs by (by constructor; [|constructor|]).
  rewrite <- (app_nil_r (pages _ _)).
  apply freerange_loop_spec; [done| |by intros q Hq%elem_of_nil].
  intros k Hk'. pose proof (PGROUNDUP_eq vstart) as E. unfold KERNBASE, PHYSTOP, PGSIZE in *.
  rewrite E in Hk' |- * by lia. clear E Hs Hf.
  unfold is_page, KERNBASE, PHYSTOP, PGSIZE. dlia.
Qed.

(** the allocator: after [freerange] has given it a range of memory, the
    allocations return each page of the range exactly once, page-aligned and
    inside it, and the next one fails. *)
Theorem freerange_kallocs s vstart vend :
  km_freelist s = 0 -> 0 < kend <= vstart -> KERNBASE <= vstart <= vend -> vend <= KERNBASE + PHYSTOP ->
  let n := Z.to_nat ((vend - PGROUNDUP vstart) / PGSIZE) in
  wp (freerange vstart vend;;; kallocs n)
     (fun ps s' => ps = pages (PGROUNDUP vstart) n /\ NoDup ps /\
        Forall (fun p => p mod PGSIZE = 0 /\ vstart <= p /\ p + PGSIZE <= vend) ps /\
        kalloc s' = Ret 0 s') s.
Proof.
  intros Hf Hk Hv He n. apply wp_bind. eapply wp_mono; [by apply freerange_spec|].
  intros [] s1 Hs1. cbv beta in Hs1. fold n in Hs1. pose proof (ko_nodup _ _ Hs1) as Hnd.
  rewrite <- (app_nil_r (pages _ _)) in Hs1.
  assert (length (pages (PGROUNDUP vstart) n) = n) as Hl
    by (unfold pages; by rewrite length_reverse, length_fmap, length_seq).
  rewrite <- Hl at 1. eapply wp_mono; [apply kallocs_spec, Hs1|]. intros ps s2 [-> Hs2].
  split; [done|]. split; [done|]. split.
  - unfold pages. apply Forall_reverse, Forall_fmap, Forall_forall. intros k Hk'%elem_of_seq. simpl.
    subst n. pose proof (PGROUNDUP_eq vstart) as E. unfold KERNBASE, PHYSTOP, PGSIZE in *.
    rewrite E in Hk' |- * by lia. clear E Hnd Hs1 Hs2 Hl. dlia.
  - pose proof (kalloc_spec s2 [] Hs2) as H. unfold wp in H.
    destruct (kalloc s2) as [r s3|]; [|done]. by destruct H as (_ & -> & ->).
Qed.

End kalloc.

Lemma freerange_kallocs_witness : exists ps s', (freerange (P2V 0x1000) (P2V 0x1000) (P2V 0x5000);;;
    kallocs 4) (Kmem (fun _ => 0) 0 false) = Ret ps s' /\ NoDup ps.
Proof.
  destruct (wp_elim _ _ _ (freerange_kallocs (P2V 0x1000) (Kmem (fun _ => 0) 0 false) (P2V 0x1000) (P2V 0x5000)
    eq_refl ltac:(vm_compute; split; congruence) ltac:(vm_compute; split; congruence)
    ltac:(vm_compute; congruence))) as (ps & s' & H & _ & Hn & _).
  exists ps, s'. split; [exact H|exact Hn].
Defined.
