(* ===== verification/Mp.v ===== *)
(** Multiprocessor tables (mp.c, mp.h): the search for the floating pointer
    structure in the BIOS areas, and the walk over the configuration table
    that counts the processors.

    The BIOS memory is read through the kernel's mapping ([mp_mem]); the
    globals [cpus], [ncpu], [ioapicid] and [lapic] are fields of the state.
    The theorems: the search returns the first structure there is; a table of
    known entries gives the processors it lists; a table with an unknown entry
    makes the loop run forever. *)

From S2P Require Import Prelude Params KString Ports Kalloc.

Definition sizeof_mp : Z := 16.
Definition sizeof_mpconf : Z := 44.
Definition sizeof_mpproc : Z := 20.
Definition sizeof_mpioapic : Z := 8.
Definition MPPROC : Z := 0x00.
Definition MPBUS : Z := 0x01.
Definition MPIOAPIC : Z := 0x02.
Definition MPIOINTR : Z := 0x03.
Definition MPLINTR : Z := 0x04.

(** The [n] bytes at [a]. *)
Definition mbytes (m : mem) (a : Z) (n : nat) : list Z := map (fun i => m (a + Z.of_nat i)) (seq 0 n).

Definition sum (m : mem) (addr len : Z) : Z := u8 (i32 (foldl (fun s i => s + m (addr + i)) 0 (seqZ 0 len))).

(** Look for an MP structure in the len bytes at addr. *)
Fixpoint mpsearch1_loop (n : nat) (m : mem) (p e : Z) : option Z :=
  match n with
  | O => None
  | S n =>
    if p <? e then
      if bool_decide (memcmp (mbytes m p 4) (chars "_MP_") 4 = Some 0) && (sum m p sizeof_mp =? 0) then Some p
      else mpsearch1_loop n m (p + sizeof_mp) e
    else None
  end.
Definition mpsearch1 (m : mem) (a len : Z) : option Z :=
  let addr := P2V a in
  mpsearch1_loop (Z.to_nat (len / sizeof_mp + 1)) m addr (addr + len).

Definition mpsearch (m : mem) : option Z :=
  let bda := P2V 0x400 in
  let p := Z.shiftl (Z.lor (Z.shiftl (m (bda + 0x0F)) 8) (m (bda + 0x0E))) 4 in
  let rest := mpsearch1 m 0xF0000 0x10000 in
  if negb (p =? 0) then
    match mpsearch1 m p 1024 with Some mp => Some mp | None => rest end
  else
    let p := Z.lor (Z.shiftl (m (bda + 0x14)) 8) (m (bda + 0x13)) * 1024 in
    match mpsearch1 m (u32 (p - 1024)) 1024 with Some mp => Some mp | None => rest end.

(** Search for an MP configuration table: the structure and the table. *)
Definition mpconfig (m : mem) : option (Z * Z) :=
  match mpsearch m with
  | None => None
  | Some mp =>
    let physaddr := mread32 m (mp + 4) in
    if physaddr =? 0 then None
    else
      let conf := P2V physaddr in
      if negb (bool_decide (memcmp (mbytes m conf 4) (chars "PCMP") 4 = Some 0)) then None
      else if negb (m (conf + 6) =? 1) && negb (m (conf + 6) =? 4) then None
      else if negb (sum m conf (mread16 m (conf + 4)) =? 0) then None
      else Some (mp, conf)
  end.

Section mp_c.
Context {D : Type} `{!Ports D}.

Record mpst := Mpst {
  mp_mem : mem;
  mp_cpus : list Z;      (* cpus[i].apicid for i < ncpu *)
  mp_ioapicid : Z;
  mp_lapic : Z;
  mp_dev : D;
}.
Definition mp_ncpu (s : mpst) : nat := length (mp_cpus s).
Definition on_mpdev {A} (m : M D A) : M mpst A :=
  fun s => match m (mp_dev s) with
           | Ret a d => Ret a (Mpst (mp_mem s) (mp_cpus s) (mp_ioapicid s) (mp_lapic s) d)
           | Fail e => Fail e
           end.

(** The loop over the entries: a switch on the type byte. An unknown entry clears [ismp] and
    leaves only the switch. *)
Fixpoint mp_entries (fuel : nat) (p e : Z) (ismp : bool) : M mpst bool :=
  match fuel with
  | O => fail NoFuel
  | S fuel =>
    if p <? e then
      let! m := gets mp_mem in
      if m p =? MPPROC then
        modify (fun s => Mpst (mp_mem s)
          (if (mp_ncpu s <? NCPU)%nat then mp_cpus s ++ [m (p + 1)] else mp_cpus s) (mp_ioapicid s) (mp_lapic s) (mp_dev s));;;
        mp_entries fuel (p + sizeof_mpproc) e ismp
      else if m p =? MPIOAPIC then
        modify (fun s => Mpst (mp_mem s) (mp_cpus s) (m (p + 1)) (mp_lapic s) (mp_dev s));;;
        mp_entries fuel (p + sizeof_mpioapic) e ismp
      else if (m p =? MPBUS) || (m p =? MPIOINTR) || (m p =? MPLINTR) then mp_entries fuel (p + 8) e ismp
      else mp_entries fuel p e false
    else ret ismp
  end.

Definition mpinit (fuel : nat) : M mpst unit :=
  let! m := gets mp_mem in
  match mpconfig m with
  | None => panic "Expect to run on an SMP"
  | Some (mp, conf) =>
    modify (fun s => Mpst (mp_mem s) (mp_cpus s) (mp_ioapicid s) (mread32 m (conf + 36)) (mp_dev s));;;
    let! ismp := mp_entries fuel (conf + sizeof_mpconf) (conf + mread16 m (conf + 4)) true in
    panic_if (negb ismp) "Didn't find a suitable machine";;;
    if negb (m (mp + 12) =? 0) then
      on_mpdev (outb 0x22 0x70);;;
      let! v := on_mpdev (inb 0x23) in
      on_mpdev (outb 0x23 (Z.lor v 1))
    else ret tt
  end.
End mp_c.
Arguments mpst : clear implicits.

(** ** The search *)

(** A floating pointer structure at [p]. *)
Definition mp_at (m : mem) (p : Z) : bool :=
  bool_decide (memcmp (mbytes m p 4) (chars "_MP_") 4 = Some 0) && (sum m p sizeof_mp =? 0).

Lemma mpsearch1_loop_spec m n : forall p e, e <= p + 16 * Z.of_nat n ->
  match mpsearch1_loop n m p e with
  | Some q => p <= q < e /\ (q - p) mod 16 = 0 /\ mp_at m q = true /\ forall q', p <= q' < q -> (q' - p) mod 16 = 0 -> mp_at m q' = false
  | None => forall q, p <= q < e -> (q - p) mod 16 = 0 -> mp_at m q = false
  end.
Proof.
  induction n as [|n IH]; intros p e He; cbn [mpsearch1_loop]; [intros q Hq; lia|].
  destruct (Z.ltb_spec p e) as [Hlt|Hge]; [|intros q Hq; lia]. fold (mp_at m p). destruct (mp_at m p) eqn:E.
  - split_and!; [lia|lia|by rewrite Z.sub_diag|done|]. intros q' Hq'. lia.
  - unfold sizeof_mp. specialize (IH (p + 16) e ltac:(lia)).
    assert (Hstep : forall q, p <= q -> (q - p) mod 16 = 0 -> q = p \/ p + 16 <= q /\ (q - (p + 16)) mod 16 = 0) by (intros q H1 H2; dlia).
    destruct (mpsearch1_loop n m (p + 16) e) as [q|].
    + destruct IH as (H1 & H2 & H3 & H4). split_and!; [lia|lia|dlia|done|]. intros q' Hq' Hm. destruct (Hstep q') as [->|[H5 H6]]; [lia|done|done|]. apply H4; [lia|done].
    + intros q Hq Hm. destruct (Hstep q) as [->|[H5 H6]]; [lia|done|done|]. apply IH; [lia|done].
Qed.

(** ** The table *)

Inductive entry :=
  | EProc (apicid : Z) (rest : list Z)     (* 18 bytes *)
  | EIoapic (apicno : Z) (rest : list Z)   (* 6 bytes *)
  | EOther (type : Z) (rest : list Z).     (* 7 bytes *)
Definition entry_bytes (e : entry) : list Z :=
  match e with
  | EProc i r => MPPROC :: i :: r
  | EIoapic i r => MPIOAPIC :: i :: r
  | EOther t r => t :: r
  end.
Definition entry_ok (e : entry) : Prop :=
  match e with
  | EProc _ r => length r = 18%nat
  | EIoapic _ r => length r = 6%nat
  | EOther t r => (t = MPBUS \/ t = MPIOINTR \/ t = MPLINTR) /\ length r = 7%nat
  end.
Definition table_bytes (es : list entry) : list Z := concat (map entry_bytes es).
Definition procs (es : list entry) : list Z := omap (fun e => match e with EProc i _ => Some i | _ => None end) es.
Definition ioapics (es : list entry) : list Z := omap (fun e => match e with EIoapic i _ => Some i | _ => None end) es.

(** Memory holds [l] at [p]. *)
Definition holds (m : mem) (p : Z) (l : list Z) : Prop := forall i b, l !! i = Some b -> m (p + Z.of_nat i) = b.
Lemma holds_app m p l1 l2 : holds m p (l1 ++ l2) -> holds m p l1 /\ holds m (p + Z.of_nat (length l1)) l2.
Proof.
  intros H. split; intros i b Hi.
  - apply H. by apply lookup_app_l_Some.
  - rewrite <- Z.add_assoc, <- Nat2Z.inj_add. apply H. rewrite lookup_app_r by lia. by replace (length l1 + i - length l1)%nat with i by lia.
Qed.
Lemma holds_cons m p b l : holds m p (b :: l) -> m p = b /\ holds m (p + 1) l.
Proof.
  intros H. split; [rewrite <- (Z.add_0_r p); by apply (H 0%nat)|]. intros i c Hi. rewrite <- Z.add_assoc. specialize (H (S i) c Hi).
  by replace (1 + Z.of_nat i) with (Z.of_nat (S i)) by lia.
Qed.

Lemma last_first (l : list Z) : forall x d, List.last (x :: l) d = List.last l x.
Proof. induction l as [|y l IH]; intros x d; [done|]. change (List.last (x :: y :: l) d) with (List.last (y :: l) d). by rewrite !IH. Qed.

Section table.
Context {D : Type} `{!Ports D}.
Implicit Types s : mpst D.

Lemma mp_entries_spec es : forall fuel p s, (length es < fuel)%nat -> Forall entry_ok es -> holds (mp_mem s) p (table_bytes es) ->
  (mp_ncpu s <= NCPU)%nat ->
  wp (mp_entries fuel p (p + Z.of_nat (length (table_bytes es))) true) (fun r s' => r = true /\
    s' = Mpst (mp_mem s) (take NCPU (mp_cpus s ++ procs es)) (List.last (ioapics es) (mp_ioapicid s)) (mp_lapic s) (mp_dev s)) s.
Proof.
  induction es as [|e es IH]; intros fuel p s Hf Hok Hm Hn; (destruct fuel as [|fuel]; [simpl in Hf; lia|]).
  - cbn [mp_entries]. rewrite (proj2 (Z.ltb_ge _ _)) by (cbn; lia). apply wp_ret. split; [done|].
    cbn [procs ioapics omap list_omap List.last]. rewrite app_nil_r, take_ge by done. by destruct s.
  - apply Forall_cons in Hok as [He Hok]. unfold table_bytes in *. cbn [map concat] in *. apply holds_app in Hm as [Hm1 Hm2]. rewrite length_app, Nat2Z.inj_add.
    cbn [length] in Hf.
    assert (Hrest : forall q s', q = p + Z.of_nat (length (entry_bytes e)) -> mp_mem s' = mp_mem s -> (mp_ncpu s' <= NCPU)%nat ->
      wp (mp_entries fuel q (p + (Z.of_nat (length (entry_bytes e)) + Z.of_nat (length (concat (map entry_bytes es))))) true)
        (fun r s'' => r = true /\ s'' = Mpst (mp_mem s) (take NCPU (mp_cpus s' ++ procs es)) (List.last (ioapics es) (mp_ioapicid s')) (mp_lapic s') (mp_dev s')) s').
    { intros q s' -> Em Hn'. rewrite Z.add_assoc. rewrite <- Em. apply IH; [lia|done|by rewrite Em|done]. }
    cbn [mp_entries]. rewrite (proj2 (Z.ltb_lt _ _)) by (destruct e; cbn; lia). apply wp_bind, wp_gets.
    destruct e as [i r|i r|t r]; cbn [entry_bytes entry_ok] in *; apply holds_cons in Hm1 as [E0 Hm1].
    + apply holds_cons in Hm1 as [E1 _]. rewrite E0, E1. cbn [Z.eqb MPPROC]. apply wp_bind, wp_modify.
      eapply wp_mono; [apply Hrest; [cbn; rewrite He; unfold sizeof_mpproc; lia|done|]|].
      * unfold mp_ncpu in *. cbn [mp_cpus]. destruct (Nat.ltb_spec (length (mp_cpus s)) NCPU); [rewrite length_app; simpl; lia|lia].
      * intros b s'' [-> ->]. split; [done|]. cbn [mp_mem mp_cpus mp_ioapicid mp_lapic mp_dev procs ioapics omap list_omap]. f_equal. unfold mp_ncpu. destruct (Nat.ltb_spec (length (mp_cpus s)) NCPU).
        -- by rewrite <- app_assoc.
        -- unfold mp_ncpu in Hn. by rewrite !take_app_length' by lia.
    + apply holds_cons in Hm1 as [E1 _]. rewrite E0, E1. cbn [Z.eqb MPPROC MPIOAPIC Pos.eqb]. apply wp_bind, wp_modify.
      eapply wp_mono; [apply Hrest; cbn; [rewrite He; unfold sizeof_mpioapic; lia|done|done]|].
      intros b s'' [-> ->]. split; [done|]. cbn [procs ioapics omap list_omap]. rewrite last_first. done.
    + destruct He as [Ht He]. rewrite E0.
      assert (H0 : (t =? MPPROC) = false) by (destruct Ht as [->|[->| ->]]; done). assert (H2 : (t =? MPIOAPIC) = false) by (destruct Ht as [->|[->| ->]]; done).
      assert (H3 : (t =? MPBUS) || (t =? MPIOINTR) || (t =? MPLINTR) = true) by (destruct Ht as [->|[->| ->]]; done). rewrite H0, H2, H3.
      eapply wp_mono; [apply Hrest; cbn; [rewrite He; lia|done|done]|]. done.
Qed.

(** The BIOS describes the machine by a table of known entries. *)
Record bios_table (m : mem) (mp conf : Z) (es : list entry) : Prop := {
  bt_found : mpconfig m = Some (mp, conf);
  bt_entries : Forall entry_ok es;
  bt_holds : holds m (conf + sizeof_mpconf) (table_bytes es);
  bt_length : mread16 m (conf + 4) = sizeof_mpconf + Z.of_nat (length (table_bytes es));
}.

(** C30: [mpinit] finds the machine the table describes: the first [NCPU]
    processors, the last I/O APIC and the address of the local APIC. *)
Theorem mpinit_finds_cpus s mp conf es fuel : bios_table (mp_mem s) mp conf es -> mp_cpus s = [] -> (length es < fuel)%nat ->
  wp (mpinit fuel) (fun _ s' => mp_cpus s' = take NCPU (procs es) /\ mp_ioapicid s' = List.last (ioapics es) (mp_ioapicid s) /\
    mp_lapic s' = mread32 (mp_mem s) (conf + 36)) s.
Proof.
  intros [Hc Hok Hh Hl] H0 Hf. unfold mpinit. apply wp_bind, wp_gets. rewrite Hc. apply wp_bind, wp_modify. rewrite Hl, Z.add_assoc.
  apply wp_bind. eapply wp_mono; [apply mp_entries_spec; try done; unfold mp_ncpu; cbn; rewrite H0; simpl; lia|]. cbn. rewrite H0.
  intros r s' [-> ->]. apply wp_bind, wp_panic_if; [done|]. destruct (negb _); [|by apply wp_ret].
  apply wp_bind. unfold on_mpdev at 1, wp at 1. cbn. unfold wp, on_mpdev, bind, inb. cbn. by destruct (port_in _ _).
Qed.

Lemma mp_entries_stuck fuel : forall p e b s, p < e -> MPLINTR < mp_mem s p -> mp_entries fuel p e b s = Fail NoFuel.
Proof.
  induction fuel as [|n IH]; intros p e b s Hp Ht; [done|]. cbn [mp_entries]. rewrite (proj2 (Z.ltb_lt _ _) Hp). krun.
  unfold MPLINTR, MPPROC, MPIOAPIC, MPBUS, MPIOINTR in *. rewrite !(proj2 (Z.eqb_neq _ _)) by lia. by apply IH.
Qed.

Lemma mp_entries_hangs es : forall fuel p e b s, Forall entry_ok es -> holds (mp_mem s) p (table_bytes es) ->
  let q := p + Z.of_nat (length (table_bytes es)) in q < e -> MPLINTR < mp_mem s q -> mp_entries fuel p e b s = Fail NoFuel.
Proof.
  induction es as [|x es IH]; intros fuel p e b s Hok Hm q Hq Ht.
  - unfold q in *. cbn in Hq, Ht. rewrite Z.add_0_r in *. by apply mp_entries_stuck.
  - destruct fuel as [|fuel]; [done|]. apply Forall_cons in Hok as [Hx Hok]. unfold table_bytes in *. cbn [map concat] in *. unfold q in *. clear q.
    apply holds_app in Hm as [Hm1 Hm2]. rewrite length_app, Nat2Z.inj_add, Z.add_assoc in Hq, Ht.
    assert (Hrest : forall q b s', q = p + Z.of_nat (length (entry_bytes x)) -> mp_mem s' = mp_mem s -> mp_entries fuel q e b s' = Fail NoFuel).
    { intros q b' s' -> Em. apply IH; rewrite ?Em; done. }
    cbn [mp_entries]. rewrite (proj2 (Z.ltb_lt _ _)) by lia. krun.
    destruct x as [i r|i r|t r]; cbn [entry_bytes entry_ok length] in *; apply holds_cons in Hm1 as [E0 _]; rewrite E0.
    + cbn [Z.eqb MPPROC]. apply Hrest; [rewrite Hx; unfold sizeof_mpproc; lia|done].
    + cbn [Z.eqb MPPROC MPIOAPIC Pos.eqb]. apply Hrest; [rewrite Hx; unfold sizeof_mpioapic; lia|done].
    + destruct Hx as [Htt Hx]. destruct Htt as [->|[->| ->]]; cbn; (apply Hrest; [rewrite Hx; lia|done]).
Qed.

(** An entry of unknown type: the [default] case leaves the switch but not
    the loop, and the pointer stays where it is. [mpinit] never returns. *)
Theorem mpinit_hangs s mp conf es fuel : mpconfig (mp_mem s) = Some (mp, conf) -> Forall entry_ok es ->
  holds (mp_mem s) (conf + sizeof_mpconf) (table_bytes es) ->
  let p := conf + sizeof_mpconf + Z.of_nat (length (table_bytes es)) in
  p < conf + mread16 (mp_mem s) (conf + 4) -> MPLINTR < mp_mem s p -> mpinit fuel s = Fail NoFuel.
Proof.
  intros Hc Hok Hh p Hp Ht. unfold mpinit. krun. rewrite Hc.
  by rewrite (mp_entries_hangs es fuel (conf + sizeof_mpconf) _ true (Mpst (mp_mem s) (mp_cpus s) (mp_ioapicid s) _ (mp_dev s)) Hok Hh Hp Ht).
Qed.
End table.

(** *** A machine with two processors *)

(** The structure at 0xF0010, the table behind it; [xs] are its entries. *)
Definition demo_table (xs : list Z) : list Z :=
  let body := chars "PCMP" ++ le_bytes 2 (44 + Z.of_nat (length xs)) ++ [4] in
  let rest := replicate 28 0 ++ le_bytes 4 0xFEE00000 ++ replicate 4 0 ++ xs in
  let s := foldl Z.add 0 (body ++ rest) in
  body ++ [(256 - s mod 256) mod 256] ++ rest.
Definition demo_mp : list Z :=
  let l := chars "_MP_" ++ le_bytes 4 0xF0020 ++ [1; 4] in
  l ++ [(256 - foldl Z.add 0 l mod 256) mod 256] ++ replicate 5 0.
Definition demo_bios (xs : list Z) : mem := fun a =>
  let i := a - P2V 0xF0010 in
  if (0 <=? i) && (i <? 16) then demo_mp !!! Z.to_nat i
  else if 16 <=? i then demo_table xs !!! Z.to_nat (i - 16) else 0.
#[local] Instance no_ports : Ports unit := {| port_in _ d := (0, d); port_out _ _ d := d; port_in32 _ d := (0, d); port_out32 _ _ d := d |}.
Definition demo_entries : list entry :=
  [EProc 0 (replicate 18 0); EProc 3 (replicate 18 0); EOther MPBUS (replicate 7 0); EIoapic 9 (replicate 6 0)].

Lemma holds_check m p l : mbytes m p (length l) = l -> holds m p l.
Proof.
  intros E i b Hi. assert (H : mbytes m p (length l) !! i = Some b) by (by rewrite E). unfold mbytes in H.
  apply list_lookup_fmap_Some in H as (j & -> & Hj). apply lookup_seq in Hj as [-> _]. done.
Qed.

Lemma mpinit_finds_cpus_witness : exists s', mpinit 5 (Mpst (demo_bios (table_bytes demo_entries)) [] 0 0 tt) = Ret tt s' /\
  mp_cpus s' = [0; 3] /\ mp_ioapicid s' = 9.
Proof.
  destruct (wp_elim _ _ _ (mpinit_finds_cpus (Mpst (demo_bios (table_bytes demo_entries)) [] 0 0 tt) (P2V 0xF0010) (P2V 0xF0020) demo_entries 5
    ltac:(constructor; [vm_compute; reflexivity|repeat constructor|apply holds_check; vm_compute; reflexivity|vm_compute; reflexivity])
    eq_refl ltac:(simpl; lia))) as ([] & s' & E & H1 & H2 & _).
  exists s'. split; [exact E|]. clear E. rewrite H1, H2. split; vm_compute; reflexivity.
Defined.

Lemma mpinit_hangs_witness : mpinit 1000 (Mpst (demo_bios (table_bytes demo_entries ++ [128; 0; 0; 0])) [] 0 0 tt) = Fail NoFuel.
Proof.
  apply (mpinit_hangs _ (P2V 0xF0010) (P2V 0xF0020) demo_entries); [vm_compute; reflexivity|repeat constructor|apply holds_check; vm_compute; reflexivity|..];
    vm_compute; reflexivity.
Defined.
