(* ===== verification/Vm.v ===== *)
(** Page tables (vm.c), over the byte memory and the allocator of Kalloc.v.

    A page directory is the kernel address of its page. Page table entries
    are 32-bit words of memory. The messages [allocuvm] prints are not
    modelled. [kend] and [kdata] are the linker's [end] and [data]. *)

From S2P Require Import Prelude Params KString Kalloc.

Definition load32 (a : Z) : M kmem Z := gets (fun s => mread32 (km_mem s) a).
Definition store32 (a v : Z) : M kmem unit :=
  modify (fun s => Kmem (mwrite32 (km_mem s) a v) (km_freelist s) (km_use_lock s)).
Definition kmemset (dst c n : Z) : M kmem unit :=
  modify (fun s => Kmem (memset (km_mem s) dst c n) (km_freelist s) (km_use_lock s)).
Definition kmemmove (dst src n : Z) : M kmem unit :=
  modify (fun s => Kmem (memmove (km_mem s) dst src n) (km_freelist s) (km_use_lock s)).

(** [*pte & bit] *)
Definition has (x bit : Z) : bool := negb (Z.land x bit =? 0).

(** Returns 0 for a null pointer. *)
Definition walkpgdir (pgdir va : Z) (alloc : bool) : M kmem Z :=
  let pde := pgdir + 4 * PDX va in
  let! e := load32 pde in
  if has e PTE_P then ret (P2V (PTE_ADDR e) + 4 * PTX va)
  else if negb alloc then ret 0
  else
    let! pgtab := kalloc in
    if pgtab =? 0 then ret 0
    else
      kmemset pgtab 0 PGSIZE;;;
      store32 pde (Z.lor (Z.lor (Z.lor (V2P pgtab) PTE_P) PTE_W) PTE_U);;;
      ret (pgtab + 4 * PTX va).

Fixpoint mappages_loop (fuel : nat) (pgdir a last pa perm : Z) : M kmem Z :=
  match fuel with
  | O => fail NoFuel
  | S fuel =>
    let! pte := walkpgdir pgdir a true in
    if pte =? 0 then ret (-1)
    else
      let! e := load32 pte in
      panic_if (has e PTE_P) "remap";;;
      store32 pte (Z.lor (Z.lor pa perm) PTE_P);;;
      if a =? last then ret 0
      else mappages_loop fuel pgdir (u32 (a + PGSIZE)) last (u32 (pa + PGSIZE)) perm
  end.

Definition mappages (pgdir va size pa perm : Z) : M kmem Z :=
  let a := PGROUNDDOWN va in
  let last := PGROUNDDOWN (u32 (va + size - 1)) in
  mappages_loop (Z.to_nat (u32 (last - a) / PGSIZE + 1)) pgdir a last pa perm.

Record kmap := KMap { virt : Z; phys_start : Z; phys_end : Z; kperm : Z }.

Section vm.
Context (kend kdata : Z).

Definition kmap_table : list kmap :=
  [ KMap KERNBASE 0 EXTMEM PTE_W;
    KMap KERNLINK (V2P KERNLINK) (V2P kdata) 0;
    KMap kdata (V2P kdata) PHYSTOP PTE_W;
    KMap DEVSPACE DEVSPACE 0 PTE_W ].

(** [for(; a < oldsz; a += PGSIZE)] of [deallocuvm]. *)
Fixpoint deallocuvm_loop (fuel : nat) (pgdir a oldsz : Z) : M kmem unit :=
  if a <? oldsz then
    match fuel with
    | O => fail NoFuel
    | S fuel =>
      let! pte := walkpgdir pgdir a false in
      let! a :=
        (if pte =? 0 then ret (u32 (PGADDR (PDX a + 1) 0 0 - PGSIZE))
         else
           let! e := load32 pte in
           (if has e PTE_P then
              let pa := PTE_ADDR e in
              panic_if (pa =? 0) "kfree";;;
              kfree kend (P2V pa);;;
              store32 pte 0
            else ret tt);;;
           ret a) in
      deallocuvm_loop fuel pgdir (u32 (a + PGSIZE)) oldsz
    end
  else ret tt.

Definition deallocuvm (pgdir oldsz newsz : Z) : M kmem Z :=
  if oldsz <=? newsz then ret oldsz
  else
    deallocuvm_loop (S (Z.to_nat (oldsz / PGSIZE))) pgdir (PGROUNDUP newsz) oldsz;;;
    ret newsz.

Definition freevm (pgdir : Z) : M kmem unit :=
  panic_if (pgdir =? 0) "freevm: no pgdir";;;
  deallocuvm pgdir KERNBASE 0;;;
  for_ (Z.to_nat NPDENTRIES) (fun i =>
    let! e := load32 (pgdir + 4 * Z.of_nat i) in
    if has e PTE_P then kfree kend (P2V (PTE_ADDR e)) else ret tt);;;
  kfree kend pgdir.

Fixpoint setupkvm_loop (l : list kmap) (pgdir : Z) : M kmem Z :=
  match l with
  | [] => ret pgdir
  | k :: l =>
    let! r := mappages pgdir (virt k) (u32 (phys_end k - phys_start k)) (phys_start k) (kperm k) in
    if r <? 0 then freevm pgdir;;; ret 0
    else setupkvm_loop l pgdir
  end.

Definition setupkvm : M kmem Z :=
  let! pgdir := kalloc in
  if pgdir =? 0 then ret 0
  else
    kmemset pgdir 0 PGSIZE;;;
    panic_if (DEVSPACE <? P2V PHYSTOP) "PHYSTOP too high";;;
    setupkvm_loop kmap_table pgdir.

(** [init] is the initial program, copied from the kernel image. *)
Definition inituvm (pgdir init sz : Z) : M kmem unit :=
  panic_if (PGSIZE <=? sz) "inituvm: more than a page";;;
  let! mem := kalloc in
  kmemset mem 0 PGSIZE;;;
  mappages pgdir 0 PGSIZE (V2P mem) (Z.lor PTE_W PTE_U);;;
  kmemmove mem init sz.

Fixpoint allocuvm_loop (fuel : nat) (pgdir a oldsz newsz : Z) : M kmem Z :=
  if a <? newsz then
    match fuel with
    | O => fail NoFuel
    | S fuel =>
      let! mem := kalloc in
      if mem =? 0 then
        deallocuvm pgdir newsz oldsz;;; ret 0
      else
        kmemset mem 0 PGSIZE;;;
        let! r := mappages pgdir a PGSIZE (V2P mem) (Z.lor PTE_W PTE_U) in
        if r <? 0 then
          deallocuvm pgdir newsz oldsz;;;
          kfree kend mem;;; ret 0
        else allocuvm_loop fuel pgdir (u32 (a + PGSIZE)) oldsz newsz
    end
  else ret newsz.

Definition allocuvm (pgdir oldsz newsz : Z) : M kmem Z :=
  if KERNBASE <=? newsz then ret 0
  else if newsz <? oldsz then ret oldsz
  else allocuvm_loop (S (Z.to_nat (newsz / PGSIZE))) pgdir (PGROUNDUP oldsz) oldsz newsz.

Definition clearpteu (pgdir uva : Z) : M kmem unit :=
  let! pte := walkpgdir pgdir uva false in
  panic_if (pte =? 0) "clearpteu";;;
  let! e := load32 pte in
  store32 pte (Z.land e (u32 (Z.lnot PTE_U))).

Fixpoint copyuvm_loop (fuel : nat) (pgdir d i sz : Z) : M kmem Z :=
  if i <? sz then
    match fuel with
    | O => fail NoFuel
    | S fuel =>
      let! pte := walkpgdir pgdir i false in
      panic_if (pte =? 0) "copyuvm: pte should exist";;;
      let! e := load32 pte in
      panic_if (negb (has e PTE_P)) "copyuvm: page not present";;;
      let pa := PTE_ADDR e in
      let flags := PTE_FLAGS e in
      let! mem := kalloc in
      if mem =? 0 then freevm d;;; ret 0
      else
        kmemmove mem (P2V pa) PGSIZE;;;
        let! r := mappages d i PGSIZE (V2P mem) flags in
        if r <? 0 then freevm d;;; ret 0
        else copyuvm_loop fuel pgdir d (u32 (i + PGSIZE)) sz
    end
  else ret d.

Definition copyuvm (pgdir sz : Z) : M kmem Z :=
  let! d := setupkvm in
  if d =? 0 then ret 0
  else copyuvm_loop (S (Z.to_nat (sz / PGSIZE))) pgdir d 0 sz.

End vm.

(** [*pte] is read without a test for a null [pte]. *)
Definition uva2ka (pgdir uva : Z) : M kmem Z :=
  let! pte := walkpgdir pgdir uva false in
  if pte =? 0 then fail Undef
  else
    let! e := load32 pte in
    if negb (has e PTE_P) then ret 0
    else if negb (has e PTE_U) then ret 0
    else ret (P2V (PTE_ADDR e)).

(** [memmove(a, ...)] of the bytes [l], which do not overlap their target. *)
Fixpoint mwrites (m : mem) (a : Z) (l : list Z) : mem :=
  match l with
  | [] => m
  | c :: l => mwrites (mwrite m a c) (a + 1) l
  end.
Definition kwrite (a : Z) (l : list Z) : M kmem unit :=
  modify (fun s => Kmem (mwrites (km_mem s) a l) (km_freelist s) (km_use_lock s)).

(** [buf] is the bytes still to be copied. *)
Fixpoint copyout_loop (fuel : nat) (pgdir va : Z) (buf : list Z) : M kmem Z :=
  match buf with
  | [] => ret 0
  | _ =>
    match fuel with
    | O => fail NoFuel
    | S fuel =>
      let va0 := PGROUNDDOWN va in
      let! pa0 := uva2ka pgdir va0 in
      if pa0 =? 0 then ret (-1)
      else
        let n := Z.min (u32 (PGSIZE - (va - va0))) (Z.of_nat (length buf)) in
        kwrite (pa0 + (va - va0)) (take (Z.to_nat n) buf);;;
        copyout_loop fuel pgdir (u32 (va0 + PGSIZE)) (drop (Z.to_nat n) buf)
    end
  end.

Definition copyout (pgdir va : Z) (p : list Z) : M kmem Z :=
  copyout_loop (length p) pgdir va p.
