(* ===== verification/VmProofs.v ===== *)
(** What the page table code of vm.c does to the translation of addresses.

    [translate] is the walk of the hardware. [pgt_ok] says that a page
    directory and its page tables are separate pages, none of them free. *)

From S2P Require Import Prelude Params KString Kalloc Vm.

(** *** Words in memory *)

Definition bytes_ok (m : mem) : Prop := forall x, is_u8 (m x).

Lemma mread32_u32 m a : bytes_ok m -> is_u32 (mread32 m a).
Proof.
  intros H. unfold mread32. pose proof (H a). pose proof (H (a + 1)). pose proof (H (a + 2)).
  pose proof (H (a + 3)). unfold is_u8, is_u32 in *. lia.
Qed.

Lemma mwrite32_ne m a v x : x < a \/ a + 4 <= x -> mwrite32 m a v x = m x.
Proof. intros H. unfold mwrite32, mwrite. by rewrite !decide_False by lia. Qed.

Lemma mread32_write_ne m a v b : b + 4 <= a \/ a + 4 <= b -> mread32 (mwrite32 m a v) b = mread32 m b.
Proof. intros H. apply mread32_ext. intros x Hx. apply mwrite32_ne. lia. Qed.

Lemma bytes_ok_write32 m a v : bytes_ok m -> bytes_ok (mwrite32 m a v).
Proof.
  intros H x. unfold mwrite32, mwrite. repeat case_decide; try apply u8_range. apply H.
Qed.

Lemma bytes_ok_memset m a c n : 0 <= a < 4294967296 -> 0 <= n -> bytes_ok m -> bytes_ok (memset m a c n).
Proof. intros Ha Hn H x. rewrite memset_spec by done. case_decide; [apply u8_range|apply H]. Qed.

Lemma mread32_zeros m a n b :
  0 <= a < 4294967296 -> a <= b -> b + 4 <= a + n -> mread32 (memset m a 0 n) b = 0.
Proof.
  intros Ha Hb Hn. unfold mread32. rewrite !memset_spec by lia.
  by rewrite !decide_True by lia.
Qed.

Lemma mread32_memset_ne m a c n b :
  0 <= a < 4294967296 -> 0 <= n -> b + 4 <= a \/ a + n <= b ->
  mread32 (memset m a c n) b = mread32 m b.
Proof.
  intros Ha Hn Hb. apply mread32_ext. intros x Hx. rewrite memset_spec by done.
  by rewrite decide_False by lia.
Qed.

(** *** The translation *)

Definition pt_page (e : Z) : Z := P2V (PTE_ADDR e).

(** The address of the page table entry of [va]. *)
Definition walk (m : mem) (pgdir va : Z) : option Z :=
  let e := mread32 m (pgdir + 4 * PDX va) in
  if has e PTE_P then Some (pt_page e + 4 * PTX va) else None.

(** The physical page and the flags of [va]. *)
Definition translate (m : mem) (pgdir va : Z) : option (Z * Z) :=
  match walk m pgdir va with
  | Some a => let e := mread32 m a in
              if has e PTE_P then Some (PTE_ADDR e, PTE_FLAGS e) else None
  | None => None
  end.

(** *** Entries *)

Lemma lor_flags pa f : pa mod 4096 = 0 -> 0 <= f < 4096 -> Z.lor pa f = pa + f.
Proof.
  intros Hp Hf. replace pa with (Z.shiftl (pa / 4096) 12) at 1
    by (rewrite Z.shiftl_mul_pow2 by lia; change (2 ^ 12) with 4096; dlia).
  rewrite lor_low by lia. change (2 ^ 12) with 4096. dlia.
Qed.

Lemma has_P x : has x PTE_P = Z.odd x.
Proof. unfold has, PTE_P. change 1 with (2 ^ 0) at 1. rewrite land_bit by lia. by rewrite Z.bit0_odd. Qed.

Lemma has_P_0 : has 0 PTE_P = false.
Proof. reflexivity. Qed.

(** An entry made of a page address and flags. *)
Lemma entry_parts pa f : is_u32 pa -> pa mod 4096 = 0 -> 0 <= f < 4096 -> Z.odd f = true ->
  let e := pa + f in
  is_u32 e /\ has e PTE_P = true /\ PTE_ADDR e = pa /\ PTE_FLAGS e = f.
Proof.
  intros Hu Hp Hf Ho e. assert (is_u32 e) as He by (unfold e, is_u32 in *; dlia).
  split_and!; [done| | |].
  - rewrite has_P. unfold e. rewrite Z.odd_add, Ho.
    assert (Z.odd pa = false) as ->; [|done].
    rewrite <- Z.negb_even. apply negb_false_iff, Z.even_spec. exists (pa / 2). dlia.
  - rewrite PTE_ADDR_eq by done. unfold e. dlia.
  - rewrite PTE_FLAGS_eq by done. unfold e. dlia.
Qed.

Section vm_proofs.
Context (kend : Z).

(** [T] are the page tables of [pgdir], [l] the free pages. *)
Record pgt_ok (s : kmem) (l : list Z) (pgdir : Z) (T : list Z) : Prop := {
  pt_kmem : kmem_ok kend s l;
  pt_bytes : bytes_ok (km_mem s);
  pt_nodup : NoDup (pgdir :: T ++ l);
  pt_pages : Forall (is_page kend) (pgdir :: T);
  pt_pde : forall d, 0 <= d < 1024 -> has (mread32 (km_mem s) (pgdir + 4 * d)) PTE_P = true ->
    pt_page (mread32 (km_mem s) (pgdir + 4 * d)) ∈ T;
  pt_inj : forall d d', 0 <= d < 1024 -> 0 <= d' < 1024 ->
    has (mread32 (km_mem s) (pgdir + 4 * d)) PTE_P = true ->
    has (mread32 (km_mem s) (pgdir + 4 * d')) PTE_P = true ->
    pt_page (mread32 (km_mem s) (pgdir + 4 * d)) = pt_page (mread32 (km_mem s) (pgdir + 4 * d')) ->
    d = d';
  pt_used : forall q, q ∈ T -> exists d, 0 <= d < 1024 /\
    has (mread32 (km_mem s) (pgdir + 4 * d)) PTE_P = true /\ pt_page (mread32 (km_mem s) (pgdir + 4 * d)) = q;
}.

Lemma PDX_range va : is_u32 va -> 0 <= PDX va < 1024.
Proof. intros H. rewrite PDX_eq by done. unfold is_u32 in *. dlia. Qed.

Lemma PTX_range va : is_u32 va -> 0 <= PTX va < 1024.
Proof. intros H. rewrite PTX_eq by done. apply Z.mod_pos_bound. lia. Qed.

(** Two pages that are not the same do not overlap. *)
Lemma pages_apart p q : is_page kend p -> is_page kend q -> p <> q ->
  p + PGSIZE <= q \/ q + PGSIZE <= p.
Proof. unfold is_page, PGSIZE. intros (? & _) (? & _) ?. dlia. Qed.

(** Memory outside the pages [L] is as before. *)
Definition untouched (L : list Z) (m m' : mem) : Prop :=
  forall x, (forall p, p ∈ L -> x < p \/ p + PGSIZE <= x) -> m' x = m x.

Lemma untouched_refl L m : untouched L m m.
Proof. by intros x _. Qed.
Lemma untouched_trans L m1 m2 m3 : untouched L m1 m2 -> untouched L m2 m3 -> untouched L m1 m3.
Proof. intros H1 H2 x Hx. by rewrite H2, H1. Qed.
Lemma untouched_mono L L' m m' : untouched L m m' -> L ⊆ L' -> untouched L' m m'.
Proof. intros H HL x Hx. apply H. intros p Hp. by apply Hx, HL. Qed.

Section state.
Context (s : kmem) (l : list Z) (pgdir : Z) (T : list Z) (O : pgt_ok s l pgdir T).

Lemma table_page d : 0 <= d < 1024 -> has (mread32 (km_mem s) (pgdir + 4 * d)) PTE_P = true ->
  let q := pt_page (mread32 (km_mem s) (pgdir + 4 * d)) in
  q ∈ T /\ is_page kend q /\ q <> pgdir /\ (q ∉ l) /\ 0 < q.
Proof.
  intros Hd Hp q. pose proof (pt_pde _ _ _ _ O d Hd Hp) as Hq. fold q in Hq.
  pose proof (pt_pages _ _ _ _ O) as Hpg. apply Forall_cons in Hpg as [_ HT].
  rewrite Forall_forall in HT. pose proof (HT q Hq) as Hqp.
  pose proof (pt_nodup _ _ _ _ O) as Hn. apply NoDup_cons in Hn as [Hn1 Hn2].
  apply NoDup_app in Hn2 as (_ & Hn2 & _).
  split_and!; [done|done| |by apply Hn2|apply (page_range kend q Hqp)].
  intros ->. apply Hn1. apply elem_of_app. by left.
Qed.

Lemma pgdir_page : is_page kend pgdir.
Proof. pose proof (pt_pages _ _ _ _ O) as H. by apply Forall_cons in H as [? _]. Qed.

(** [walkpgdir] without allocation is [walk]. *)
Lemma walkpgdir_lookup va : is_u32 va ->
  walkpgdir pgdir va false s = Ret (default 0 (walk (km_mem s) pgdir va)) s /\
  walk (km_mem s) pgdir va <> Some 0.
Proof.
  intros Hva. unfold walkpgdir, walk, load32. krun. simpl.
  pose proof (PDX_range va Hva) as Hd. destruct (has _ PTE_P) eqn:E; [|done].
  split; [done|]. destruct (table_page _ Hd E) as (_ & _ & _ & _ & Hq).
  pose proof (PTX_range va Hva). intros [=]. unfold pt_page in *. lia.
Qed.

End state.

(** The directory entry [walkpgdir] makes for a new page table. *)
Lemma new_pde q : is_page kend q ->
  let e := Z.lor (Z.lor (Z.lor (V2P q) PTE_P) PTE_W) PTE_U in
  is_u32 e /\ has e PTE_P = true /\ pt_page e = q.
Proof.
  intros Hq e. pose proof (V2P_page kend q Hq) as Ev. unfold is_page in Hq.
  unfold PGSIZE, KERNBASE, PHYSTOP in *.
  assert (e = V2P q + 7) as E.
  { unfold e. rewrite <- !Z.lor_assoc. apply (lor_flags (V2P q) 7); [rewrite Ev; dlia|lia]. }
  destruct (entry_parts (V2P q) 7) as (H1 & H2 & H3 & _);
    [rewrite Ev; unfold is_u32; lia|rewrite Ev; dlia|lia|done|].
  rewrite E. split_and!; [done|done|]. unfold pt_page. rewrite H3, Ev. unfold P2V, KERNBASE.
  rewrite u32_small by (unfold is_u32; lia). lia.
Qed.

(** The words of memory after [walkpgdir] has made page [q] a page table. *)
Lemma new_table_words m q pgdir d e :
  is_page kend q -> is_page kend pgdir -> q <> pgdir -> 0 <= d < 1024 -> is_u32 e ->
  let m' := mwrite32 (memset m q 0 PGSIZE) (pgdir + 4 * d) e in
  mread32 m' (pgdir + 4 * d) = e /\
  (forall d', 0 <= d' < 1024 -> d' <> d -> mread32 m' (pgdir + 4 * d') = mread32 m (pgdir + 4 * d')) /\
  (forall k, 0 <= k < 1024 -> mread32 m' (q + 4 * k) = 0) /\
  (forall p k, is_page kend p -> p <> q -> p <> pgdir -> 0 <= k < 1024 ->
     mread32 m' (p + 4 * k) = mread32 m (p + 4 * k)).
Proof.
  intros Hq Hp Hne Hd He m'. pose proof (page_range _ _ Hq). pose proof (page_range _ _ Hp).
  pose proof (pages_apart _ _ Hq Hp Hne). unfold PGSIZE in *. split_and!.
  - by apply mread32_write.
  - intros d' Hd' Hdd. unfold m'. rewrite mread32_write_ne by lia. apply mread32_memset_ne; lia.
  - intros k Hk. unfold m'. rewrite mread32_write_ne by lia. apply mread32_zeros; lia.
  - intros p k Hpp Hpq Hpd Hk. pose proof (pages_apart _ _ Hpp Hq Hpq).
    pose proof (pages_apart _ _ Hpp Hp Hpd). unfold PGSIZE in *. unfold m'.
    rewrite mread32_write_ne by lia. apply mread32_memset_ne; lia.
Qed.

Lemma page_word p m m' : (forall k, 0 <= k < 1024 -> mread32 m' (p + 4 * k) = mread32 m (p + 4 * k)) ->
  mread32 m' p = mread32 m p.
Proof. intros H. specialize (H 0). rewrite Z.mul_0_r, Z.add_0_r in H. apply H. lia. Qed.

(** A page table for [va] that was not there: one free page becomes an empty
    page table, and no translation changes. *)
Lemma walkpgdir_new s q l pgdir T va :
  pgt_ok s (q :: l) pgdir T -> is_u32 va -> walk (km_mem s) pgdir va = None ->
  exists s', walkpgdir pgdir va true s = Ret (q + 4 * PTX va) s' /\
    pgt_ok s' l pgdir (q :: T) /\
    walk (km_mem s') pgdir va = Some (q + 4 * PTX va) /\ untouched [pgdir; q] (km_mem s) (km_mem s') /\
    (forall va', is_u32 va' -> translate (km_mem s') pgdir va' = translate (km_mem s) pgdir va').
Proof.
  intros O Hva Hw. pose proof (PDX_range va Hva) as Hd. pose proof (PTX_range va Hva) as Ht.
  unfold walk in Hw. destruct (has _ PTE_P) eqn:Ep; [done|]. clear Hw.
  pose proof (pgdir_page _ _ _ _ O) as Hpd. pose proof (page_range _ _ Hpd) as Hpr.
  pose proof (ko_pages _ _ _ (pt_kmem _ _ _ _ O)) as Hpl. apply Forall_cons in Hpl as [Hq Hpl].
  pose proof (page_range _ _ Hq) as Hqr. destruct (new_pde q Hq) as (He1 & He2 & He3).
  set (e := Z.lor _ PTE_U) in *.
  destruct (wp_elim _ _ _ (kalloc_spec kend s _ (pt_kmem _ _ _ _ O)))
    as (r & s1 & E1 & Em & -> & Hq0 & Hk1).
  pose proof (pt_nodup _ _ _ _ O) as Hnd. rewrite NoDup_cons, NoDup_app, not_elem_of_app in Hnd.
  destruct Hnd as ((HdT & Hdl) & HnT & HTl & Hnl). apply NoDup_cons in Hnl as [Hql Hnl].
  assert (q <> pgdir) as Hqd by set_solver.
  destruct (new_table_words (km_mem s) q pgdir (PDX va) e Hq Hpd Hqd Hd He1) as (W1 & W2 & W3 & W4).
  set (m' := mwrite32 _ _ e) in *.
  assert (walk m' pgdir va = Some (q + 4 * PTX va)) as Hwalk.
  { unfold walk. rewrite W1, He2, He3. done. }
  exists (Kmem m' (km_freelist s1) (km_use_lock s1)). simpl. split_and!; [| |done| |].
  - unfold walkpgdir.
    rewrite (bind_Ret (load32 (pgdir + 4 * PDX va)) _ s (mread32 (km_mem s) (pgdir + 4 * PDX va)) s eq_refl).
    rewrite Ep. cbn [negb]. rewrite (bind_Ret _ _ _ _ _ E1). rewrite (proj2 (Z.eqb_neq q 0)) by done.
    unfold m', kmemset, store32. krun. simpl. by rewrite Em.
  - assert (forall d', 0 <= d' < 1024 -> d' <> PDX va ->
      has (mread32 (km_mem s) (pgdir + 4 * d')) PTE_P = true ->
      pt_page (mread32 (km_mem s) (pgdir + 4 * d')) <> q) as Hold.
    { intros d' Hd' _ Hp'. pose proof (pt_pde _ _ _ _ O d' Hd' Hp'). intros E. rewrite E in H. set_solver. }
    constructor; simpl.
    + apply kmem_ok_write; [done|]. intros p Hp. rewrite Em. apply page_word. intros k Hk.
      rewrite Forall_forall in Hpl. apply W4; [by apply Hpl|set_solver|set_solver|done].
    + unfold m'. apply bytes_ok_write32, bytes_ok_memset; [unfold PGSIZE in *; lia|unfold PGSIZE; lia|].
      apply (pt_bytes _ _ _ _ O).
    + rewrite NoDup_cons, NoDup_cons, NoDup_app, !not_elem_of_cons, !not_elem_of_app.
      split_and!; try done; set_solver.
    + pose proof (pt_pages _ _ _ _ O) as Hpp. apply Forall_cons in Hpp as [_ HT].
      constructor; [done|]. by constructor.
    + intros d' Hd'. destruct (decide (d' = PDX va)) as [->|Hne]; [rewrite W1, He3; set_solver|].
      rewrite W2 by done. intros Hp. pose proof (pt_pde _ _ _ _ O d' Hd' Hp). set_solver.
    + intros d1 d2 Hd1 Hd2. destruct (decide (d1 = PDX va)) as [->|N1], (decide (d2 = PDX va)) as [->|N2];
        rewrite ?W1, ?W2 by done; try done; rewrite ?He3.
      * intros _ Hp E. by destruct (Hold d2 Hd2 N2 Hp).
      * intros Hp _ E. by destruct (Hold d1 Hd1 N1 Hp).
      * intros. by apply (pt_inj _ _ _ _ O).
    + intros p [->|Hp]%elem_of_cons; [exists (PDX va); by rewrite W1|].
      destruct (pt_used _ _ _ _ O p Hp) as (d' & Hd' & Hp' & <-). exists d'. rewrite W2; [done|done|]. intros ->. congruence.
  - intros x Hx. pose proof (Hx pgdir ltac:(set_solver)). pose proof (Hx q ltac:(set_solver)). unfold m', PGSIZE in *.
    rewrite mwrite32_ne by lia. rewrite memset_spec by lia. by rewrite decide_False by lia.
  - intros va' Hva'. pose proof (PDX_range va' Hva') as Hd'. pose proof (PTX_range va' Hva') as Ht'.
    unfold translate, walk. destruct (decide (PDX va' = PDX va)) as [E|E].
    + rewrite E, W1, He2, He3, Ep, W3 by done. done.
    + rewrite W2 by done. destruct (has (mread32 (km_mem s) (pgdir + 4 * PDX va')) PTE_P) eqn:Ep'; [|done].
      destruct (table_page _ _ _ _ O _ Hd' Ep') as (H1 & H2 & H3 & H4 & _).
      rewrite W4; [done|done|set_solver|done|done].
Qed.

(** *** Storing an entry *)

Lemma same_page va va' : is_u32 va -> is_u32 va' ->
  va' / 4096 = va / 4096 <-> PDX va' = PDX va /\ PTX va' = PTX va.
Proof. intros H H'. rewrite !PDX_eq, !PTX_eq by done. unfold is_u32 in *. dlia. Qed.

Definition decode (e : Z) : option (Z * Z) :=
  if has e PTE_P then Some (PTE_ADDR e, PTE_FLAGS e) else None.

Lemma store_pte s l pgdir T va a e :
  pgt_ok s l pgdir T -> is_u32 va -> walk (km_mem s) pgdir va = Some a -> is_u32 e ->
  exists s', store32 a e s = Ret tt s' /\ pgt_ok s' l pgdir T /\ untouched T (km_mem s) (km_mem s') /\
    forall va', is_u32 va' -> translate (km_mem s') pgdir va' =
      if decide (va' / 4096 = va / 4096) then decode e else translate (km_mem s) pgdir va'.
Proof.
  intros O Hva Hw He. pose proof (PDX_range va Hva) as Hd. pose proof (PTX_range va Hva) as Ht.
  unfold walk in Hw. destruct (has _ PTE_P) eqn:Ep; [|done]. injection Hw as <-.
  destruct (table_page _ _ _ _ O _ Hd Ep) as (HqT & Hq & Hqd & Hql & Hq0).
  set (q := pt_page _) in *. set (m := km_mem s) in *. set (m' := mwrite32 m (q + 4 * PTX va) e).
  pose proof (pgdir_page _ _ _ _ O) as Hpd.
  assert (forall p k, is_page kend p -> p <> q -> 0 <= k < 1024 -> mread32 m' (p + 4 * k) = mread32 m (p + 4 * k)) as W.
  { intros p k Hp Hne Hk. apply mread32_write_ne. pose proof (pages_apart _ _ Hp Hq Hne).
    unfold PGSIZE in *. lia. }
  assert (forall d, 0 <= d < 1024 -> mread32 m' (pgdir + 4 * d) = mread32 m (pgdir + 4 * d)) as Wd
    by (intros d Hd'; by apply W).
  eexists. split; [done|]. split_and!.
  - destruct O as [Hk Hb Hn Hp Hpde Hinj Hus]. fold m in Hk, Hb, Hpde, Hinj, Hus. constructor; simpl; fold m m'.
    + apply kmem_ok_write; [done|]. intros p Hpl. apply page_word. intros k Hk'.
      pose proof (ko_pages _ _ _ Hk) as Hpg. rewrite Forall_forall in Hpg.
      apply W; [by apply Hpg| |done]. by intros ->.
    + by apply bytes_ok_write32.
    + done.
    + done.
    + intros d Hd'. rewrite Wd by done. by apply Hpde.
    + intros d d' Hd1 Hd2. rewrite !Wd by done. by apply Hinj.
    + intros p Hp'. destruct (Hus p Hp') as (d & Hd' & H1 & H2). exists d. by rewrite Wd.
  - intros x Hx. specialize (Hx q HqT). simpl. fold m m'. unfold m', PGSIZE in *. by rewrite mwrite32_ne by lia.
  - intros va' Hva'. simpl. fold m m'.
    pose proof (PDX_range va' Hva') as Hd'. pose proof (PTX_range va' Hva') as Ht'.
    unfold translate, walk. rewrite Wd by done. case_decide as E.
    + apply same_page in E as [-> ->]; [|done|done]. fold q. rewrite Ep.
      unfold m'. rewrite mread32_write by done. done.
    + destruct (has (mread32 m (pgdir + 4 * PDX va')) PTE_P) eqn:Ep'; [|done].
      destruct (table_page _ _ _ _ O _ Hd' Ep') as (_ & Hq' & _). fold m in Hq'.
      set (q' := pt_page (mread32 m (pgdir + 4 * PDX va'))) in *.
      destruct (decide (q' = q)) as [Eq|Eq]; [|by rewrite W].
      assert (PDX va' = PDX va) as Ed by (apply (pt_inj _ _ _ _ O); done).
      rewrite Eq. unfold m'. rewrite mread32_write_ne; [done|].
      assert (PTX va' <> PTX va) by (intros Et; apply E, same_page; done). lia.
Qed.

(** *** mappages *)

Lemma walk_none_translate m pgdir va : walk m pgdir va = None -> translate m pgdir va = None.
Proof. unfold translate. by intros ->. Qed.

(** The entry for [va] exists afterwards, unless memory is exhausted. *)
Lemma walkpgdir_alloc s l pgdir T va :
  pgt_ok s l pgdir T -> is_u32 va ->
  wp (walkpgdir pgdir va true) (fun r s' =>
    (forall va', is_u32 va' -> translate (km_mem s') pgdir va' = translate (km_mem s) pgdir va') /\
    ((exists l' T', pgt_ok s' l' pgdir T' /\ T' ++ l' ≡ₚ T ++ l /\ untouched (pgdir :: T ++ l) (km_mem s) (km_mem s') /\ walk (km_mem s') pgdir va = Some r /\ r <> 0) \/
     (r = 0 /\ l = [] /\ s' = s))) s.
Proof.
  intros O Hva. destruct (walk (km_mem s) pgdir va) as [a|] eqn:Ew.
  - assert (walkpgdir pgdir va true s = Ret a s) as E.
    { unfold walk in Ew. unfold walkpgdir, load32. krun. destruct (has _ PTE_P); [|done].
      by injection Ew as <-. }
    eapply wp_intro; [exact E|]. split; [done|]. left. exists l, T. split_and!; [done|done|apply untouched_refl|done|].
    intros ->. by destruct (walkpgdir_lookup s l pgdir T O va Hva).
  - destruct l as [|q l].
    + assert (walkpgdir pgdir va true s = Ret 0 s) as E.
      { unfold walk in Ew. unfold walkpgdir, load32, kalloc. krun. destruct (has _ PTE_P); [done|].
        pose proof (ko_chain _ _ _ (pt_kmem _ _ _ _ O)) as Hc. simpl in Hc. rewrite Hc. done. }
      eapply wp_intro; [exact E|]. auto.
    + destruct (walkpgdir_new s q l pgdir T va O Hva Ew) as (s' & E & O' & Hw & Hu & Ht).
      eapply wp_intro; [exact E|]. split; [done|]. left. exists l, (q :: T).
      split_and!; [done|apply Permutation_middle|eapply untouched_mono; [done|set_solver]|done|].
      pose proof (pt_pages _ _ _ _ O') as Hp. rewrite !Forall_cons in Hp. destruct Hp as (_ & Hq & _).
      pose proof (page_range _ _ Hq). pose proof (PTX_range va Hva). lia.
Qed.

(** [n] pages from [a] map to the pages from [pa], with flags [f]. *)
Definition mapped (m m' : mem) (pgdir a pa f : Z) (n : nat) : Prop :=
  forall va, is_u32 va -> translate m' pgdir va =
    if decide (a <= va < a + 4096 * Z.of_nat n)
    then Some (pa + 4096 * ((va - a) / 4096), f) else translate m pgdir va.

Lemma lor_perm perm : 0 <= perm < 4096 -> 0 <= Z.lor perm 1 < 4096 /\ Z.odd (Z.lor perm 1) = true.
Proof.
  intros H. split.
  - split; [apply Z.lor_nonneg; lia|]. destruct (decide (Z.lor perm 1 = 0)) as [->|]; [lia|].
    apply Z.log2_lt_cancel. rewrite Z.log2_lor by lia. change (Z.log2 4096) with 12. change (Z.log2 1) with 0.
    apply Z.max_lub_lt; [|lia]. destruct (decide (perm = 0)) as [->|]; [done|]. apply Z.log2_lt_pow2; lia.
  - rewrite <- Z.bit0_odd, Z.lor_spec. apply orb_true_r.
Qed.

(** One page: the entry of [a] is set, or memory is exhausted. *)
Lemma map_page s l pgdir T a pa perm (k : M kmem Z) (Q : Z -> kmem -> Prop) :
  pgt_ok s l pgdir T -> is_u32 a -> a mod 4096 = 0 -> is_u32 pa -> pa mod 4096 = 0 ->
  0 <= perm < 4096 -> translate (km_mem s) pgdir a = None ->
  (forall s' l' T', pgt_ok s' l' pgdir T' -> T' ++ l' ≡ₚ T ++ l -> untouched (pgdir :: T ++ l) (km_mem s) (km_mem s') ->
     mapped (km_mem s) (km_mem s') pgdir a pa (Z.lor perm PTE_P) 1 -> wp k Q s') ->
  (l = [] -> Q (-1) s) ->
  wp (let! pte := walkpgdir pgdir a true in
      if pte =? 0 then ret (-1)
      else
        let! e := load32 pte in
        panic_if (has e PTE_P) "remap";;;
        store32 pte (Z.lor (Z.lor pa perm) PTE_P);;; k) Q s.
Proof.
  intros O Ha Ham Hpa Hpam Hperm Hnone HQ Hfull. apply wp_bind.
  eapply wp_mono; [by apply (walkpgdir_alloc s l pgdir T a)|].
  intros r s1 [Ht [(l' & T' & O1 & HP & Hu & Hw & Hr)|(-> & -> & ->)]]; [|apply wp_ret; by apply Hfull].
  rewrite (proj2 (Z.eqb_neq r 0)) by done. apply wp_bind, wp_gets.
  assert (has (mread32 (km_mem s1) r) PTE_P = false) as Hp.
  { rewrite <- (Ht a Ha) in Hnone. unfold translate in Hnone. rewrite Hw in Hnone.
    by destruct (has _ PTE_P). }
  apply wp_bind, wp_panic_if; [done|].
  destruct (lor_perm perm Hperm) as [Hf Ho].
  assert (Z.lor (Z.lor pa perm) PTE_P = pa + Z.lor perm PTE_P) as Ee.
  { rewrite <- Z.lor_assoc. by apply lor_flags. }
  destruct (entry_parts pa (Z.lor perm PTE_P) Hpa Hpam Hf Ho) as (He & Hhas & Hadr & Hfl).
  rewrite Ee. destruct (store_pte s1 l' pgdir T' a r _ O1 Ha Hw He) as (s2 & E2 & O2 & Hu2 & T2).
  apply wp_bind. eapply wp_intro; [exact E2|]. apply (HQ s2 l' T' O2 HP).
  { eapply untouched_trans; [exact Hu|]. eapply untouched_mono; [exact Hu2|]. rewrite <- HP. set_solver. }
  intros va Hva. rewrite T2 by done. unfold decode. rewrite Hhas, Hadr, Hfl.
  repeat case_decide; try dlia; [|by apply Ht]. do 2 f_equal. dlia.
Qed.

Lemma mapped_trans m m1 m2 pgdir a pa f n :
  0 <= a -> a mod 4096 = 0 ->
  mapped m m1 pgdir a pa f 1 -> mapped m1 m2 pgdir (a + 4096) (pa + 4096) f n ->
  mapped m m2 pgdir a pa f (S n).
Proof.
  intros Ha Hm H1 H2 va Hva. rewrite H2 by done. case_decide as D2.
  - rewrite decide_True by lia. do 2 f_equal. dlia.
  - rewrite H1 by done. repeat case_decide; try lia; done.
Qed.

(** The whole range is mapped, or memory is exhausted. *)
Lemma mappages_loop_spec n : forall s l pgdir T a pa perm,
  pgt_ok s l pgdir T -> 0 <= a -> a mod 4096 = 0 -> a + 4096 * Z.of_nat (S n) <= 4294967296 ->
  0 <= pa -> pa mod 4096 = 0 -> pa + 4096 * Z.of_nat (S n) <= 4294967296 -> 0 <= perm < 4096 ->
  (forall va, a <= va < a + 4096 * Z.of_nat (S n) -> translate (km_mem s) pgdir va = None) ->
  wp (mappages_loop (S n) pgdir a (a + 4096 * Z.of_nat n) pa perm) (fun r s' =>
    exists l' T' j, pgt_ok s' l' pgdir T' /\ T' ++ l' ≡ₚ T ++ l /\ untouched (pgdir :: T ++ l) (km_mem s) (km_mem s') /\
      mapped (km_mem s) (km_mem s') pgdir a pa (Z.lor perm PTE_P) j /\
      (r = 0 /\ j = S n \/ r = -1 /\ l' = [] /\ (j < S n)%nat)) s.
Proof.
  induction n as [|n IH]; intros s l pgdir T a pa perm O Ha Ham Hal Hpa Hpam Hpl Hperm Hnone.
  all: eapply (map_page s l pgdir T a pa perm); try done;
    try (unfold is_u32; lia); try (apply Hnone; lia).
  all: try (intros ->; exists [], T, 0%nat; split_and!; [done|done|apply untouched_refl| |right; split_and!; [done|done|lia]];
    intros va Hva; by rewrite decide_False by lia).
  - intros s1 l1 T1 O1 HP1 Hu1 M1. rewrite Z.mul_0_r, Z.add_0_r, Z.eqb_refl. apply wp_ret.
    exists l1, T1, 1%nat. auto 10.
  - intros s1 l1 T1 O1 HP1 Hu1 M1. rewrite (proj2 (Z.eqb_neq a _)) by lia. unfold PGSIZE.
    rewrite !u32_small by (unfold is_u32; lia).
    replace (a + 4096 * Z.of_nat (S n)) with (a + 4096 + 4096 * Z.of_nat n) by lia.
    eapply wp_mono; [apply (IH s1 l1 pgdir T1 (a + 4096) (pa + 4096) perm O1); try lia; try dlia|].
    + intros va Hva. rewrite M1 by (unfold is_u32; lia). rewrite decide_False by lia. apply Hnone. lia.
    + intros r s2 (l2 & T2 & j & O2 & HP2 & Hu2 & M2 & Hr). exists l2, T2, (S j). split_and!; [done|by rewrite HP2| | |].
      * eapply untouched_trans; [exact Hu1|]. eapply untouched_mono; [exact Hu2|]. by rewrite HP1.
      * by eapply mapped_trans.
      * destruct Hr as [[-> ->]|(-> & -> & ?)]; [by left|right]. split_and!; [done|done|lia].
Qed.

(** [mappages] never panics on a range that is not mapped yet and returns: it
    maps the pages of the range from the first on, each to its frame and with
    the permissions given, and changes no other translation of the page table.
    It maps all of them and returns 0, or it has used up the free pages and
    returns -1. *)
Theorem mappages_spec s l pgdir T va size pa perm :
  pgt_ok s l pgdir T -> is_u32 va -> 0 < size -> va + size <= 4294967296 ->
  0 <= pa -> pa mod 4096 = 0 ->
  let a := 4096 * (va / 4096) in
  let n := (va + size - 1) / 4096 - va / 4096 in
  pa + 4096 * (n + 1) <= 4294967296 -> 0 <= perm < 4096 ->
  (forall x, a <= x < a + 4096 * (n + 1) -> translate (km_mem s) pgdir x = None) ->
  wp (mappages pgdir va size pa perm) (fun r s' =>
    exists l' T' j, pgt_ok s' l' pgdir T' /\ T' ++ l' ≡ₚ T ++ l /\ untouched (pgdir :: T ++ l) (km_mem s) (km_mem s') /\
      mapped (km_mem s) (km_mem s') pgdir a pa (Z.lor perm PTE_P) j /\
      (r = 0 /\ j = Z.to_nat (n + 1) \/ r = -1 /\ l' = [] /\ (j < Z.to_nat (n + 1))%nat)) s.
Proof.
  intros O Hva Hs Hl Hpa Hpam a n Hpl Hperm Hnone. unfold mappages, is_u32 in *.
  rewrite (u32_small (va + size - 1)) by (unfold is_u32; lia).
  rewrite !PGROUNDDOWN_eq by (unfold is_u32; lia). unfold PGSIZE. fold a.
  assert (0 <= n) as Hn by (unfold n; dlia).
  assert (4096 * ((va + size - 1) / 4096) = a + 4096 * Z.of_nat (Z.to_nat n)) as El by (unfold a, n in *; lia).
  rewrite El. replace (u32 (a + 4096 * Z.of_nat (Z.to_nat n) - a) / 4096 + 1) with (n + 1).
  2: { rewrite u32_small by (unfold is_u32, n in *; dlia). dlia. }
  replace (Z.to_nat (n + 1)) with (S (Z.to_nat n)) by lia.
  apply (mappages_loop_spec (Z.to_nat n) s l pgdir T a pa perm); try done; try (unfold a, n in *; dlia).
  intros x Hx. apply Hnone. lia.
Qed.

End vm_proofs.

(** An empty page directory and one free page: mapping a page of user memory
    takes the free page for the page table. *)
Definition demo_dir : kmem := Kmem (fun _ => 0) (KERNBASE + 0x3000) false.

Lemma demo_dir_ok : pgt_ok (KERNBASE + 0x1000) demo_dir [KERNBASE + 0x3000] (KERNBASE + 0x2000) [].
Proof.
  assert (forall a, mread32 (fun _ => 0) a = 0) as Hz by done.
  assert (forall p, p mod 4096 = 0 -> KERNBASE + 0x1000 <= p < KERNBASE + 0x4000 ->
    is_page (KERNBASE + 0x1000) p) as Hp
    by (intros p H1 H2; unfold is_page, PHYSTOP, PGSIZE, KERNBASE in *; lia).
  constructor; simpl.
  - constructor; simpl; [done|apply NoDup_singleton|]. apply Forall_singleton, Hp; [done|unfold KERNBASE; lia].
  - by intros x.
  - apply (bool_decide_unpack _). by vm_compute.
  - apply Forall_singleton, Hp; [done|unfold KERNBASE; lia].
  - intros d Hd. by rewrite Hz.
  - intros d d' Hd Hd'. by rewrite Hz.
  - by intros q ?%elem_of_nil.
Qed.

Lemma mappages_spec_witness : exists s', mappages (KERNBASE + 0x2000) 0x1000 4096 0x5000 (PTE_W + PTE_U) demo_dir
  = Ret 0 s' /\ translate (km_mem s') (KERNBASE + 0x2000) 0x1000 = Some (0x5000, 7).
Proof.
  destruct (wp_elim _ _ _ (mappages_spec (KERNBASE + 0x1000) demo_dir [KERNBASE + 0x3000] (KERNBASE + 0x2000) []
    0x1000 4096 0x5000 (PTE_W + PTE_U) demo_dir_ok ltac:(unfold is_u32; lia) ltac:(lia) ltac:(lia) ltac:(lia)
    eq_refl ltac:(vm_compute; congruence) ltac:(vm_compute; split; congruence) ltac:(intros; reflexivity)))
    as (r & s' & E & l' & T' & j & _ & _ & _ & M & Hr).
  assert (match mappages (KERNBASE + 0x2000) 0x1000 4096 0x5000 (PTE_W + PTE_U) demo_dir with
          | Ret r _ => r = 0 | Fail _ => False end) as H0 by (vm_compute; reflexivity).
  rewrite E in H0. rewrite H0 in E, Hr. exists s'. split; [exact E|].
  destruct Hr as [[_ Hj]|[Hr _]]; [|discriminate Hr].
  rewrite (M 0x1000) by (unfold is_u32; lia). rewrite Hj. vm_compute. reflexivity.
Defined.
