(* ===== verification/VmSpace.v ===== *)
(** Address spaces (vm.c): what growing, shrinking, copying and releasing the
    memory of a process does to its contents and to the pages of the machine.

    An address space is a page directory, its page tables [T] and the user
    pages [U], a map from page numbers below KERNBASE to the frame and its
    flags. [aspace] says that memory holds it and that all pages involved, the
    free ones [l] included, are different: an operation that permutes them
    neither leaks a page nor uses one twice. *)

From S2P Require Import Prelude Params KString Kalloc Vm VmProofs.

Abbreviation umap := (gmap Z (Z * Z)).

(** The frames of the user pages. *)
Definition frames (U : umap) : list Z := (fun x => x.2.1) <$> map_to_list U.

Lemma frames_insert U i q f : U !! i = None -> frames (<[i:=(q, f)]> U) ≡ₚ q :: frames U.
Proof. intros H. unfold frames. by rewrite map_to_list_insert. Qed.
Lemma frames_delete U i q f : U !! i = Some (q, f) -> frames U ≡ₚ q :: frames (delete i U).
Proof. intros H. unfold frames. by rewrite <- (map_to_list_delete U i (q, f)). Qed.
Lemma frames_in U i q f : U !! i = Some (q, f) -> q ∈ frames U.
Proof. intros H. rewrite (frames_delete _ _ _ _ H). by left. Qed.

Section space.
(** The kernel ends above the first page of memory. *)
Context (kend : Z) (Hkend : KERNBASE < kend).
Abbreviation is_page := (is_page kend).
Abbreviation pgt_ok := (pgt_ok kend).

(** User space has 2^19 pages. *)
Definition NUSER : Z := 524288.

Record aspace (s : kmem) (l : list Z) (pgdir : Z) (T : list Z) (U : umap) : Prop := {
  as_pgt : pgt_ok s l pgdir T;
  as_nodup : NoDup (pgdir :: T ++ l ++ frames U);
  as_pages : Forall is_page (frames U);
  as_keys : forall i q f, U !! i = Some (q, f) -> 0 <= i < NUSER /\ 0 <= f < 4096 /\ Z.odd f = true;
  as_user : forall va, 0 <= va < KERNBASE ->
    translate (km_mem s) pgdir va = (fun x => (V2P x.1, x.2)) <$> U !! (va / 4096);
}.

(** The byte the process sees at [va]. *)
Definition uread (m : mem) (U : umap) (va : Z) : option Z :=
  (fun x => m (x.1 + va mod 4096)) <$> U !! (va / 4096).

(** *** Pages that are not part of the page table *)

Lemma untouched_word L m m' p k : untouched L m m' -> is_page p -> Forall is_page L -> (p ∉ L) -> 0 <= k < 1024 ->
  mread32 m' (p + 4 * k) = mread32 m (p + 4 * k).
Proof.
  intros Hu Hp HL Hn Hk. apply mread32_ext. intros x Hx. apply Hu. intros q Hq. rewrite Forall_forall in HL.
  destruct (pages_apart kend p q Hp (HL q Hq)); [set_solver|unfold PGSIZE in *; lia..].
Qed.

Lemma kmem_ok_untouched s l L m u : kmem_ok kend s l -> untouched L (km_mem s) m -> Forall is_page L ->
  (forall p, p ∈ l -> p ∉ L) -> kmem_ok kend (Kmem m (km_freelist s) u) l.
Proof.
  intros Hk Hun HL Hd. apply kmem_ok_write; [done|]. intros p Hp. pose proof (ko_pages _ _ _ Hk) as Hpl. rewrite Forall_forall in Hpl.
  apply page_word. intros k Hk'. eapply untouched_word; [exact Hun|by apply Hpl|done|by apply Hd|done].
Qed.

(** The page table does not see changes elsewhere, nor which pages are free. *)
Lemma pgt_ok_frame s s' l l' pgdir T L : pgt_ok s l pgdir T -> untouched L (km_mem s) (km_mem s') -> Forall is_page L ->
  (forall p, p ∈ pgdir :: T -> p ∉ L) -> bytes_ok (km_mem s') -> kmem_ok kend s' l' -> NoDup (pgdir :: T ++ l') ->
  pgt_ok s' l' pgdir T /\ forall va, is_u32 va -> translate (km_mem s') pgdir va = translate (km_mem s) pgdir va.
Proof.
  intros O Hu HL Hd Hb Hk Hn. pose proof (pgdir_page _ _ _ _ _ O) as Hpd.
  assert (Wd : forall d, 0 <= d < 1024 -> mread32 (km_mem s') (pgdir + 4 * d) = mread32 (km_mem s) (pgdir + 4 * d)).
  { intros d Hd'. eapply untouched_word; [done|done|done|apply Hd; by left|done]. }
  split.
  - destruct O as [_ _ _ Hp Hpde Hinj Hus]. constructor; try done.
    + intros d Hd'. rewrite Wd by done. by apply Hpde.
    + intros d d' Hd1 Hd2. rewrite !Wd by done. by apply Hinj.
    + intros q Hq. destruct (Hus q Hq) as (d & ? & ? & ?). exists d. by rewrite Wd.
  - intros va Hva. pose proof (PDX_range va Hva) as H1. pose proof (PTX_range va Hva) as H2.
    unfold translate, walk. rewrite Wd by done. destruct (has _ PTE_P) eqn:E; [|done].
    destruct (table_page _ _ _ _ _ O _ H1 E) as (HT & Hq & _).
    erewrite untouched_word; [done|done|done|done|apply Hd; by right|done].
Qed.

(** Neither does the address space. *)
Lemma space_frame s s' l l' pgdir T U L : aspace s l pgdir T U -> untouched L (km_mem s) (km_mem s') -> Forall is_page L ->
  (forall p, p ∈ pgdir :: T -> p ∉ L) -> bytes_ok (km_mem s') -> kmem_ok kend s' l' -> NoDup (pgdir :: T ++ l' ++ frames U) ->
  aspace s' l' pgdir T U.
Proof.
  intros [O Hn Hp Hkeys Hu] Hun HL Hd Hb Hk Hn'. destruct (pgt_ok_frame s s' l l' pgdir T L O) as [O' Ht]; try done.
  - rewrite app_assoc, app_comm_cons in Hn'. by apply NoDup_app in Hn' as [? _].
  - constructor; try done. intros va Hva. rewrite Ht by (unfold is_u32, KERNBASE in *; lia). by apply Hu.
Qed.

(** *** Taking and giving pages *)

Lemma space_nodup_alloc s q l pgdir T U : aspace s (q :: l) pgdir T U ->
  is_page q /\ (q ∉ pgdir :: T ++ l ++ frames U) /\ NoDup (pgdir :: T ++ l ++ frames U).
Proof.
  intros [O Hn _ _ _]. pose proof (ko_pages _ _ _ (pt_kmem _ _ _ _ _ O)) as Hq. apply Forall_cons in Hq as [Hq _].
  assert (HP : pgdir :: T ++ (q :: l) ++ frames U ≡ₚ q :: pgdir :: T ++ l ++ frames U).
  { cbn [app]. rewrite <- Permutation_middle. apply perm_swap. }
  rewrite HP in Hn. apply NoDup_cons in Hn as [H1 H2]. by split_and!.
Qed.

Lemma space_kalloc s l pgdir T U : aspace s l pgdir T U ->
  wp kalloc (fun r s' => km_mem s' = km_mem s /\
    match l with
    | [] => r = 0 /\ s' = s
    | q :: l' => r = q /\ r <> 0 /\ aspace s' l' pgdir T U /\ is_page q /\ (q ∉ pgdir :: T ++ l' ++ frames U)
    end) s.
Proof.
  intros A. pose proof (as_pgt _ _ _ _ _ A) as O. eapply wp_mono; [apply (kalloc_spec kend s l), (pt_kmem _ _ _ _ _ O)|].
  intros r s' [Em Hl]. split; [done|]. destruct l as [|q l]; [done|]. destruct Hl as (-> & Hr & Hk).
  destruct (space_nodup_alloc _ _ _ _ _ _ A) as (Hq & Hf & Hn).
  split_and!; try done. apply (space_frame s s' (q :: l) l pgdir T U [] A); try done.
  - rewrite Em. apply untouched_refl.
  - set_solver.
  - rewrite Em. apply (pt_bytes _ _ _ _ _ O).
Qed.

Lemma kfree_bytes v s u s' : is_page v -> kfree kend v s = Ret u s' -> bytes_ok (km_mem s) -> bytes_ok (km_mem s').
Proof.
  intros Hv E Hb. unfold kfree in E. apply bind_inv in E as (? & s1 & E1 & E). unfold panic_if in E1. destruct (_ || _); [done|].
  injection E1 as <- <-. injection E as <- <-. cbn [km_mem]. pose proof (page_range _ _ Hv). unfold PGSIZE in *.
  apply bytes_ok_write32, bytes_ok_memset; [lia|lia|done].
Qed.

Lemma kfree_page s l v : kmem_ok kend s l -> bytes_ok (km_mem s) -> is_page v -> (v ∉ l) ->
  wp (kfree kend v) (fun _ s' => kmem_ok kend s' (v :: l) /\ bytes_ok (km_mem s') /\ untouched [v] (km_mem s) (km_mem s')) s.
Proof.
  intros Hk Hb Hv Hl. destruct (wp_elim _ _ _ (kfree_spec kend s l v Hk Hv Hl)) as (u & s' & E & Hk' & Hm & _).
  eapply wp_intro; [exact E|]. split_and!; [done|by eapply kfree_bytes|]. intros x Hx. apply Hm, Hx. by left.
Qed.

Lemma nodup_free pgdir T l q (F : list Z) : (q ∉ pgdir :: T ++ l ++ F) -> NoDup (pgdir :: T ++ l ++ F) ->
  NoDup (pgdir :: T ++ (q :: l) ++ F) /\ NoDup (pgdir :: T ++ q :: l).
Proof.
  intros Hq Hn. assert (H : NoDup (pgdir :: T ++ (q :: l) ++ F)).
  { assert (HP : pgdir :: T ++ (q :: l) ++ F ≡ₚ q :: pgdir :: T ++ l ++ F)
      by (cbn [app]; rewrite <- Permutation_middle; apply perm_swap).
    rewrite HP. by constructor. }
  split; [done|]. rewrite app_assoc, app_comm_cons in H. by apply NoDup_app in H as [? _].
Qed.

Lemma space_kfree s l pgdir T U q : aspace s l pgdir T U -> is_page q -> (q ∉ pgdir :: T ++ l ++ frames U) ->
  wp (kfree kend q) (fun _ s' => aspace s' (q :: l) pgdir T U /\ untouched [q] (km_mem s) (km_mem s')) s.
Proof.
  intros A Hq Hf. pose proof (as_pgt _ _ _ _ _ A) as O.
  destruct (nodup_free pgdir T l q (frames U) Hf (as_nodup _ _ _ _ _ A)) as [Hn1 Hn2].
  eapply wp_mono; [apply (kfree_page s l); [apply (pt_kmem _ _ _ _ _ O)|apply (pt_bytes _ _ _ _ _ O)|done|set_solver]|].
  intros _ s' (Hk & Hb & Hun). split; [|done].
  apply (space_frame s s' l (q :: l) pgdir T U [q] A); try done; [by apply Forall_singleton|set_solver].
Qed.

(** *** Mapping a frame *)

Lemma space_map s l pgdir T U i q perm : aspace s l pgdir T U -> is_page q -> (q ∉ pgdir :: T ++ l ++ frames U) ->
  0 <= i < NUSER -> U !! i = None -> 0 <= perm < 4096 ->
  wp (mappages pgdir (4096 * i) PGSIZE (V2P q) perm) (fun r s' => exists l' T', T' ++ l' ≡ₚ T ++ l /\
    untouched (pgdir :: T ++ l) (km_mem s) (km_mem s') /\
    (r = 0 /\ aspace s' l' pgdir T' (<[i := (q, Z.lor perm PTE_P)]> U) \/ r = -1 /\ l' = [] /\ aspace s' l' pgdir T' U)) s.
Proof.
  intros [O Hn Hp Hkeys Hu] Hq Hf Hi HU Hperm. pose proof (V2P_page _ _ Hq) as Ev. pose proof Hq as Hq'.
  unfold Kalloc.is_page, NUSER, PHYSTOP, KERNBASE, PGSIZE in *.
  assert (Ei : forall va, 0 <= va -> va / 4096 = i <-> 4096 * i <= va < 4096 * i + 4096) by (intros; dlia).
  eapply wp_mono.
  { apply (mappages_spec kend s l pgdir T (4096 * i) 4096 (V2P q) perm O); try done; try (unfold is_u32; lia); try (rewrite ?Ev; dlia).
    intros x Hx. rewrite Hu by dlia. replace (x / 4096) with i by (symmetry; apply Ei; dlia). by rewrite HU. }
  intros r s' (l' & T' & j & O' & HP & Hun & HM & Hr). exists l', T'. split_and!; [done|done|].
  assert (HN : forall V, NoDup (pgdir :: T ++ l ++ V) -> NoDup (pgdir :: T' ++ l' ++ V)).
  { intros V. by rewrite !(app_assoc _ _ V), HP. }
  replace (4096 * (4096 * i / 4096)) with (4096 * i) in HM by dlia.
  assert (Hj : (r = 0 /\ j = 1%nat) \/ (r = -1 /\ l' = [] /\ j = 0%nat)).
  { replace (Z.to_nat ((4096 * i + 4096 - 1) / 4096 - 4096 * i / 4096 + 1)) with 1%nat in Hr by dlia.
    destruct Hr as [?|(? & ? & ?)]; [by left|right]. split_and!; [done|done|lia]. }
  destruct Hj as [[-> ->]|(-> & -> & ->)]; [left|right]; split_and!; try done; constructor; try done.
  - rewrite frames_insert by done.
    assert (HPq : pgdir :: T' ++ l' ++ q :: frames U ≡ₚ q :: pgdir :: T' ++ l' ++ frames U).
    { rewrite <- (Permutation_middle l'), <- (Permutation_middle T'). apply perm_swap. }
    rewrite HPq. constructor; [|by apply HN]. rewrite elem_of_cons, !elem_of_app in Hf |- *.
    assert (Hin : q ∈ T' ++ l' <-> q ∈ T ++ l) by (by rewrite HP). rewrite !elem_of_app in Hin. tauto.
  - rewrite frames_insert by done. by constructor.
  - intros k q' f' [[<- [= <- <-]]|[_ Hk]]%lookup_insert_Some; [|by eapply Hkeys]. split; [done|]. by apply lor_perm.
  - intros va Hva. unfold KERNBASE in Hva. rewrite HM by (unfold is_u32; lia). case_decide as D.
    + replace (va / 4096) with i by (symmetry; apply Ei; lia). rewrite lookup_insert_eq. simpl. do 2 f_equal. dlia.
    + rewrite lookup_insert_ne; [by apply Hu|]. intros E. pose proof (proj1 (Ei va ltac:(lia)) (eq_sym E)). lia.
  - by apply HN.
  - intros va Hva. unfold KERNBASE in Hva. rewrite HM by (unfold is_u32; lia). rewrite decide_False by lia. by apply Hu.
Qed.

(** *** Unmapping frames *)

Lemma P2V_V2P q : is_page q -> P2V (V2P q) = q /\ V2P q <> 0.
Proof.
  intros Hq. rewrite (V2P_page _ _ Hq). unfold Kalloc.is_page in Hq. unfold P2V, KERNBASE, PHYSTOP in *.
  rewrite u32_small by (unfold is_u32; lia). lia.
Qed.

Lemma page_va i : 0 <= i < NUSER -> is_u32 (4096 * i) /\ 0 <= 4096 * i < KERNBASE /\ (4096 * i) / 4096 = i.
Proof. unfold NUSER, KERNBASE, is_u32. intros. dlia. Qed.

(** The entry of page [i], when its page table exists. *)
Lemma space_entry s l pgdir T U i pte : aspace s l pgdir T U -> 0 <= i < NUSER -> walk (km_mem s) pgdir (4096 * i) = Some pte ->
  let e := mread32 (km_mem s) pte in
  match U !! i with
  | Some (q, f) => has e PTE_P = true /\ PTE_ADDR e = V2P q /\ PTE_FLAGS e = f /\ is_page q
  | None => has e PTE_P = false
  end.
Proof.
  intros A Hi Hw e. destruct (page_va i Hi) as (_ & Hva & Ei). pose proof (as_user _ _ _ _ _ A _ Hva) as Ht. rewrite Ei in Ht.
  unfold translate in Ht. rewrite Hw in Ht. fold e in Ht. destruct (U !! i) as [[q f]|] eqn:E; simpl in Ht; destruct (has e PTE_P); try done.
  injection Ht as -> ->. split_and!; try done. pose proof (as_pages _ _ _ _ _ A) as Hp. rewrite Forall_forall in Hp.
  apply Hp. by eapply frames_in.
Qed.

Lemma space_unmap s l pgdir T U i q f pte : aspace s l pgdir T U -> 0 <= i < NUSER -> U !! i = Some (q, f) ->
  walk (km_mem s) pgdir (4096 * i) = Some pte ->
  wp (kfree kend q;;; store32 pte 0) (fun _ s' => aspace s' (q :: l) pgdir T (delete i U) /\ untouched (q :: T) (km_mem s) (km_mem s')) s.
Proof.
  intros A Hi HU Hw. pose proof A as [O Hn Hp Hkeys Hu]. pose proof (frames_delete _ _ _ _ HU) as HF.
  destruct (page_va i Hi) as (Hva & Hlt & Ei).
  assert (Hq : is_page q) by (rewrite Forall_forall in Hp; apply Hp; by eapply frames_in).
  assert (HP : pgdir :: T ++ l ++ frames U ≡ₚ q :: pgdir :: T ++ l ++ frames (delete i U)).
  { rewrite HF, <- (Permutation_middle l), <- (Permutation_middle T). apply perm_swap. }
  rewrite HP in Hn. apply NoDup_cons in Hn as [Hqn Hn].
  destruct (nodup_free pgdir T l q _ Hqn Hn) as [Hn1 Hn2].
  apply wp_bind. eapply wp_mono; [apply (kfree_page s l); [apply (pt_kmem _ _ _ _ _ O)|apply (pt_bytes _ _ _ _ _ O)|done|set_solver]|].
  intros _ s1 (Hk & Hb & Hun).
  destruct (pgt_ok_frame s s1 l (q :: l) pgdir T [q] O) as [O1 Ht1]; try done; [by apply Forall_singleton|set_solver|].
  assert (Hw1 : walk (km_mem s1) pgdir (4096 * i) = Some pte).
  { rewrite <- Hw. unfold walk. rewrite (untouched_word [q] (km_mem s)); try done; [by apply (pgdir_page _ _ _ _ _ O)|by apply Forall_singleton|set_solver|].
    by apply PDX_range. }
  destruct (store_pte _ s1 (q :: l) pgdir T (4096 * i) pte 0 O1 Hva Hw1 ltac:(unfold is_u32; lia)) as (s2 & E2 & O2 & Hun2 & Ht2).
  eapply wp_intro; [exact E2|]. split.
  - constructor; try done.
    + rewrite HF in Hp. by apply Forall_cons in Hp as [_ ?].
    + intros k q' f' [_ Hk']%lookup_delete_Some. by eapply Hkeys.
    + intros va Hva'. rewrite Ht2 by (unfold is_u32, KERNBASE in *; lia). rewrite Ei. case_decide as D.
      * by rewrite D, lookup_delete_eq.
      * rewrite lookup_delete_ne by done. rewrite Ht1 by (unfold is_u32, KERNBASE in *; lia). by apply Hu.
  - eapply untouched_trans; eapply untouched_mono; [exact Hun|set_solver|exact Hun2|set_solver].
Qed.

(** The pages from [i] to [n] taken out. *)
Definition cut (i n : Z) (U : umap) : umap := filter (fun kv => kv.1 < i \/ n <= kv.1) U.

Lemma cut_lookup i n U k : cut i n U !! k = if decide (i <= k < n) then None else U !! k.
Proof.
  unfold cut. destruct (U !! k) as [x|] eqn:E.
  - case_decide as D.
    + apply map_lookup_filter_None. right. intros y Hy. simpl. lia.
    + apply map_lookup_filter_Some. split; [done|]. simpl. lia.
  - rewrite (proj2 (map_lookup_filter_None _ _ _)) by (by left). by case_decide.
Qed.
Lemma cut_empty i n U : (forall k, i <= k < n -> U !! k = None) -> cut i n U = U.
Proof. intros H. apply map_eq. intros k. rewrite cut_lookup. case_decide as D; [by rewrite H|done]. Qed.
Lemma cut_skip i j n U : i <= j -> (forall k, i <= k < j -> U !! k = None) -> cut i n U = cut j n U.
Proof.
  intros Hij H. apply map_eq. intros k. rewrite !cut_lookup. repeat case_decide; try done; try lia. rewrite H; [done|lia].
Qed.
Lemma cut_delete i n U : i < n -> cut i n U = cut (i + 1) n (delete i U).
Proof.
  intros Hi. apply map_eq. intros k. rewrite !cut_lookup. destruct (decide (k = i)) as [->|Hne].
  - rewrite lookup_delete_eq. repeat case_decide; try done; lia.
  - rewrite lookup_delete_ne by done. repeat case_decide; try done; lia.
Qed.

(** No page table, no pages: the loop may go on at the next one. *)
Lemma space_hole s l pgdir T U i : aspace s l pgdir T U -> 0 <= i < NUSER -> walk (km_mem s) pgdir (4096 * i) = None ->
  PGADDR (PDX (4096 * i) + 1) 0 0 = 4096 * ((i / 1024 + 1) * 1024) /\
  forall k, i <= k < (i / 1024 + 1) * 1024 -> U !! k = None.
Proof.
  intros A Hi Hw. destruct (page_va i Hi) as (Hva & _ & _). pose proof Hi as Hi'. unfold NUSER in Hi'.
  assert (Ed : forall k, 0 <= k < NUSER -> PDX (4096 * k) = k / 1024).
  { intros k Hk. rewrite PDX_eq by (by apply page_va). unfold NUSER in Hk. dlia. }
  split; [rewrite Ed, PGADDR_eq by (done || dlia); dlia|].
  intros k Hk. destruct (decide (k < NUSER)) as [Hk'|Hk'].
  2: { destruct (U !! k) as [[q f]|] eqn:E; [|done]. apply (as_keys _ _ _ _ _ A) in E. lia. }
  destruct (page_va k ltac:(lia)) as (_ & Hvk & Ek). pose proof (as_user _ _ _ _ _ A _ Hvk) as Ht. rewrite Ek in Ht.
  unfold translate, walk in Hw, Ht. rewrite Ed in Hw, Ht by lia. replace (k / 1024) with (i / 1024) in Ht by dlia.
  destruct (has _ PTE_P); [done|]. by destruct (U !! k).
Qed.

Lemma deallocuvm_loop_spec pgdir T oldsz fuel : 0 <= oldsz <= KERNBASE -> forall s l U i, aspace s l pgdir T U ->
  let n := (oldsz + 4095) / 4096 in 0 <= i <= NUSER -> (Z.to_nat (n - i) <= fuel)%nat ->
  wp (deallocuvm_loop kend fuel pgdir (4096 * i) oldsz) (fun _ s' => exists l' R, aspace s' l' pgdir T (cut i n U) /\
    l' ≡ₚ R ++ l /\ frames U ≡ₚ R ++ frames (cut i n U) /\ untouched (R ++ T) (km_mem s) (km_mem s')) s.
Proof.
  intros Hsz. induction fuel as [|fuel IH]; intros s l U i A n Hi Hf; unfold KERNBASE in *.
  all: cbn [deallocuvm_loop]; destruct (Z.ltb_spec (4096 * i) oldsz) as [Hlt|Hge]; [|apply wp_ret; exists l, [];
    rewrite cut_empty by (unfold n; intros; dlia); split_and!; [done|done|done|apply untouched_refl]].
  { exfalso. unfold n in Hf. dlia. }
  assert (Hin : i < n) by (unfold n; dlia). assert (Hi' : 0 <= i < NUSER) by (unfold NUSER; dlia).
  destruct (page_va i Hi') as (Hva & _ & _).
  destruct (walkpgdir_lookup _ _ _ _ _ (as_pgt _ _ _ _ _ A) _ Hva) as [Ew Hnz].
  apply wp_bind. eapply wp_intro; [exact Ew|]. destruct (walk (km_mem s) pgdir (4096 * i)) as [pte|] eqn:Hw; cbn [from_option id].
  - unfold id. rewrite (proj2 (Z.eqb_neq pte 0)) by congruence. pose proof (space_entry _ _ _ _ _ _ _ A Hi' Hw) as He. cbv zeta in He.
    apply wp_bind. apply wp_bind, wp_gets. apply wp_bind. destruct (U !! i) as [[q f]|] eqn:HU.
    + destruct He as (-> & -> & _ & Hq). destruct (P2V_V2P q Hq) as [-> Hpa]. apply wp_bind, wp_panic_if; [by apply Z.eqb_neq|].
      eapply wp_mono; [by eapply space_unmap|]. intros _ s1 [A1 Hun1]. apply wp_ret.
      rewrite u32_small by (unfold is_u32, PGSIZE, NUSER in *; lia). replace (4096 * i + PGSIZE) with (4096 * (i + 1)) by (unfold PGSIZE; lia).
      eapply wp_mono; [apply (IH s1 (q :: l) (delete i U) (i + 1) A1); fold n; unfold NUSER in *; lia|]. fold n.
      intros _ s' (l' & R & A' & Hl & HF & Hun). exists l', (q :: R). rewrite <- cut_delete in * by done.
      split_and!; [done|by rewrite Hl; symmetry; apply Permutation_middle|by rewrite (frames_delete _ _ _ _ HU), HF|].
      eapply untouched_trans; eapply untouched_mono; [exact Hun1|set_solver|exact Hun|set_solver].
    + rewrite He. apply wp_ret, wp_ret.
      rewrite u32_small by (unfold is_u32, PGSIZE, NUSER in *; lia). replace (4096 * i + PGSIZE) with (4096 * (i + 1)) by (unfold PGSIZE; lia).
      rewrite (cut_skip i (i + 1)) by (try lia; intros k Hk; by replace k with i by lia).
      apply (IH s l U (i + 1) A); fold n; unfold NUSER in *; lia.
  - rewrite Z.eqb_refl. destruct (space_hole _ _ _ _ _ _ A Hi' Hw) as [Ea Hnone]. unfold NUSER in *. apply wp_bind, wp_ret.
    rewrite Ea. unfold PGSIZE. rewrite (u32_small (_ - 4096)), u32_small by (unfold is_u32; dlia). rewrite Z.sub_add.
    rewrite (cut_skip i ((i / 1024 + 1) * 1024)) by (done || dlia). apply (IH s l U _ A); fold n; unfold NUSER; dlia.
Qed.

(** The number of pages for [sz] bytes. *)
Definition npages (sz : Z) : Z := (sz + 4095) / 4096.

Lemma deallocuvm_spec s l pgdir T U oldsz newsz : aspace s l pgdir T U -> 0 <= newsz < oldsz -> oldsz <= KERNBASE ->
  let U' := cut (npages newsz) (npages oldsz) U in
  wp (deallocuvm kend pgdir oldsz newsz) (fun r s' => r = newsz /\ exists l' R, aspace s' l' pgdir T U' /\
    l' ≡ₚ R ++ l /\ frames U ≡ₚ R ++ frames U' /\ untouched (R ++ T) (km_mem s) (km_mem s')) s.
Proof.
  intros A Hn Ho U'. unfold deallocuvm. rewrite (proj2 (Z.leb_gt oldsz newsz)) by lia. apply wp_bind.
  unfold KERNBASE in *. rewrite PGROUNDUP_eq by (unfold is_u32, PGSIZE in *; lia). change PGSIZE with 4096.
  replace ((newsz + 4096 - 1) / 4096) with (npages newsz) by (unfold npages; f_equal; lia).
  eapply wp_mono; [apply (deallocuvm_loop_spec pgdir T oldsz); [unfold KERNBASE; lia|exact A| |]|].
  - unfold npages, NUSER. dlia.
  - unfold npages. dlia.
  - intros [] s' H. apply wp_ret. split; [done|exact H].
Qed.

(** *** Releasing an address space *)

(** The page tables of the first [n] directory entries. *)
Definition tables (m : mem) (pgdir : Z) (n : nat) : list Z :=
  omap (fun d => let e := mread32 m (pgdir + 4 * Z.of_nat d) in if has e PTE_P then Some (pt_page e) else None) (seq 0 n).

Lemma tables_S m pgdir n : tables m pgdir (S n) =
  tables m pgdir n ++ (let e := mread32 m (pgdir + 4 * Z.of_nat n) in if has e PTE_P then [pt_page e] else []).
Proof. unfold tables. rewrite seq_S, omap_app. simpl. by destruct (has _ PTE_P). Qed.

Lemma elem_of_tables m pgdir n q : q ∈ tables m pgdir n <-> exists d, (d < n)%nat /\
  has (mread32 m (pgdir + 4 * Z.of_nat d)) PTE_P = true /\ pt_page (mread32 m (pgdir + 4 * Z.of_nat d)) = q.
Proof.
  unfold tables. rewrite list_elem_of_omap. split.
  - intros (d & [_ Hd]%elem_of_seq & E). exists d. destruct (has _ PTE_P); [|done]. injection E as <-. split_and!; [lia|done|done].
  - intros (d & Hd & E1 & E2). exists d. split; [apply elem_of_seq; lia|]. by rewrite E1, E2.
Qed.

Lemma tables_nodup s l pgdir T n : pgt_ok s l pgdir T -> (n <= 1024)%nat -> NoDup (tables (km_mem s) pgdir n).
Proof.
  intros O. induction n as [|n IH]; intros Hn; [constructor|]. rewrite tables_S. cbv zeta.
  destruct (has _ PTE_P) eqn:E; [|rewrite app_nil_r; apply IH; lia].
  apply NoDup_app. split_and!; [apply IH; lia| |apply NoDup_singleton].
  intros q (d & Hd & E1 & E2)%elem_of_tables ->%list_elem_of_singleton.
  pose proof (pt_inj _ _ _ _ _ O (Z.of_nat d) (Z.of_nat n) ltac:(lia) ltac:(lia) E1 E E2). lia.
Qed.

(** All of them are [T]. *)
Lemma tables_all s l pgdir T : pgt_ok s l pgdir T -> tables (km_mem s) pgdir 1024 ≡ₚ T.
Proof.
  intros O. apply NoDup_Permutation; [by apply (tables_nodup _ _ _ _ _ O)| |].
  - pose proof (pt_nodup _ _ _ _ _ O) as H. apply NoDup_cons in H as [_ H]. by apply NoDup_app in H as [? _].
  - intros q. rewrite elem_of_tables. split.
    + intros (d & Hd & E1 & <-). apply (pt_pde _ _ _ _ _ O); [lia|done].
    + intros (d & Hd & E1 & E2)%(pt_used _ _ _ _ _ O). exists (Z.to_nat d). rewrite Z2Nat.id by lia. split_and!; [lia|done|done].
Qed.

(** The loop of [freevm] over the directory frees each page table once. *)
Lemma free_tables s l pgdir T : pgt_ok s l pgdir T ->
  wp (for_ (Z.to_nat NPDENTRIES) (fun i =>
        let! e := load32 (pgdir + 4 * Z.of_nat i) in
        if has e PTE_P then kfree kend (P2V (PTE_ADDR e)) else ret tt))
     (fun _ s' => exists l', kmem_ok kend s' l' /\ bytes_ok (km_mem s') /\ l' ≡ₚ T ++ l /\ untouched T (km_mem s) (km_mem s')) s.
Proof.
  intros O. pose proof (pt_nodup _ _ _ _ _ O) as Hn. apply NoDup_cons in Hn as [Hpd Hn]. apply NoDup_app in Hn as (_ & HTl & _).
  pose proof (pt_pages _ _ _ _ _ O) as Hpg. apply Forall_cons in Hpg as [Hp HT].
  set (I := fun (i : nat) s' => exists l', kmem_ok kend s' l' /\ bytes_ok (km_mem s') /\
    l' ≡ₚ tables (km_mem s) pgdir i ++ l /\ untouched T (km_mem s) (km_mem s')).
  eapply wp_mono; [apply (wp_for I)|].
  - exists l. split_and!; [apply (pt_kmem _ _ _ _ _ O)|apply (pt_bytes _ _ _ _ _ O)|done|apply untouched_refl].
  - change (Z.to_nat NPDENTRIES) with 1024%nat. intros i s1 Hi (l1 & Hk & Hb & Hl1 & Hun). apply wp_bind, wp_gets.
    rewrite (untouched_word T (km_mem s)) by (done || set_solver || lia).
    set (e := mread32 (km_mem s) (pgdir + 4 * Z.of_nat i)) in *.
    destruct (has e PTE_P) eqn:E; [|apply wp_ret; exists l1; rewrite tables_S; fold e; cbv zeta; rewrite E, app_nil_r; done].
    change (P2V (PTE_ADDR e)) with (pt_page e).
    assert (HeT : pt_page e ∈ T) by (apply (pt_pde _ _ _ _ _ O); [lia|done]).
    pose proof (tables_nodup _ _ _ _ (S i) O ltac:(lia)) as Hnd. rewrite tables_S in Hnd. fold e in Hnd. cbv zeta in Hnd. rewrite E in Hnd.
    apply NoDup_app in Hnd as (_ & Hnd & _).
    eapply wp_mono; [apply (kfree_page s1 l1 (pt_page e) Hk Hb)|].
    + rewrite Forall_forall in HT. by apply HT.
    + rewrite Hl1, elem_of_app. intros [Ht|Hl]; [apply (Hnd _ Ht); by left|by apply (HTl _ HeT)].
    + intros [] s2 (Hk2 & Hb2 & Hun2). exists (pt_page e :: l1). split_and!; [done|done| |].
      * rewrite tables_S. fold e. cbv zeta. rewrite E, <- app_assoc. cbn [app]. rewrite Hl1. apply Permutation_middle.
      * eapply untouched_trans; [exact Hun|]. eapply untouched_mono; [exact Hun2|]. set_solver.
  - intros [] s' (l' & Hk & Hb & Hl & Hun). exists l'. split_and!; [done|done| |done].
    rewrite Hl. change (Z.to_nat NPDENTRIES) with 1024%nat. by rewrite (tables_all _ _ _ _ O).
Qed.

(** [freevm] gives back every page of the address space, each once. *)
Lemma freevm_spec s l pgdir T U : aspace s l pgdir T U ->
  wp (freevm kend pgdir) (fun _ s' => exists l', kmem_ok kend s' l' /\ bytes_ok (km_mem s') /\
    l' ≡ₚ pgdir :: T ++ l ++ frames U /\ untouched (pgdir :: T ++ frames U) (km_mem s) (km_mem s')) s.
Proof.
  intros A. pose proof (pgdir_page _ _ _ _ _ (as_pgt _ _ _ _ _ A)) as Hp. pose proof (page_range _ _ Hp).
  unfold freevm. apply wp_bind, wp_panic_if; [apply Z.eqb_neq; lia|]. apply wp_bind.
  eapply wp_mono; [apply (deallocuvm_spec s l pgdir T U KERNBASE 0 A); unfold KERNBASE; lia|].
  intros r s1 (_ & l1 & R & A1 & Hl1 & HF & Hun1).
  assert (EU : cut (npages 0) (npages KERNBASE) U = ∅).
  { apply map_eq. intros k. rewrite cut_lookup, lookup_empty. case_decide as D; [done|].
    destruct (U !! k) as [[q f]|] eqn:E; [|done]. apply (as_keys _ _ _ _ _ A) in E as [Hk _]. destruct D. exact Hk. }
  rewrite EU in *. unfold frames at 2 in HF. rewrite map_to_list_empty, app_nil_r in HF.
  pose proof (as_nodup _ _ _ _ _ A1) as Hn. unfold frames in Hn. rewrite map_to_list_empty, app_nil_r in Hn.
  apply NoDup_cons in Hn as [Hn _].
  apply wp_bind. eapply wp_mono; [apply (free_tables s1 l1 pgdir T), (as_pgt _ _ _ _ _ A1)|].
  intros [] s2 (l2 & Hk2 & Hb2 & Hl2 & Hun2).
  eapply wp_mono; [apply (kfree_page s2 l2 pgdir Hk2 Hb2 Hp); by rewrite Hl2|].
  intros [] s3 (Hk3 & Hb3 & Hun3). exists (pgdir :: l2). split_and!; [done|done| |].
  - rewrite Hl2, Hl1, HF. by rewrite (Permutation_app_comm R).
  - eapply untouched_trans; [eapply untouched_mono; [exact Hun1|]|eapply untouched_trans; eapply untouched_mono; [exact Hun2| |exact Hun3|]];
      rewrite ?HF; set_solver.
Qed.

(** *** The kernel part *)

(** Nothing is mapped below KERNBASE, nor from [lim] on. *)
Definition kernel_only (m : mem) (pgdir lim : Z) : Prop :=
  forall va, is_u32 va -> va < KERNBASE \/ lim <= va -> translate m pgdir va = None.

Lemma space_empty s l pgdir T lim : pgt_ok s l pgdir T -> kernel_only (km_mem s) pgdir lim -> aspace s l pgdir T ∅.
Proof.
  intros O HK. constructor; try done.
  - unfold frames. rewrite map_to_list_empty. cbn. rewrite app_nil_r. apply (pt_nodup _ _ _ _ _ O).
  - intros va Hva. rewrite lookup_empty. apply HK; unfold is_u32, KERNBASE in *; lia.
Qed.

Lemma map_kernel s l pgdir T lim va size pa perm : pgt_ok s l pgdir T -> kernel_only (km_mem s) pgdir lim ->
  KERNBASE <= lim <= va -> va mod 4096 = 0 -> 0 < size -> size mod 4096 = 0 -> va + size <= 4294967296 ->
  0 <= pa -> pa mod 4096 = 0 -> pa + size <= 4294967296 -> 0 <= perm < 4096 ->
  wp (mappages pgdir va size pa perm) (fun r s' => exists l' T', pgt_ok s' l' pgdir T' /\ T' ++ l' ≡ₚ T ++ l /\
    untouched (pgdir :: T ++ l) (km_mem s) (km_mem s') /\ kernel_only (km_mem s') pgdir (va + size) /\ (r = 0 \/ r = -1)) s.
Proof.
  intros O HK Hlim Hva Hsz Hszm Htop Hpa Hpam Hpt Hperm. unfold KERNBASE in *.
  assert (En : (va + size - 1) / 4096 - va / 4096 + 1 = size / 4096 /\ 4096 * (va / 4096) = va) by dlia. destruct En as [En Ea].
  eapply wp_mono; [apply (mappages_spec kend s l pgdir T va size pa perm O); try done; rewrite ?En, ?Ea; try (unfold is_u32; lia); try dlia|].
  - intros x Hx. apply HK; [unfold is_u32; dlia|]. right. lia.
  - rewrite En, Ea. intros r s' (l' & T' & j & O' & HP & Hun & HM & Hr). exists l', T'. split_and!; try done.
    + intros x Hx Hx'. rewrite HM by done. rewrite decide_False; [apply HK; [done|unfold KERNBASE in *; lia]|].
      unfold KERNBASE in *. assert (4096 * Z.of_nat j <= size) by (destruct Hr as [[_ ->]|(_ & _ & ?)]; dlia). lia.
    + destruct Hr as [[-> _]|(-> & _)]; auto.
Qed.

Lemma memset_page s q l : kmem_ok kend s l -> bytes_ok (km_mem s) -> is_page q -> (q ∉ l) ->
  wp (kmemset q 0 PGSIZE) (fun _ s' => kmem_ok kend s' l /\ bytes_ok (km_mem s') /\ untouched [q] (km_mem s) (km_mem s') /\
    (forall x, q <= x < q + PGSIZE -> km_mem s' x = 0)) s.
Proof.
  intros Hk Hb Hq Hl. pose proof (page_range _ _ Hq) as R. unfold PGSIZE in R. apply wp_modify. cbn [km_mem].
  assert (Hun : untouched [q] (km_mem s) (memset (km_mem s) q 0 PGSIZE)).
  { intros x Hx. specialize (Hx q ltac:(by left)). unfold PGSIZE in *. rewrite memset_spec by lia. by rewrite decide_False by lia. }
  split_and!; [| |done|].
  - apply (kmem_ok_untouched _ _ _ _ _ Hk Hun); [by apply Forall_singleton|set_solver].
  - apply bytes_ok_memset; [lia|unfold PGSIZE; lia|done].
  - intros x Hx. unfold PGSIZE in *. rewrite memset_spec by lia. by rewrite decide_True by lia.
Qed.

(** An empty directory. *)
Lemma empty_dir s l q : kmem_ok kend s l -> bytes_ok (km_mem s) -> is_page q -> (q ∉ l) ->
  (forall x, q <= x < q + PGSIZE -> km_mem s x = 0) -> pgt_ok s l q [] /\ kernel_only (km_mem s) q KERNBASE.
Proof.
  intros Hk Hb Hq Hl Hz.
  assert (Hw : forall d, 0 <= d < 1024 -> mread32 (km_mem s) (q + 4 * d) = 0).
  { intros d Hd. unfold mread32. unfold PGSIZE in Hz. by rewrite !Hz by lia. }
  split.
  - constructor; try done.
    + constructor; [done|]. apply (ko_nodup _ _ _ Hk).
    + by apply Forall_singleton.
    + intros d Hd. by rewrite Hw.
    + intros d d' Hd _. by rewrite Hw.
    + by intros p ?%elem_of_nil.
  - intros va Hva _. unfold translate, walk. by rewrite Hw by (by apply PDX_range).
Qed.

(** Ranges of pages, one above the other from [lim] on. *)
Fixpoint kmaps_ok (lim : Z) (ks : list kmap) : Prop :=
  match ks with
  | [] => True
  | k :: ks =>
    let size := u32 (phys_end k - phys_start k) in
    lim <= virt k /\ virt k mod 4096 = 0 /\ 0 < size /\ size mod 4096 = 0 /\ virt k + size <= 4294967296 /\
    0 <= phys_start k /\ phys_start k mod 4096 = 0 /\ phys_start k + size <= 4294967296 /\ 0 <= kperm k < 4096 /\
    kmaps_ok (virt k + size) ks
  end.

(** A new address space, or all its pages back. *)
Definition new_space (s : kmem) (l : list Z) (r : Z) (s' : kmem) : Prop :=
  untouched l (km_mem s) (km_mem s') /\
  ((r = 0 /\ exists l', kmem_ok kend s' l' /\ bytes_ok (km_mem s') /\ l' ≡ₚ l) \/
   (r <> 0 /\ exists l' T, aspace s' l' r T ∅ /\ r :: T ++ l' ≡ₚ l)).

Lemma setupkvm_loop_spec ks : forall s l pgdir T lim, pgt_ok s l pgdir T -> kernel_only (km_mem s) pgdir lim ->
  KERNBASE <= lim -> kmaps_ok lim ks ->
  wp (setupkvm_loop kend ks pgdir) (new_space s (pgdir :: T ++ l)) s.
Proof.
  induction ks as [|k ks IH]; intros s l pgdir T lim O HK Hlim Hks; cbn [setupkvm_loop].
  - apply wp_ret. split; [apply untouched_refl|]. right.
    pose proof (page_range _ _ (pgdir_page _ _ _ _ _ O)). split; [lia|]. exists l, T. split; [by eapply space_empty|done].
  - destruct Hks as (H1 & H2 & H3 & H4 & H5 & H6 & H7 & H8 & H9 & Hks). apply wp_bind.
    eapply wp_mono; [apply (map_kernel s l pgdir T lim); done|]. cbv zeta.
    intros r s1 (l1 & T1 & O1 & HP & Hun & HK1 & Hr).
    assert (HL : pgdir :: T1 ++ l1 ≡ₚ pgdir :: T ++ l) by (by rewrite HP).
    destruct (Z.ltb_spec r 0) as [Hneg|Hnn].
    + apply wp_bind. eapply wp_mono; [apply (freevm_spec s1 l1 pgdir T1 ∅); by eapply space_empty|].
      intros [] s2 (l2 & Hk2 & Hb2 & Hl2 & Hun2). unfold frames in Hl2, Hun2. rewrite map_to_list_empty in Hl2, Hun2.
      cbn [fmap list_fmap] in *. rewrite app_nil_r in Hl2, Hun2. apply wp_ret. split.
      * eapply untouched_trans; [exact Hun|]. eapply untouched_mono; [exact Hun2|]. rewrite <- HL. set_solver.
      * left. split; [done|]. exists l2. split_and!; [done|done|]. by rewrite Hl2.
    + eapply wp_mono; [apply (IH s1 l1 pgdir T1 _ O1 HK1); [lia|done]|].
      intros r' s2 [Hun2 Hr2]. split.
      * eapply untouched_trans; [exact Hun|]. eapply untouched_mono; [exact Hun2|]. by rewrite HL.
      * destruct Hr2 as [(-> & l' & ? & ? & HL')|(Hr' & l' & T' & A' & HL')]; [left|right].
        -- split; [done|]. exists l'. split_and!; [done|done|]. by rewrite HL'.
        -- split; [done|]. exists l', T'. split; [done|]. by rewrite HL'.
Qed.

Lemma kmap_table_ok kdata : KERNLINK < kdata < KERNBASE + PHYSTOP -> kdata mod 4096 = 0 -> kmaps_ok KERNBASE (kmap_table kdata).
Proof.
  intros H Hm. unfold kmap_table, KERNLINK, PHYSTOP, KERNBASE, EXTMEM, DEVSPACE, V2P in *. cbn [kmaps_ok virt phys_start phys_end kperm].
  unfold KERNBASE, PTE_W in *. rewrite !(u32_small (kdata - _)) by (unfold is_u32; lia).
  change (u32 (0x80000000 + 0x100000 - 0x80000000)) with 0x100000. change (u32 (0x100000 - 0)) with 0x100000.
  change (u32 (0 - 0xFE000000)) with 0x2000000. rewrite !u32_small by (unfold is_u32; lia).
  split_and!; try lia; try dlia; done.
Qed.

Lemma setupkvm_spec kdata s l : KERNLINK < kdata < KERNBASE + PHYSTOP -> kdata mod 4096 = 0 ->
  kmem_ok kend s l -> bytes_ok (km_mem s) -> wp (setupkvm kend kdata) (new_space s l) s.
Proof.
  intros Hd Hdm Hk Hb. unfold setupkvm. apply wp_bind. eapply wp_mono; [apply (kalloc_spec kend s l Hk)|].
  intros r s1 [Em Hl]. destruct l as [|q l].
  - destruct Hl as [-> ->]. rewrite Z.eqb_refl. apply wp_ret. split; [apply untouched_refl|]. left. split; [done|]. by exists [].
  - destruct Hl as (-> & Hq0 & Hk1). rewrite (proj2 (Z.eqb_neq q 0)) by done.
    pose proof (ko_pages _ _ _ Hk) as Hp. apply Forall_cons in Hp as [Hq _].
    pose proof (ko_nodup _ _ _ Hk) as Hn. apply NoDup_cons in Hn as [Hq' _].
    apply wp_bind. eapply wp_mono; [apply (memset_page s1 q l Hk1); [by rewrite Em|done|done]|].
    intros [] s2 (Hk2 & Hb2 & Hun2 & Hz). apply wp_bind, wp_panic_if; [reflexivity|].
    destruct (empty_dir s2 l q Hk2 Hb2 Hq Hq' Hz) as [O HK].
    eapply wp_mono; [apply (setupkvm_loop_spec _ s2 l q [] KERNBASE O HK); [done|by apply kmap_table_ok]|].
    intros r s3 [Hun3 Hr]. split; [|exact Hr]. eapply untouched_trans; [|exact Hun3]. rewrite <- Em.
    eapply untouched_mono; [exact Hun2|set_solver].
Qed.

(** *** Copying an address space *)

(** Operations that only touch free pages do not disturb another space. *)
Lemma space_beside s s' l l' X pgdir T U : aspace s l pgdir T U -> untouched l (km_mem s) (km_mem s') ->
  kmem_ok kend s' l' -> bytes_ok (km_mem s') -> X ++ l' ≡ₚ l ->
  aspace s' l' pgdir T U /\ forall q x, q ∈ frames U -> q <= x < q + PGSIZE -> km_mem s' x = km_mem s x.
Proof.
  intros A Hun Hk Hb HX. pose proof A as [O Hn Hp Hkeys Hu]. pose proof (ko_pages _ _ _ (pt_kmem _ _ _ _ _ O)) as Hpl.
  assert (HP : pgdir :: T ++ l ++ frames U ≡ₚ X ++ pgdir :: T ++ l' ++ frames U).
  { rewrite <- HX. rewrite <- (app_assoc X), (app_assoc T X), (Permutation_app_comm T X), <- app_assoc. apply Permutation_middle. }
  assert (Hn' : NoDup (pgdir :: T ++ l' ++ frames U)) by (rewrite HP in Hn; by apply NoDup_app in Hn as (_ & _ & ?)).
  assert (Hd : forall q, q ∈ l -> (q ∉ pgdir :: T) /\ (q ∉ frames U)).
  { intros q Hq. rewrite (app_assoc T), app_comm_cons in Hn. clear -Hn Hq.
    apply NoDup_cons in Hn as [H1 Hn]. apply NoDup_app in Hn as (Hn & H2 & _). apply NoDup_app in Hn as (_ & H3 & _). set_solver. }
  split.
  - apply (space_frame s s' l l' pgdir T U l); try done. intros p Hp' Hl. by apply (proj1 (Hd p Hl)).
  - intros q x Hq Hx. apply Hun. intros p Hpl'. rewrite Forall_forall in Hp, Hpl.
    destruct (pages_apart kend p q (Hpl _ Hpl') (Hp _ Hq)); [|unfold PGSIZE in *; lia..]. intros ->. by apply (proj2 (Hd q Hpl')).
Qed.

(** The pages below [n], each with a frame of its own that holds the same. *)
Definition copies (m : mem) (UP U : umap) (n : Z) : Prop := forall k,
  if decide (0 <= k < n)
  then exists q f q', UP !! k = Some (q, f) /\ U !! k = Some (q', f) /\ forall o, 0 <= o < 4096 -> m (q' + o) = m (q + o)
  else U !! k = None.

Lemma copies_uread m UP U n va : copies m UP U n -> 0 <= va -> uread m U va = if decide (va / 4096 < n) then uread m UP va else None.
Proof.
  intros HC Hva. specialize (HC (va / 4096)). unfold uread. assert (0 <= va / 4096) by (apply Z.div_pos; lia).
  repeat case_decide; try lia; [|by rewrite HC]. destruct HC as (q & f & q' & -> & -> & Hm). simpl. f_equal. apply Hm. dlia.
Qed.

Lemma lor_odd f : Z.odd f = true -> Z.lor f PTE_P = f.
Proof.
  intros Ho. apply Z.bits_inj'. intros n Hn. rewrite Z.lor_spec. unfold PTE_P. destruct (decide (n = 0)) as [->|Hne].
  - rewrite !Z.bit0_odd, Ho. done.
  - change 1 with (2 ^ 0). rewrite Z.pow2_bits_false by lia. apply orb_false_r.
Qed.

Lemma kmemmove_page s l dst src : kmem_ok kend s l -> bytes_ok (km_mem s) -> is_page dst -> is_page src -> dst <> src -> (dst ∉ l) ->
  wp (kmemmove dst src PGSIZE) (fun _ s' => kmem_ok kend s' l /\ bytes_ok (km_mem s') /\ untouched [dst] (km_mem s) (km_mem s') /\
    forall o, 0 <= o < PGSIZE -> km_mem s' (dst + o) = km_mem s (src + o)) s.
Proof.
  intros Hk Hb Hd Hs Hne Hl. pose proof (page_range _ _ Hd). pose proof (page_range _ _ Hs). apply wp_modify. cbn [km_mem].
  assert (Hmm : forall x, memmove (km_mem s) dst src PGSIZE x =
    if decide (dst <= x < dst + PGSIZE) then km_mem s (src + (x - dst)) else km_mem s x).
  { intros x. apply memmove_spec; unfold PGSIZE in *; lia. }
  assert (Hun : untouched [dst] (km_mem s) (memmove (km_mem s) dst src PGSIZE)).
  { intros x Hx. specialize (Hx dst ltac:(by left)). rewrite Hmm. by rewrite decide_False by lia. }
  split_and!; [| |done|].
  - apply (kmem_ok_untouched _ _ _ _ _ Hk Hun); [by apply Forall_singleton|set_solver].
  - intros x. rewrite Hmm. case_decide; apply Hb.
  - intros o Ho. rewrite Hmm, decide_True by lia. f_equal. lia.
Qed.

Section copy.
Context (s0 : kmem) (l0 : list Z) (P : Z) (TP : list Z) (UP : umap) (AP : aspace s0 l0 P TP UP).

(** The child so far, in a state that has changed only pages that were free;
    [X] are pages that are neither free nor the child's. *)
Record child (s : kmem) (l : list Z) (d : Z) (T : list Z) (U : umap) (X : list Z) : Prop := {
  ch_space : aspace s l d T U;
  ch_pages : X ++ d :: T ++ l ++ frames U ≡ₚ l0;
  ch_others : untouched l0 (km_mem s0) (km_mem s);
}.

Lemma child_parent s l d T U X : child s l d T U X -> aspace s l P TP UP /\
  forall q x, q ∈ frames UP -> q <= x < q + PGSIZE -> km_mem s x = km_mem s0 x.
Proof.
  intros [A HP Hun]. pose proof (as_pgt _ _ _ _ _ A) as O.
  apply (space_beside s0 s l0 l (X ++ d :: T ++ frames U)); try done; [apply (pt_kmem _ _ _ _ _ O)|apply (pt_bytes _ _ _ _ _ O)|].
  rewrite <- HP, <- app_assoc. cbn [app]. rewrite <- app_assoc. by rewrite (Permutation_app_comm (frames U)).
Qed.

Lemma child_freevm s l d T U X : child s l d T U X ->
  wp (freevm kend d) (fun _ s' => exists l', kmem_ok kend s' l' /\ bytes_ok (km_mem s') /\ X ++ l' ≡ₚ l0 /\
    untouched l0 (km_mem s0) (km_mem s')) s.
Proof.
  intros [A HP Hun]. eapply wp_mono; [by apply (freevm_spec s l d T U)|].
  intros [] s' (l' & Hk & Hb & Hl & Hun'). exists l'. split_and!; [done|done|by rewrite Hl|].
  eapply untouched_trans; [exact Hun|]. eapply untouched_mono; [exact Hun'|]. rewrite <- HP. set_solver.
Qed.

(** All pages of the free list come back, or all but one, or the copy is done. *)
Definition copied (d n r : Z) (s' : kmem) : Prop :=
  (r = 0 /\ exists l' X, kmem_ok kend s' l' /\ bytes_ok (km_mem s') /\ X ++ l' ≡ₚ l0 /\ (length X <= 1)%nat /\
     untouched l0 (km_mem s0) (km_mem s')) \/
  (r = d /\ exists l' T U, child s' l' d T U [] /\ copies (km_mem s') UP U n).

(** A page of the parent is not a page of the child. *)
Lemma parent_frame q : q ∈ frames UP -> is_page q /\ (q ∉ l0).
Proof.
  intros Hq. pose proof (as_pages _ _ _ _ _ AP) as Hp. rewrite Forall_forall in Hp. split; [by apply Hp|].
  pose proof (as_nodup _ _ _ _ _ AP) as Hn. apply NoDup_cons in Hn as [_ Hn]. apply NoDup_app in Hn as (_ & _ & Hn).
  apply NoDup_app in Hn as (_ & Hn & _). intros Hl. by apply (Hn q).
Qed.

(** Page [q] of the parent copied to the new page [q']. *)
Lemma child_copy s l d T U q q' : child s l d T U [q'] -> q ∈ frames UP -> is_page q' ->
  wp (kmemmove q' q PGSIZE) (fun _ s' => child s' l d T U [q'] /\ untouched [q'] (km_mem s) (km_mem s') /\
    forall o, 0 <= o < PGSIZE -> km_mem s' (q' + o) = km_mem s (q + o)) s.
Proof.
  intros [A HP Hun] Hq Hq'. pose proof (as_pgt _ _ _ _ _ A) as O. destruct (parent_frame q Hq) as [Hqp Hql].
  assert (Hin : q' ∈ l0) by (rewrite <- HP; by left).
  assert (Hnd : q' ∉ d :: T ++ l ++ frames U).
  { pose proof (ko_nodup _ _ _ (pt_kmem _ _ _ _ _ (as_pgt _ _ _ _ _ AP))) as Hn. rewrite <- HP in Hn. by apply NoDup_cons in Hn as [? _]. }
  eapply wp_mono; [apply (kmemmove_page s l q' q); [apply (pt_kmem _ _ _ _ _ O)|apply (pt_bytes _ _ _ _ _ O)|done|done|congruence|set_solver]|].
  intros [] s' (Hk & Hb & Hun' & Hm). split_and!; [|done|done]. constructor; [|done|].
  - apply (space_frame s s' l l d T U [q'] A); try done; [by apply Forall_singleton|set_solver|apply (as_nodup _ _ _ _ _ A)].
  - eapply untouched_trans; [exact Hun|]. eapply untouched_mono; [exact Hun'|set_solver].
Qed.

Lemma child_map s l d T U q' i f : child s l d T U [q'] -> is_page q' -> 0 <= i < NUSER -> U !! i = None ->
  0 <= f < 4096 -> Z.odd f = true ->
  wp (mappages d (4096 * i) PGSIZE (V2P q') f) (fun r s' => exists l' T',
    (forall q x, q ∈ q' :: frames U -> q <= x < q + PGSIZE -> km_mem s' x = km_mem s x) /\
    (r = 0 /\ child s' l' d T' (<[i := (q', f)]> U) [] \/ r = -1 /\ child s' l' d T' U [q'])) s.
Proof.
  intros [A HP Hun] Hq' Hi HU Hf Ho. pose proof (ko_nodup _ _ _ (pt_kmem _ _ _ _ _ (as_pgt _ _ _ _ _ AP))) as Hn0.
  pose proof (ko_pages _ _ _ (pt_kmem _ _ _ _ _ (as_pgt _ _ _ _ _ AP))) as Hp0. rewrite <- HP in Hn0, Hp0.
  assert (Hnd : q' ∉ d :: T ++ l ++ frames U) by (by apply NoDup_cons in Hn0 as [? _]).
  eapply wp_mono; [by apply (space_map s l d T U i q' f)|]. rewrite (lor_odd f Ho).
  intros r s' (l' & T' & HTl & Hun' & Hr). exists l', T'.
  assert (Hun2 : untouched l0 (km_mem s0) (km_mem s')).
  { eapply untouched_trans; [exact Hun|]. eapply untouched_mono; [exact Hun'|]. rewrite <- HP. set_solver. }
  assert (HP' : forall V, d :: T' ++ l' ++ V ≡ₚ d :: T ++ l ++ V) by (intros V; rewrite !(app_assoc _ _ V); by rewrite HTl).
  split.
  - intros q x Hq Hx. apply Hun'. intros p Hp. rewrite Forall_forall in Hp0.
    assert (Hpq : p <> q).
    { clear -Hn0 Hq Hp. intros ->. assert (HPx : [q'] ++ d :: T ++ l ++ frames U ≡ₚ (d :: T ++ l) ++ q' :: frames U).
      { rewrite <- (Permutation_middle (d :: T ++ l) (frames U)). cbn [app]. by rewrite <- app_assoc. }
      rewrite HPx in Hn0. apply NoDup_app in Hn0 as (_ & Hn0 & _). by apply (Hn0 q). }
    assert (Hpp : is_page p) by (apply Hp0; clear -Hp; set_solver). assert (Hqp : is_page q) by (apply Hp0; clear -Hq; set_solver).
    destruct (pages_apart kend p q Hpp Hqp Hpq); unfold PGSIZE in *; lia.
  - destruct Hr as [[-> A']|(-> & _ & A')]; [left|right]; (split; [done|]); constructor; try done.
    + rewrite frames_insert by done. cbn [app]. rewrite HP', <- HP. cbn [app].
      rewrite <- (Permutation_middle l), <- (Permutation_middle T). apply perm_swap.
    + by rewrite HP'.
Qed.

Lemma child_kalloc s l d T U : child s l d T U [] ->
  wp kalloc (fun r s' => km_mem s' = km_mem s /\
    ((r = 0 /\ s' = s) \/ (r <> 0 /\ is_page r /\ exists l', child s' l' d T U [r]))) s.
Proof.
  intros [A HP Hun]. eapply wp_mono; [by apply (space_kalloc s l d T U)|]. intros r s' [Em Hl]. split; [done|].
  destruct l as [|q l]; [by left|right]. destruct Hl as (-> & Hr & A' & Hq & _). split_and!; [done|done|]. exists l.
  constructor; [done| |by rewrite Em]. rewrite <- HP. cbn [app]. rewrite <- (Permutation_middle T). apply perm_swap.
Qed.

Lemma copies_step m m' i U q f q' : copies m UP U i -> 0 <= i -> UP !! i = Some (q, f) ->
  (forall p x, p ∈ frames U -> p <= x < p + PGSIZE -> m' x = m x) ->
  (forall p x, p ∈ frames UP -> p <= x < p + PGSIZE -> m' x = m x) ->
  (forall o, 0 <= o < PGSIZE -> m' (q' + o) = m (q + o)) ->
  copies m' UP (<[i := (q', f)]> U) (i + 1).
Proof.
  intros HC Hi HU H1 H2 H3 k. specialize (HC k). unfold PGSIZE in *. destruct (decide (k = i)) as [->|Hne].
  - rewrite decide_True by lia. exists q, f, q'. rewrite lookup_insert_eq. split_and!; [done|done|].
    intros o Ho. rewrite H3 by done. symmetry. apply (H2 q); [by eapply frames_in|lia].
  - rewrite lookup_insert_ne by done. case_decide; case_decide; try lia; [|done].
    destruct HC as (p & g & p' & E1 & E2 & Hm). exists p, g, p'. split_and!; [done|done|]. intros o Ho.
    rewrite (H1 p'), (H2 p); [by apply Hm|by eapply frames_in|lia|by eapply frames_in|lia].
Qed.

Lemma copyuvm_loop_spec d sz fuel : 0 <= sz <= KERNBASE -> let n := npages sz in (forall k, 0 <= k < n -> UP !! k <> None) ->
  forall s l T U i, child s l d T U [] -> copies (km_mem s) UP U i -> 0 <= i <= n -> (Z.to_nat (n - i) <= fuel)%nat ->
  wp (copyuvm_loop kend fuel P d (4096 * i) sz) (copied d n) s.
Proof.
  intros Hsz n Hpres. unfold KERNBASE in *. assert (Hn : n <= NUSER) by (unfold n, npages, NUSER; dlia).
  assert (Hcond : forall i, 4096 * i < sz <-> i < n) by (intros; unfold n, npages; dlia).
  induction fuel as [|fuel IH]; intros s l T U i HC Hcop Hi Hf; cbn [copyuvm_loop]; destruct (Z.ltb_spec (4096 * i) sz) as [Hlt|Hge].
  - apply Hcond in Hlt. lia.
  - apply wp_ret. right. split; [done|]. exists l, T, U. replace n with i by (destruct (Z.lt_ge_cases i n) as [H%Hcond|]; lia). done.
  - apply Hcond in Hlt. assert (Hi' : 0 <= i < NUSER) by lia. destruct (page_va i Hi') as (Hva & Hvk & Ei).
    destruct (child_parent _ _ _ _ _ _ HC) as [APs Hsame]. destruct (UP !! i) as [[q f]|] eqn:HU; [|exfalso; apply (Hpres i); [lia|done]].
    destruct (walkpgdir_lookup _ _ _ _ _ (as_pgt _ _ _ _ _ APs) _ Hva) as [Ew Hnz]. apply wp_bind. eapply wp_intro; [exact Ew|].
    pose proof (as_user _ _ _ _ _ APs _ Hvk) as Ht. rewrite Ei, HU in Ht. unfold translate in Ht.
    destruct (walk (km_mem s) P (4096 * i)) as [pte|] eqn:Hw; [clear Ht|done]. cbn [from_option id]. unfold id.
    pose proof (space_entry _ _ _ _ _ _ _ APs Hi' Hw) as He. cbv zeta in He. rewrite HU in He. destruct He as (H1 & H2 & H3 & Hq).
    destruct (as_keys _ _ _ _ _ APs _ _ _ HU) as (_ & Hf1 & Hf2).
    apply wp_bind, wp_panic_if; [apply Z.eqb_neq; congruence|]. apply wp_bind, wp_gets. rewrite H1.
    apply wp_bind, wp_panic_if; [done|]. rewrite H2, H3. destruct (P2V_V2P q Hq) as [-> _].
    apply wp_bind. eapply wp_mono; [by eapply child_kalloc|]. intros q' s1 [Em [[-> ->]|(Hr & Hq' & l1 & HC1)]].
    + rewrite Z.eqb_refl. apply wp_bind. eapply wp_mono; [by eapply child_freevm|].
      intros [] s' (l' & Hk & Hb & Hl & Hun). apply wp_ret. left. split; [done|]. exists l', []. split_and!; try done. simpl. lia.
    + rewrite (proj2 (Z.eqb_neq q' 0)) by done. apply wp_bind. eapply wp_mono; [apply (child_copy s1 l1 d T U q q' HC1); [by eapply frames_in|done]|].
      intros [] s2 (HC2 & Hun2 & Hm2). apply wp_bind.
      assert (HUi : U !! i = None) by (specialize (Hcop i); by rewrite decide_False in Hcop by lia).
      eapply wp_mono; [by apply (child_map s2 l1 d T U q' i f HC2)|].
      intros r s3 (l3 & T3 & Hsame3 & [[-> HC3]|[-> HC3]]).
      * cbn [Z.ltb Z.compare]. rewrite u32_small by (unfold is_u32, PGSIZE, NUSER in *; lia).
        replace (4096 * i + PGSIZE) with (4096 * (i + 1)) by (unfold PGSIZE; lia). apply (IH s3 l3 T3 _ (i + 1) HC3); [|lia|lia].
        apply (copies_step (km_mem s) _ i U q f q'); try done; [lia| | |].
        -- intros p x Hp Hx. rewrite (Hsame3 p) by (done || by right). rewrite <- Em. apply Hun2. intros p2 ->%list_elem_of_singleton.
           destruct HC2 as [A2 HP2 _].
           pose proof (ko_nodup _ _ _ (pt_kmem _ _ _ _ _ (as_pgt _ _ _ _ _ AP))) as Hn0. rewrite <- HP2 in Hn0.
           apply NoDup_cons in Hn0 as [Hn0 _]. pose proof (as_pages _ _ _ _ _ A2) as Hpg. rewrite Forall_forall in Hpg.
           destruct (pages_apart kend q' p Hq' (Hpg _ Hp)); [set_solver|unfold PGSIZE in *; lia..].
        -- intros p x Hp Hx. destruct (child_parent _ _ _ _ _ _ HC3) as [_ Hs3]. by rewrite (Hs3 p), (Hsame p).
        -- intros o Ho. rewrite (Hsame3 q') by (lia || by left). rewrite Hm2, Em by done. done.
      * cbn [Z.ltb Z.compare]. apply wp_bind. eapply wp_mono; [by eapply child_freevm|].
        intros [] s' (l' & Hk & Hb & Hl & Hun). apply wp_ret. left. split; [done|]. exists l', [q']. by split_and!.
  - apply wp_ret. right. split; [done|]. exists l, T, U. replace n with i by (destruct (Z.lt_ge_cases i n) as [H%Hcond|]; lia). done.
Qed.
End copy.

Lemma copyuvm_spec kdata s l P TP UP sz : KERNLINK < kdata < KERNBASE + PHYSTOP -> kdata mod 4096 = 0 ->
  aspace s l P TP UP -> 0 <= sz <= KERNBASE -> (forall k, 0 <= k < npages sz -> UP !! k <> None) ->
  wp (copyuvm kend kdata P sz) (fun r s' =>
    (r = 0 /\ exists l' X, kmem_ok kend s' l' /\ bytes_ok (km_mem s') /\ X ++ l' ≡ₚ l /\ (length X <= 1)%nat /\
       untouched l (km_mem s) (km_mem s')) \/
    (r <> 0 /\ exists l' T U, child s l s' l' r T U [] /\ copies (km_mem s') UP U (npages sz))) s.
Proof.
  intros Hkd Hkm AP Hsz Hpres. pose proof (as_pgt _ _ _ _ _ AP) as OP. unfold copyuvm. apply wp_bind.
  eapply wp_mono; [apply (setupkvm_spec kdata s l Hkd Hkm (pt_kmem _ _ _ _ _ OP) (pt_bytes _ _ _ _ _ OP))|].
  intros d s1 [Hun1 [(-> & l1 & Hk1 & Hb1 & Hl1)|(Hd & l1 & T1 & A1 & Hl1)]].
  - rewrite Z.eqb_refl. apply wp_ret. left. split; [done|]. exists l1, []. split_and!; try done. simpl. lia.
  - rewrite (proj2 (Z.eqb_neq d 0)) by done. assert (HC : child s l s1 l1 d T1 ∅ []).
    { constructor; [done| |done]. unfold frames. rewrite map_to_list_empty. cbn. by rewrite app_nil_r. }
    eapply wp_mono; [apply (copyuvm_loop_spec s l P TP UP AP d sz _ Hsz Hpres s1 l1 T1 ∅ 0 HC)|].
    + intros k. rewrite decide_False by lia. apply lookup_empty.
    + unfold npages. dlia.
    + unfold npages, PGSIZE. dlia.
    + intros r s2 [?|[-> H]]; [by left|by right].
Qed.

(** What a process reads depends on its frames only. *)
Lemma uread_beside s s' l l' X pgdir T U : aspace s l pgdir T U -> untouched l (km_mem s) (km_mem s') ->
  kmem_ok kend s' l' -> bytes_ok (km_mem s') -> X ++ l' ≡ₚ l ->
  aspace s' l' pgdir T U /\ forall va, uread (km_mem s') U va = uread (km_mem s) U va.
Proof.
  intros A Hun Hk Hb HX. destruct (space_beside s s' l l' X pgdir T U A Hun Hk Hb HX) as [A' Hs]. split; [done|].
  intros va. unfold uread. destruct (U !! (va / 4096)) as [[q f]|] eqn:E; [|done]. simpl. f_equal.
  apply (Hs q); [by eapply frames_in|unfold PGSIZE; dlia].
Qed.

(** C24: The copy is a new address space that reads like the old one up to [sz] and
    has the same permissions; the old one is as it was; and the pages of both
    and the free ones are those that were there. Without enough memory the
    answer is 0 and the pages are free again, except that one may be lost. *)
Theorem copyuvm_copies kdata s l P TP UP sz : KERNLINK < kdata < KERNBASE + PHYSTOP -> kdata mod 4096 = 0 ->
  aspace s l P TP UP -> 0 <= sz <= KERNBASE -> (forall k, 0 <= k < npages sz -> UP !! k <> None) ->
  wp (copyuvm kend kdata P sz) (fun r s' => exists l' X,
    aspace s' l' P TP UP /\ (forall va, uread (km_mem s') UP va = uread (km_mem s) UP va) /\ X ++ l' ≡ₚ l /\
    (r = 0 /\ (length X <= 1)%nat \/
     r <> 0 /\ exists T U, aspace s' l' r T U /\ X ≡ₚ r :: T ++ frames U /\
       (forall va, 0 <= va -> uread (km_mem s') U va = if decide (va / 4096 < npages sz) then uread (km_mem s) UP va else None) /\
       (forall k, 0 <= k < npages sz -> snd <$> U !! k = snd <$> UP !! k))) s.
Proof.
  intros Hkd Hkm AP Hsz Hpres. eapply wp_mono; [by apply (copyuvm_spec kdata s l P TP UP sz)|].
  intros r s2 [(-> & l2 & X & Hk2 & Hb2 & HX & Hlen & Hun2)|(Hr0 & l2 & T2 & U2 & [A2 HP2 Hun2] & Hcop)].
  - exists l2, X. destruct (uread_beside s s2 l l2 X P TP UP AP Hun2 Hk2 Hb2 HX) as [A' Hr]. split_and!; [done|done|done|]. by left.
  - exists l2, (r :: T2 ++ frames U2). pose proof (as_pgt _ _ _ _ _ A2) as O2.
    assert (HX : (r :: T2 ++ frames U2) ++ l2 ≡ₚ l) by (clear -HP2; perm_solve).
    destruct (uread_beside s s2 l l2 _ P TP UP AP Hun2 (pt_kmem _ _ _ _ _ O2) (pt_bytes _ _ _ _ _ O2) HX) as [A' Hr].
    split_and!; [done|done|done|]. right. split; [done|]. exists T2, U2. split_and!; [done|done| |].
    + intros va Hva. rewrite (copies_uread _ _ _ _ _ Hcop Hva). by rewrite Hr.
    + intros k Hk. specialize (Hcop k). rewrite decide_True in Hcop by done. by destruct Hcop as (q & f & q' & -> & -> & _).
Qed.
End space.
