(* ===== verification/VmGrow.v ===== *)
(** Growing an address space (vm.c: allocuvm), writing into one (copyout), and
    the page balance of creating and releasing one. *)

From S2P Require Import Prelude Params KString Kalloc Vm VmProofs VmSpace.

Section grow.
Context (kend : Z) (Hkend : KERNBASE < kend).
Abbreviation is_page := (is_page kend).
Abbreviation aspace := (aspace kend).

Definition zero_page (m : mem) (q : Z) : Prop := forall x, q <= x < q + PGSIZE -> m x = 0.

(** The space [U] of [s0] with new empty pages from [n0] to [n]. *)
Record grown (s0 : kmem) (U : umap) (n0 n : Z) (s : kmem) (U' : umap) : Prop := {
  gr_map : forall k, if decide (n0 <= k < n) then exists q, U' !! k = Some (q, 7) /\ zero_page (km_mem s) q else U' !! k = U !! k;
  gr_old : forall q x, q ∈ frames U -> q <= x < q + PGSIZE -> km_mem s x = km_mem s0 x;
}.

Section alloc.
Context (s0 : kmem) (l0 : list Z) (pgdir : Z) (T0 : list Z) (U0 : umap) (A0 : aspace s0 l0 pgdir T0 U0).

(** A state on the way. *)
Record growing (n0 n : Z) (s : kmem) (l : list Z) (T : list Z) (U : umap) (X : list Z) : Prop := {
  gg_space : aspace s l pgdir T U;
  gg_grown : grown s0 U0 n0 n s U;
  gg_pages : X ++ T ++ l ++ frames U ≡ₚ T0 ++ l0 ++ frames U0;
}.

Lemma growing_nodup n0 n s l T U X : growing n0 n s l T U X -> NoDup (X ++ pgdir :: T ++ l ++ frames U) /\ Forall is_page (X ++ pgdir :: T ++ l ++ frames U).
Proof.
  intros [A _ HP]. pose proof (as_pgt _ _ _ _ _ _ A0) as O0.
  assert (HP' : X ++ pgdir :: T ++ l ++ frames U ≡ₚ pgdir :: T0 ++ l0 ++ frames U0) by (by rewrite <- Permutation_middle, HP).
  rewrite HP'. split; [apply (as_nodup _ _ _ _ _ _ A0)|]. pose proof (pt_pages _ _ _ _ _ O0) as Hp.
  apply Forall_cons in Hp as [Hp HT]. constructor; [done|]. apply Forall_app. split; [done|].
  apply Forall_app. split; [apply (ko_pages _ _ _ (pt_kmem _ _ _ _ _ O0))|apply (as_pages _ _ _ _ _ _ A0)].
Qed.

(** Changes outside the frames of the space. *)
Lemma grown_untouched n0 n s s' U L : grown s0 U0 n0 n s U -> untouched L (km_mem s) (km_mem s') -> Forall is_page L -> Forall is_page (frames U) ->
  (forall q, q ∈ frames U -> q ∉ L) -> (forall k, n0 <= k < n -> U0 !! k = None) -> grown s0 U0 n0 n s' U.
Proof.
  intros [Hm Ho] Hun HL HF Hd Hnone. rewrite Forall_forall in HL, HF.
  assert (Hs : forall q x, q ∈ frames U -> q <= x < q + PGSIZE -> km_mem s' x = km_mem s x).
  { intros q x Hq Hx. apply Hun. intros p Hp. destruct (pages_apart kend p q (HL _ Hp) (HF _ Hq)); [|unfold PGSIZE in *; lia..].
    intros ->. by apply (Hd q). }
  constructor.
  - intros k. specialize (Hm k). case_decide; [|done]. destruct Hm as (q & E & Hz). exists q. split; [done|].
    intros x Hx. rewrite (Hs q) by (done || by eapply frames_in). by apply Hz.
  - intros q x Hq Hx. rewrite (Hs q); [by apply (Ho q)| |done]. unfold frames in Hq. apply list_elem_of_fmap in Hq as ([k [q' f]] & -> & Hk).
    apply elem_of_map_to_list in Hk. simpl. specialize (Hm k). case_decide as D; [by rewrite (Hnone k D) in Hk|].
    rewrite Hk in Hm. by eapply frames_in.
Qed.

(** Out of memory: the pages added so far are given back. *)
Lemma grow_undo oldsz newsz n s l T U X : growing (npages oldsz) n s l T U X -> 0 <= oldsz < newsz -> newsz <= KERNBASE ->
  n <= npages newsz -> (forall k, npages oldsz <= k < npages newsz -> U0 !! k = None) ->
  wp (deallocuvm kend pgdir newsz oldsz) (fun _ s' => exists l', growing (npages oldsz) (npages oldsz) s' l' T U0 X) s.
Proof.
  intros HG Hold Hnew Hn Hnone. destruct (growing_nodup _ _ _ _ _ _ _ HG) as [Hnd Hpg]. destruct HG as [A HG HP].
  eapply wp_mono; [by apply (deallocuvm_spec kend Hkend s l pgdir T U newsz oldsz)|].
  intros r s' (_ & l' & R & A' & Hl & HF & Hun).
  assert (EU : cut (npages oldsz) (npages newsz) U = U0).
  { apply map_eq. intros k. rewrite cut_lookup. pose proof (gr_map _ _ _ _ _ _ HG k) as Hk.
    destruct (decide (npages oldsz <= k < npages newsz)) as [D|D]; [by rewrite (Hnone k D)|]. by rewrite decide_False in Hk by lia. }
  rewrite EU in *. exists l'. constructor; [done| |].
  - constructor; [intros k; by rewrite decide_False by lia|]. intros q x Hq Hx. rewrite <- (gr_old _ _ _ _ _ _ HG q x Hq Hx).
    apply Hun. intros p Hp. rewrite Forall_forall in Hpg.
    assert (HPx : X ++ pgdir :: T ++ l ++ frames U ≡ₚ X ++ pgdir :: l ++ (R ++ T) ++ frames U0).
    { clear -HF. perm_solve. }
    rewrite HPx in Hnd. assert (Hpq : p <> q).
    { intros ->. clear -Hnd Hp Hq. apply NoDup_app in Hnd as (_ & _ & Hnd). apply NoDup_cons in Hnd as [_ Hnd].
      apply NoDup_app in Hnd as (_ & _ & Hnd). apply NoDup_app in Hnd as (_ & Hnd & _). by apply (Hnd q). }
    assert (Hpp : is_page p) by (apply Hpg; rewrite HPx; clear -Hp; set_solver).
    assert (Hqq : is_page q) by (apply Hpg; rewrite HPx; clear -Hq; set_solver).
    destruct (pages_apart kend p q Hpp Hqq Hpq); unfold PGSIZE in *; lia.
  - clear -HP HF Hl. perm_solve.
Qed.

Section steps.
Context (n0 n : Z) (Hnone : forall k, n0 <= k < n -> U0 !! k = None).

Lemma growing_kalloc i s l T U : growing n0 i s l T U [] ->
  wp kalloc (fun r s' => (r = 0 /\ s' = s) \/ (r <> 0 /\ is_page r /\ exists l', growing n0 i s' l' T U [r])) s.
Proof.
  intros [A HG HP]. eapply wp_mono; [by apply (space_kalloc kend Hkend s l pgdir T U)|]. intros r s' [Em Hl].
  destruct l as [|q l]; [by left|right]. destruct Hl as (-> & Hr & A' & Hq & _). split_and!; [done|done|]. exists l.
  constructor; [done| |clear -HP; perm_solve]. destruct HG as [Hm Ho]. by constructor; [unfold zero_page|]; rewrite Em.
Qed.

Lemma growing_zero i s l T U q : growing n0 i s l T U [q] -> is_page q -> i <= n ->
  wp (kmemset q 0 PGSIZE) (fun _ s' => growing n0 i s' l T U [q] /\ zero_page (km_mem s') q) s.
Proof.
  intros HG Hq Hi. destruct (growing_nodup _ _ _ _ _ _ _ HG) as [Hnd _]. apply NoDup_cons in Hnd as [Hnd _]. destruct HG as [A HG HP].
  pose proof (as_pgt _ _ _ _ _ _ A) as O.
  eapply wp_mono; [apply (memset_page kend Hkend s q l (pt_kmem _ _ _ _ _ O) (pt_bytes _ _ _ _ _ O) Hq); set_solver|].
  intros [] s' (Hk & Hb & Hun & Hz). split; [|done]. constructor; [| |done].
  - apply (space_frame kend Hkend s s' l l pgdir T U [q] A); try done; [by apply Forall_singleton|set_solver|apply (as_nodup _ _ _ _ _ _ A)].
  - eapply (grown_untouched _ _ s s' U [q] HG Hun); [by apply Forall_singleton|apply (as_pages _ _ _ _ _ _ A)|set_solver|].
    intros k Hk'. apply Hnone. lia.
Qed.

Lemma growing_map i s l T U q : growing n0 i s l T U [q] -> is_page q -> zero_page (km_mem s) q ->
  n0 <= i < n -> 0 <= i < NUSER ->
  wp (mappages pgdir (4096 * i) PGSIZE (V2P q) (Z.lor PTE_W PTE_U)) (fun r s' => exists l' T',
    (r = 0 /\ growing n0 (i + 1) s' l' T' (<[i := (q, 7)]> U) [] \/ r = -1 /\ growing n0 i s' l' T' U [q])) s.
Proof.
  intros HG Hq Hz Hi Hi'. destruct (growing_nodup _ _ _ _ _ _ _ HG) as [Hnd Hpg]. destruct HG as [A HG HP].
  assert (HUi : U !! i = None).
  { pose proof (gr_map _ _ _ _ _ _ HG i) as Hk. rewrite decide_False in Hk by lia. rewrite Hk. apply Hnone. lia. }
  apply NoDup_cons in Hnd as [Hqn Hnd]. cbn [app] in Hpg. apply Forall_cons in Hpg as [_ Hpg].
  rewrite app_assoc, app_comm_cons in Hnd, Hpg. apply NoDup_app in Hnd as (_ & Hnd & _). apply Forall_app in Hpg as [HpL HpF].
  eapply wp_mono; [apply (space_map kend Hkend s l pgdir T U i q (Z.lor PTE_W PTE_U) A); try done|].
  intros r s' (l' & T' & HTl & Hun & Hr). exists l', T'.
  assert (HG' : grown s0 U0 n0 i s' U).
  { eapply (grown_untouched _ _ s s' U _ HG Hun); [done|done| |intros k Hk; apply Hnone; lia]. intros p Hp Hp'. by apply (Hnd p). }
  change (Z.lor (Z.lor PTE_W PTE_U) PTE_P) with 7 in Hr.
  destruct Hr as [[-> A']|(-> & _ & A')]; [left|right]; (split; [done|]); constructor; try done.
  - destruct HG' as [Hm Ho]. constructor; [|done]. intros k. specialize (Hm k). destruct (decide (k = i)) as [->|Hne].
    + rewrite decide_True by lia. exists q. rewrite lookup_insert_eq. split; [done|]. intros x Hx. rewrite <- (Hz x Hx). apply Hun.
      intros p Hp. rewrite Forall_forall in HpL. destruct (pages_apart kend p q (HpL _ Hp) Hq); [set_solver|unfold PGSIZE in *; lia..].
    + rewrite lookup_insert_ne by done. repeat case_decide; try lia; done.
  - rewrite frames_insert by done. clear -HP HTl. perm_solve.
  - clear -HP HTl. perm_solve.
Qed.
End steps.

Lemma allocuvm_loop_spec oldsz newsz fuel : 0 <= oldsz <= newsz -> newsz < KERNBASE ->
  let n0 := npages oldsz in let n := npages newsz in (forall k, n0 <= k < n -> U0 !! k = None) ->
  forall s l T U i, growing n0 i s l T U [] -> n0 <= i <= n -> (Z.to_nat (n - i) <= fuel)%nat ->
  wp (allocuvm_loop kend fuel pgdir (4096 * i) oldsz newsz) (fun r s' => exists l' T' U',
    (r = newsz /\ growing n0 n s' l' T' U' [] \/ r = 0 /\ growing n0 n0 s' l' T' U0 [])) s.
Proof.
  intros Hold Hnew n0 n Hnone. unfold KERNBASE in *. assert (Hn : n <= NUSER) by (unfold n, npages, NUSER; dlia).
  assert (Hn0 : 0 <= n0) by (unfold n0, npages; dlia).
  assert (Hcond : forall i, 4096 * i < newsz <-> i < n) by (intros; unfold n, npages; dlia).
  assert (Hdone : forall s l T U i, growing n0 i s l T U [] -> n0 <= i <= n -> newsz <= 4096 * i ->
    wp (ret newsz) (fun r s' => exists l' T' U',
      (r = newsz /\ growing n0 n s' l' T' U' [] \/ r = 0 /\ growing n0 n0 s' l' T' U0 [])) s).
  { intros s l T U i HG Hi Hge. apply wp_ret. exists l, T, U. left. split; [done|].
    by replace n with i by (destruct (Z.lt_ge_cases i n) as [H%Hcond|]; lia). }
  assert (Hlt0 : forall i, n0 <= i < n -> oldsz < newsz) by (intros i Hi; unfold n0, n, npages in Hi; dlia).
  induction fuel as [|fuel IH]; intros s l T U i HG Hi Hf; cbn [allocuvm_loop];
    destruct (Z.ltb_spec (4096 * i) newsz) as [Hlt|Hge]; try (by eapply Hdone); apply Hcond in Hlt; [lia|].
  specialize (Hlt0 i ltac:(lia)).
  apply wp_bind. eapply wp_mono; [by eapply growing_kalloc|]. intros q s1 [[-> ->]|(Hq0 & Hq & l1 & HG1)].
  - rewrite Z.eqb_refl. apply wp_bind. eapply wp_mono; [apply (grow_undo oldsz newsz i s l T U [] HG); unfold KERNBASE; done || lia|].
    intros r s' (l' & HG'). apply wp_ret. exists l', T, U0. by right.
  - rewrite (proj2 (Z.eqb_neq q 0)) by done. apply wp_bind. eapply wp_mono; [apply (growing_zero n0 n Hnone i s1 l1 T U q HG1 Hq); lia|].
    intros [] s2 [HG2 Hz]. apply wp_bind. eapply wp_mono; [apply (growing_map n0 n Hnone i s2 l1 T U q HG2 Hq Hz); lia|].
    intros r s3 (l3 & T3 & [[-> HG3]|[-> HG3]]); cbn [Z.ltb Z.compare].
    + rewrite u32_small by (unfold is_u32, PGSIZE, NUSER in *; lia).
      replace (4096 * i + PGSIZE) with (4096 * (i + 1)) by (unfold PGSIZE; lia). eapply IH; [exact HG3|lia|lia].
    + apply wp_bind. eapply wp_mono; [apply (grow_undo oldsz newsz i s3 l3 T3 U [q] HG3); unfold KERNBASE; done || lia|].
      intros _ s4 (l4 & HG4). destruct (growing_nodup _ _ _ _ _ _ _ HG4) as [Hnd _]. apply NoDup_cons in Hnd as [Hnd _].
      destruct HG4 as [A4 G4 HP4]. apply wp_bind. eapply wp_mono; [by apply (space_kfree kend Hkend s4 l4 pgdir T3 U0 q)|].
      intros [] s5 [A5 Hun5]. apply wp_ret. exists (q :: l4), T3, U0. right. split; [done|]. constructor; [done| |clear -HP4; perm_solve].
      eapply (grown_untouched _ _ s4 s5 U0 [q] G4 Hun5); [by apply Forall_singleton|apply (as_pages _ _ _ _ _ _ A4)|set_solver|intros k Hk; lia].
Qed.
End alloc.

(** [allocuvm] adds empty user pages from the old size to the new one and keeps
    what is there; or, without enough memory, it returns 0 and gives back what
    it had added. No page is lost in either case. *)
Theorem allocuvm_grows s l pgdir T U oldsz newsz : aspace s l pgdir T U -> 0 <= oldsz <= newsz -> newsz < KERNBASE ->
  (forall k, npages oldsz <= k < npages newsz -> U !! k = None) ->
  wp (allocuvm kend pgdir oldsz newsz) (fun r s' => exists l' T' U', aspace s' l' pgdir T' U' /\
    T' ++ l' ++ frames U' ≡ₚ T ++ l ++ frames U /\
    ((r = newsz /\ forall va, 0 <= va -> uread (km_mem s') U' va =
        if decide (npages oldsz <= va / 4096 < npages newsz) then Some 0 else uread (km_mem s) U va) \/
     (r = 0 /\ U' = U /\ forall va, uread (km_mem s') U va = uread (km_mem s) U va))) s.
Proof.
  intros A Hold Hnew Hnone. unfold allocuvm. rewrite (proj2 (Z.leb_gt KERNBASE newsz)), (proj2 (Z.ltb_ge newsz oldsz)) by lia.
  unfold KERNBASE in *. rewrite PGROUNDUP_eq by (unfold PGSIZE; lia). change PGSIZE with 4096.
  replace ((oldsz + 4096 - 1) / 4096) with (npages oldsz) by (unfold npages; f_equal; lia).
  assert (Hread : forall s' U' n, grown s U (npages oldsz) n s' U' -> forall va, 0 <= va -> uread (km_mem s') U' va =
    if decide (npages oldsz <= va / 4096 < n) then Some 0 else uread (km_mem s) U va).
  { intros s' U' n [Hm Ho] va Hva. specialize (Hm (va / 4096)). unfold uread. case_decide.
    - destruct Hm as (q & -> & Hz). simpl. f_equal. apply Hz. unfold PGSIZE. dlia.
    - rewrite Hm. destruct (U !! (va / 4096)) as [[q f]|] eqn:E; [|done]. simpl. f_equal. apply (Ho q); [by eapply frames_in|unfold PGSIZE; dlia]. }
  assert (HG0 : growing s l pgdir T U (npages oldsz) (npages oldsz) s l T U []).
  { constructor; [done| |done]. constructor; [|done]. intros k. by rewrite decide_False by lia. }
  eapply wp_mono; [apply (allocuvm_loop_spec s l pgdir T U A oldsz newsz _ Hold ltac:(unfold KERNBASE; lia) Hnone s l T U _ HG0)|].
  - unfold npages. dlia.
  - unfold npages. dlia.
  - intros r s' (l' & T' & U' & [[-> [A' HG HP]]|[-> [A' HG HP]]]).
    + exists l', T', U'. split_and!; [done|done|]. left. split; [done|]. by apply Hread.
    + exists l', T', U. split_and!; [done|done|]. right. split_and!; [done|done|]. intros va.
      unfold uread. destruct (U !! (va / 4096)) as [[q f]|] eqn:E; [|done]. simpl. f_equal.
      apply (gr_old _ _ _ _ _ _ HG q); [by eapply frames_in|unfold PGSIZE; dlia].
Qed.

(** *** Writing into an address space *)

Lemma mwrites_spec l : forall m a x, mwrites m a l x = if decide (a <= x < a + Z.of_nat (length l)) then l !!! Z.to_nat (x - a) else m x.
Proof.
  induction l as [|c l IH]; intros m a x; cbn [mwrites length]; [by rewrite decide_False by lia|].
  rewrite IH. unfold mwrite. repeat case_decide; try lia; try done.
  - replace (Z.to_nat (x - a)) with (S (Z.to_nat (x - (a + 1)))) by lia. done.
  - subst x. by rewrite Z.sub_diag.
Qed.

Lemma flags_has e : is_u32 e -> has (PTE_FLAGS e) PTE_U = has e PTE_U.
Proof. intros He. unfold has, PTE_FLAGS. by rewrite u32_small, <- Z.land_assoc. Qed.

Lemma uva2ka_spec s l pgdir T U va q f : aspace s l pgdir T U -> 0 <= va < NUSER -> U !! va = Some (q, f) -> has f PTE_U = true ->
  uva2ka pgdir (4096 * va) s = Ret q s /\ is_page q.
Proof.
  intros A Hi HU Hf. destruct (page_va va Hi) as (Hva & Hvk & Ei).
  destruct (walkpgdir_lookup _ _ _ _ _ (as_pgt _ _ _ _ _ _ A) _ Hva) as [Ew Hnz].
  pose proof (as_user _ _ _ _ _ _ A _ Hvk) as Ht. rewrite Ei, HU in Ht. unfold translate in Ht.
  destruct (walk (km_mem s) pgdir (4096 * va)) as [pte|] eqn:Hw; [clear Ht|done].
  pose proof (space_entry kend _ _ _ _ _ _ _ A Hi Hw) as He. cbv zeta in He. rewrite HU in He. destruct He as (H1 & H2 & H3 & Hq).
  split; [|done]. unfold uva2ka. rewrite (bind_Ret _ _ _ _ _ Ew). cbn [from_option id]. unfold id.
  rewrite (proj2 (Z.eqb_neq pte 0)) by congruence. unfold load32. krun. rewrite H1. cbn [negb].
  rewrite <- flags_has, H3, Hf by (apply mread32_u32, (pt_bytes _ _ _ _ _ (as_pgt _ _ _ _ _ _ A))). cbn [negb]. rewrite H2. by destruct (P2V_V2P kend Hkend q Hq) as [-> _].
Qed.

(** A write into a user page. *)
Lemma space_kwrite s l pgdir T U i q f o bs : aspace s l pgdir T U -> U !! i = Some (q, f) -> 0 <= o -> o + Z.of_nat (length bs) <= 4096 ->
  Forall is_u8 bs ->
  wp (kwrite (q + o) bs) (fun _ s' => aspace s' l pgdir T U /\ forall va, 0 <= va -> uread (km_mem s') U va =
    if decide (4096 * i + o <= va < 4096 * i + o + Z.of_nat (length bs)) then Some (bs !!! Z.to_nat (va - (4096 * i + o))) else uread (km_mem s) U va) s.
Proof.
  intros A HU Ho Hlen Hbs. pose proof (as_pgt _ _ _ _ _ _ A) as O. apply wp_modify. cbn [km_mem].
  pose proof (frames_in _ _ _ _ HU) as Hin. pose proof (as_pages _ _ _ _ _ _ A) as Hp. rewrite Forall_forall in Hp. pose proof (Hp q Hin) as Hq.
  assert (Hun : untouched [q] (km_mem s) (mwrites (km_mem s) (q + o) bs)).
  { intros x Hx. specialize (Hx q ltac:(by left)). rewrite mwrites_spec. unfold PGSIZE in *. by rewrite decide_False by lia. }
  assert (Hd : q ∉ pgdir :: T ++ l).
  { pose proof (as_nodup _ _ _ _ _ _ A) as Hn. rewrite app_assoc, app_comm_cons in Hn. apply NoDup_app in Hn as (_ & Hn & _). intros H. by apply (Hn q). }
  split.
  - apply (space_frame kend Hkend s _ l l pgdir T U [q] A); try done; [by apply Forall_singleton|set_solver| | |apply (as_nodup _ _ _ _ _ _ A)].
    + intros x. cbn [km_mem]. rewrite mwrites_spec. case_decide; [|apply (pt_bytes _ _ _ _ _ O)].
      apply (Forall_lookup_1 _ bs (Z.to_nat (x - (q + o)))); [done|]. apply list_lookup_lookup_total_lt. lia.
    + apply (kmem_ok_untouched kend Hkend _ _ _ _ _ (pt_kmem _ _ _ _ _ O) Hun); [by apply Forall_singleton|set_solver].
  - intros va Hva. unfold uread. destruct (decide (va / 4096 = i)) as [Ei|Ei].
    + rewrite Ei, HU. simpl. rewrite mwrites_spec. repeat case_decide; try dlia; do 2 f_equal; dlia.
    + rewrite decide_False by dlia. destruct (U !! (va / 4096)) as [[p g]|] eqn:E; [|done]. simpl. f_equal.
      apply Hun. intros p' ->%list_elem_of_singleton.
      assert (Hne : q <> p).
      { intros <-. pose proof (as_nodup _ _ _ _ _ _ A) as Hn. rewrite app_assoc, app_comm_cons in Hn. apply NoDup_app in Hn as (_ & _ & Hn).
        rewrite (frames_delete _ _ _ _ HU) in Hn. apply NoDup_cons in Hn as [Hn _]. apply Hn.
        eapply frames_in. by rewrite lookup_delete_ne. }
      destruct (pages_apart kend q p Hq (Hp _ (frames_in _ _ _ _ E)) Hne); unfold PGSIZE in *; dlia.
Qed.

(** [copyout] of a range whose pages are all mapped for the user stores the
    bytes there and changes nothing else of the address space. *)
Lemma copyout_loop_spec pgdir fuel : forall s l T U va p, aspace s l pgdir T U -> (length p <= fuel)%nat -> Forall is_u8 p ->
  0 <= va -> va + Z.of_nat (length p) <= KERNBASE ->
  (forall k, va / 4096 <= k < npages (va + Z.of_nat (length p)) -> exists q f, U !! k = Some (q, f) /\ has f PTE_U = true) ->
  wp (copyout_loop fuel pgdir va p) (fun r s' => r = 0 /\ aspace s' l pgdir T U /\ forall x, 0 <= x -> uread (km_mem s') U x =
    if decide (va <= x < va + Z.of_nat (length p)) then Some (p !!! Z.to_nat (x - va)) else uread (km_mem s) U x) s.
Proof.
  induction fuel as [|fuel IH]; intros s l T U va p A Hf Hb Hva Htop Hmap; destruct p as [|c p']; simpl in Hf; try lia.
  1, 2: cbn [copyout_loop]; apply wp_ret; split_and!; [done|done|]; intros x Hx; by rewrite decide_False by (simpl; lia).
  cbn [copyout_loop]. set (p := c :: p') in *. assert (Hlen : length p = S (length p')) by done. unfold KERNBASE in Htop.
  rewrite PGROUNDDOWN_eq by (unfold is_u32; lia). unfold PGSIZE. set (i := va / 4096) in *.
  assert (Hi : 0 <= i < NUSER /\ 4096 * i <= va < 4096 * i + 4096) by (unfold i, NUSER; dlia). destruct Hi as [Hi Hvi].
  destruct (Hmap i) as (q & f & HU & Hfu); [unfold npages; dlia|].
  destruct (uva2ka_spec s l pgdir T U i q f A Hi HU Hfu) as [Eu Hq]. pose proof (page_range _ _ Hq).
  apply wp_bind. eapply wp_intro; [exact Eu|]. rewrite (proj2 (Z.eqb_neq q 0)) by lia.
  rewrite (u32_small (4096 - _)) by (unfold is_u32; lia). set (n := Z.min _ _). assert (Hn : 1 <= n <= Z.of_nat (length p) /\ n <= 4096 - (va - 4096 * i)) by lia.
  assert (Elen : Z.of_nat (length (take (Z.to_nat n) p)) = n) by (rewrite length_take; lia).
  apply wp_bind. eapply wp_mono; [apply (space_kwrite s l pgdir T U i q f (va - 4096 * i) (take (Z.to_nat n) p) A HU); [lia|lia|by apply Forall_take]|].
  rewrite Elen. intros [] s1 [A1 Hr1].
  destruct (decide (n = Z.of_nat (length p))) as [En|En].
  - rewrite drop_ge by lia. destruct fuel; cbn [copyout_loop]; apply wp_ret; (split_and!; [done|done|]; intros x Hx; rewrite Hr1 by done;
      replace (4096 * i + (va - 4096 * i)) with va by lia; rewrite En; case_decide; [|done]; rewrite take_ge by lia; done).
  - rewrite u32_small by (unfold is_u32; lia). assert (Ev : va + n = 4096 * i + 4096) by lia. rewrite <- Ev.
    assert (El : Z.of_nat (length (drop (Z.to_nat n) p)) = Z.of_nat (length p) - n) by (rewrite length_drop; lia).
    eapply wp_mono; [apply (IH s1 l T U (va + n) (drop (Z.to_nat n) p) A1)|].
    + rewrite length_drop. lia.
    + by apply Forall_drop.
    + lia.
    + rewrite El. unfold KERNBASE. lia.
    + rewrite El. intros k Hk. apply Hmap. replace (va + n + (Z.of_nat (length p) - n)) with (va + Z.of_nat (length p)) in Hk by lia.
      unfold i. split; [|lia]. assert (va / 4096 <= (va + n) / 4096) by (apply Z.div_le_mono; lia). lia.
    + intros r s2 (-> & A2 & Hr2). split_and!; [done|done|]. intros x Hx. rewrite Hr2, Hr1, El by done.
      replace (4096 * i + (va - 4096 * i)) with va by lia. repeat case_decide; try lia; try done.
      * f_equal. rewrite lookup_total_drop. f_equal. lia.
      * f_equal. rewrite list_lookup_total_alt, lookup_take_lt, <- list_lookup_total_alt by lia. done.
Qed.

(** C26: The theorem for [copyout] itself. *)
Theorem copyout_writes s l pgdir T U va p : aspace s l pgdir T U -> Forall is_u8 p -> 0 <= va -> va + Z.of_nat (length p) <= KERNBASE ->
  (forall k, va / 4096 <= k < npages (va + Z.of_nat (length p)) -> exists q f, U !! k = Some (q, f) /\ has f PTE_U = true) ->
  wp (copyout pgdir va p) (fun r s' => r = 0 /\ aspace s' l pgdir T U /\ forall x, 0 <= x -> uread (km_mem s') U x =
    if decide (va <= x < va + Z.of_nat (length p)) then Some (p !!! Z.to_nat (x - va)) else uread (km_mem s) U x) s.
Proof. intros A Hb Hva Htop Hmap. by apply copyout_loop_spec. Qed.

(** C25: After [freevm] the allocator gives out exactly the pages that were free and
    those of the address space (directory, page tables and user pages), each
    once, and then no more. *)
Theorem freevm_no_leak s l pgdir T U : aspace s l pgdir T U ->
  let all := pgdir :: T ++ l ++ frames U in
  wp (freevm kend pgdir;;; let! ps := kallocs (length all) in let! r := kalloc in ret (ps, r))
     (fun x _ => x.1 ≡ₚ all /\ NoDup x.1 /\ x.2 = 0) s.
Proof.
  intros A all. apply wp_bind. eapply wp_mono; [by apply (freevm_spec kend Hkend s l pgdir T U)|].
  intros [] s1 (l1 & Hk & _ & Hl & _). fold all in Hl. rewrite <- (Permutation_length Hl).
  apply wp_bind. eapply wp_mono; [apply (kallocs_spec kend l1 s1 []); by rewrite app_nil_r|]. intros ps s2 [-> Hk2].
  apply wp_bind. eapply wp_mono; [apply (kalloc_spec kend s2 [] Hk2)|]. intros r s3 (_ & -> & _). apply wp_ret.
  split_and!; [done|apply (ko_nodup _ _ _ Hk)|done].
Qed.
End grow.

(** *** A small address space for the witnesses: one user page that holds
    zeros, and two free pages. *)

Definition tiny_end : Z := KERNBASE + 0x1000.
Definition tiny_dir : Z := KERNBASE + 0x2000.
Definition tiny_table : Z := KERNBASE + 0x3000.
Definition tiny_frame : Z := KERNBASE + 0x4000.
Definition tiny_free : list Z := [KERNBASE + 0x5000; KERNBASE + 0x6000].
Definition tiny_mem : mem :=
  mwrite32 (mwrite32 (mwrite32 (fun _ => 0) tiny_dir 0x3007) tiny_table 0x4007) (KERNBASE + 0x5000) (KERNBASE + 0x6000).
Definition tiny : kmem := Kmem tiny_mem (KERNBASE + 0x5000) false.
Definition tiny_map : umap := {[0 := (tiny_frame, 7)]}.

Lemma tiny_word a : mread32 tiny_mem a = (if decide (a = tiny_dir) then 0x3007 else if decide (a = tiny_table) then 0x4007
  else if decide (a = KERNBASE + 0x5000) then KERNBASE + 0x6000 else 0) \/ a mod 4 <> 0.
Proof.
  destruct (decide (a mod 4 = 0)) as [Ha|]; [left|by right]. unfold tiny_mem, tiny_dir, tiny_table, KERNBASE.
  destruct (decide (a = 0x80000000 + 0x5000)) as [->|N1]; [rewrite mread32_write by (unfold is_u32; lia); by rewrite !decide_False by lia|].
  rewrite mread32_write_ne by dlia.
  destruct (decide (a = 0x80000000 + 0x3000)) as [->|N2]; [rewrite mread32_write by (unfold is_u32; lia); by rewrite decide_False by lia|].
  rewrite mread32_write_ne by dlia.
  destruct (decide (a = 0x80000000 + 0x2000)) as [->|N3]; [by rewrite mread32_write by (unfold is_u32; lia)|].
  by rewrite mread32_write_ne by dlia.
Qed.

Lemma tiny_dirent d : 0 <= d < 1024 -> mread32 tiny_mem (tiny_dir + 4 * d) = if decide (d = 0) then 0x3007 else 0.
Proof.
  intros Hd. unfold tiny_dir, KERNBASE in *. destruct (tiny_word (0x80000000 + 0x2000 + 4 * d)) as [->|H]; [|dlia].
  unfold tiny_dir, tiny_table, KERNBASE. repeat case_decide; lia.
Qed.
Lemma tiny_entry d : 0 <= d < 1024 -> mread32 tiny_mem (tiny_table + 4 * d) = if decide (d = 0) then 0x4007 else 0.
Proof.
  intros Hd. unfold tiny_table, KERNBASE in *. destruct (tiny_word (0x80000000 + 0x3000 + 4 * d)) as [->|H]; [|dlia].
  unfold tiny_dir, tiny_table, KERNBASE. repeat case_decide; lia.
Qed.
Lemma tiny_page k : 1 <= k < 7 -> is_page tiny_end (KERNBASE + 0x1000 * k).
Proof. intros Hk. unfold is_page, tiny_end, PHYSTOP, PGSIZE, KERNBASE in *. split_and!; try lia. dlia. Qed.

Lemma tiny_frames : frames tiny_map = [tiny_frame].
Proof. unfold frames, tiny_map. by rewrite map_to_list_singleton. Qed.

Lemma tiny_ok : aspace tiny_end tiny tiny_free tiny_dir [tiny_table] tiny_map.
Proof.
  assert (Hpt : pt_page 0x3007 = tiny_table) by reflexivity.
  constructor.
  - constructor; cbn [km_mem tiny].
    + constructor; [split; [done|split; [by vm_compute|by vm_compute]]|apply (bool_decide_unpack _); by vm_compute|].
      constructor; [apply (tiny_page 5); lia|constructor; [apply (tiny_page 6); lia|constructor]].
    + intros x. unfold tiny_mem. by repeat apply bytes_ok_write32.
    + apply (bool_decide_unpack _). by vm_compute.
    + constructor; [apply (tiny_page 2); lia|constructor; [apply (tiny_page 3); lia|constructor]].
    + intros d Hd. rewrite tiny_dirent by done. case_decide; [intros _; rewrite Hpt; by left|by vm_compute].
    + intros d d' Hd Hd'. rewrite !tiny_dirent by done. repeat case_decide; try by vm_compute. by subst.
    + intros q ->%list_elem_of_singleton. exists 0. rewrite tiny_dirent by lia. done.
  - rewrite tiny_frames. apply (bool_decide_unpack _). by vm_compute.
  - rewrite tiny_frames. apply Forall_singleton, (tiny_page 4). lia.
  - intros i q f Hi. unfold tiny_map in Hi. apply lookup_singleton_Some in Hi as [<- [= <- <-]]. unfold NUSER. split_and!; try lia. done.
  - intros va Hva. cbn [km_mem tiny]. unfold KERNBASE in Hva. unfold translate, walk.
    rewrite PDX_eq, PTX_eq by (unfold is_u32; lia). rewrite tiny_dirent by dlia.
    destruct (decide (va / 4194304 = 0)) as [E|E].
    + replace (has 0x3007 PTE_P) with true by reflexivity. rewrite Hpt, tiny_entry by dlia.
      destruct (decide (va / 4096 = 0)) as [E'|E'].
      * rewrite E'. replace (0 mod 1024) with 0 by done. by rewrite decide_True by done.
      * rewrite decide_False by dlia. replace (has 0 PTE_P) with false by reflexivity. unfold tiny_map. by rewrite lookup_singleton_ne by done.
    + replace (has 0 PTE_P) with false by reflexivity. unfold tiny_map. rewrite lookup_singleton_ne; [done|]. intros E'. apply E. dlia.
Qed.

Lemma allocuvm_grows_witness : exists r s', allocuvm tiny_end tiny_dir 4096 8192 tiny = Ret r s' /\ r = 8192.
Proof.
  destruct (wp_elim _ _ _ (allocuvm_grows tiny_end eq_refl tiny tiny_free tiny_dir [tiny_table] tiny_map 4096 8192 tiny_ok
    ltac:(lia) ltac:(unfold KERNBASE; lia)
    ltac:(intros k Hk; apply lookup_singleton_ne; change (npages 4096) with 1 in Hk; lia))) as (r & s' & E & _).
  exists r, s'. split; [exact E|].
  assert (H : match allocuvm tiny_end tiny_dir 4096 8192 tiny with Ret r _ => r = 8192 | Fail _ => False end) by (vm_compute; reflexivity).
  by rewrite E in H.
Defined.

Lemma freevm_no_leak_witness : exists ps s', (freevm tiny_end tiny_dir;;; let! ps := kallocs 5 in let! r := kalloc in ret (ps, r)) tiny
  = Ret (ps, 0) s' /\ ps ≡ₚ [tiny_dir; tiny_table; KERNBASE + 0x5000; KERNBASE + 0x6000; tiny_frame].
Proof.
  pose proof (freevm_no_leak tiny_end eq_refl tiny tiny_free tiny_dir [tiny_table] tiny_map tiny_ok) as H. cbv zeta in H.
  rewrite tiny_frames in H. destruct (wp_elim _ _ _ H) as ([ps r] & s' & E & HP & _ & Hr). simpl in Hr, HP. subst r.
  exists ps, s'. split; [exact E|exact HP].
Defined.

Lemma copyout_writes_witness : exists s', copyout tiny_dir 10 [65; 66] tiny = Ret 0 s' /\
  uread (km_mem s') tiny_map 10 = Some 65 /\ uread (km_mem s') tiny_map 12 = Some 0.
Proof.
  destruct (wp_elim _ _ _ (copyout_writes tiny_end eq_refl tiny tiny_free tiny_dir [tiny_table] tiny_map 10 [65; 66] tiny_ok
    ltac:(constructor; [unfold is_u8; lia|constructor; [unfold is_u8; lia|constructor]]) ltac:(lia) ltac:(unfold KERNBASE; simpl; lia)
    ltac:(intros k Hk; exists tiny_frame, 7; split; [change (npages _) with 1 in Hk; change (10 / 4096) with 0 in Hk; replace k with 0 by lia; reflexivity|reflexivity])))
    as (r & s' & E & -> & _ & Hr).
  exists s'. split; [exact E|]. rewrite !Hr by lia. split; [reflexivity|]. vm_compute. reflexivity.
Defined.

Lemma copyuvm_copies_witness : exists r s', copyuvm tiny_end (KERNLINK + 0x8000) tiny_dir 4096 tiny = Ret r s' /\
  forall va, uread (km_mem s') tiny_map va = uread tiny_mem tiny_map va.
Proof.
  destruct (wp_elim _ _ _ (copyuvm_copies tiny_end eq_refl (KERNLINK + 0x8000) tiny tiny_free tiny_dir [tiny_table] tiny_map 4096
    ltac:(unfold KERNLINK, KERNBASE, EXTMEM, PHYSTOP; lia) eq_refl tiny_ok ltac:(unfold KERNBASE; lia)
    ltac:(intros k Hk; change (npages 4096) with 1 in Hk; replace k with 0 by lia; done))) as (r & s' & E & l' & X & _ & Hr & _).
  exists r, s'. split; [exact E|exact Hr].
Defined.
