(* ===== verification/Bootmain.v ===== *)
(** The boot loader (bootmain.c): it reads the kernel, an ELF file that starts
    at sector 1 of the disk, into memory and jumps to its entry point.

    It runs alone, in physical memory, on a disk with the contract of Ports.v.
    The theorem at the end says that the segments are in memory as the file
    has them when the loader jumps, provided that they are laid out so that
    reading whole sectors does no harm. *)

From S2P Require Import Prelude Params KString Ports Kalloc Vm VmProofs VmGrow.

Definition SECTSIZE : Z := 512.
Definition scratch : Z := 0x10000.


Section bootmain_c.
Context {D : Type} `{!Ports D}.
(** How often a loop that waits for the disk may read the status. *)
Context (fuel : nat).

Record boot := Boot { bt_mem : mem; bt_dev : D }.
Definition on_disk {A} (m : M D A) : M boot A :=
  fun s => match m (bt_dev s) with Ret a d => Ret a (Boot (bt_mem s) d) | Fail e => Fail e end.
Definition on_memory (f : mem -> mem) : M boot unit := modify (fun s => Boot (f (bt_mem s)) (bt_dev s)).

(** Wait for disk ready. *)
Fixpoint wait_disk (n : nat) : M D unit :=
  match n with
  | O => fail NoFuel
  | S n =>
    let! r := inb 0x1F7 in
    if Z.land r 0xC0 =? 0x40 then ret tt else wait_disk n
  end.
Definition waitdisk : M D unit := wait_disk fuel.

(** Read a single sector at offset into dst. *)
Definition readsect (dst offset : Z) : M boot unit :=
  on_disk waitdisk;;;
  on_disk (outb 0x1F2 1);;;
  on_disk (outb 0x1F3 offset);;;
  on_disk (outb 0x1F4 (Z.shiftr offset 8));;;
  on_disk (outb 0x1F5 (Z.shiftr offset 16));;;
  on_disk (outb 0x1F6 (Z.lor (Z.shiftr offset 24) 0xE0));;;
  on_disk (outb 0x1F7 0x20);;;
  on_disk waitdisk;;;
  let! l := on_disk (insl 0x1F0 (Z.to_nat (SECTSIZE / 4))) in
  on_memory (fun m => mwrites m dst l).

(** Read [count] bytes at [offset] from kernel into physical address [pa]. *)
Fixpoint readseg_loop (n : nat) (pa epa offset : Z) : M boot unit :=
  if pa <? epa then
    match n with
    | O => fail NoFuel
    | S n => readsect pa offset;;; readseg_loop n (u32 (pa + SECTSIZE)) epa (u32 (offset + 1))
    end
  else ret tt.
Definition readseg (pa count offset : Z) : M boot unit :=
  let epa := u32 (pa + count) in
  let pa := u32 (pa - offset mod SECTSIZE) in
  let offset := offset / SECTSIZE + 1 in
  readseg_loop (Z.to_nat (epa / SECTSIZE + 1)) pa epa offset.

(** The fields of the program header at [ph]. *)
Definition ph_off (m : mem) (ph : Z) : Z := mread32 m (ph + 4).
Definition ph_paddr (m : mem) (ph : Z) : Z := mread32 m (ph + 12).
Definition ph_filesz (m : mem) (ph : Z) : Z := mread32 m (ph + 16).
Definition ph_memsz (m : mem) (ph : Z) : Z := mread32 m (ph + 20).

(** Load each program segment (ignores ph flags). *)
Fixpoint load_segments (n : nat) (ph eph : Z) : M boot unit :=
  match n with
  | O => ret tt
  | S n =>
    if ph <? eph then
      let! m := gets bt_mem in
      let pa := ph_paddr m ph in
      readseg pa (ph_filesz m ph) (ph_off m ph);;;
      let! m := gets bt_mem in
      (if ph_filesz m ph <? ph_memsz m ph then
         on_memory (fun m' => stosb m' (u32 (pa + ph_filesz m ph)) 0 (Z.to_nat (ph_memsz m ph - ph_filesz m ph)))
       else ret tt);;;
      load_segments n (u32 (ph + 32)) eph
    else ret tt
  end.

(** [Some entry]: the loader jumps to the kernel; [None]: it returns. *)
Definition bootmain : M boot (option Z) :=
  let elf := scratch in
  readseg elf 4096 0;;;
  let! m := gets bt_mem in
  if negb (mread32 m elf =? ELF_MAGIC) then ret None
  else
    let ph := u32 (elf + mread32 m (elf + 28)) in
    let phnum := mread16 m (elf + 44) in
    let eph := u32 (ph + 32 * phnum) in
    load_segments (Z.to_nat phnum) ph eph;;;
    let! m := gets bt_mem in
    ret (Some (mread32 m (elf + 24))).
End bootmain_c.
Arguments boot : clear implicits.
#[local] Arguments insl : simpl never.
#[local] Arguments wait_disk : simpl never.

(** ** What is read *)

Section boot.
Context {D : Type} `{!Ports D} {delay : nat} `{!AtaDisk D delay} (fuel : nat) (Hfuel : (delay < fuel)%nat).
Implicit Types (d : D) (s : boot D).

Lemma wp_on_disk {A} (m : M D A) (Q : A -> boot D -> Prop) mm d :
  wp m (fun a d' => Q a (Boot mm d')) d -> wp (on_disk m) Q (Boot mm d).
Proof. unfold wp, on_disk. cbn. by destruct (m d). Qed.

Lemma waitdisk_spec d : (a_busy (ata_of d) <= delay)%nat -> wp (waitdisk fuel) (fun _ d' => ata_of d' = set_busy 0 (ata_of d)) d.
Proof.
  intros Hb. unfold waitdisk. assert (Hn : (a_busy (ata_of d) < fuel)%nat) by lia. clear Hb. clear Hfuel. revert d Hn.
  induction fuel as [|n IH]; intros d Hb; [lia|]. unfold wait_disk; fold wait_disk. apply wp_bind. eapply wp_status.
  - intros r d' E Hr _ Hd'. rewrite Hr. apply wp_ret. rewrite Hd'. destruct (ata_of d). simpl in *. by subst.
  - intros r d' k E Hr Hd'. rewrite (proj2 (Z.eqb_neq _ _) Hr). eapply wp_mono; [apply IH; rewrite Hd'; simpl; lia|]. by rewrite Hd'.
Qed.

(** An idle device with sectors [f] none of which is bad. *)
Definition idle (f : Z -> Z -> list Z) (d : D) : Prop :=
  a_disk (ata_of d) = f /\ (a_busy (ata_of d) <= delay)%nat /\ forall k i, a_bad (ata_of d) k i = false.

Lemma boot_regs n : 0 <= n < 2 ^ 28 ->
  u8 n + 256 * u8 (Z.shiftr n 8) + 65536 * u8 (Z.shiftr n 16) + 16777216 * (u8 (Z.lor (Z.shiftr n 24) 0xE0) mod 16) = n /\
  u8 (Z.lor (Z.shiftr n 24) 0xE0) / 16 mod 2 = 0 /\ u8 (Z.lor (Z.shiftr n 24) 0xE0) / 64 mod 2 = 1.
Proof.
  intros Hn. rewrite !Z.shiftr_div_pow2 by lia. change (2 ^ 8) with 256. change (2 ^ 16) with 65536. change (2 ^ 24) with 16777216.
  change (2 ^ 28) with 268435456 in Hn. assert (Ht : 0 <= n / 16777216 < 16) by dlia. set (t := n / 16777216) in *.
  rewrite Z.lor_comm. change 0xE0 with (Z.shiftl 14 4). rewrite lor_low by (change (2 ^ 4) with 16; lia). change (2 ^ 4) with 16.
  rewrite (u8_small (14 * 16 + t)) by (unfold is_u8; lia).
  split_and!; [|clearbody t; dlia|clearbody t; dlia]. replace ((14 * 16 + t) mod 16) with t by (clearbody t; dlia). unfold t. clear. dlia.
Qed.

Lemma readsect_spec f mm d dst n : idle f d -> sectors_ok f -> 0 <= n < 2 ^ 28 ->
  wp (readsect fuel dst n) (fun _ s' => idle f (bt_dev s') /\ bt_mem s' = mwrites mm dst (f 0 n)) (Boot mm d).
Proof.
  intros (Hf & Hb & Hbad) Hs Hn. unfold readsect. apply wp_bind, wp_on_disk. eapply wp_mono; [by apply waitdisk_spec|].
  intros [] d1 E1. do 5 (apply wp_bind, wp_on_disk; eapply wp_latch; [lia|by rewrite ?E1|]; intros d2 E2; rewrite E1 in E2; clear d1 E1; rename d2 into d1, E2 into E1).
  apply wp_bind, wp_on_disk, wp_modify. change (u8 0x20) with 0x20. destruct (boot_regs n Hn) as (H1 & H2 & H3).
  destruct (ata_read d1) as (k & Hk & Ek). { rewrite E1. split_and!; [done|done|exact H3]. }
  assert (Ek' : ata_of (port_out 0x1f7 0x20 d1) = Ata f (a_bad (ata_of d)) k (a_reg (ata_of d1)) (Reading (f 0 n)) false).
  { rewrite Ek. unfold a_read. assert (Ed : a_drive (ata_of d1) = 0) by (rewrite E1; exact H2).
    assert (El : a_lba (ata_of d1) = n) by (rewrite E1; exact H1). rewrite Ed, El, E1. cbn. by rewrite Hbad, Hf. }
  apply wp_bind, wp_on_disk. eapply wp_mono; [apply waitdisk_spec; by rewrite Ek'|]. intros [] d2 E2. rewrite Ek' in E2.
  apply wp_bind, wp_on_disk. change (Z.to_nat (SECTSIZE / 4)) with 128%nat.
  eapply wp_mono; [apply (insl_sector 128 (f 0 n)); [done|apply Hs|apply Hs|by rewrite E2|by rewrite E2]|].
  intros l d3 [-> E3]. apply wp_modify. cbn. split; [|done]. unfold idle. rewrite E3, E2. cbn. split_and!; [done|lia|done].
Qed.

(** The byte at offset [o] of the kernel file. *)
Definition img (f : Z -> Z -> list Z) (o : Z) : Z := f 0 (o / 512 + 1) !!! Z.to_nat (o mod 512).

Lemma readseg_loop_spec f n : forall mm d pa epa sec, idle f d -> sectors_ok f -> 0 <= pa -> 0 <= epa < 2 ^ 32 - 512 ->
  0 <= sec -> sec + Z.of_nat n < 2 ^ 28 -> epa <= pa + 512 * Z.of_nat n ->
  wp (readseg_loop fuel n pa epa sec) (fun _ s' => idle f (bt_dev s') /\ forall x, bt_mem s' x =
    if decide (pa <= x < pa + 512 * ((epa - pa + 511) / 512)) then f 0 (sec + (x - pa) / 512) !!! Z.to_nat ((x - pa) mod 512) else mm x)
    (Boot mm d).
Proof.
  change (2 ^ 32 - 512) with 4294966784. change (2 ^ 28) with 268435456.
  induction n as [|n IH]; intros mm d pa epa sec Hi Hs Hpa Hepa Hsec Hn Hend; cbn [readseg_loop]; destruct (Z.ltb_spec pa epa) as [Hlt|Hge].
  - lia.
  - apply wp_ret. split; [done|]. intros x. rewrite decide_False; [done|]. assert ((epa - pa + 511) / 512 <= 0) by dlia. lia.
  - apply wp_bind. eapply wp_mono; [apply (readsect_spec f); try done; change (2 ^ 28) with 268435456; lia|].
    intros [] [mm1 d1] [Hi1 Hm1]. cbn in Hi1, Hm1. unfold SECTSIZE. rewrite !u32_small by (unfold is_u32; lia).
    eapply wp_mono; [apply IH; try done; lia|]. intros [] s' [Hi' Hm']. split; [done|]. intros x. rewrite (Hm' x), Hm1, mwrites_spec.
    assert (Hl : length (f 0 sec) = 512%nat) by apply Hs. rewrite Hl. change (Z.of_nat 512) with 512.
    assert (Hk : (epa - pa + 511) / 512 = (epa - (pa + 512) + 511) / 512 + 1) by dlia. assert (0 <= (epa - (pa + 512) + 511) / 512) by dlia.
    rewrite Hk. repeat case_decide; try lia.
    + replace ((x - pa) / 512) with ((x - (pa + 512)) / 512 + 1) by dlia. replace ((x - pa) mod 512) with ((x - (pa + 512)) mod 512) by dlia.
      f_equal. f_equal. lia.
    + rewrite Z.div_small, Z.mod_small by lia. by rewrite Z.add_0_r.
  - apply wp_ret. split; [done|]. intros x. rewrite decide_False; [done|]. assert ((epa - pa + 511) / 512 <= 0) by dlia. lia.
Qed.

(** The addresses a call of [readseg] writes: whole sectors. *)
Definition seg_lo (pa off : Z) : Z := pa - off mod 512.
Definition seg_hi (pa count off : Z) : Z := seg_lo pa off + 512 * ((count + off mod 512 + 511) / 512).

Lemma readseg_spec f mm d pa count off : idle f d -> sectors_ok f -> 0 <= seg_lo pa off -> 0 <= count -> pa + count < 2 ^ 32 - 512 -> is_u32 off ->
  wp (readseg fuel pa count off) (fun _ s' => idle f (bt_dev s') /\ forall x, bt_mem s' x =
    if decide (seg_lo pa off <= x < seg_hi pa count off) then img f (off + (x - pa)) else mm x) (Boot mm d).
Proof.
  change (2 ^ 32 - 512) with 4294966784. unfold seg_hi, seg_lo. intros Hi Hs Hlo Hc Hhi Hoff. unfold readseg, SECTSIZE.
  assert (0 <= off mod 512 < 512) by dlia.
  rewrite !u32_small by (unfold is_u32 in *; lia).
  eapply wp_mono; [apply (readseg_loop_spec f); try done|].
  - change (2 ^ 32 - 512) with 4294966784. lia.
  - dlia.
  - rewrite Z2Nat.id by dlia. change (2 ^ 28) with 268435456. dlia.
  - rewrite Z2Nat.id by dlia. dlia.
  - intros [] s' [Hi' Hm]. split; [done|]. intros x. rewrite Hm.
    replace (pa + count - (pa - off mod 512) + 511) with (count + off mod 512 + 511) by lia. case_decide; [|done].
    unfold img. replace (off + (x - pa)) with ((x - (pa - off mod 512)) + (off / 512) * 512) by dlia.
    rewrite Z.div_add, Z.mod_add by lia. f_equal. f_equal. lia.
Qed.

(** ** The kernel in memory *)

Section kernel_file.
Context (f : Z -> Z -> list Z) (Hs : sectors_ok f).

(** The headers, read from the file. *)
Definition k_phoff : Z := mread32 (img f) 28.
Definition k_phnum : Z := mread16 (img f) 44.
Definition k_paddr (i : Z) : Z := ph_paddr (img f) (k_phoff + 32 * i).
Definition k_off (i : Z) : Z := ph_off (img f) (k_phoff + 32 * i).
Definition k_filesz (i : Z) : Z := ph_filesz (img f) (k_phoff + 32 * i).
Definition k_memsz (i : Z) : Z := ph_memsz (img f) (k_phoff + 32 * i).

(** Memory the loader writes for segment [i], and memory of the segment. *)
Definition k_lo (i : Z) : Z := seg_lo (k_paddr i) (k_off i).
Definition k_hi (i : Z) : Z := Z.max (seg_hi (k_paddr i) (k_filesz i) (k_off i)) (k_paddr i + k_memsz i).
Definition k_end (i : Z) : Z := k_paddr i + Z.max (k_filesz i) (k_memsz i).

(** The layout: the headers are in the first page of the file; reading whole
    sectors touches neither the page with the headers nor a segment that has
    been loaded before. *)
Record kernel_file : Prop := {
  kf_headers : k_phoff + 32 * k_phnum <= 4096;
  kf_low i : 0 <= i < k_phnum -> 0 <= k_lo i;
  kf_high i : 0 <= i < k_phnum -> k_end i < 2 ^ 32 - 512;
  kf_scratch i : 0 <= i < k_phnum -> k_hi i <= scratch \/ scratch + 4096 <= k_lo i;
  kf_apart i j : 0 <= i < j -> j < k_phnum -> k_hi j <= k_paddr i \/ k_end i <= k_lo j;
}.

Definition loaded (i : Z) (m : mem) : Prop := forall x, k_paddr i <= x < k_end i ->
  m x = if decide (x < k_paddr i + k_filesz i) then img f (k_off i + (x - k_paddr i)) else 0.

Lemma img_u8 o : is_u8 (img f o).
Proof.
  unfold img. destruct (Hs 0 (o / 512 + 1)) as [Hl Hu]. rewrite Forall_forall in Hu. apply Hu.
  apply list_elem_of_lookup_total_2. rewrite Hl. dlia.
Qed.
(** The page of headers in memory. *)
Definition headers (m : mem) : Prop := forall x, scratch <= x < scratch + 4096 -> m x = img f (x - scratch).

Lemma headers_read32 m o : headers m -> 0 <= o -> o + 4 <= 4096 -> mread32 m (scratch + o) = mread32 (img f) o.
Proof.
  intros H H1 H2. unfold mread32. rewrite !H by lia. replace (scratch + o - scratch) with o by lia.
  replace (scratch + o + 1 - scratch) with (o + 1) by lia. replace (scratch + o + 2 - scratch) with (o + 2) by lia.
  by replace (scratch + o + 3 - scratch) with (o + 3) by lia.
Qed.

Context (Hk : kernel_file).

Lemma load_segment mm d i : idle f d -> headers mm -> 0 <= i < k_phnum -> (forall j, 0 <= j < i -> loaded j mm) ->
  let ph := scratch + k_phoff + 32 * i in
  wp (let! m := gets bt_mem in
      let pa := ph_paddr m ph in
      readseg fuel pa (ph_filesz m ph) (ph_off m ph);;;
      let! m := gets bt_mem in
      (if ph_filesz m ph <? ph_memsz m ph then
         on_memory (fun m' => stosb m' (u32 (pa + ph_filesz m ph)) 0 (Z.to_nat (ph_memsz m ph - ph_filesz m ph)))
       else ret tt))
    (fun _ s' => idle f (bt_dev s') /\ headers (bt_mem s') /\ forall j, 0 <= j < i + 1 -> loaded j (bt_mem s')) (Boot mm d).
Proof.
  intros Hi Hh Hr Hl ph. pose proof (kf_headers Hk) as Hhd.
  assert (Hoff : is_u32 k_phoff) by (apply mread32_u32; intros x; apply img_u8). unfold is_u32 in Hoff.
  assert (Hrd : forall m o, headers m -> 0 <= o -> o + 4 <= 32 -> mread32 m (ph + o) = mread32 (img f) (k_phoff + 32 * i + o)).
  { intros m o Hm H1 H2. unfold ph. rewrite <- !Z.add_assoc. apply headers_read32; [done|lia|lia]. }
  unfold ph_paddr, ph_filesz, ph_off, ph_memsz. apply wp_bind, wp_gets. cbn [bt_mem]. rewrite !Hrd by (try done; lia).
  change (mread32 (img f) (k_phoff + 32 * i + 12)) with (k_paddr i). change (mread32 (img f) (k_phoff + 32 * i + 16)) with (k_filesz i).
  change (mread32 (img f) (k_phoff + 32 * i + 4)) with (k_off i).
  assert (Hfs : is_u32 (k_filesz i)) by (apply mread32_u32; intros x; apply img_u8). assert (Hms : is_u32 (k_memsz i)) by (apply mread32_u32; intros x; apply img_u8).
  assert (Hko : is_u32 (k_off i)) by (apply mread32_u32; intros x; apply img_u8). assert (Hpa : is_u32 (k_paddr i)) by (apply mread32_u32; intros x; apply img_u8).
  pose proof (kf_low Hk i Hr) as Hlow. pose proof (kf_high Hk i Hr) as Hhigh. pose proof (kf_scratch Hk i Hr) as Hsc.
  assert (Hap : forall j, 0 <= j < i -> k_hi i <= k_paddr j \/ k_end j <= k_lo i) by (intros j Hj; apply (kf_apart Hk); lia).
  unfold is_u32 in *. change (2 ^ 32 - 512) with 4294966784 in *. unfold k_end in Hhigh.
  apply wp_bind. eapply wp_mono; [apply (readseg_spec f); try done; change (2 ^ 32 - 512) with 4294966784; lia|].
  intros [] [m1 d1] [Hi1 Hm1]. cbn [bt_mem bt_dev] in *. fold (k_lo i) in Hm1. set (hi1 := seg_hi _ _ _) in *.
  assert (Hhi : hi1 <= k_hi i) by (unfold k_hi; fold hi1; lia). assert (Hhi2 : k_paddr i + k_memsz i <= k_hi i) by (unfold k_hi; lia).
  assert (Hlo1 : k_lo i <= k_paddr i) by (unfold k_lo, seg_lo; dlia). assert (Hend1 : k_paddr i + k_filesz i <= hi1) by (unfold hi1, seg_hi, seg_lo; dlia).
  assert (Hh1 : headers m1) by (intros x Hx; rewrite Hm1; rewrite decide_False by lia; by apply Hh).
  apply wp_bind, wp_gets. cbn [bt_mem]. rewrite !Hrd by (try done; lia).
  change (mread32 (img f) (k_phoff + 32 * i + 16)) with (k_filesz i). change (mread32 (img f) (k_phoff + 32 * i + 20)) with (k_memsz i).
  assert (Hold : forall m2 : mem, (forall x, x < k_lo i \/ k_hi i <= x -> m2 x = mm x) -> headers m2 /\ forall j, 0 <= j < i -> loaded j m2).
  { intros m2 H2. split; [intros x Hx; rewrite H2 by lia; by apply Hh|]. intros j Hj x Hx. destruct (Hap j Hj); rewrite H2 by lia; by apply Hl. }
  assert (Hfin : forall m2 : mem, (forall x, m2 x = if decide (k_paddr i + k_filesz i <= x < k_paddr i + k_memsz i) then 0 else m1 x) ->
    headers m2 /\ forall j, 0 <= j < i + 1 -> loaded j m2).
  { intros m2 H2. destruct (Hold m2) as [Hh2 Hl2]; [intros x Hx; rewrite H2, Hm1; rewrite !decide_False by lia; done|].
    split; [done|]. intros j Hj. destruct (decide (j = i)) as [->|]; [|apply Hl2; lia]. intros x Hx. unfold k_end in Hx. rewrite H2, Hm1.
    repeat case_decide; done || lia. }
  destruct (Z.ltb_spec (k_filesz i) (k_memsz i)) as [Hlt|Hge].
  - apply wp_modify. cbn. split; [done|]. apply Hfin. intros x. rewrite stosb_spec, u32_small by (unfold is_u32; lia).
    change (u8 0) with 0. rewrite Z2Nat.id by lia. repeat case_decide; done || lia.
  - apply wp_ret. cbn. split; [done|]. apply Hfin. intros x. by rewrite decide_False by lia.
Qed.

Lemma load_segments_spec n : forall mm d i, idle f d -> headers mm -> 0 <= i -> i + Z.of_nat n = k_phnum -> (forall j, 0 <= j < i -> loaded j mm) ->
  wp (load_segments fuel n (scratch + k_phoff + 32 * i) (scratch + k_phoff + 32 * k_phnum))
    (fun _ s' => headers (bt_mem s') /\ forall j, 0 <= j < k_phnum -> loaded j (bt_mem s')) (Boot mm d).
Proof.
  pose proof (kf_headers Hk) as Hhd. assert (Hoff : is_u32 k_phoff) by (apply mread32_u32; intros x; apply img_u8). unfold is_u32, scratch in *.
  induction n as [|n IH]; intros mm d i Hi Hh H0 Hn Hl; cbn [load_segments].
  - apply wp_ret. replace k_phnum with i by lia. done.
  - rewrite (proj2 (Z.ltb_lt _ _)) by lia. apply wp_assoc2.
    apply wp_bind. eapply wp_mono; [exact (load_segment mm d i Hi Hh ltac:(lia) Hl)|]. intros [] [m1 d1] (Hi1 & Hh1 & Hl1).
    rewrite u32_small by (unfold is_u32; lia). replace (0x10000 + k_phoff + 32 * i + 32) with (0x10000 + k_phoff + 32 * (i + 1)) by lia.
    apply IH; try done; lia.
Qed.

(** C28: The loader loads every segment of a kernel file that is laid out so that
    reading whole sectors does no harm: when it jumps, the memory of each
    segment has the bytes of the file and zeros behind them. *)
Theorem bootmain_loads mm d : idle f d -> mread32 (img f) 0 = ELF_MAGIC ->
  wp (bootmain fuel) (fun r s' => r = Some (mread32 (img f) 24) /\ forall i, 0 <= i < k_phnum -> loaded i (bt_mem s')) (Boot mm d).
Proof.
  intros Hi Hmagic. pose proof (kf_headers Hk) as Hhd. assert (Hoff : is_u32 k_phoff) by (apply mread32_u32; intros x; apply img_u8).
  assert (Hnum : 0 <= k_phnum) by (unfold k_phnum, mread16; pose proof (img_u8 44); pose proof (img_u8 (44 + 1)); unfold is_u8 in *; lia).
  unfold bootmain. apply wp_bind. eapply wp_mono; [apply (readseg_spec f); try done; by vm_compute|].
  intros [] [m1 d1] [Hi1 Hm1]. cbn [bt_mem bt_dev] in *. change (seg_lo scratch 0) with scratch in Hm1. change (seg_hi scratch 4096 0) with (scratch + 4096) in Hm1.
  assert (Hh : headers m1) by (intros x Hx; by rewrite Hm1, decide_True).
  apply wp_bind, wp_gets. cbn [bt_mem]. rewrite <- (Z.add_0_r scratch) at 1. rewrite !headers_read32 by (done || lia). rewrite Hmagic, Z.eqb_refl. cbn [negb].
  assert (H16 : mread16 m1 (scratch + 44) = k_phnum).
  { unfold mread16, k_phnum. rewrite !Hh by lia. replace (scratch + 44 + 1 - scratch) with 45 by lia. by replace (scratch + 44 - scratch) with 44 by lia. }
  rewrite H16. fold k_phoff. unfold is_u32 in *. rewrite !u32_small by (unfold is_u32, scratch; lia).
  apply wp_bind. eapply wp_mono; [pose proof (load_segments_spec (Z.to_nat k_phnum) m1 d1 0 Hi1 Hh) as L; rewrite Z.mul_0_r, Z.add_0_r in L; apply L; lia|].
  intros [] s2 [Hh2 Hl2]. apply wp_bind, wp_gets, wp_ret. rewrite headers_read32 by (done || lia). done.
Qed.
End kernel_file.
End boot.

(** *** A kernel of one segment: three bytes at 1 MB and three zeros *)

Definition demo_headers : list Z :=
  le_bytes 4 ELF_MAGIC ++ replicate 20 0 ++ le_bytes 4 0x100000 ++ le_bytes 4 52 ++ replicate 12 0 ++ le_bytes 2 1 ++ replicate 6 0 ++
  le_bytes 4 1 ++ le_bytes 4 512 ++ le_bytes 4 0x100000 ++ le_bytes 4 0x100000 ++ le_bytes 4 3 ++ le_bytes 4 6 ++ replicate 8 0.
Definition demo_kernel_disk : Z -> Z -> list Z := fun k i =>
  if i =? 1 then demo_headers ++ replicate 428 0
  else if i =? 2 then [65; 66; 67] ++ replicate 509 0 else replicate 512 0.

Lemma demo_kernel_sectors : sectors_ok demo_kernel_disk.
Proof.
  intros k i. unfold demo_kernel_disk. destruct (i =? 1); [|destruct (i =? 2)]; (split; [by vm_compute|]);
    apply (bool_decide_unpack (Forall (fun z => 0 <= z < 256) _)); by vm_compute.
Qed.
Lemma demo_kernel_file : kernel_file demo_kernel_disk.
Proof.
  assert (En : k_phnum demo_kernel_disk = 1) by (by vm_compute).
  constructor; rewrite ?En.
  - by vm_compute.
  - intros i Hi. replace i with 0 by lia. by vm_compute.
  - intros i Hi. replace i with 0 by lia. by vm_compute.
  - intros i Hi. replace i with 0 by lia. right. by vm_compute.
  - intros i j Hi Hj. lia.
Qed.

Lemma bootmain_loads_witness : exists s', bootmain 3 (Boot (fun _ => 204) (Ata demo_kernel_disk (fun _ _ => false) 1 (fun _ => 0) NoXfer false))
  = Ret (Some 0x100000) s' /\ map (bt_mem s') [0x100000; 0x100001; 0x100002; 0x100003; 0x100005] = [65; 66; 67; 0; 0].
Proof.
  destruct (wp_elim _ _ _ (bootmain_loads (delay := 2) 3 ltac:(lia) demo_kernel_disk demo_kernel_sectors demo_kernel_file (fun _ => 204)
    (Ata demo_kernel_disk (fun _ _ => false) 1 (fun _ => 0) NoXfer false) ltac:(split_and!; [done|cbn; lia|done]) ltac:(by vm_compute)))
    as (r & s' & E & -> & H).
  exists s'. split; [exact E|]. assert (L := H 0). clear H E. unfold loaded in L.
  assert (En : k_phnum demo_kernel_disk = 1) by (vm_compute; reflexivity). assert (Ea : k_paddr demo_kernel_disk 0 = 0x100000) by (vm_compute; reflexivity).
  assert (Ef : k_filesz demo_kernel_disk 0 = 3) by (vm_compute; reflexivity). assert (Ee : k_end demo_kernel_disk 0 = 0x100006) by (vm_compute; reflexivity).
  assert (Eo : k_off demo_kernel_disk 0 = 512) by (vm_compute; reflexivity). rewrite En, Ea, Ef, Ee, Eo in L.
  cbn [map]. rewrite !L by lia. vm_compute. reflexivity.
Defined.
