(* ===== verification/Kernel.v ===== *)
(** The state of the running kernel, for the components that tie the others
    together (file.c, proc.c, syscall.c, sysfile.c, exec.c, sysproc.c, trap.c):
    the process table and the file table, the pipes, the memory and its
    allocator, and the file system over log and buffer cache.

    A process, file or inode pointer is the index of its table entry. A pipe
    is the typed content of the page [kalloc] gave it, under the page's
    address. Functions are run by the current process of one processor;
    spin-lock critical sections are atomic (SpinLock.v), and a call that
    sleeps is [Block]. *)

From S2P Require Import Prelude Params KString Bio Log Blocks Fs Kalloc Vm Pipe.

(** *** struct file *)

Inductive ftype := FD_NONE | FD_PIPE | FD_INODE.
#[export] Instance ftype_eq_dec : EqDecision ftype.
Proof. solve_decision. Defined.

Record file := File {
  f_type : ftype;
  f_ref : Z;
  f_readable : bool;
  f_writable : bool;
  f_pipe : Z;
  f_ip : nat;
  f_off : Z;
}.
#[export] Instance file_inhabited : Inhabited file := populate (File FD_NONE 0 false false 0 0%nat 0).

Definition set_f_ref (v : Z) (f : file) : file :=
  File (f_type f) v (f_readable f) (f_writable f) (f_pipe f) (f_ip f) (f_off f).
Definition set_f_type (v : ftype) (f : file) : file :=
  File v (f_ref f) (f_readable f) (f_writable f) (f_pipe f) (f_ip f) (f_off f).
Definition set_f_off (v : Z) (f : file) : file :=
  File (f_type f) (f_ref f) (f_readable f) (f_writable f) (f_pipe f) (f_ip f) v.
Definition set_f_pipe (r w : bool) (p : Z) (f : file) : file :=
  File FD_PIPE (f_ref f) r w p (f_ip f) (f_off f).
Definition set_f_inode (r w : bool) (ip : nat) (f : file) : file :=
  File FD_INODE (f_ref f) r w (f_pipe f) ip 0.

(** *** struct proc *)

Inductive procstate := UNUSED | EMBRYO | SLEEPING | RUNNABLE | RUNNING | ZOMBIE.
#[export] Instance procstate_eq_dec : EqDecision procstate.
Proof. solve_decision. Defined.

(** The addresses processes sleep on: different objects have different
    addresses, and none is null. *)
Inductive chan :=
  | NoChan                 (* 0 *)
  | ChProc (p : nat)       (* a [struct proc] *)
  | ChRead (p : Z)         (* &p->nread *)
  | ChWrite (p : Z)        (* &p->nwrite *)
  | ChTicks                (* &ticks *)
  | ChInput                (* &input.r *)
  | ChLog                  (* &log *)
  | ChLock (l : Z)         (* a sleep lock *)
  | ChBuf (b : nat).       (* a buffer *)
#[export] Instance chan_eq_dec : EqDecision chan.
Proof. solve_decision. Defined.

Record proc := Proc {
  p_sz : Z;
  p_pgdir : Z;
  p_kstack : Z;
  p_state : procstate;
  p_pid : Z;
  p_parent : option nat;
  p_tf : Z;
  p_context : Z;
  p_chan : chan;
  p_killed : bool;
  p_ofile : list (option nat);  (* ofile[NOFILE] *)
  p_cwd : option nat;
  p_name : list Z;              (* name[16] *)
}.

(** A process table entry in the kernel's zeroed data segment. *)
Definition proc0 : proc :=
  Proc 0 0 0 UNUSED 0 None 0 0 NoChan false (replicate NOFILE None) None (replicate 16 0).
#[export] Instance proc_inhabited : Inhabited proc := populate proc0.

Definition set_p_mem (sz pgdir : Z) (p : proc) : proc :=
  Proc sz pgdir (p_kstack p) (p_state p) (p_pid p) (p_parent p) (p_tf p) (p_context p)
       (p_chan p) (p_killed p) (p_ofile p) (p_cwd p) (p_name p).
Definition set_p_kstack (v : Z) (p : proc) : proc :=
  Proc (p_sz p) (p_pgdir p) v (p_state p) (p_pid p) (p_parent p) (p_tf p) (p_context p)
       (p_chan p) (p_killed p) (p_ofile p) (p_cwd p) (p_name p).
Definition set_p_state (v : procstate) (p : proc) : proc :=
  Proc (p_sz p) (p_pgdir p) (p_kstack p) v (p_pid p) (p_parent p) (p_tf p) (p_context p)
       (p_chan p) (p_killed p) (p_ofile p) (p_cwd p) (p_name p).
Definition set_p_pid (v : Z) (p : proc) : proc :=
  Proc (p_sz p) (p_pgdir p) (p_kstack p) (p_state p) v (p_parent p) (p_tf p) (p_context p)
       (p_chan p) (p_killed p) (p_ofile p) (p_cwd p) (p_name p).
Definition set_p_parent (v : option nat) (p : proc) : proc :=
  Proc (p_sz p) (p_pgdir p) (p_kstack p) (p_state p) (p_pid p) v (p_tf p) (p_context p)
       (p_chan p) (p_killed p) (p_ofile p) (p_cwd p) (p_name p).
Definition set_p_tf (v : Z) (p : proc) : proc :=
  Proc (p_sz p) (p_pgdir p) (p_kstack p) (p_state p) (p_pid p) (p_parent p) v (p_context p)
       (p_chan p) (p_killed p) (p_ofile p) (p_cwd p) (p_name p).
Definition set_p_context (v : Z) (p : proc) : proc :=
  Proc (p_sz p) (p_pgdir p) (p_kstack p) (p_state p) (p_pid p) (p_parent p) (p_tf p) v
       (p_chan p) (p_killed p) (p_ofile p) (p_cwd p) (p_name p).
Definition set_p_chan (v : chan) (p : proc) : proc :=
  Proc (p_sz p) (p_pgdir p) (p_kstack p) (p_state p) (p_pid p) (p_parent p) (p_tf p)
       (p_context p) v (p_killed p) (p_ofile p) (p_cwd p) (p_name p).
Definition set_p_killed (v : bool) (p : proc) : proc :=
  Proc (p_sz p) (p_pgdir p) (p_kstack p) (p_state p) (p_pid p) (p_parent p) (p_tf p)
       (p_context p) (p_chan p) v (p_ofile p) (p_cwd p) (p_name p).
Definition set_p_ofile (v : list (option nat)) (p : proc) : proc :=
  Proc (p_sz p) (p_pgdir p) (p_kstack p) (p_state p) (p_pid p) (p_parent p) (p_tf p)
       (p_context p) (p_chan p) (p_killed p) v (p_cwd p) (p_name p).
Definition set_p_cwd (v : option nat) (p : proc) : proc :=
  Proc (p_sz p) (p_pgdir p) (p_kstack p) (p_state p) (p_pid p) (p_parent p) (p_tf p)
       (p_context p) (p_chan p) (p_killed p) (p_ofile p) v (p_name p).
Definition set_p_name (v : list Z) (p : proc) : proc :=
  Proc (p_sz p) (p_pgdir p) (p_kstack p) (p_state p) (p_pid p) (p_parent p) (p_tf p)
       (p_context p) (p_chan p) (p_killed p) (p_ofile p) (p_cwd p) v.

(** *** The kernel *)

Record kernel := Kernel {
  k_procs : list proc;          (* ptable.proc[NPROC] *)
  k_nextpid : Z;
  k_initproc : option nat;
  k_files : list file;          (* ftable.file[NFILE] *)
  k_pipes : gmap Z pipe;
  k_mem : kmem;
  k_fs : fs lstate;
  k_ticks : Z;
  k_cur : option nat;           (* mycpu()->proc *)
  k_cr3 : Z;                    (* the page table register *)
  k_esp0 : Z;                   (* mycpu()->ts.esp0 *)
}.

Definition set_k_procs (v : list proc) (k : kernel) : kernel :=
  Kernel v (k_nextpid k) (k_initproc k) (k_files k) (k_pipes k) (k_mem k) (k_fs k)
         (k_ticks k) (k_cur k) (k_cr3 k) (k_esp0 k).
Definition set_k_nextpid (v : Z) (k : kernel) : kernel :=
  Kernel (k_procs k) v (k_initproc k) (k_files k) (k_pipes k) (k_mem k) (k_fs k)
         (k_ticks k) (k_cur k) (k_cr3 k) (k_esp0 k).
Definition set_k_initproc (v : option nat) (k : kernel) : kernel :=
  Kernel (k_procs k) (k_nextpid k) v (k_files k) (k_pipes k) (k_mem k) (k_fs k)
         (k_ticks k) (k_cur k) (k_cr3 k) (k_esp0 k).
Definition set_k_files (v : list file) (k : kernel) : kernel :=
  Kernel (k_procs k) (k_nextpid k) (k_initproc k) v (k_pipes k) (k_mem k) (k_fs k)
         (k_ticks k) (k_cur k) (k_cr3 k) (k_esp0 k).
Definition set_k_pipes (v : gmap Z pipe) (k : kernel) : kernel :=
  Kernel (k_procs k) (k_nextpid k) (k_initproc k) (k_files k) v (k_mem k) (k_fs k)
         (k_ticks k) (k_cur k) (k_cr3 k) (k_esp0 k).
Definition set_k_mem (v : kmem) (k : kernel) : kernel :=
  Kernel (k_procs k) (k_nextpid k) (k_initproc k) (k_files k) (k_pipes k) v (k_fs k)
         (k_ticks k) (k_cur k) (k_cr3 k) (k_esp0 k).
Definition set_k_fs (v : fs lstate) (k : kernel) : kernel :=
  Kernel (k_procs k) (k_nextpid k) (k_initproc k) (k_files k) (k_pipes k) (k_mem k) v
         (k_ticks k) (k_cur k) (k_cr3 k) (k_esp0 k).
Definition set_k_ticks (v : Z) (k : kernel) : kernel :=
  Kernel (k_procs k) (k_nextpid k) (k_initproc k) (k_files k) (k_pipes k) (k_mem k) (k_fs k)
         v (k_cur k) (k_cr3 k) (k_esp0 k).
Definition set_k_cpu (cur : option nat) (cr3 esp0 : Z) (k : kernel) : kernel :=
  Kernel (k_procs k) (k_nextpid k) (k_initproc k) (k_files k) (k_pipes k) (k_mem k) (k_fs k)
         (k_ticks k) cur cr3 esp0.

#[global] Abbreviation K := (M kernel).

(** Running the code of a component on its part of the state. *)
Definition on_mem {A} (m : M kmem A) : K A :=
  fun k => match m (k_mem k) with Ret a s => Ret a (set_k_mem s k) | Fail e => Fail e end.
Definition on_fs {A} (m : M (fs lstate) A) : K A :=
  fun k => match m (k_fs k) with Ret a s => Ret a (set_k_fs s k) | Fail e => Fail e end.
Definition on_log {A} (m : M lstate A) : K A := on_fs (fslift m).

Definition procat (i : nat) (k : kernel) : proc := k_procs k !!! i.
Definition pupd (i : nat) (f : proc -> proc) : K unit :=
  modify (fun k => set_k_procs (<[i := f (procat i k)]> (k_procs k)) k).
Definition fileat (f : nat) (k : kernel) : file := k_files k !!! f.
Definition fupd (f : nat) (g : file -> file) : K unit :=
  modify (fun k => set_k_files (<[f := g (fileat f k)]> (k_files k)) k).
Definition pipeupd (p : Z) (v : pipe) : K unit :=
  modify (fun k => set_k_pipes (<[p := v]> (k_pipes k)) k).

(** [myproc()], where the code goes on to use it. *)
Definition myproc : K nat :=
  let! c := gets k_cur in of_option c.

(** *** User memory

    An access of the kernel to a user address goes through the page table
    that is loaded; a missing mapping is a fault in the kernel. *)

Definition uaddr (pgdir va : Z) : M kmem Z :=
  let! pte := walkpgdir pgdir va false in
  if pte =? 0 then fail Undef
  else
    let! e := load32 pte in
    if has e PTE_P then ret (P2V (PTE_ADDR e) + va mod PGSIZE) else fail Undef.

Definition uload (pgdir va : Z) : M kmem Z :=
  let! a := uaddr pgdir va in gets (fun s => km_mem s a).

Definition ustore (pgdir va v : Z) : M kmem unit :=
  let! a := uaddr pgdir va in
  modify (fun s => Kmem (mwrite (km_mem s) a v) (km_freelist s) (km_use_lock s)).

(** [n] bytes from user address [va] on, and to it. *)
Fixpoint uload_bytes (pgdir va : Z) (n : nat) : M kmem (list Z) :=
  match n with
  | O => ret []
  | S n =>
    let! c := uload pgdir va in
    let! l := uload_bytes pgdir (va + 1) n in
    ret (c :: l)
  end.

Fixpoint ustore_bytes (pgdir va : Z) (l : list Z) : M kmem unit :=
  match l with
  | [] => ret tt
  | c :: l => ustore pgdir va c;;; ustore_bytes pgdir (va + 1) l
  end.

(** The [int] at user address [va]. *)
Definition uload32 (pgdir va : Z) : M kmem Z :=
  let! l := uload_bytes pgdir va 4 in ret (le_val l).

(** *** The trap frame: offsets of [struct trapframe] (x86.h) *)

Definition tf_eax := 28.
Definition tf_es := 40.
Definition tf_ds := 44.
Definition tf_trapno := 48.
Definition tf_eip := 56.
Definition tf_cs := 60.
Definition tf_eflags := 64.
Definition tf_esp := 68.
Definition tf_ss := 72.
Definition sizeof_trapframe := 76.

(** A store of a [ushort] field. *)
Definition store16 (a v : Z) : M kmem unit :=
  modify (fun s => Kmem (mwrite (mwrite (km_mem s) a (u8 v)) (a + 1) (u8 (Z.shiftr v 8)))
                        (km_freelist s) (km_use_lock s)).
