(* ===== verification/Sched.v ===== *)
(** Scheduling, sleep and wakeup (proc.c: scheduler, sched, yield, sleep,
    wakeup1, kill, forkret's first switch) and sleep locks (sleeplock.c).

    Every change of a process state is made with [ptable.lock] held, so the
    operations below are the atomic steps of the process table; [sstep]
    interleaves them for any number of processors. The theorems: no process
    runs on two processors; a runnable process waits at most one scan of the
    process table; a sleep lock excludes, and its waiters are never left
    asleep when it is free. *)

From S2P Require Import Prelude Params SpinLock Pipe Kernel.

(** *** The process table *)

(** [wakeup1(chan)]: the loop over the table. *)
Definition wake (c : chan) (p : proc) : proc :=
  if bool_decide (p_state p = SLEEPING) && bool_decide (p_chan p = c)
  then set_p_state RUNNABLE p else p.
Definition wakeup1 (c : chan) (ps : list proc) : list proc := wake c <$> ps.

Definition wakeup (c : chan) : K unit :=
  modify (fun k => set_k_procs (wakeup1 c (k_procs k)) k).

(** [kill(pid)]: the first entry with the pid. *)
Definition kill_proc (p : proc) : proc :=
  let p := set_p_killed true p in
  if bool_decide (p_state p = SLEEPING) then set_p_state RUNNABLE p else p.
Fixpoint kill_table (pid : Z) (ps : list proc) : option (list proc) :=
  match ps with
  | [] => None
  | p :: ps =>
    if p_pid p =? pid then Some (kill_proc p :: ps)
    else (p ::.) <$> kill_table pid ps
  end.
Definition kill (pid : Z) : K Z :=
  let! ps := gets k_procs in
  match kill_table pid ps with
  | Some ps => modify (set_k_procs ps);;; ret 0
  | None => ret (-1)
  end.

(** [sched()]: what it checks before it switches to the scheduler: the lock
    is held, nothing else is, the process has given up [RUNNING], interrupts
    are off. *)
Definition sched {S} (me : nat) (c : cpu) (lk : spinlock) (st : procstate) : M S unit :=
  panic_if (negb (holding lk me)) "sched ptable.lock";;;
  panic_if (negb (c_ncli c =? 1)) "sched locks";;;
  panic_if (bool_decide (st = RUNNING)) "sched running";;;
  panic_if (c_if c) "sched interruptible".

(** What [yield], [sleep] and [exit] do to their own entry before [sched]. *)
Definition yield_proc (p : proc) : proc := set_p_state RUNNABLE p.
Definition sleep_proc (c : chan) (p : proc) : proc := set_p_state SLEEPING (set_p_chan c p).
(** What [sleep] does after [sched] has returned. *)
Definition sleep_done (p : proc) : proc := set_p_chan NoChan p.

(** *** The scheduler

    The loop of [scheduler] is at an entry of the table, or the processor
    runs the process of that entry. *)

Record scpu := SCpu { sc_pos : nat; sc_runs : bool }.

(** [p++] at the end of the loop body, back to the start of the table. *)
Definition sc_next (i : nat) : nat := if decide (S i < NPROC)%nat then S i else 0%nat.

(** One turn of the loop on a processor that runs no process. *)
Definition scheduler (c : scpu) (ps : list proc) : scpu * list proc :=
  if bool_decide (p_state (ps !!! sc_pos c) = RUNNABLE)
  then (SCpu (sc_pos c) true, <[sc_pos c := set_p_state RUNNING (ps !!! sc_pos c)]> ps)
  else (SCpu (sc_next (sc_pos c)) false, ps).

(** The process of a processor has called [sched]. *)
Definition sc_back (c : scpu) : scpu := SCpu (sc_next (sc_pos c)) false.

Record sched_st := SchedSt { ss_procs : list proc; ss_cpus : list scpu }.

(** The steps: a turn of a scheduler's loop; a running process gives up its
    processor ([yield], [sleep], the end of [exit]); a wakeup or a kill, by
    any process or interrupt; an entry is taken ([allocproc]), made runnable
    ([fork], [userinit]) or given back ([wait], or a failed [fork]). *)
Inductive slabel := Turn (c : nat) | GiveUp (c : nat) | Table.
#[export] Instance slabel_eq_dec : EqDecision slabel.
Proof. solve_decision. Defined.

Inductive sstep : slabel -> sched_st -> sched_st -> Prop :=
  | ss_turn c x ps cs :
      cs !! c = Some x -> sc_runs x = false ->
      sstep (Turn c) (SchedSt ps cs)
            (SchedSt (scheduler x ps).2 (<[c := (scheduler x ps).1]> cs))
  | ss_yield c x ps cs :
      cs !! c = Some x -> sc_runs x = true ->
      sstep (GiveUp c) (SchedSt ps cs)
            (SchedSt (<[sc_pos x := yield_proc (ps !!! sc_pos x)]> ps) (<[c := sc_back x]> cs))
  | ss_sleep c x ch ps cs :
      cs !! c = Some x -> sc_runs x = true ->
      sstep (GiveUp c) (SchedSt ps cs)
            (SchedSt (<[sc_pos x := sleep_proc ch (ps !!! sc_pos x)]> ps) (<[c := sc_back x]> cs))
  | ss_exit c x ps cs :
      cs !! c = Some x -> sc_runs x = true ->
      sstep (GiveUp c) (SchedSt ps cs)
            (SchedSt (<[sc_pos x := set_p_state ZOMBIE (ps !!! sc_pos x)]> ps) (<[c := sc_back x]> cs))
  | ss_wakeup ch ps cs :
      sstep Table (SchedSt ps cs) (SchedSt (wakeup1 ch ps) cs)
  | ss_kill pid ps ps' cs :
      kill_table pid ps = Some ps' ->
      sstep Table (SchedSt ps cs) (SchedSt ps' cs)
  | ss_alloc i p ps cs :
      ps !! i = Some p -> p_state p = UNUSED ->
      sstep Table (SchedSt ps cs) (SchedSt (<[i := set_p_state EMBRYO p]> ps) cs)
  | ss_start i p ps cs :
      ps !! i = Some p -> p_state p = EMBRYO ->
      sstep Table (SchedSt ps cs) (SchedSt (<[i := set_p_state RUNNABLE p]> ps) cs)
  | ss_free i p ps cs :
      ps !! i = Some p -> p_state p = ZOMBIE \/ p_state p = EMBRYO ->
      sstep Table (SchedSt ps cs) (SchedSt (<[i := set_p_state UNUSED p]> ps) cs).

Definition sreach (s s' : sched_st) : Prop := rtc (fun a b => exists l, sstep l a b) s s'.

(** *** One processor per process *)

Definition st_of (ps : list proc) (i : nat) : procstate := p_state (ps !!! i).

Record sched_ok (s : sched_st) : Prop := {
  so_len : length (ss_procs s) = NPROC;
  so_pos : forall c x, ss_cpus s !! c = Some x -> (sc_pos x < NPROC)%nat;
  so_runs : forall c x, ss_cpus s !! c = Some x -> sc_runs x = true ->
              st_of (ss_procs s) (sc_pos x) = RUNNING;
  so_one : forall c d x y, ss_cpus s !! c = Some x -> ss_cpus s !! d = Some y ->
              sc_runs x = true -> sc_runs y = true -> sc_pos x = sc_pos y -> c = d;
  so_cpu : forall i, (i < NPROC)%nat -> st_of (ss_procs s) i = RUNNING ->
              exists c x, ss_cpus s !! c = Some x /\ sc_runs x = true /\ sc_pos x = i;
}.

(** The machine after boot: nothing runs yet. *)
Definition sstart (s : sched_st) : Prop :=
  length (ss_procs s) = NPROC /\
  Forall (fun p => p_state p <> RUNNING) (ss_procs s) /\
  Forall (fun x => x = SCpu 0 false) (ss_cpus s).

Lemma sc_next_lt i : (sc_next i < NPROC)%nat.
Proof. unfold sc_next, NPROC. destruct (decide _); lia. Qed.

Lemma st_of_insert ps i j p :
  (i < length ps)%nat -> st_of (<[i := p]> ps) j = if decide (i = j) then p_state p else st_of ps j.
Proof.
  intros. unfold st_of. destruct (decide (i = j)) as [->|].
  - by rewrite list_lookup_total_insert_eq.
  - by rewrite list_lookup_total_insert_ne.
Qed.

Lemma st_of_lookup ps i p : ps !! i = Some p -> st_of ps i = p_state p.
Proof. intros E. unfold st_of. by rewrite (list_lookup_total_correct _ _ _ E). Qed.

Lemma st_of_wakeup c ps i :
  st_of (wakeup1 c ps) i = st_of ps i \/
  st_of ps i = SLEEPING /\ st_of (wakeup1 c ps) i = RUNNABLE.
Proof.
  unfold wakeup1. destruct (ps !! i) as [p|] eqn:E.
  - rewrite (st_of_lookup (wake c <$> ps) i (wake c p)) by (by rewrite list_lookup_fmap, E).
    rewrite (st_of_lookup ps i p) by done. unfold wake.
    repeat case_bool_decide; simpl; auto.
  - left. unfold st_of. rewrite !list_lookup_total_alt, list_lookup_fmap, E. done.
Qed.

Lemma kill_table_inv pid ps ps' :
  kill_table pid ps = Some ps' ->
  exists i p, ps !! i = Some p /\ p_pid p = pid /\ ps' = <[i := kill_proc p]> ps.
Proof.
  revert ps'. induction ps as [|p ps IH]; intros ps' H; simpl in H; [done|].
  destruct (Z.eqb_spec (p_pid p) pid).
  - exists 0%nat, p. naive_solver.
  - destruct (kill_table pid ps) as [ps2|]; [|done]. injection H as <-.
    destruct (IH _ eq_refl) as (i & q & E & Ep & ->). by exists (S i), q.
Qed.

(** A step of the table leaves running processes running, starts none, and
    leaves runnable ones runnable. *)
Lemma table_step ps cs ps' cs' i :
  sstep Table (SchedSt ps cs) (SchedSt ps' cs') ->
  cs' = cs /\ length ps' = length ps /\
  (st_of ps' i = RUNNING <-> st_of ps i = RUNNING) /\
  (st_of ps i = RUNNABLE -> st_of ps' i = RUNNABLE).
Proof.
  intros H. inversion H as [| | | |ch|pid ? ? ? Hk|j p ? ? E Hst|j p ? ? E Hst|j p ? ? E Hst]; subst.
  - split; [done|]. split; [by unfold wakeup1; rewrite length_fmap|].
    destruct (st_of_wakeup ch ps i) as [->|[-> ->]]; intuition congruence.
  - apply kill_table_inv in Hk as (j & p & E & _ & ->).
    split; [done|]. split; [by rewrite length_insert|].
    rewrite st_of_insert by by eapply lookup_lt_Some.
    destruct (decide (j = i)) as [->|]; [|done].
    rewrite (st_of_lookup _ _ _ E). unfold kill_proc. simpl.
    case_bool_decide as E'; simpl; [rewrite E'|]; intuition congruence.
  - split; [done|]. split; [by rewrite length_insert|].
    rewrite st_of_insert by by eapply lookup_lt_Some.
    destruct (decide (j = i)) as [->|]; [|done]. rewrite (st_of_lookup _ _ _ E), Hst. simpl. intuition congruence.
  - split; [done|]. split; [by rewrite length_insert|].
    rewrite st_of_insert by by eapply lookup_lt_Some.
    destruct (decide (j = i)) as [->|]; [|done]. rewrite (st_of_lookup _ _ _ E), Hst. simpl. intuition congruence.
  - split; [done|]. split; [by rewrite length_insert|].
    rewrite st_of_insert by by eapply lookup_lt_Some.
    destruct (decide (j = i)) as [->|]; [|done]. rewrite (st_of_lookup _ _ _ E).
    destruct Hst as [->| ->]; simpl; intuition congruence.
Qed.

(** Giving up a processor: the entry of the process stops running. *)
Lemma giveup_step c ps cs s' :
  sstep (GiveUp c) (SchedSt ps cs) s' ->
  exists x p, cs !! c = Some x /\ sc_runs x = true /\ p_state p <> RUNNING /\
    s' = SchedSt (<[sc_pos x := p]> ps) (<[c := sc_back x]> cs).
Proof.
  intros H. inversion H as [|? x|? x|? x| | | | |]; subst;
    exists x; eexists; (split; [done|]; split; [done|]; split; [|reflexivity]); done.
Qed.

Lemma sched_ok_start s : sstart s -> sched_ok s.
Proof.
  intros (Hl & Hp & Hc). constructor; [done| | | |].
  - intros c x E. pose proof (Forall_lookup_1 _ _ _ _ Hc E) as ->. simpl. unfold NPROC. lia.
  - intros c x E. by pose proof (Forall_lookup_1 _ _ _ _ Hc E) as ->.
  - intros c d x y E. by pose proof (Forall_lookup_1 _ _ _ _ Hc E) as ->.
  - intros i Hi E. exfalso. rewrite <- Hl in Hi. apply lookup_lt_is_Some in Hi as [p Ep].
    rewrite (st_of_lookup _ _ _ Ep) in E. by apply (Forall_lookup_1 _ _ _ _ Hp Ep).
Qed.

(** The running processors are the same, except that [c] may stop. *)
Lemma sched_ok_stop c x y p ps cs :
  sched_ok (SchedSt ps cs) -> cs !! c = Some x -> sc_runs y = false -> (sc_pos y < NPROC)%nat ->
  (if sc_runs x then p_state p <> RUNNING else p = ps !!! sc_pos x) ->
  sched_ok (SchedSt (<[sc_pos x := p]> ps) (<[c := y]> cs)).
Proof.
  intros [Hl Hpos Hr Ho Hc] E Hy Hyp Hp. simpl in *.
  pose proof (Hpos _ _ E) as Hxp.
  assert (forall d z, <[c := y]> cs !! d = Some z -> sc_runs z = true -> d <> c /\ cs !! d = Some z) as A.
  { intros d z [(_ & <- & _)|[? ?]]%list_lookup_insert_Some; [congruence|done]. }
  assert (forall i, st_of (<[sc_pos x := p]> ps) i = RUNNING <->
    st_of ps i = RUNNING /\ ~ (sc_runs x = true /\ i = sc_pos x)) as B.
  { intros i. rewrite st_of_insert by lia. destruct (decide (sc_pos x = i)) as [<-|Hne].
    - destruct (sc_runs x); [intuition congruence|]. subst p. unfold st_of. intuition congruence.
    - intuition congruence. }
  constructor; simpl; [by rewrite length_insert| | | |].
  - intros d z [(_ & <- & _)|[_ Ez]]%list_lookup_insert_Some; [done|by eapply Hpos].
  - intros d z Ez Hz. destruct (A _ _ Ez Hz) as [Hd Ez']. apply B. split; [by eapply Hr|].
    intros [Hx Hi]. apply Hd. by eapply Ho.
  - intros d e z w Ez Ew Hz Hw Heq. eapply Ho; [by eapply A|by eapply A|done..].
  - intros i Hi [Hi' Hn]%B. destruct (Hc i Hi Hi') as (d & z & Ez & Hz & <-).
    exists d, z. split; [|done]. rewrite list_lookup_insert_ne; [done|].
    intros <-. apply Hn. rewrite E in Ez. by injection Ez as ->.
Qed.

Lemma sched_ok_pick c x ps cs :
  sched_ok (SchedSt ps cs) -> cs !! c = Some x -> sc_runs x = false ->
  st_of ps (sc_pos x) = RUNNABLE ->
  sched_ok (SchedSt (<[sc_pos x := set_p_state RUNNING (ps !!! sc_pos x)]> ps)
                    (<[c := SCpu (sc_pos x) true]> cs)).
Proof.
  intros [Hl Hpos Hr Ho Hc] E Hx Hp. simpl in *.
  pose proof (Hpos _ _ E) as Hxp. pose proof (lookup_lt_Some _ _ _ E) as Hlt.
  assert (forall d z, cs !! d = Some z -> sc_runs z = true -> sc_pos z <> sc_pos x) as A.
  { intros d z Ez Hz Heq. specialize (Hr _ _ Ez Hz). congruence. }
  constructor; simpl; [by rewrite length_insert| | | |].
  - intros d z [(_ & <- & _)|[_ Ez]]%list_lookup_insert_Some; [done|by eapply Hpos].
  - intros d z [(_ & <- & _)|[_ Ez]]%list_lookup_insert_Some Hz; rewrite st_of_insert by lia.
    + by rewrite decide_True.
    + rewrite decide_False; [by eapply Hr|]. intros Heq. by eapply A.
  - intros d e z w [(<- & <- & _)|[Hd Ez]]%list_lookup_insert_Some
      [(<- & <- & _)|[He Ew]]%list_lookup_insert_Some Hz Hw Heq; simpl in *; [done| | |].
    + exfalso. by eapply (A e w).
    + exfalso. by eapply (A d z).
    + by eapply Ho.
  - intros i Hi. rewrite st_of_insert by lia. destruct (decide (sc_pos x = i)) as [<-|Hne]; intros Hi'.
    + exists c, (SCpu (sc_pos x) true). by rewrite list_lookup_insert_eq.
    + destruct (Hc i Hi Hi') as (d & z & Ez & Hz & <-). exists d, z. split; [|done].
      rewrite list_lookup_insert_ne; [done|]. intros <-. congruence.
Qed.

Lemma sched_ok_step l s s' : sched_ok s -> sstep l s s' -> sched_ok s'.
Proof.
  intros Hok Hst. destruct s as [ps cs], s' as [ps' cs'], l as [c|c|].
  - inversion Hst as [? x| | | | | | | |]; subst. unfold scheduler.
    case_bool_decide as Hp; simpl; [by apply sched_ok_pick|].
    rewrite <- (list_insert_id ps (sc_pos x) (ps !!! sc_pos x)).
    + eapply sched_ok_stop; [done|done|done|apply sc_next_lt|].
      by replace (sc_runs x) with false.
    + apply list_lookup_lookup_total_lt. pose proof (so_len _ Hok) as Hl. simpl in Hl.
      rewrite Hl. by eapply (so_pos _ Hok).
  - apply giveup_step in Hst as (x & p & E & Hx & Hp & Heq). injection Heq as -> ->.
    eapply sched_ok_stop; [done|done|done|apply sc_next_lt|by rewrite Hx].
  - assert (forall i, (st_of ps' i = RUNNING <-> st_of ps i = RUNNING)) as A
      by (intros i; by destruct (table_step _ _ _ _ i Hst) as (_ & _ & ? & _)).
    destruct (table_step _ _ _ _ 0 Hst) as (-> & Hlen & _ & _).
    destruct Hok as [Hl Hpos Hr Ho Hc]. constructor; simpl in *; [congruence|done| |done|].
    + intros c x E Hx. apply A. by eapply Hr.
    + intros i Hi Hi'%A. by apply Hc.
Qed.

Lemma sched_ok_reach s s' : sstart s -> sreach s s' -> sched_ok s'.
Proof.
  intros Hs%sched_ok_start Hr. induction Hr as [|a b d [l Hst] _ IH]; [done|].
  apply IH. by eapply sched_ok_step.
Qed.

(** C5: at any time, on any number of processors: a process is [RUNNING]
    exactly when some processor runs it, and no two processors run the same
    process. *)
Theorem one_cpu_per_process s s' :
  sstart s -> sreach s s' ->
  (forall i, (i < NPROC)%nat ->
     (st_of (ss_procs s') i = RUNNING <->
      exists c x, ss_cpus s' !! c = Some x /\ sc_runs x = true /\ sc_pos x = i)) /\
  (forall c d x y, ss_cpus s' !! c = Some x -> ss_cpus s' !! d = Some y ->
     sc_runs x = true -> sc_runs y = true -> sc_pos x = sc_pos y -> c = d).
Proof.
  intros Hs Hr. destruct (sched_ok_reach _ _ Hs Hr) as [_ _ Hruns Hone Hcpu].
  split; [|exact Hone]. intros i Hi. split; [by apply Hcpu|].
  intros (c & x & E & Hx & <-). by eapply Hruns.
Qed.

(** *** Bounded waiting *)

(** A run of the machine: each step and the state after it. *)
Inductive srun : sched_st -> list (slabel * sched_st) -> Prop :=
  | srun_nil s : srun s []
  | srun_cons l s s' tr : sstep l s s' -> srun s' tr -> srun s ((l, s') :: tr).

Definition is_turn (c : nat) (x : slabel * sched_st) : Prop := x.1 = Turn c.
#[export] Instance is_turn_dec c x : Decision (is_turn c x) := decide (x.1 = Turn c).

(** How many turns of [c]'s loop reach entry [i] at the latest. *)
Definition dist (j i : nat) : nat := if decide (j <= i)%nat then i - j else NPROC - j + i.
Definition turns_left (x : scpu) (i : nat) : nat :=
  S (dist (if sc_runs x then sc_next (sc_pos x) else sc_pos x) i).

Lemma turns_left_bound x i : (i < NPROC)%nat -> (turns_left x i <= NPROC)%nat \/ (NPROC <= sc_pos x)%nat.
Proof.
  intros Hi. unfold turns_left, dist. pose proof (sc_next_lt (sc_pos x)).
  destruct (sc_runs x); destruct (decide _); lia.
Qed.

Lemma dist_next j i : (j < NPROC)%nat -> (i < NPROC)%nat -> j <> i ->
  dist j i = S (dist (sc_next j) i).
Proof.
  intros Hj Hi Hne. unfold dist, sc_next.
  destruct (decide (S j < NPROC)%nat); repeat destruct (decide _); lia.
Qed.

(** One step: the process is picked, or it stays runnable and a turn of [c]
    brings [c] nearer. *)
Lemma wait_step l s s' c x i :
  sched_ok s -> sstep l s s' -> ss_cpus s !! c = Some x -> (i < NPROC)%nat ->
  st_of (ss_procs s) i = RUNNABLE ->
  st_of (ss_procs s') i = RUNNING \/
  st_of (ss_procs s') i = RUNNABLE /\
  exists x', ss_cpus s' !! c = Some x' /\
    (turns_left x' i + (if decide (l = Turn c) then 1 else 0) <= turns_left x i)%nat.
Proof.
  intros Hok Hst E Hi Hrun. destruct s as [ps cs], s' as [ps' cs']. simpl in *.
  pose proof (so_len _ Hok) as Hl. simpl in Hl. pose proof (so_pos _ Hok _ _ E) as Hx.
  pose proof (lookup_lt_Some _ _ _ E) as Hlt.
  destruct l as [d|d|].
  - inversion Hst as [? y ? ? Ey Hy| | | | | | | |]; subst. unfold scheduler.
    pose proof (so_pos _ Hok _ _ Ey) as Hyp.
    case_bool_decide as Hp; simpl.
    + rewrite st_of_insert by lia. destruct (decide (sc_pos y = i)) as [->|Hne]; [by left|].
      right. split; [done|]. destruct (decide (d = c)) as [->|Hdc].
      * rewrite E in Ey. injection Ey as <-. rewrite list_lookup_insert_eq by done.
        eexists. split; [done|]. rewrite decide_True by done. unfold turns_left. rewrite Hy. simpl.
        rewrite (dist_next (sc_pos x) i) by done. lia.
      * exists x. rewrite list_lookup_insert_ne, decide_False by congruence. split; [done|unfold turns_left; lia].
    + right. split; [done|]. destruct (decide (d = c)) as [->|Hdc].
      * rewrite E in Ey. injection Ey as <-. rewrite list_lookup_insert_eq by done.
        eexists. split; [done|]. rewrite decide_True by done. unfold turns_left. rewrite Hy. simpl.
        rewrite (dist_next (sc_pos x) i); [lia|done|done|]. intros <-. by apply Hp.
      * exists x. rewrite list_lookup_insert_ne, decide_False by congruence. split; [done|unfold turns_left; lia].
  - apply giveup_step in Hst as (y & p & Ey & Hy & Hp & Heq). injection Heq as -> ->. right.
    rewrite decide_False by done.
    pose proof (so_runs _ Hok _ _ Ey Hy) as Hry. simpl in Hry. split.
    + rewrite st_of_insert by (rewrite Hl; by eapply (so_pos _ Hok)).
      rewrite decide_False by congruence. done.
    + destruct (decide (d = c)) as [->|Hdc].
      * rewrite E in Ey. injection Ey as <-. rewrite list_lookup_insert_eq by done.
        eexists. split; [done|]. unfold turns_left. rewrite Hy. simpl. lia.
      * exists x. rewrite list_lookup_insert_ne by congruence. split; [done|unfold turns_left; lia].
  - destruct (table_step _ _ _ _ i Hst) as (-> & _ & _ & H). right.
    split; [by apply H|]. exists x. rewrite decide_False by done. split; [done|unfold turns_left; lia].
Qed.

Lemma wait_run s tr c x i :
  sched_ok s -> srun s tr -> ss_cpus s !! c = Some x -> (i < NPROC)%nat ->
  st_of (ss_procs s) i = RUNNABLE ->
  (turns_left x i <= length (filter (is_turn c) tr))%nat ->
  exists l s', In (l, s') tr /\ st_of (ss_procs s') i = RUNNING.
Proof.
  intros Hok Hrun. revert x Hok. induction Hrun as [s|l s s' tr Hst Hrun IH]; intros x Hok E Hi Hr Hn.
  - simpl in Hn. unfold turns_left in Hn. lia.
  - destruct (wait_step _ _ _ _ _ _ Hok Hst E Hi Hr) as [H|(H & x' & E' & Hn')].
    + exists l, s'. split; [by left|done].
    + destruct (IH x') as (l2 & s2 & Hin & H2); [by eapply sched_ok_step|done|done|done| |].
      * rewrite filter_cons in Hn. unfold is_turn in Hn at 1. simpl in Hn.
        destruct (decide (l = Turn c)); simpl in Hn; lia.
      * exists l2, s2. split; [by right|done].
Qed.

(** C6: bounded waiting: in any run of any number of processors, a process
    that is [RUNNABLE] has been picked by the time any one processor's
    [scheduler] has made [NPROC] turns of its loop. *)
Theorem runnable_is_picked s0 s tr c i :
  sstart s0 -> sreach s0 s -> (c < length (ss_cpus s))%nat -> (i < NPROC)%nat ->
  st_of (ss_procs s) i = RUNNABLE ->
  srun s tr -> (NPROC <= length (filter (is_turn c) tr))%nat ->
  exists l s', In (l, s') tr /\ st_of (ss_procs s') i = RUNNING.
Proof.
  intros Hs Hr Hc Hi Hst Hrun Hn. pose proof (sched_ok_reach _ _ Hs Hr) as Hok.
  apply lookup_lt_is_Some in Hc as [x E]. eapply wait_run; try done.
  destruct (turns_left_bound x i Hi); [lia|]. pose proof (so_pos _ Hok _ _ E). lia.
Qed.

(** ** Sleep locks

    [lk->lk] makes each pass through the loop of [acquiresleep], and
    [releasesleep], one step. *)

Record sleeplock := SLock { sl_locked : bool; sl_pid : Z }.

Definition initsleeplock : sleeplock := SLock false 0.

(** One pass of [acquiresleep] by the process [p]: it returns with the lock,
    or it sleeps on [ch], the lock's address. *)
Definition acquiresleep (ch : chan) (l : sleeplock) (p : proc) : seg unit * sleeplock * proc :=
  if sl_locked l then (Sleep, l, sleep_proc ch p)
  else (Return tt, SLock true (p_pid p), p).

Definition releasesleep (ch : chan) (l : sleeplock) (ps : list proc) : sleeplock * list proc :=
  (SLock false 0, wakeup1 ch ps).

Definition holdingsleep (l : sleeplock) : bool := sl_locked l.

(** Where a process is with respect to the lock: not using it, in the loop of
    [acquiresleep] after a [sleep], or holding it. *)
Inductive slpc := SIdle | SWait | SHold.
#[export] Instance slpc_eq_dec : EqDecision slpc.
Proof. solve_decision. Defined.

Record slsys := SLSys { sls_lock : sleeplock; sls_procs : list proc; sls_pcs : list slpc }.

Section sleeplock.
Context (ch : chan).

Definition asleep_on (p : proc) : Prop := p_state p = SLEEPING /\ p_chan p = ch.

(** [sl_other] is any other change of the table: scheduling, other wakeups,
    [kill], processes that come and go or sleep elsewhere. Nothing but
    [acquiresleep] sleeps on the lock. *)
Inductive slstep : slsys -> slsys -> Prop :=
  | sl_try i p pc r l l' q ps pcs :
      ps !! i = Some p -> p_state p = RUNNING ->
      pcs !! i = Some pc -> pc <> SHold ->
      acquiresleep ch l (if decide (pc = SWait) then sleep_done p else p) = (r, l', q) ->
      slstep (SLSys l ps pcs)
        (SLSys l' (<[i := q]> ps) (<[i := if r is Sleep then SWait else SHold]> pcs))
  | sl_release i l ps pcs :
      pcs !! i = Some SHold ->
      slstep (SLSys l ps pcs)
        (SLSys (releasesleep ch l ps).1 (releasesleep ch l ps).2 (<[i := SIdle]> pcs))
  | sl_other l ps ps' pcs :
      (forall i p', ps' !! i = Some p' -> asleep_on p' ->
         exists p, ps !! i = Some p /\ asleep_on p) ->
      slstep (SLSys l ps pcs) (SLSys l ps' pcs).

Record sl_ok (s : slsys) : Prop := {
  slo_one : forall i j, sls_pcs s !! i = Some SHold -> sls_pcs s !! j = Some SHold -> i = j;
  slo_held : sl_locked (sls_lock s) = true <-> exists i, sls_pcs s !! i = Some SHold;
  slo_awake : forall i p, sls_procs s !! i = Some p -> asleep_on p -> sl_locked (sls_lock s) = true;
}.

Lemma no_sleeper c ps i p : wakeup1 c ps !! i = Some p -> ~ (p_state p = SLEEPING /\ p_chan p = c).
Proof.
  intros (q & -> & _)%list_lookup_fmap_Some. unfold wake.
  repeat case_bool_decide; simpl; intros [? ?]; congruence.
Qed.

Lemma sl_ok_step s s' : sl_ok s -> slstep s s' -> sl_ok s'.
Proof.
  intros [H1 Hh Ha] Hst. destruct Hst as [i p pc r l l' q ps pcs E Hp Epc Hpc Hacq
    |i l ps pcs E|l ps ps' pcs Ho]; simpl in *.
  - unfold acquiresleep in Hacq. pose proof (lookup_lt_Some _ _ _ Epc).
    destruct (sl_locked l) eqn:El; injection Hacq as <- <- <-.
    + assert (forall j, <[i := SWait]> pcs !! j = Some SHold <-> pcs !! j = Some SHold) as A.
      { intros j. rewrite list_lookup_insert_Some. split; [intros [(_ & ? & _)|[_ ?]]; done|].
        intros Ej. right. split; [|done]. intros ->. congruence. }
      constructor; simpl; [|rewrite El|done].
      * intros j k Ej%A Ek%A. by apply H1.
      * split; [|done]. intros _. destruct Hh as [Hh _]. destruct (Hh eq_refl) as [j Ej].
        exists j. by apply A.
    + assert (forall j, pcs !! j <> Some SHold) as A.
      { intros j Ej. assert (false = true) by (apply Hh; eauto). done. }
      constructor; simpl.
      * intros j k [(-> & _)|[_ Ej]]%list_lookup_insert_Some [(-> & _)|[_ Ek]]%list_lookup_insert_Some;
          [done|by apply A in Ek|by apply A in Ej..].
      * split; [|done]. intros _. exists i. by rewrite list_lookup_insert_eq.
      * done.
  - pose proof (lookup_lt_Some _ _ _ E).
    assert (forall j, <[i := SIdle]> pcs !! j <> Some SHold) as A.
    { intros j [(_ & ? & _)|[Hne Ej]]%list_lookup_insert_Some; [done|]. by apply Hne, H1. }
    constructor; simpl; [by intros j k Ej%A| |].
    + split; [done|]. by intros [j Ej%A].
    + intros j p Ej Hs. exfalso. by eapply no_sleeper.
  - constructor; simpl; [done|done|]. intros i p' E Hs.
    destruct (Ho _ _ E Hs) as (p & Ep & Hp). by eapply Ha.
Qed.

Lemma sl_ok_reach s s' : sl_ok s -> rtc slstep s s' -> sl_ok s'.
Proof. intros H Hr. induction Hr; [done|]. eauto using sl_ok_step. Qed.
End sleeplock.

(** C7: a sleep lock: from a free lock, under any interleaving of
    [acquiresleep] and [releasesleep] with scheduling, other wakeups and
    kills, at most one process holds it, it is marked locked exactly while one
    does, and no process is asleep on it while it is free: a waiter's wakeup
    is never lost. *)
Theorem sleeplock_mutex ch ps pcs s' :
  Forall (fun pc => pc = SIdle) pcs -> Forall (fun p => ~ asleep_on ch p) ps ->
  rtc (slstep ch) (SLSys initsleeplock ps pcs) s' ->
  (forall i j, sls_pcs s' !! i = Some SHold -> sls_pcs s' !! j = Some SHold -> i = j) /\
  (holdingsleep (sls_lock s') = true <-> exists i, sls_pcs s' !! i = Some SHold) /\
  (holdingsleep (sls_lock s') = false ->
     forall i p, sls_procs s' !! i = Some p -> ~ asleep_on ch p).
Proof.
  intros Hpc Hps Hr. apply sl_ok_reach in Hr as [H1 Hh Ha].
  - split; [done|]. split; [done|]. intros Hf i p E Hs. specialize (Ha i p E Hs).
    unfold holdingsleep in Hf. congruence.
  - assert (forall i, pcs !! i <> Some SHold) as A.
    { intros i E. by pose proof (Forall_lookup_1 _ _ _ _ Hpc E). }
    constructor; simpl; [by intros i j E%A|split; [done|by intros [i E%A]]|].
    intros i p E Hs. by pose proof (Forall_lookup_1 _ _ _ _ Hps E Hs).
Qed.

(** ** Instances

    Two processors and two runnable processes; a run in which the first
    processor does all the work, every process yielding at once. *)
Definition demo_procs : list proc :=
  set_p_state RUNNABLE proc0 :: set_p_state RUNNABLE proc0 :: replicate 62 proc0.
Definition demo_sched : sched_st := SchedSt demo_procs [SCpu 0 false; SCpu 0 false].

Definition sim_step (s : sched_st) : slabel * sched_st :=
  let x := default (SCpu 0 false) (ss_cpus s !! 0%nat) in
  if sc_runs x
  then (GiveUp 0, SchedSt (<[sc_pos x := yield_proc (ss_procs s !!! sc_pos x)]> (ss_procs s))
                          (<[0%nat := sc_back x]> (ss_cpus s)))
  else (Turn 0, SchedSt (scheduler x (ss_procs s)).2 (<[0%nat := (scheduler x (ss_procs s)).1]> (ss_cpus s))).
Fixpoint sim (n : nat) (s : sched_st) : list (slabel * sched_st) :=
  match n with
  | O => []
  | S n => sim_step s :: sim n (sim_step s).2
  end.

Lemma sim_step_ok s x : ss_cpus s !! 0%nat = Some x -> sstep (sim_step s).1 s (sim_step s).2.
Proof.
  intros E. unfold sim_step. rewrite E. destruct s as [ps cs]. simpl in *.
  destruct (sc_runs x) eqn:Hr; [by apply ss_yield|by apply ss_turn].
Qed.

Lemma sim_run n s x : ss_cpus s !! 0%nat = Some x -> srun s (sim n s).
Proof.
  revert s x. induction n as [|n IH]; intros s x E; simpl; [constructor|].
  rewrite (surjective_pairing (sim_step s)) at 1. constructor; [by eapply sim_step_ok|].
  assert (0 < length (ss_cpus s))%nat by by apply lookup_lt_Some in E.
  assert (exists y, ss_cpus (sim_step s).2 !! 0%nat = Some y) as [y Ey].
  { unfold sim_step. rewrite E. simpl. destruct (sc_runs x); simpl; eexists; by rewrite list_lookup_insert_eq. }
  by eapply IH.
Qed.

Lemma demo_sstart : sstart demo_sched.
Proof.
  split; [reflexivity|]. split.
  - apply Forall_forall. intros p Hp. assert (p = set_p_state RUNNABLE proc0 \/ p = proc0) as [-> | ->]; [|done..].
    unfold demo_sched, demo_procs in Hp. cbn [ss_procs] in Hp.
    apply elem_of_cons in Hp as [->|Hp]; [by left|]. apply elem_of_cons in Hp as [->|Hp]; [by left|].
    right. by apply elem_of_replicate in Hp as [-> _].
  - by repeat constructor.
Qed.

Lemma one_cpu_per_process_witness : exists s', sreach demo_sched s' /\ st_of (ss_procs s') 0 = RUNNING /\
  (exists c x, ss_cpus s' !! c = Some x /\ sc_runs x = true /\ sc_pos x = 0%nat).
Proof.
  assert (sreach demo_sched (sim_step demo_sched).2) as Hr.
  { apply rtc_once. eexists. by eapply sim_step_ok. }
  exists (sim_step demo_sched).2. split; [exact Hr|]. split; [vm_compute; reflexivity|].
  apply (proj1 (one_cpu_per_process demo_sched _ demo_sstart Hr) 0%nat); [apply Nat.ltb_lt; reflexivity|].
  vm_compute. reflexivity.
Defined.

Lemma runnable_is_picked_witness :
  exists l s', In (l, s') (sim 100 demo_sched) /\ st_of (ss_procs s') 1 = RUNNING.
Proof.
  apply (runnable_is_picked demo_sched demo_sched (sim 100 demo_sched) 0 1 demo_sstart).
  - apply rtc_refl.
  - apply Nat.ltb_lt. reflexivity.
  - apply Nat.ltb_lt. reflexivity.
  - reflexivity.
  - by eapply sim_run.
  - apply Nat.leb_le. vm_compute. reflexivity.
Defined.

(** One process takes a sleep lock, a second one waits for it. *)
Lemma sleeplock_mutex_witness : exists s',
  rtc (slstep NoChan) (SLSys initsleeplock (replicate 2 (set_p_state RUNNING proc0)) [SIdle; SIdle]) s' /\
  sls_pcs s' = [SHold; SWait] /\ holdingsleep (sls_lock s') = true.
Proof.
  assert (exists s', rtc (slstep NoChan)
      (SLSys initsleeplock (replicate 2 (set_p_state RUNNING proc0)) [SIdle; SIdle]) s' /\
      sls_pcs s' = [SHold; SWait]) as (s' & Hr & Hp).
  { eexists. split.
    - eapply rtc_l; [eapply (sl_try _ 0); [reflexivity|reflexivity|reflexivity|done|reflexivity]|].
      eapply rtc_l; [eapply (sl_try _ 1); [reflexivity|reflexivity|reflexivity|done|reflexivity]|].
      apply rtc_refl.
    - reflexivity. }
  exists s'. split; [exact Hr|]. split; [exact Hp|].
  apply (sleeplock_mutex NoChan (replicate 2 (set_p_state RUNNING proc0)) [SIdle; SIdle] s').
  - by repeat constructor.
  - repeat constructor; by intros [? _].
  - exact Hr.
  - exists 0%nat. by rewrite Hp.
Defined.
