(* ===== verification/File.v ===== *)
(** Open files (file.c) and the creation and closing of pipes (pipe.c).

    [fileread] and [filewrite] take the user address of the caller's buffer;
    the kernel reaches it through the page table that is loaded. A read or
    write of a pipe that goes to sleep is [Block]: what other processes do
    meanwhile is the subject of Pipe.v. *)

From S2P Require Import Prelude Params KString Bio Log Blocks Fs Kalloc Vm Pipe Kernel Sched.

Section file_c.
Context (kend : Z) `{!Devsw lstate}.

Definition filealloc : K (option nat) :=
  for_find NFILE (fun f =>
    let! x := gets (fileat f) in
    if f_ref x =? 0 then fupd f (set_f_ref 1);;; ret (Some f) else ret None).

Definition filedup (f : nat) : K nat :=
  let! x := gets (fileat f) in
  panic_if (f_ref x <? 1) "filedup";;;
  fupd f (set_f_ref (f_ref x + 1));;;
  ret f.

(** [pipeclose(p, writable)]: the wakeup, and the page when both ends are
    closed. *)
Definition kpipeclose (p : Z) (writable : bool) : K unit :=
  let! ps := gets k_pipes in
  let! x := of_option (ps !! p) in
  let '(free, x') := pipeclose writable x in
  wakeup (if writable then ChRead p else ChWrite p);;;
  if free then
    modify (fun k => set_k_pipes (delete p (k_pipes k)) k);;;
    on_mem (kfree kend p)
  else pipeupd p x'.

Definition fileclose (f : nat) : K unit :=
  let! x := gets (fileat f) in
  panic_if (f_ref x <? 1) "fileclose";;;
  fupd f (set_f_ref (f_ref x - 1));;;
  if 0 <? f_ref x - 1 then ret tt
  else
    let! ff := gets (fileat f) in
    fupd f (set_f_ref 0);;;
    fupd f (set_f_type FD_NONE);;;
    match f_type ff with
    | FD_PIPE => kpipeclose (f_pipe ff) (f_writable ff)
    | FD_INODE =>
      on_log begin_op;;;
      on_fs (iput (f_ip ff));;;
      on_log end_op
    | FD_NONE => ret tt
    end.

Definition filestat (f : nat) : K (option stat) :=
  let! x := gets (fileat f) in
  match f_type x with
  | FD_INODE =>
    on_fs (ilock (f_ip x));;;
    let! st := gets (fun k => stati (inodeat (f_ip x) (k_fs k))) in
    on_fs (iunlock (f_ip x));;;
    ret (Some st)
  | _ => ret None
  end.

(** The page table the user's addresses go through. *)
Definition upgdir : K Z := gets (fun k => P2V (k_cr3 k)).

(** [myproc()->killed] *)
Definition mykilled : K bool :=
  let! me := myproc in gets (fun k => p_killed (procat me k)).

Definition fileread (f : nat) (addr n : Z) : K Z :=
  let! x := gets (fileat f) in
  if negb (f_readable x) then ret (-1)
  else match f_type x with
  | FD_PIPE =>
    let! killed := mykilled in
    let! ps := gets k_pipes in
    let! p := of_option (ps !! f_pipe x) in
    match piperead killed n p with
    | (Return (r, bytes), p') =>
      pipeupd (f_pipe x) p';;;
      let! pgdir := upgdir in
      on_mem (ustore_bytes pgdir addr bytes);;;
      (if r =? -1 then ret tt else wakeup (ChWrite (f_pipe x)));;;
      ret r
    | (Sleep, _) => fail Block
    end
  | FD_INODE =>
    on_fs (ilock (f_ip x));;;
    let! (r, bytes) := on_fs (readi (f_ip x) (f_off x) n) in
    let! pgdir := upgdir in
    on_mem (ustore_bytes pgdir addr bytes);;;
    (if 0 <? r then fupd f (set_f_off (u32 (f_off x + r))) else ret tt);;;
    on_fs (iunlock (f_ip x));;;
    ret r
  | FD_NONE => panic "fileread"
  end.

(** The loop of [filewrite]: [i] bytes are written. *)
Definition filewrite_max : Z := (MAXOPBLOCKS - 1 - 1 - 2) / 2 * 512.

Fixpoint filewrite_loop (fuel : nat) (f : nat) (addr n i : Z) : K Z :=
  if i <? n then
    match fuel with
    | O => fail NoFuel
    | S fuel =>
      let n1 := if filewrite_max <? n - i then filewrite_max else n - i in
      on_log begin_op;;;
      let! x := gets (fileat f) in
      on_fs (ilock (f_ip x));;;
      let! pgdir := upgdir in
      let! bytes := on_mem (uload_bytes pgdir (addr + i) (Z.to_nat n1)) in
      let! r := on_fs (writei (f_ip x) bytes (f_off x) n1) in
      (if 0 <? r then fupd f (set_f_off (u32 (f_off x + r))) else ret tt);;;
      on_fs (iunlock (f_ip x));;;
      on_log end_op;;;
      if r <? 0 then ret i
      else
        panic_if (negb (r =? n1)) "short filewrite";;;
        filewrite_loop fuel f addr n (i + r)
    end
  else ret i.

Definition filewrite (f : nat) (addr n : Z) : K Z :=
  let! x := gets (fileat f) in
  if negb (f_writable x) then ret (-1)
  else match f_type x with
  | FD_PIPE =>
    let! killed := mykilled in
    let! ps := gets k_pipes in
    let! p := of_option (ps !! f_pipe x) in
    let! pgdir := upgdir in
    let! bytes := on_mem (uload_bytes pgdir addr (Z.to_nat n)) in
    match Pipe.pipewrite killed n bytes p with
    | (Return r, _, p') =>
      pipeupd (f_pipe x) p';;;
      (if r =? -1 then ret tt else wakeup (ChRead (f_pipe x)));;;
      ret r
    | (Sleep, _, _) => fail Block
    end
  | FD_INODE =>
    let! i := filewrite_loop (Z.to_nat n) f addr n 0 in
    ret (if i =? n then n else -1)
  | FD_NONE => panic "filewrite"
  end.

(** The bytes of a page that become [p->data]: it follows the spin lock. *)
Definition pipe_data_off := 52.
Definition page_bytes (m : mem) (a : Z) (n : nat) : list Z := (fun k => m (a + Z.of_nat k)) <$> seq 0 n.

(** [bad:] of [pipealloc], where [p] is still 0. *)
Definition pipealloc_bad (f0 f1 : option nat) : K (option (nat * nat)) :=
  match f0 with Some f => fileclose f | None => ret tt end;;;
  match f1 with Some f => fileclose f | None => ret tt end;;;
  ret None.

Definition pipealloc : K (option (nat * nat)) :=
  let! f0 := filealloc in
  match f0 with
  | None => pipealloc_bad None None
  | Some a =>
    let! f1 := filealloc in
    match f1 with
    | None => pipealloc_bad (Some a) None
    | Some b =>
      let! p := on_mem kalloc in
      if p =? 0 then pipealloc_bad (Some a) (Some b)
      else
        let! d := gets (fun k => page_bytes (km_mem (k_mem k)) (p + pipe_data_off) (Z.to_nat PIPESIZE)) in
        pipeupd p (pipe_init d);;;
        fupd a (set_f_pipe true false p);;;
        fupd b (set_f_pipe false true p);;;
        ret (Some (a, b))
    end
  end.

End file_c.
