(* ===== verification/Proc.v ===== *)
(** Processes (proc.c: allocproc, userinit, growproc, fork, exit, wait;
    vm.c: switchuvm, switchkvm).

    [trapret] and [forkret] are the addresses of the code a new process
    starts in; [kend] and [kdata] are the linker's symbols. [exit] is modelled
    up to its call of [sched]; [wait] is one scan of the table, [Block] when
    it goes to sleep. *)

From S2P Require Import Prelude Params KString Bio Log Blocks Fs Kalloc Vm Pipe Kernel Sched File.

(** mmu.h, x86.h *)
Definition SEG_UCODE := 3.
Definition SEG_UDATA := 4.
Definition DPL_USER := 3.
Definition FL_IF := 0x200.
(** sizeof(struct context); [eip] is its last field. *)
Definition sizeof_context := 20.
Definition context_eip := 16.

Section proc_c.
Context (kend kdata trapret forkret : Z) `{!Devsw lstate}.

(** [for(p = ptable.proc; ...) if(p->state == UNUSED) goto found;] *)
Definition find_unused : K (option nat) :=
  for_find NPROC (fun i =>
    let! p := gets (procat i) in
    ret (if decide (p_state p = UNUSED) then Some i else None)).

Definition allocproc : K (option nat) :=
  let! r := find_unused in
  match r with
  | None => ret None
  | Some p =>
    pupd p (set_p_state EMBRYO);;;
    let! pid := gets k_nextpid in
    pupd p (set_p_pid pid);;;
    modify (fun k => set_k_nextpid (i32 (pid + 1)) k);;;
    let! kstack := on_mem kalloc in
    pupd p (set_p_kstack kstack);;;
    if kstack =? 0 then pupd p (set_p_state UNUSED);;; ret None
    else
      let sp := kstack + KSTACKSIZE - sizeof_trapframe in
      pupd p (set_p_tf sp);;;
      on_mem (store32 (sp - 4) trapret);;;
      let sp := sp - 4 - sizeof_context in
      pupd p (set_p_context sp);;;
      on_mem (kmemset sp 0 sizeof_context);;;
      on_mem (store32 (sp + context_eip) forkret);;;
      ret (Some p)
  end.

(** [switchuvm(p)]: the checks, the kernel stack of the task state segment and
    the page table register. *)
Definition switchuvm (p : nat) : K unit :=
  let! x := gets (procat p) in
  panic_if (p_kstack x =? 0) "switchuvm: no kstack";;;
  panic_if (p_pgdir x =? 0) "switchuvm: no pgdir";;;
  modify (fun k => set_k_cpu (k_cur k) (V2P (p_pgdir x)) (p_kstack x + KSTACKSIZE) k).

Definition switchkvm (kpgdir : Z) : K unit :=
  modify (fun k => set_k_cpu (k_cur k) (V2P kpgdir) (k_esp0 k) k).

(** [init] and [size] are the linker's _binary_initcode_start and _size;
    [name] is "initcode" and [root] is "/". *)
Definition userinit (init size : Z) (name root : list Z) : K unit :=
  let! r := allocproc in
  modify (fun k => set_k_initproc r k);;;
  let! p := of_option r in
  let! pgdir := on_mem (setupkvm kend kdata) in
  pupd p (fun x => set_p_mem (p_sz x) pgdir x);;;
  panic_if (pgdir =? 0) "userinit: out of memory?";;;
  on_mem (inituvm pgdir init size);;;
  pupd p (fun x => set_p_mem PGSIZE (p_pgdir x) x);;;
  let! x := gets (procat p) in
  let tf := p_tf x in
  on_mem (kmemset tf 0 sizeof_trapframe);;;
  on_mem (store16 (tf + tf_cs) (Z.lor (Z.shiftl SEG_UCODE 3) DPL_USER));;;
  on_mem (store16 (tf + tf_ds) (Z.lor (Z.shiftl SEG_UDATA 3) DPL_USER));;;
  on_mem (store16 (tf + tf_es) (Z.lor (Z.shiftl SEG_UDATA 3) DPL_USER));;;
  on_mem (store16 (tf + tf_ss) (Z.lor (Z.shiftl SEG_UDATA 3) DPL_USER));;;
  on_mem (store32 (tf + tf_eflags) FL_IF);;;
  on_mem (store32 (tf + tf_esp) PGSIZE);;;
  on_mem (store32 (tf + tf_eip) 0);;;
  let! nm := of_option (safestrcpy (p_name x) name 16) in
  pupd p (set_p_name nm);;;
  (* the path is absolute: the current directory is not used *)
  let! cwd := on_fs (namei 0 root) in
  pupd p (set_p_cwd cwd);;;
  pupd p (set_p_state RUNNABLE).

Definition growproc (n : Z) : K Z :=
  let! me := myproc in
  let! p := gets (procat me) in
  let sz := p_sz p in
  let! sz' :=
    (if 0 <? n then on_mem (allocuvm kend (p_pgdir p) sz (u32 (sz + n)))
     else if n <? 0 then on_mem (deallocuvm kend (p_pgdir p) sz (u32 (sz + n)))
     else ret sz) in
  if negb (n =? 0) && (sz' =? 0) then ret (-1)
  else
    pupd me (fun x => set_p_mem sz' (p_pgdir x) x);;;
    switchuvm me;;;
    ret 0.

(** [for(i = 0; i < NOFILE; i++) if(curproc->ofile[i]) np->ofile[i] = filedup(...)] *)
Definition fork_files (me np : nat) : K unit :=
  for_ NOFILE (fun i =>
    let! p := gets (procat me) in
    match p_ofile p !!! i with
    | Some f =>
      let! g := filedup f in
      pupd np (fun x => set_p_ofile (<[i := Some g]> (p_ofile x)) x)
    | None => ret tt
    end).

Definition fork : K Z :=
  let! me := myproc in
  let! r := allocproc in
  match r with
  | None => ret (-1)
  | Some np =>
    let! cur := gets (procat me) in
    let! pgdir := on_mem (copyuvm kend kdata (p_pgdir cur) (p_sz cur)) in
    pupd np (fun x => set_p_mem (p_sz x) pgdir x);;;
    if pgdir =? 0 then
      let! x := gets (procat np) in
      on_mem (kfree kend (p_kstack x));;;
      pupd np (set_p_kstack 0);;;
      pupd np (set_p_state UNUSED);;;
      ret (-1)
    else
      pupd np (fun x => set_p_mem (p_sz cur) (p_pgdir x) x);;;
      pupd np (set_p_parent (Some me));;;
      let! x := gets (procat np) in
      on_mem (kmemmove (p_tf x) (p_tf cur) sizeof_trapframe);;;
      on_mem (store32 (p_tf x + tf_eax) 0);;;
      fork_files me np;;;
      let! cwd := of_option (p_cwd cur) in
      let! cwd' := on_fs (idup cwd) in
      pupd np (set_p_cwd (Some cwd'));;;
      let! nm := of_option (safestrcpy (p_name x) (p_name cur) 16) in
      pupd np (set_p_name nm);;;
      let! x := gets (procat np) in
      pupd np (set_p_state RUNNABLE);;;
      ret (p_pid x)
  end.

(** [exit]: close the files ... *)
Definition exit_files (me : nat) : K unit :=
  for_ NOFILE (fun fd =>
    let! p := gets (procat me) in
    match p_ofile p !!! fd with
    | Some f =>
      fileclose kend f;;;
      pupd me (fun x => set_p_ofile (<[fd := None]> (p_ofile x)) x)
    | None => ret tt
    end).

(** ... and, under [ptable.lock], pass the children to init. *)
Definition exit_children (me : nat) : K unit :=
  let! init := gets k_initproc in
  for_ NPROC (fun i =>
    let! p := gets (procat i) in
    if decide (p_parent p = Some me) then
      pupd i (set_p_parent init);;;
      if decide (p_state p = ZOMBIE) then
        match init with Some q => wakeup (ChProc q) | None => wakeup NoChan end
      else ret tt
    else ret tt).

Definition exit : K unit :=
  let! me := myproc in
  let! init := gets k_initproc in
  panic_if (bool_decide (init = Some me)) "init exiting";;;
  exit_files me;;;
  let! p := gets (procat me) in
  on_log begin_op;;;
  let! cwd := of_option (p_cwd p) in
  on_fs (iput cwd);;;
  on_log end_op;;;
  pupd me (set_p_cwd None);;;
  let! p := gets (procat me) in
  match p_parent p with Some q => wakeup (ChProc q) | None => wakeup NoChan end;;;
  exit_children me;;;
  pupd me (set_p_state ZOMBIE).

(** The body of [wait] for a child that has exited. *)
Definition reap (i : nat) : K Z :=
  let! p := gets (procat i) in
  on_mem (kfree kend (p_kstack p));;;
  pupd i (set_p_kstack 0);;;
  on_mem (freevm kend (p_pgdir p));;;
  pupd i (set_p_pid 0);;;
  pupd i (set_p_parent None);;;
  pupd i (fun x => set_p_name (<[0%nat := 0]> (p_name x)) x);;;
  pupd i (set_p_killed false);;;
  pupd i (set_p_state UNUSED);;;
  ret (p_pid p).

Definition wait : K Z :=
  let! me := myproc in
  let! r := for_find NPROC (fun i =>
    let! p := gets (procat i) in
    if decide (p_parent p = Some me /\ p_state p = ZOMBIE)
    then let! pid := reap i in ret (Some pid) else ret None) in
  match r with
  | Some pid => ret pid
  | None =>
    let! havekids := gets (fun k => existsb (fun p => bool_decide (p_parent p = Some me)) (k_procs k)) in
    let! killed := gets (fun k => p_killed (procat me k)) in
    if negb havekids || killed then ret (-1) else fail Block
  end.

(** [yield] and the first half of [sleep], by the current process. *)
Definition yield : K unit := let! me := myproc in pupd me yield_proc.
Definition sleep (c : chan) : K unit := let! me := myproc in pupd me (sleep_proc c).

End proc_c.
