(* ===== verification/Fork.v ===== *)
(** [fork] (proc.c): the child is a copy of its parent, in pages of its own.

    The memory side is the copy of the address space (VmSpace.v); here the
    process table entry, the kernel stack with the trap frame, the open files
    and the current directory are put together. *)

From S2P Require Import Prelude Params KString Bio Log Blocks Fs Kalloc Vm VmProofs VmSpace VmGrow Pipe Kernel Sched File Proc.

Lemma wp_on_mem {A} (m : M kmem A) (Q : A -> kernel -> Prop) k :
  wp m (fun a s => Q a (set_k_mem s k)) (k_mem k) -> wp (on_mem m) Q k.
Proof. unfold wp, on_mem. by destruct (m (k_mem k)). Qed.

(** The kernel [k] in which entry [np] is [x] and the memory is [m]. *)
Definition with_proc (k : kernel) (np : nat) (x : proc) (pid : Z) (m : kmem) : kernel :=
  set_k_mem m (set_k_nextpid pid (set_k_procs (<[np := x]> (k_procs k)) k)).

Lemma wp_pupd_start k np f (Q : unit -> kernel -> Prop) :
  Q tt (with_proc k np (f (procat np k)) (k_nextpid k) (k_mem k)) -> wp (pupd np f) Q k.
Proof. exact id. Qed.

Section with_proc.
Context (k : kernel) (np : nat) (x : proc) (pid : Z) (m : kmem) (Hnp : (np < length (k_procs k))%nat).

Lemma procat_with : procat np (with_proc k np x pid m) = x.
Proof. unfold procat. cbn. by apply list_lookup_total_insert_eq. Qed.
Lemma procat_with_ne i : i <> np -> procat i (with_proc k np x pid m) = procat i k.
Proof. intros H. unfold procat. cbn. by apply list_lookup_total_insert_ne. Qed.
Lemma wp_pupd_with f (Q : unit -> kernel -> Prop) :
  Q tt (with_proc k np (f x) pid m) -> wp (pupd np f) Q (with_proc k np x pid m).
Proof.
  intros H. unfold pupd. apply wp_modify. rewrite procat_with. unfold with_proc in *. cbn in *. by rewrite list_insert_insert_eq.
Qed.
Lemma wp_on_mem_with {A} (c : M kmem A) (Q : A -> kernel -> Prop) :
  wp c (fun a m' => Q a (with_proc k np x pid m')) m -> wp (on_mem c) Q (with_proc k np x pid m).
Proof. intros H. by apply wp_on_mem. Qed.
(** [idup] changes the file system only. *)
Definition idup_fs (c : nat) (f : fs lstate) : fs lstate :=
  Fs (fs_sb f) (<[c := set_i_ref (i_ref (inodeat c f) + 1) (inodeat c f)]> (fs_icache f)) (fs_st f).
Lemma wp_idup_with c (Q : nat -> kernel -> Prop) :
  Q c (with_proc (set_k_fs (idup_fs c (k_fs k)) k) np x pid m) -> wp (on_fs (idup c)) Q (with_proc k np x pid m).
Proof. exact id. Qed.
End with_proc.

Section fork.
Context (kend kdata trapret forkret : Z) `{!Devsw lstate}.
Context (Hkend : KERNBASE < kend) (Hkdata : KERNLINK < kdata < KERNBASE + PHYSTOP) (Hkdm : kdata mod 4096 = 0).
Abbreviation aspace := (aspace kend).

(** The entry [allocproc] makes. *)
Definition embryo (x : proc) (pid ks : Z) : proc :=
  let tf := ks + KSTACKSIZE - sizeof_trapframe in
  Proc (p_sz x) (p_pgdir x) ks EMBRYO pid (p_parent x) tf (tf - 4 - sizeof_context) (p_chan x) (p_killed x) (p_ofile x) (p_cwd x) (p_name x).

Lemma find_unused_wp k :
  wp find_unused (fun r k' => k' = k /\ match r with
    | Some np => (np < NPROC)%nat /\ p_state (procat np k) = UNUSED
    | None => forall i, (i < NPROC)%nat -> p_state (procat i k) <> UNUSED
    end) k.
Proof.
  apply (wp_find (fun i k' => k' = k /\ forall j, (j < i)%nat -> p_state (procat j k) <> UNUSED)).
  - split; [done|]. intros j. lia.
  - intros i k' Hi [-> Hj]. apply wp_bind, wp_gets, wp_ret. case_decide as D; [done|]. split; [done|].
    intros j Hji. destruct (decide (j = i)) as [->|]; [done|]. apply Hj. lia.
  - intros k' [-> Hj]. done.
Qed.

(** A write inside the page of the kernel stack. *)
Definition on_stack (ks : Z) (l : list Z) (s s' : kmem) : Prop :=
  kmem_ok kend s' l /\ bytes_ok (km_mem s') /\ untouched [ks] (km_mem s) (km_mem s').

Lemma stack_write ks l s m : kmem_ok kend s l -> bytes_ok m -> is_page kend ks -> (ks ∉ l) -> untouched [ks] (km_mem s) m ->
  on_stack ks l s (Kmem m (km_freelist s) (km_use_lock s)).
Proof.
  intros Hk Hb Hks Hl Hun. split_and!; [|done|done]. apply (kmem_ok_untouched kend Hkend _ _ [ks]); [done|done|by apply Forall_singleton|set_solver].
Qed.

Lemma stack_store32 ks l s a v : kmem_ok kend s l -> bytes_ok (km_mem s) -> is_page kend ks -> (ks ∉ l) -> ks <= a -> a + 4 <= ks + PGSIZE ->
  wp (store32 a v) (fun _ s' => on_stack ks l s s' /\ s' = Kmem (mwrite32 (km_mem s) a v) (km_freelist s) (km_use_lock s)) s.
Proof.
  intros Hk Hb Hks Hl Ha1 Ha2. apply wp_modify. split; [|done]. apply stack_write; try done; [by apply bytes_ok_write32|].
  intros x Hx. specialize (Hx ks ltac:(by left)). apply mwrite32_ne. lia.
Qed.
Lemma stack_memset ks l s a n : kmem_ok kend s l -> bytes_ok (km_mem s) -> is_page kend ks -> (ks ∉ l) -> ks <= a -> 0 <= n -> a + n <= ks + PGSIZE ->
  wp (kmemset a 0 n) (fun _ s' => on_stack ks l s s') s.
Proof.
  intros Hk Hb Hks Hl Ha1 Hn Ha2. pose proof (page_range _ _ Hks). unfold PGSIZE in *. apply wp_modify. apply stack_write; try done.
  - apply bytes_ok_memset; [lia|done|done].
  - intros x Hx. specialize (Hx ks ltac:(by left)). unfold PGSIZE in *. rewrite memset_spec by lia. by rewrite decide_False by lia.
Qed.
Lemma on_stack_trans ks l s1 s2 s3 : on_stack ks l s1 s2 -> on_stack ks l s2 s3 -> on_stack ks l s1 s3.
Proof. intros (_ & _ & H1) (Hk & Hb & H2). split_and!; [done|done|]. by eapply untouched_trans. Qed.

Lemma allocproc_wp k l : length (k_procs k) = NPROC -> kmem_ok kend (k_mem k) l -> bytes_ok (km_mem (k_mem k)) ->
  wp (allocproc trapret forkret) (fun r k' => match r with
    | Some np => (np < NPROC)%nat /\ p_state (procat np k) = UNUSED /\ exists ks l1 s1, l = ks :: l1 /\ is_page kend ks /\
        on_stack ks l1 (k_mem k) s1 /\
        k' = with_proc k np (embryo (procat np k) (k_nextpid k) ks) (i32 (k_nextpid k + 1)) s1
    | None => k' = k \/ exists np x, (np < NPROC)%nat /\ p_state (procat np k) = UNUSED /\ p_state x = UNUSED /\
        k' = with_proc k np x (i32 (k_nextpid k + 1)) (k_mem k)
    end) k.
Proof.
  intros Hlen Hk Hb. unfold allocproc. apply wp_bind. eapply wp_mono; [apply find_unused_wp|].
  intros [np|] k' [-> Hr]; [|apply wp_ret; by left]. destruct Hr as [Hnp Hst].
  apply wp_bind, wp_pupd_start, wp_bind, wp_gets. apply wp_bind, wp_pupd_with; [lia|]. apply wp_bind, wp_modify.
  change (set_k_nextpid ?v (with_proc ?k ?np ?x ?p ?m)) with (with_proc k np x v m).
  apply wp_bind, wp_on_mem_with. eapply wp_mono; [apply (kalloc_spec kend _ _ Hk)|]. intros ks s1 [Em Hl].
  apply wp_bind, wp_pupd_with; [lia|]. destruct l as [|q l1].
  - destruct Hl as [-> ->]. rewrite Z.eqb_refl. apply wp_bind, wp_pupd_with; [lia|]. apply wp_ret. right. eexists np, _. split_and!; [done|done| |reflexivity]. done.
  - destruct Hl as (-> & Hq0 & Hk1). rewrite (proj2 (Z.eqb_neq q 0)) by done.
    pose proof (ko_pages _ _ _ Hk) as Hp. apply Forall_cons in Hp as [Hq _]. pose proof (ko_nodup _ _ _ Hk) as Hnd. apply NoDup_cons in Hnd as [Hql _].
    rewrite <- Em in Hb. unfold KSTACKSIZE, sizeof_trapframe, sizeof_context, context_eip, PGSIZE in *.
    apply wp_bind, wp_pupd_with; [lia|]. apply wp_bind, wp_on_mem_with.
    eapply wp_mono; [apply (stack_store32 q l1 s1); try done; unfold PGSIZE; lia|]. intros [] s2 [S2 _]. pose proof S2 as (Hk2 & Hb2 & _).
    apply wp_bind, wp_pupd_with; [lia|]. apply wp_bind, wp_on_mem_with.
    eapply wp_mono; [apply (stack_memset q l1 s2); try done; unfold PGSIZE; lia|]. intros [] s3 S3. pose proof S3 as (Hk3 & Hb3 & _).
    apply wp_bind, wp_on_mem_with.
    eapply wp_mono; [apply (stack_store32 q l1 s3); try done; unfold PGSIZE; lia|]. intros [] s4 [S4 _]. apply wp_ret.
    split_and!; [done|done|]. exists q, l1, s4. split_and!; [done|done| |done].
    destruct (on_stack_trans _ _ _ _ _ S2 (on_stack_trans _ _ _ _ _ S3 S4)) as (H1 & H2 & H3). split_and!; [done|done|by rewrite <- Em].
Qed.

(** *** The open files *)

(** Files of the parent that are open are in use. *)
Definition files_ok (k : kernel) (o : list (option nat)) : Prop :=
  length o = NOFILE /\ forall i f, o !! i = Some (Some f) -> (f < length (k_files k))%nat /\ 1 <= f_ref (fileat f k).

(** How often file [f] is open in [o], and the file table when the files of [o] are open once more. *)
Definition opens (f : nat) (o : list (option nat)) : Z := Z.of_nat (length (filter (.= Some f) o)).
Definition dup_files (F0 F : list file) (o : list (option nat)) : Prop :=
  length F = length F0 /\ forall f, F !!! f = set_f_ref (f_ref (F0 !!! f) + opens f o) (F0 !!! f).

Lemma dup_files_none F0 F o : dup_files F0 F o -> dup_files F0 F (o ++ [None]).
Proof.
  intros [Hl HF]. split; [done|]. intros g. rewrite (HF g). unfold opens. rewrite filter_app, length_app, (filter_cons_False (.= Some g)) by done.
  cbn. do 2 f_equal. lia.
Qed.
Lemma dup_files_some F0 F o f : (f < length F0)%nat -> dup_files F0 F o ->
  dup_files F0 (<[f := set_f_ref (f_ref (F !!! f) + 1) (F !!! f)]> F) (o ++ [Some f]).
Proof.
  intros Hf [Hl HF]. split; [by rewrite length_insert|]. intros g. unfold opens in *. rewrite filter_app, length_app. destruct (decide (g = f)) as [->|Hne].
  - rewrite list_lookup_total_insert_eq by lia. rewrite (HF f), (filter_cons_True (.= Some f)) by done. cbn. unfold set_f_ref. cbn. f_equal. lia.
  - rewrite list_lookup_total_insert_ne by done. rewrite (HF g), (filter_cons_False (.= Some g)) by congruence. cbn. do 2 f_equal. lia.
Qed.

Lemma fork_files_wp k me np o : (np < length (k_procs k))%nat -> me <> np -> p_ofile (procat me k) = o -> files_ok k o ->
  p_ofile (procat np k) = replicate NOFILE None ->
  wp (fork_files me np) (fun _ k' => exists F, dup_files (k_files k) F o /\
    k' = set_k_files F (set_k_procs (<[np := set_p_ofile o (procat np k)]> (k_procs k)) k)) k.
Proof.
  intros Hnp Hne Ho [Hlen Hf] Hnone.
  set (I := fun (i : nat) k' => exists F, dup_files (k_files k) F (take i o) /\
    k' = set_k_files F (set_k_procs (<[np := set_p_ofile (take i o ++ replicate (NOFILE - i) None) (procat np k)]> (k_procs k)) k)).
  eapply wp_mono; [apply (wp_for I)|].
  - exists (k_files k). split.
    + split; [done|]. intros f. unfold opens. cbn. rewrite Z.add_0_r. by destruct (k_files k !!! f).
    + rewrite take_0, Nat.sub_0_r, <- Hnone. cbn [app].
      replace (set_p_ofile (p_ofile (procat np k)) (procat np k)) with (procat np k) by (by destruct (procat np k)).
      unfold procat. rewrite list_insert_id by (by apply list_lookup_lookup_total_lt). by destruct k.
  - intros i k' Hi (F & HF & ->). apply wp_bind, wp_gets. unfold procat at 1. cbn [k_procs set_k_files set_k_procs].
    rewrite list_lookup_total_insert_ne by done. fold (procat me k). rewrite Ho.
    destruct (lookup_lt_is_Some_2 o i ltac:(lia)) as [x Hx]. rewrite (list_lookup_total_correct _ _ _ Hx).
    assert (Eins : <[i := x]> (take i o ++ replicate (NOFILE - i) None) = take (S i) o ++ replicate (NOFILE - S i) None).
    { rewrite (take_S_r _ _ _ Hx), <- app_assoc. rewrite insert_app_r_alt by (rewrite length_take; lia).
      rewrite length_take, Nat.min_l, Nat.sub_diag by lia. by replace (NOFILE - i)%nat with (S (NOFILE - S i)) by lia. }
    destruct x as [f|].
    + apply wp_bind. unfold filedup. apply wp_bind, wp_gets. destruct (Hf i f Hx) as [Hfl Hfr].
      apply wp_bind, wp_panic_if.
      { apply Z.ltb_ge. unfold fileat in *. cbn [k_files set_k_files]. rewrite (proj2 HF f). cbn. unfold opens. lia. }
      apply wp_bind, wp_modify, wp_ret, wp_modify.
      exists (<[f := set_f_ref (f_ref (F !!! f) + 1) (F !!! f)]> F). split; [rewrite (take_S_r _ _ _ Hx); by apply dup_files_some|].
      assert (Ep : forall F1 x, procat np (set_k_files F1 (set_k_files F (set_k_procs (<[np := x]> (k_procs k)) k))) = x).
      { intros F1 x. unfold procat. cbn. by apply list_lookup_total_insert_eq. }
      unfold fileat. cbn [k_procs k_files set_k_files set_k_procs]. rewrite Ep, list_insert_insert_eq. cbn [p_ofile set_p_ofile]. by rewrite Eins.
    + apply wp_ret. exists F. split; [rewrite (take_S_r _ _ _ Hx); by apply dup_files_none|]. do 4 f_equal. rewrite <- Eins. rewrite list_insert_id; [done|].
      rewrite lookup_app_r by (rewrite length_take; lia). apply lookup_replicate. rewrite length_take. split; [done|lia].
  - intros [] k' (F & HF & ->). exists F. rewrite take_ge in * by lia. rewrite Nat.sub_diag. cbn [replicate]. by rewrite app_nil_r.
Qed.

(** *** fork *)

Record fork_pre (k : kernel) (me : nat) (l TP : list Z) (UP : umap) (c : nat) : Prop := {
  fp_cur : k_cur k = Some me;
  fp_procs : length (k_procs k) = NPROC;
  fp_me : p_state (procat me k) <> UNUSED;
  fp_space : aspace (k_mem k) l (p_pgdir (procat me k)) TP UP;
  fp_sz : 0 <= p_sz (procat me k) <= KERNBASE;
  fp_mapped : forall i, 0 <= i < npages (p_sz (procat me k)) -> UP !! i <> None;
  fp_tf : 0 <= p_tf (procat me k) /\ p_tf (procat me k) + sizeof_trapframe < 4294967296;
  fp_tf_page : forall q, q ∈ l -> p_tf (procat me k) + sizeof_trapframe <= q \/ q + PGSIZE <= p_tf (procat me k);
  fp_files : files_ok k (p_ofile (procat me k));
  fp_cwd : p_cwd (procat me k) = Some c;
  fp_name : length (p_name (procat me k)) = 16%nat;
  fp_unused : forall i, p_state (procat i k) = UNUSED ->
    p_ofile (procat i k) = replicate NOFILE None /\ length (p_name (procat i k)) = 16%nat;
}.

(** The parent's memory is as it was; [X] are the pages that are no longer free. *)
Definition parent_kept (k : kernel) (me : nat) (l TP : list Z) (UP : umap) (k' : kernel) (l' X : list Z) : Prop :=
  aspace (k_mem k') l' (p_pgdir (procat me k)) TP UP /\ X ++ l' ≡ₚ l /\
  forall va, uread (km_mem (k_mem k')) UP va = uread (km_mem (k_mem k)) UP va.

(** Nothing has happened to any process, but one page may be lost. *)
Definition fork_failed (k : kernel) (me : nat) (l TP : list Z) (UP : umap) (k' : kernel) : Prop :=
  (exists l' X, parent_kept k me l TP UP k' l' X /\ (length X <= 1)%nat) /\ k_files k' = k_files k /\ k_fs k' = k_fs k /\
  forall i, p_state (procat i k') = p_state (procat i k) /\ (p_state (procat i k) <> UNUSED -> procat i k' = procat i k).

(** Entry [np] is a child of [me] that is its copy. *)
Record fork_child (k : kernel) (me : nat) (l TP : list Z) (UP : umap) (c : nat) (k' : kernel) (np : nat) : Prop := {
  fc_new : p_state (procat np k) = UNUSED /\ forall i, i <> np -> procat i k' = procat i k;
  fc_state : p_state (procat np k') = RUNNABLE /\ p_parent (procat np k') = Some me /\ p_pid (procat np k') = k_nextpid k;
  fc_files : p_ofile (procat np k') = p_ofile (procat me k) /\ p_cwd (procat np k') = Some c;
  fc_refs : dup_files (k_files k) (k_files k') (p_ofile (procat me k)) /\ k_fs k' = idup_fs c (k_fs k);
  fc_name : cstr (p_name (procat np k')) = cstrn 15 (p_name (procat me k));
  fc_mem : p_sz (procat np k') = p_sz (procat me k) /\ exists l' T U,
    let x := procat np k' in
    parent_kept k me l TP UP k' l' (p_kstack x :: p_pgdir x :: T ++ frames U) /\ aspace (k_mem k') l' (p_pgdir x) T U /\
    (forall va, 0 <= va -> uread (km_mem (k_mem k')) U va =
      if decide (va / 4096 < npages (p_sz x)) then uread (km_mem (k_mem k)) UP va else None);
  fc_tf : forall o, 0 <= o < sizeof_trapframe -> km_mem (k_mem k') (p_tf (procat np k') + o) =
    if decide (tf_eax <= o < tf_eax + 4) then 0 else km_mem (k_mem k) (p_tf (procat me k) + o);
}.

(** The memory part of the success case: parent, stack page and child. *)
Lemma fork_memory s l P TP UP ks l1 s1 : aspace s l P TP UP -> l = ks :: l1 -> is_page kend ks -> on_stack ks l1 s s1 ->
  aspace s1 l1 P TP UP /\ untouched l (km_mem s) (km_mem s1) /\ (ks ∉ l1) /\ (forall va, uread (km_mem s1) UP va = uread (km_mem s) UP va).
Proof.
  intros A -> Hks (Hk & Hb & Hun).
  assert (Hun' : untouched (ks :: l1) (km_mem s) (km_mem s1)) by (eapply untouched_mono; [exact Hun|set_solver]).
  destruct (uread_beside kend Hkend s s1 (ks :: l1) l1 [ks] P TP UP A Hun' Hk Hb) as [A' Hr]; [done|]. split_and!; try done.
  pose proof (ko_nodup _ _ _ (pt_kmem _ _ _ _ _ (as_pgt _ _ _ _ _ _ A))) as Hn. by apply NoDup_cons in Hn as [? _].
Qed.

(** The trap frame copied to the new stack, with 0 in %eax. *)
Lemma fork_frame ks l s src : kmem_ok kend s l -> bytes_ok (km_mem s) -> is_page kend ks -> (ks ∉ l) ->
  0 <= src -> src + sizeof_trapframe < 4294967296 ->
  let dst := ks + KSTACKSIZE - sizeof_trapframe in
  wp (kmemmove dst src sizeof_trapframe) (fun _ => wp (store32 (dst + tf_eax) 0) (fun _ s' => on_stack ks l s s' /\
    forall o, 0 <= o < sizeof_trapframe -> km_mem s' (dst + o) = if decide (tf_eax <= o < tf_eax + 4) then 0 else km_mem s (src + o))) s.
Proof.
  intros Hk Hb Hks Hl Hsrc Hsrc2 dst. pose proof (page_range _ _ Hks) as R. unfold KSTACKSIZE, sizeof_trapframe, tf_eax, PGSIZE in *.
  set (m1 := memmove (km_mem s) dst src 76).
  assert (Hm1 : forall x, m1 x = if decide (dst <= x < dst + 76) then km_mem s (src + (x - dst)) else km_mem s x).
  { intros x. apply memmove_spec; unfold dst; lia. }
  assert (S1 : on_stack ks l s (Kmem m1 (km_freelist s) (km_use_lock s))).
  { apply stack_write; try done; [intros x; rewrite Hm1; case_decide; apply Hb|]. intros x Hx. specialize (Hx ks ltac:(by left)).
    rewrite Hm1. unfold dst, PGSIZE in *. by rewrite decide_False by lia. }
  apply wp_modify. change (memmove (km_mem s) dst src 76) with m1. pose proof S1 as (Hk1 & Hb1 & _).
  eapply wp_mono; [apply (stack_store32 ks l _ (dst + 28) 0 Hk1 Hb1 Hks Hl); unfold dst, PGSIZE; lia|].
  intros [] s2 [S2 ->]. split; [by eapply on_stack_trans|]. intros o Ho. cbn [km_mem].
  rewrite (mwrite32_spec m1 (dst + 28) 0 0) by done. rewrite Hm1. repeat case_decide; try lia; try done. f_equal. lia.
Qed.

Lemma fork_failed_with k me l TP UP np y pid m l' X : (np < length (k_procs k))%nat -> p_state (procat np k) = UNUSED -> p_state y = UNUSED ->
  parent_kept k me l TP UP (with_proc k np y pid m) l' X -> (length X <= 1)%nat -> fork_failed k me l TP UP (with_proc k np y pid m).
Proof.
  intros Hnp Hst Hy HP HX. split_and!; [by exists l', X|done|done|]. intros i. destruct (decide (i = np)) as [->|Hne].
  - rewrite procat_with by done. split; [congruence|done].
  - by rewrite procat_with_ne.
Qed.

(** What is left when the copy of the memory fails. *)
Lemma fork_undo k me l TP UP np y pid ks l1 s1 s2 l2 X : aspace (k_mem k) l (p_pgdir (procat me k)) TP UP -> l = ks :: l1 ->
  is_page kend ks -> (ks ∉ l1) -> untouched l (km_mem (k_mem k)) (km_mem s1) -> untouched l1 (km_mem s1) (km_mem s2) ->
  kmem_ok kend s2 l2 -> bytes_ok (km_mem s2) -> X ++ l2 ≡ₚ l1 ->
  wp (kfree kend ks) (fun _ s3 => exists l3, parent_kept k me l TP UP (with_proc k np y pid s3) l3 X) s2.
Proof.
  intros A El Hks Hn Hun1 Hun2 Hk Hb HX.
  assert (Hn2 : ks ∉ l2) by (intros H; apply Hn; rewrite <- HX; set_solver).
  eapply wp_mono; [by apply (kfree_page kend s2 l2 ks)|]. intros [] s3 (Hk3 & Hb3 & Hun3). exists (ks :: l2).
  assert (HX' : X ++ ks :: l2 ≡ₚ l) by (rewrite El; clear -HX; perm_solve).
  assert (Hun : untouched l (km_mem (k_mem k)) (km_mem s3)).
  { eapply untouched_trans; [exact Hun1|]. eapply untouched_trans; eapply untouched_mono; [exact Hun2| |exact Hun3|]; rewrite El; set_solver. }
  destruct (uread_beside kend Hkend (k_mem k) s3 l (ks :: l2) X _ TP UP A Hun Hk3 Hb3 HX') as [A' Hr]. done.
Qed.

(** The files, the directory and the name, and the child is runnable. *)
Lemma fork_rest k me np y pid m c : (np < length (k_procs k))%nat -> me <> np -> files_ok k (p_ofile (procat me k)) ->
  p_cwd (procat me k) = Some c -> length (p_name (procat me k)) = 16%nat ->
  p_ofile y = replicate NOFILE None -> length (p_name y) = 16%nat ->
  wp (fork_files me np;;;
      let! cwd := of_option (p_cwd (procat me k)) in
      let! cwd' := on_fs (idup cwd) in
      pupd np (set_p_cwd (Some cwd'));;;
      let! nm := of_option (safestrcpy (p_name y) (p_name (procat me k)) 16) in
      pupd np (set_p_name nm);;;
      let! x := gets (procat np) in
      pupd np (set_p_state RUNNABLE);;;
      ret (p_pid x))
    (fun r k' => r = p_pid y /\ exists F nm, cstr nm = cstrn 15 (p_name (procat me k)) /\ dup_files (k_files k) F (p_ofile (procat me k)) /\
      k' = with_proc (set_k_fs (idup_fs c (k_fs k)) (set_k_files F k)) np
             (set_p_state RUNNABLE (set_p_name nm (set_p_cwd (Some c) (set_p_ofile (p_ofile (procat me k)) y)))) pid m)
    (with_proc k np y pid m).
Proof.
  intros Hnp Hne Hf Hc Hn Hy Hyn. apply wp_bind.
  eapply wp_mono; [apply (fork_files_wp _ me np (p_ofile (procat me k)))|].
  { cbn. by rewrite length_insert. } { done. } { by rewrite procat_with_ne. } { exact Hf. } { by rewrite procat_with. }
  intros [] k' (F & HF & ->). rewrite procat_with by done.
  assert (E : forall z, set_k_files F (set_k_procs (<[np := z]> (k_procs (with_proc k np y pid m))) (with_proc k np y pid m))
    = with_proc (set_k_files F k) np z pid m).
  { intros z. unfold with_proc. cbn. by rewrite list_insert_insert_eq. }
  rewrite E. apply wp_bind. eapply wp_of_option; [exact Hc|]. apply wp_bind.
  apply wp_idup_with.
  apply wp_bind, wp_pupd_with; [done|].
  destruct (safestrcpy_nul_terminates (p_name y) (p_name (procat me k)) 16) as (nm & Enm & _ & Ec); [done|rewrite Hyn; done|left; rewrite Hn; done|].
  apply wp_bind. eapply wp_of_option; [exact Enm|]. apply wp_bind, wp_pupd_with; [done|]. apply wp_bind, wp_gets.
  rewrite procat_with by done. apply wp_bind, wp_pupd_with; [done|]. apply wp_ret. split; [done|].
  by exists F, nm.
Qed.

(** Parent and child after the trap frame has been written to the new stack. *)
Lemma fork_spaces s l P TP UP ks l1 s1 d T U l2 s2 s3 n : aspace s l P TP UP -> l = ks :: l1 -> is_page kend ks -> on_stack ks l1 s s1 ->
  aspace s2 l2 d T U -> d :: T ++ l2 ++ frames U ≡ₚ l1 -> untouched l1 (km_mem s1) (km_mem s2) -> copies (km_mem s2) UP U n ->
  on_stack ks l2 s2 s3 ->
  (ks :: d :: T ++ frames U) ++ l2 ≡ₚ l /\ aspace s3 l2 P TP UP /\ aspace s3 l2 d T U /\
  (forall va, uread (km_mem s3) UP va = uread (km_mem s) UP va) /\
  (forall va, 0 <= va -> uread (km_mem s3) U va = if decide (va / 4096 < n) then uread (km_mem s) UP va else None).
Proof.
  intros A El Hks S1 A2 HP Hun2 Hcop (Hk3 & Hb3 & Hun3).
  destruct (fork_memory _ _ _ _ _ _ _ _ A El Hks S1) as (A1 & Hun1 & Hksn & _).
  assert (HX : (ks :: d :: T ++ frames U) ++ l2 ≡ₚ l) by (rewrite El; clear -HP; perm_solve).
  assert (Hun : untouched l (km_mem s) (km_mem s2)).
  { eapply untouched_trans; [exact Hun1|]. eapply untouched_mono; [exact Hun2|rewrite El; set_solver]. }
  assert (Hun' : untouched l (km_mem s) (km_mem s3)).
  { eapply untouched_trans; [exact Hun|]. eapply untouched_mono; [exact Hun3|rewrite El; set_solver]. }
  destruct (uread_beside kend Hkend _ _ _ _ _ _ _ _ A Hun' Hk3 Hb3 HX) as [A' Hr].
  assert (Hksx : forall p, p ∈ d :: T ++ l2 ++ frames U -> p <> ks) by (intros p Hp ->; apply Hksn; by rewrite <- HP).
  split_and!; try done.
  - apply (space_frame kend Hkend s2 s3 l2 l2 d T U [ks]); try done.
    + by apply Forall_singleton.
    + intros p Hp. rewrite list_elem_of_singleton. apply Hksx. set_solver.
    + apply (as_nodup _ _ _ _ _ _ A2).
  - intros va Hva. rewrite <- (Hr va). assert (Hst : forall V, (forall i q f, V !! i = Some (q, f) -> is_page kend q /\ q <> ks) -> uread (km_mem s3) V va = uread (km_mem s2) V va).
    { intros V HV. unfold uread. destruct (V !! (va / 4096)) as [[q f]|] eqn:E; [|done]. simpl. f_equal. apply Hun3. intros p Hp.
      apply list_elem_of_singleton in Hp as ->. destruct (HV _ _ _ E) as [Hq Hqk]. destruct (pages_apart kend q ks Hq Hks Hqk); unfold PGSIZE in *; dlia. }
    rewrite !Hst; [by apply copies_uread| |].
    + intros i q f E. pose proof (as_pages _ _ _ _ _ _ A) as Hp. rewrite Forall_forall in Hp. apply frames_in in E. split; [by apply Hp|]. intros ->.
      pose proof (as_nodup _ _ _ _ _ _ A) as Hn. rewrite El in Hn. apply NoDup_cons in Hn as [_ Hn]. apply NoDup_app in Hn as (_ & _ & Hn).
      apply NoDup_app in Hn as (_ & Hn & _). by apply (Hn ks); [left|].
    + intros i q f E. pose proof (as_pages _ _ _ _ _ _ A2) as Hp. rewrite Forall_forall in Hp. apply frames_in in E. split; [by apply Hp|].
      apply Hksx. set_solver.
Qed.

(** C9: A call of [fork] returns -1 and nothing has happened to any process, or
    the pid of a new runnable process that is a copy of the caller: the same
    memory contents in pages of its own, the same registers but for the
    returned 0, the same open files, directory and name. *)
Theorem fork_copies k me l TP UP c : fork_pre k me l TP UP c ->
  wp (fork kend kdata trapret forkret) (fun r k' =>
    (r = -1 /\ fork_failed k me l TP UP k') \/ (r = k_nextpid k /\ exists np, fork_child k me l TP UP c k' np)) k.
Proof.
  intros [Ec Hlen Hme A Hsz Hmap [Htf1 Htf2] Htfp Hfiles Hcwd Hname Hun]. set (x := procat me k) in *.
  pose proof (as_pgt _ _ _ _ _ _ A) as O. unfold fork. apply wp_bind. unfold myproc. apply wp_bind, wp_gets. rewrite Ec. apply wp_ret.
  apply wp_bind. eapply wp_mono; [apply (allocproc_wp k l Hlen (pt_kmem _ _ _ _ _ O) (pt_bytes _ _ _ _ _ O))|].
  intros [np|] k1 H1.
  2: { apply wp_ret. left. split; [done|]. assert (HK : forall k', k_mem k' = k_mem k -> parent_kept k me l TP UP k' l []) by (intros k' E; unfold parent_kept; by rewrite E).
       destruct H1 as [->|(np & y & Hnp & Hst & Hy & ->)].
       - split_and!; [exists l, []; split; [by apply HK|simpl; lia]|done|done|done].
       - eapply fork_failed_with; [lia|done|done|by apply HK|simpl; lia]. }
  destruct H1 as (Hnp & Hst & ks & l1 & s1 & El & Hks & S1 & ->).
  assert (Hne : me <> np) by (intros ->; done). assert (Hnp' : (np < length (k_procs k))%nat) by lia.
  destruct (fork_memory _ _ _ _ _ _ _ _ A El Hks S1) as (A1 & Hun1 & Hksn & Hr1).
  apply wp_bind, wp_gets. rewrite procat_with_ne by done. fold x. apply wp_bind, wp_on_mem_with.
  eapply wp_mono; [apply (copyuvm_spec kend Hkend kdata s1 l1 _ TP UP _ Hkdata Hkdm A1 Hsz Hmap)|].
  intros d s2 [(-> & l2 & X & Hk2 & Hb2 & HX & HX1 & Hun2)|(Hd & l2 & T & U & [A2 HP2 Hun2] & Hcop)].
  - apply wp_bind, wp_pupd_with; [done|]. rewrite Z.eqb_refl. apply wp_bind, wp_gets. rewrite procat_with by done.
    apply wp_bind, wp_on_mem_with. eapply wp_mono; [eapply (fork_undo k me l TP UP np _ _ ks l1 s1 s2 l2 X); done|].
    intros [] s3 (l3 & HK). apply wp_bind, wp_pupd_with; [done|]. apply wp_bind, wp_pupd_with; [done|]. apply wp_ret. left. split; [done|].
    eapply fork_failed_with; [done|done|done|exact HK|done].
  - apply wp_bind, wp_pupd_with; [done|]. rewrite (proj2 (Z.eqb_neq d 0)) by done.
    apply wp_bind, wp_pupd_with; [done|]. apply wp_bind, wp_pupd_with; [done|]. apply wp_bind, wp_gets. rewrite procat_with by done.
    change (p_tf (set_p_parent _ _)) with (ks + KSTACKSIZE - sizeof_trapframe). pose proof (pt_kmem _ _ _ _ _ (as_pgt _ _ _ _ _ _ A2)) as Hk2.
    assert (Hks2 : ks ∉ l2) by (intros H; apply Hksn; rewrite <- HP2; set_solver).
    apply wp_bind, wp_on_mem_with.
    eapply wp_mono; [apply (fork_frame ks l2 s2 (p_tf x) Hk2 (pt_bytes _ _ _ _ _ (as_pgt _ _ _ _ _ _ A2)) Hks Hks2 Htf1 Htf2)|].
    intros [] s3' W3. apply wp_bind, wp_on_mem_with. eapply wp_mono; [exact W3|]. clear s3' W3. intros [] s3 [S3 Htf].
    destruct (Hun np Hst) as [Ho Hn]. eapply wp_mono; [apply (fork_rest k me np _ _ s3 c); try done|].
    intros r k' (-> & F & nm & Hnm & HF & ->). right. split; [done|]. exists np.
    destruct (fork_spaces _ _ _ _ _ _ _ _ _ _ _ _ _ _ _ A El Hks S1 A2 HP2 Hun2 Hcop S3) as (HX & AP & AC & HrP & HrC).
    constructor; rewrite ?(procat_with (set_k_fs _ _)) by done; try done.
    + split; [done|]. intros i Hi. by rewrite procat_with_ne.
    + split; [done|]. by exists l2, T, U.
    + intros o Hoff. etransitivity; [exact (Htf o Hoff)|]. fold x. case_decide; [done|]. assert (Ho2 : forall L : list Z, (forall q, q ∈ L -> q ∈ l) -> forall q, q ∈ L -> p_tf x + o < q \/ q + PGSIZE <= p_tf x + o).
      { intros L HL q Hq. destruct (Htfp q (HL q Hq)); unfold sizeof_trapframe in *; lia. }
      rewrite Hun2 by (apply (Ho2 l1); rewrite El; set_solver). by apply Hun1, Ho2.
Qed.
End fork.

(** *** A kernel with one process in the address space [tiny] *)

Definition tiny_proc : proc :=
  Proc 4096 tiny_dir 0 RUNNING 7 None KERNBASE 0 NoChan false (Some 0%nat :: replicate 15 None) (Some 0%nat) (replicate 16 0).
Definition tiny_kernel : kernel :=
  Kernel (tiny_proc :: replicate 63 proc0) 8 (Some 0%nat) (set_f_ref 1 inhabitant :: replicate 99 inhabitant) ∅ tiny
    (Fs (sb_of []) [] (LState log0 (Bcache [] ∅ []))) 0 (Some 0%nat) 0x2000 0.

Lemma tiny_fork_pre : fork_pre tiny_end tiny_kernel 0 tiny_free [tiny_table] tiny_map 0.
Proof.
  constructor; try done.
  - apply tiny_ok.
  - intros i Hi. change (npages _) with 1 in Hi. by replace i with 0 by lia.
  - intros q Hq. left. unfold tiny_free in Hq. change (p_tf _) with KERNBASE. unfold KERNBASE, sizeof_trapframe in *.
    apply list_elem_of_In in Hq as [<-|[<-|[]]]; lia.
  - split; [done|]. intros [|i] f Hf; [injection Hf as <-; cbn; lia|]. change (replicate 15 None !! i = Some (Some f)) in Hf. by apply lookup_replicate in Hf as [? _].
  - intros i. unfold procat. destruct (decide (i < NPROC)%nat) as [Hi|Hi].
    + destruct i as [|i]; [done|]. cbn [tiny_kernel k_procs]. rewrite list_lookup_total_alt. cbn [lookup list_lookup].
      destruct (lookup _ _) as [y|] eqn:E; [|done]. apply lookup_replicate_1 in E as [-> _]. done.
    + rewrite list_lookup_total_alt, lookup_ge_None_2 by (cbn; unfold NPROC in Hi; lia). done.
Qed.

Lemma fork_copies_witness : exists r k', fork tiny_end (KERNLINK + 0x8000) 0 0 tiny_kernel = Ret r k' /\
  (r = -1 /\ fork_failed tiny_end tiny_kernel 0 tiny_free [tiny_table] tiny_map k' \/
   r = 8 /\ exists np, fork_child tiny_end tiny_kernel 0 tiny_free [tiny_table] tiny_map 0 k' np).
Proof.
  apply wp_elim, (fork_copies tiny_end (KERNLINK + 0x8000) 0 0 eq_refl
    ltac:(unfold KERNLINK, KERNBASE, EXTMEM, PHYSTOP; lia) eq_refl tiny_kernel 0 tiny_free [tiny_table] tiny_map 0 tiny_fork_pre).
Defined.
