(* ===== verification/RefCount.v ===== *)
(** Reference counts of open files: [f->ref] is the number of descriptors,
    over all processes, that refer to [f].

    [rc e k] says so up to a debt [e f] per file: between [filedup] and the
    store of the new descriptor, or between [fileclose] and the clearing of
    the old one, the count is off by one. Every operation of file.c and proc.c
    has its effect on the debt; the operations a process can call leave none. *)

From S2P Require Import Prelude Params KString Bio Log Blocks Fs Kalloc Vm Pipe Kernel Sched File Proc.

Definition fd_refs (f : nat) (p : proc) : Z :=
  Z.of_nat (length (filter (fun o => o = Some f) (p_ofile p))).
Definition table_refs (f : nat) (ps : list proc) : Z :=
  foldr (fun p n => fd_refs f p + n) 0 ps.

Definition no_files (p : proc) : Prop := p_ofile p = replicate NOFILE None.
(** A process in one of these states has no open files. *)
Definition dead (p : proc) : Prop := p_state p = UNUSED \/ p_state p = ZOMBIE.

Record rc (e : nat -> Z) (k : kernel) : Prop := {
  rc_files : length (k_files k) = NFILE;
  rc_procs : length (k_procs k) = NPROC;
  rc_ofile : forall i, (i < NPROC)%nat -> length (p_ofile (procat i k)) = NOFILE;
  rc_range : forall i j f, (i < NPROC)%nat -> p_ofile (procat i k) !! j = Some (Some f) -> (f < NFILE)%nat;
  rc_refs : forall f, (f < NFILE)%nat -> f_ref (fileat f k) = table_refs f (k_procs k) + e f;
  rc_dead : forall i, (i < NPROC)%nat -> dead (procat i k) -> no_files (procat i k);
}.

Definition no_debt : nat -> Z := fun _ => 0.
Definition bump (f : nat) (d : Z) (e : nat -> Z) : nat -> Z :=
  fun g => if decide (g = f) then e g + d else e g.

(** The descriptors are those of [k]. *)
Definition same_fds (k k' : kernel) : Prop :=
  k_cur k' = k_cur k /\ forall i, p_ofile (procat i k') = p_ofile (procat i k).

(** *** Counting *)

Lemma table_refs_insert f ps i p q :
  ps !! i = Some p -> table_refs f (<[i := q]> ps) = table_refs f ps - fd_refs f p + fd_refs f q.
Proof.
  revert i. induction ps as [|r ps IH]; intros [|i] E; simpl in *; try done.
  - injection E as ->. lia.
  - rewrite (IH i E). lia.
Qed.

Definition b2z (b : bool) : Z := if b then 1 else 0.

Lemma filter_insert_count (f : nat) (l : list (option nat)) j o o' :
  l !! j = Some o ->
  Z.of_nat (length (filter (fun x => x = Some f) (<[j := o']> l))) =
  Z.of_nat (length (filter (fun x => x = Some f) l))
    - b2z (bool_decide (o = Some f)) + b2z (bool_decide (o' = Some f)).
Proof.
  revert j. induction l as [|x l IH]; intros [|j] E; simpl in *; try done.
  - injection E as ->. rewrite !filter_cons. repeat case_bool_decide; repeat case_decide; simpl; try done; lia.
  - rewrite !filter_cons. specialize (IH j E). destruct (decide (x = Some f)); simpl; lia.
Qed.

Lemma fd_refs_insert f j o o' p :
  p_ofile p !! j = Some o ->
  fd_refs f (set_p_ofile (<[j := o']> (p_ofile p)) p) =
  fd_refs f p - b2z (bool_decide (o = Some f)) + b2z (bool_decide (o' = Some f)).
Proof. intros E. unfold fd_refs. simpl. by apply filter_insert_count. Qed.

Lemma fd_refs_nonneg f p : 0 <= fd_refs f p.
Proof. unfold fd_refs. lia. Qed.
Lemma table_refs_nonneg f ps : 0 <= table_refs f ps.
Proof. induction ps as [|p ps IH]; simpl; [done|]. pose proof (fd_refs_nonneg f p). lia. Qed.

Lemma table_refs_pos f ps i j :
  (i < length ps)%nat -> p_ofile (ps !!! i) !! j = Some (Some f) -> 0 < table_refs f ps.
Proof.
  intros Hi E. apply list_lookup_lookup_total_lt in Hi as Hi'.
  revert i Hi Hi' E. induction ps as [|p ps IH]; intros [|i] Hi Hi' E; simpl in *; try lia.
  - pose proof (table_refs_nonneg f ps). enough (0 < fd_refs f p) by lia.
    unfold fd_refs. assert (Some f ∈ filter (fun o => o = Some f) (p_ofile p)) as Hin.
    { apply list_elem_of_filter. split; [done|]. by eapply list_elem_of_lookup_2. }
    destruct (filter _ _); [by apply not_elem_of_nil in Hin|simpl; lia].
  - pose proof (fd_refs_nonneg f p). specialize (IH i ltac:(lia) Hi' E). lia.
Qed.

Lemma procat_lookup e k i : rc e k -> (i < NPROC)%nat -> k_procs k !! i = Some (procat i k).
Proof. intros H Hi. apply list_lookup_lookup_total_lt. by rewrite (rc_procs _ _ H). Qed.

Lemma procat_insert k i j q :
  (i < length (k_procs k))%nat ->
  procat j (set_k_procs (<[i := q]> (k_procs k)) k) = if decide (i = j) then q else procat j k.
Proof.
  intros Hi. unfold procat. simpl. destruct (decide (i = j)) as [->|].
  - by rewrite list_lookup_total_insert_eq.
  - by rewrite list_lookup_total_insert_ne.
Qed.

Lemma fileat_insert k f g x :
  (f < length (k_files k))%nat ->
  fileat g (set_k_files (<[f := x]> (k_files k)) k) = if decide (f = g) then x else fileat g k.
Proof.
  intros Hi. unfold fileat. simpl. destruct (decide (f = g)) as [->|].
  - by rewrite list_lookup_total_insert_eq.
  - by rewrite list_lookup_total_insert_ne.
Qed.

(** *** How the counts change *)

Lemma rc_ext e e' k : rc e k -> (forall f, e f = e' f) -> rc e' k.
Proof.
  intros [? ? ? ? Hr ?] H. constructor; try done. intros f Hf. by rewrite Hr, H.
Qed.

(** A change of a table entry that keeps its descriptors. *)
Lemma rc_upd e k i q :
  rc e k -> p_ofile q = p_ofile (procat i k) -> (dead q -> no_files q) ->
  rc e (set_k_procs (<[i := q]> (k_procs k)) k) /\
  same_fds k (set_k_procs (<[i := q]> (k_procs k)) k).
Proof.
  intros H Hq Hd. destruct (decide (i < NPROC)%nat) as [Hi|Hi]; cycle 1.
  { rewrite list_insert_ge by (rewrite (rc_procs _ _ H); lia). destruct k; simpl. by split. }
  assert (i < length (k_procs k))%nat as Hi' by by rewrite (rc_procs _ _ H).
  assert (same_fds k (set_k_procs (<[i := q]> (k_procs k)) k)) as [_ Hs].
  { split; [done|]. intros j. rewrite procat_insert by done. by destruct (decide _) as [<-|]. }
  split; [|by split]. destruct H as [Hf Hp Ho Hrg Hr Hdd]. constructor; simpl.
  - done.
  - by rewrite length_insert.
  - intros j Hj. rewrite Hs. by apply Ho.
  - intros j jj f Hj. rewrite Hs. by apply Hrg.
  - intros f Hf'. change (fileat f _) with (fileat f k). rewrite Hr by done.
    rewrite (table_refs_insert _ _ _ (procat i k)) by (by apply list_lookup_lookup_total_lt).
    unfold fd_refs. rewrite Hq. lia.
  - intros j Hj. rewrite procat_insert by done. destruct (decide _) as [<-|]; [done|by apply Hdd].
Qed.

(** A change of one descriptor from [o] to [o']. *)
Lemma rc_set_fd e k i j o o' :
  rc e k -> (i < NPROC)%nat -> p_ofile (procat i k) !! j = Some o ->
  ~ dead (procat i k) \/ o' = None ->
  (forall f, o' = Some f -> (f < NFILE)%nat) ->
  rc (fun f => e f + b2z (bool_decide (o = Some f)) - b2z (bool_decide (o' = Some f)))
     (set_k_procs (<[i := set_p_ofile (<[j := o']> (p_ofile (procat i k))) (procat i k)]> (k_procs k)) k).
Proof.
  intros H Hi E Hd Hrange. assert (i < length (k_procs k))%nat as Hi' by by rewrite (rc_procs _ _ H).
  pose proof (rc_ofile _ _ H) as Ho. pose proof (lookup_lt_Some _ _ _ E) as Hj.
  destruct H as [Hf Hp _ Hrg Hr Hdd]. constructor; simpl.
  - done.
  - by rewrite length_insert.
  - intros i' Hi2. rewrite procat_insert by done. destruct (decide _) as [<-|]; [|by apply Ho].
    simpl. rewrite length_insert. by apply Ho.
  - intros i' j' f Hi2. rewrite procat_insert by done. destruct (decide _) as [<-|]; [|by apply Hrg].
    simpl. intros [(_ & -> & _)|[_ E']]%list_lookup_insert_Some; [by apply Hrange|by eapply Hrg].
  - intros f Hf'. change (fileat f _) with (fileat f k). rewrite Hr by done.
    rewrite (table_refs_insert _ _ _ (procat i k)) by (by apply list_lookup_lookup_total_lt).
    rewrite (fd_refs_insert f j o o' _ E). lia.
  - intros i' Hi2. rewrite procat_insert by done. destruct (decide _) as [<-|]; [|by apply Hdd].
    intros Hdead. destruct Hd as [Hd| ->]; [by destruct Hd|].
    specialize (Hdd i Hi Hdead). unfold no_files in *. cbn [p_ofile set_p_ofile]. rewrite Hdd.
    apply list_insert_id. rewrite Hdd in Hj. rewrite length_replicate in Hj.
    by apply lookup_replicate_2.
Qed.

(** A change of one file's entry. *)
Lemma rc_set_file e k f x d :
  rc e k -> (f < NFILE)%nat -> f_ref x = f_ref (fileat f k) + d ->
  rc (bump f d e) (set_k_files (<[f := x]> (k_files k)) k).
Proof.
  intros [Hf Hp Ho Hrg Hr Hdd] Hlt Hx. assert (f < length (k_files k))%nat by by rewrite Hf.
  constructor; try done; simpl; [by rewrite length_insert|].
  intros g Hg. rewrite fileat_insert by done. unfold bump.
  destruct (decide (f = g)) as [<-|].
  - rewrite decide_True by done. rewrite Hx, Hr by done. lia.
  - rewrite decide_False by done. by rewrite Hr.
Qed.

(** *** Code that preserves an invariant of the tables *)

(** Nothing the counts depend on has changed. *)
Definition frame (k k' : kernel) : Prop :=
  k_procs k' = k_procs k /\ k_files k' = k_files k /\ k_cur k' = k_cur k.

Definition pres {A} (I : kernel -> Prop) (m : K A) : Prop :=
  forall k, I k -> wlp m (fun _ k' => I k') k.

Lemma wlp_on_mem {A} (m : M kmem A) k : wlp (on_mem m) (fun _ k' => frame k k') k.
Proof. intros a k' E. unfold on_mem in E. destruct (m (k_mem k)); by simplify_eq. Qed.
Lemma wlp_on_fs {A} (m : M (fs lstate) A) k : wlp (on_fs m) (fun _ k' => frame k k') k.
Proof. intros a k' E. unfold on_fs in E. destruct (m (k_fs k)); by simplify_eq. Qed.

Section pres.
Context (I : kernel -> Prop) (HI : forall k k', frame k k' -> I k -> I k').

Lemma pres_bind {A B} (m : K A) (f : A -> K B) : pres I m -> (forall a, pres I (f a)) -> pres I (bind m f).
Proof.
  intros Hm Hf k Hk. apply wlp_bind. eapply wlp_mono; [by apply Hm|]. intros a k' H. by apply Hf.
Qed.
Lemma pres_ret {A} (a : A) : pres I (ret a).
Proof. intros k Hk. by apply wlp_ret. Qed.
Lemma pres_gets {A} (f : kernel -> A) : pres I (gets f).
Proof. intros k Hk. by apply wlp_gets. Qed.
Lemma pres_fail {A} e : pres (A:=A) I (fail e).
Proof. intros k Hk. apply wlp_fail. Qed.
Lemma pres_of_option {A} (o : option A) : pres I (of_option o).
Proof. intros k Hk. by apply wlp_of_option. Qed.
Lemma pres_panic_if c msg : pres I (panic_if c msg).
Proof. intros k Hk. by apply wlp_panic_if. Qed.
Lemma pres_on_mem {A} (m : M kmem A) : pres I (on_mem m).
Proof. intros k Hk. eapply wlp_mono; [apply wlp_on_mem|]. intros a k' H. exact (HI _ _ H Hk). Qed.
Lemma pres_on_fs {A} (m : M (fs lstate) A) : pres I (on_fs m).
Proof. intros k Hk. eapply wlp_mono; [apply wlp_on_fs|]. intros a k' H. exact (HI _ _ H Hk). Qed.
Lemma pres_on_log {A} (m : M lstate A) : pres I (on_log m).
Proof. apply pres_on_fs. Qed.
Lemma pres_frame (f : kernel -> kernel) : (forall k, frame k (f k)) -> pres I (modify f).
Proof. intros Hf k Hk. apply wlp_modify. exact (HI _ _ (Hf k) Hk). Qed.
Lemma pres_for n body : (forall i, pres I (body i)) -> pres I (for_ n body).
Proof. intros Hb k Hk. apply (wlp_for (fun _ => I)); [done|]. intros i s _ H. by apply Hb. Qed.
Lemma pres_find {A} n (body : nat -> K (option A)) : (forall i, pres I (body i)) -> pres I (for_find n body).
Proof.
  intros Hb k Hk. apply (wlp_find (fun _ => I)); [done| |done]. intros i s _ H.
  eapply wlp_mono; [by apply Hb|]. by intros [?|] ? ?.
Qed.
End pres.

(** No process has died. *)
Definition no_deaths (k0 k : kernel) : Prop := forall i, dead (procat i k) -> dead (procat i k0).

(** The counts, the descriptors and the processes. *)
Definition kept (e : nat -> Z) (k0 k : kernel) : Prop := rc e k /\ same_fds k0 k /\ no_deaths k0 k.

Lemma rc_frame e k k' : frame k k' -> rc e k -> rc e k'.
Proof.
  intros (Hp & Hf & _) [? ? ? ? ? ?].
  assert (forall i, procat i k' = procat i k) as Ep by (intros; unfold procat; by rewrite Hp).
  assert (forall i, fileat i k' = fileat i k) as Ef by (intros; unfold fileat; by rewrite Hf).
  constructor; try setoid_rewrite Ep; try setoid_rewrite Ef; by rewrite ?Hp, ?Hf.
Qed.

Lemma same_fds_trans k0 k k' : same_fds k0 k -> same_fds k k' -> same_fds k0 k'.
Proof. intros [E1 H1] [E2 H2]. split; [congruence|]. intros i. by rewrite H2, H1. Qed.

Lemma kept_frame e k0 k k' : frame k k' -> kept e k0 k -> kept e k0 k'.
Proof.
  intros Hf (Hr & Hs & Hd). split; [by eapply rc_frame|]. destruct Hf as (Hp & _ & Hc).
  assert (forall i, procat i k' = procat i k) as E by (intros i; unfold procat; by rewrite Hp).
  split; [eapply same_fds_trans; [done|]; split; [done|]; intros i; by rewrite E|].
  intros i. rewrite E. apply Hd.
Qed.

Lemma no_deaths_upd k0 k i q :
  no_deaths k0 k -> (dead q -> dead (procat i k0)) ->
  no_deaths k0 (set_k_procs (<[i := q]> (k_procs k)) k).
Proof.
  intros H Hq j. destruct (decide (i < length (k_procs k))%nat) as [Hi|Hi].
  - rewrite procat_insert by done. destruct (decide (i = j)) as [<-|]; [done|apply H].
  - rewrite list_insert_ge by lia. apply H.
Qed.

Lemma kept_refl e k : rc e k -> kept e k k.
Proof. intros H. split; [done|]. split; [by split|by intros i]. Qed.

Lemma kept_pupd e k0 i g :
  (forall p, p_ofile (g p) = p_ofile p) -> (forall p, dead (g p) -> dead p) ->
  pres (kept e k0) (pupd i g).
Proof.
  intros Hg Hd k (Hr & Hs & Hm). apply wlp_modify. destruct (rc_upd e k i (g (procat i k))) as [Hr' Hs']; [done|done| |].
  - intros Hdead%Hd. unfold no_files. rewrite Hg. destruct (decide (i < NPROC)%nat).
    + by apply (rc_dead _ _ Hr).
    + unfold procat. rewrite list_lookup_total_alt, lookup_ge_None_2; [done|]. rewrite (rc_procs _ _ Hr). lia.
  - split; [done|]. split; [by eapply same_fds_trans|]. apply no_deaths_upd; [done|]. intros H%Hd. by apply Hm.
Qed.

Lemma kept_fupd e k0 f g : (forall x, f_ref (g x) = f_ref x) -> pres (kept e k0) (fupd f g).
Proof.
  intros Hg k [Hr Hs]. apply wlp_modify. destruct (decide (f < NFILE)%nat).
  - split; [|by destruct Hs as [[] ?]]. eapply rc_ext; [apply (rc_set_file e k f _ 0 Hr); [done|rewrite Hg; lia]|].
    intros h. unfold bump. case_decide; lia.
  - rewrite list_insert_ge by (rewrite (rc_files _ _ Hr); lia). by destruct k.
Qed.

Lemma rc_wake e k c : rc e k -> rc e (set_k_procs (wakeup1 c (k_procs k)) k) /\
  same_fds k (set_k_procs (wakeup1 c (k_procs k)) k).
Proof.
  intros H. assert (forall i, procat i (set_k_procs (wakeup1 c (k_procs k)) k) = wake c (procat i k)) as E.
  { intros i. unfold procat, wakeup1. simpl. rewrite !list_lookup_total_alt, list_lookup_fmap.
    by destruct (k_procs k !! i). }
  assert (forall p, p_ofile (wake c p) = p_ofile p) as Ew.
  { intros p. unfold wake. by destruct (_ && _). }
  destruct H as [Hf Hp Ho Hrg Hr Hdd]. split; [constructor|]; simpl.
  - done.
  - unfold wakeup1. by rewrite length_fmap.
  - intros i Hi. rewrite E, Ew. by apply Ho.
  - intros i j f Hi. rewrite E, Ew. by apply Hrg.
  - intros f Hf'. change (fileat f _) with (fileat f k). rewrite Hr by done. f_equal.
    unfold wakeup1. clear -Ew. induction (k_procs k) as [|p ps IH]; simpl; [done|].
    unfold fd_refs in *. by rewrite Ew, IH.
  - intros i Hi. rewrite E. unfold no_files. rewrite Ew. intros Hd. apply Hdd; [done|].
    revert Hd. unfold wake, dead. destruct (_ && _); simpl; [|done]. intros [|]; done.
  - split; [done|]. intros i. by rewrite E, Ew.
Qed.

Lemma kept_wakeup e k0 c : pres (kept e k0) (wakeup c).
Proof.
  intros k (Hr & Hs & Hm). apply wlp_modify. destruct (rc_wake e k c Hr) as [Hr' Hs'].
  split; [done|]. split; [by eapply same_fds_trans|]. intros i Hd. apply Hm. revert Hd.
  unfold procat, wakeup1. simpl. rewrite !list_lookup_total_alt, list_lookup_fmap.
  destruct (k_procs k !! i) as [p|]; simpl; [|done]. unfold wake, dead. destruct (_ && _); simpl; [|done].
  by intros [|].
Qed.

Section kept.
Context (e : nat -> Z) (k0 : kernel).
Lemma kept_on_mem {A} (m : M kmem A) : pres (kept e k0) (on_mem m).
Proof. apply pres_on_mem, kept_frame. Qed.
Lemma kept_on_fs {A} (m : M (fs lstate) A) : pres (kept e k0) (on_fs m).
Proof. apply pres_on_fs, kept_frame. Qed.
Lemma kept_on_log {A} (m : M lstate A) : pres (kept e k0) (on_log m).
Proof. apply pres_on_log, kept_frame. Qed.
Lemma kept_modify (f : kernel -> kernel) : (forall k, frame k (f k)) -> pres (kept e k0) (modify f).
Proof. apply pres_frame, kept_frame. Qed.
End kept.

#[export] Hint Resolve pres_ret pres_gets pres_fail pres_of_option pres_panic_if
  kept_on_mem kept_on_fs kept_on_log kept_wakeup : kspec.

(** [pres_auto]: follow the code, down to the operations with a lemma. *)
Ltac pres_step :=
  match goal with
  | |- pres _ (bind _ _) => apply pres_bind
  | |- pres _ (let _ := _ in _) => cbv zeta
  | |- pres _ (match ?x with _ => _ end) => destruct x
  | |- pres _ (for_ _ _) => apply pres_for
  | |- pres _ (for_find _ _) => apply pres_find
  | |- pres _ (panic _) => apply pres_fail
  | |- pres _ (pupd _ _) => apply kept_pupd; [done|first [exact (fun _ H => H)|by intros p [|]]]
  | |- pres _ (fupd _ _) => apply kept_fupd; done
  | |- pres _ (modify _) => apply kept_modify; done
  | |- pres _ _ => solve [eauto with kspec nocore]
  | |- forall _, _ => intros ?
  end.
Ltac pres_auto := repeat pres_step.

Section ops.
Context (kend kdata trapret forkret : Z) `{!Devsw lstate}.

Lemma kept_pipeupd e k0 p v : pres (kept e k0) (pipeupd p v).
Proof. by apply kept_modify. Qed.
Lemma kept_myproc e k0 : pres (kept e k0) myproc.
Proof. unfold myproc. pres_auto. Qed.
#[local] Hint Resolve kept_pipeupd kept_myproc : kspec.

Lemma kept_kpipeclose e k0 p w : pres (kept e k0) (kpipeclose kend p w).
Proof. unfold kpipeclose. pres_auto. Qed.
#[local] Hint Resolve kept_kpipeclose : kspec.

Lemma kept_filestat e k0 f : pres (kept e k0) (filestat f).
Proof. unfold filestat. pres_auto. Qed.

Lemma kept_upgdir e k0 : pres (kept e k0) upgdir.
Proof. unfold upgdir. pres_auto. Qed.
Lemma kept_mykilled e k0 : pres (kept e k0) mykilled.
Proof. unfold mykilled. pres_auto. Qed.
#[local] Hint Resolve kept_upgdir kept_mykilled : kspec.

Lemma kept_fileread e k0 f addr n : pres (kept e k0) (fileread f addr n).
Proof. unfold fileread. pres_auto. Qed.

Lemma kept_filewrite_loop e k0 fuel f addr n i : pres (kept e k0) (filewrite_loop fuel f addr n i).
Proof. revert i. induction fuel as [|fuel IH]; intros i; simpl; pres_auto; apply IH. Qed.
#[local] Hint Resolve kept_filewrite_loop : kspec.

Lemma kept_filewrite e k0 f addr n : pres (kept e k0) (filewrite f addr n).
Proof. unfold filewrite. pres_auto. Qed.

(** Runs the next operation of the code with its [pres] lemma. *)
Ltac kept_use :=
  apply wlp_bind; eapply wlp_mono;
  [match goal with H : kept ?e ?k0 ?k |- wlp ?m _ ?k =>
     apply ((ltac:(pres_auto) : pres (kept e k0) m) k H) end
  |cbv beta].

(** *** file.c *)

Lemma live_file e k f : rc e k -> 1 <= f_ref (fileat f k) -> (f < NFILE)%nat.
Proof.
  intros H Hf. destruct (decide (f < NFILE)%nat); [done|].
  unfold fileat in Hf. rewrite list_lookup_total_alt, lookup_ge_None_2 in Hf; [simpl in Hf; lia|].
  rewrite (rc_files _ _ H). lia.
Qed.

Lemma kept_ext e e' k0 k : kept e k0 k -> (forall f, e f = e' f) -> kept e' k0 k.
Proof. intros [H Hs] He. split; [by eapply rc_ext|done]. Qed.

Lemma kept_set_file e k0 k f x d :
  kept e k0 k -> (f < NFILE)%nat -> f_ref x = f_ref (fileat f k) + d ->
  kept (bump f d e) k0 (set_k_files (<[f := x]> (k_files k)) k).
Proof. intros [H Hs] Hf Hx. split; [by apply rc_set_file|]. by destruct Hs as [[] ?]. Qed.

Lemma filedup_spec e k0 k f :
  kept e k0 k ->
  wlp (filedup f) (fun g k' => g = f /\ (f < NFILE)%nat /\ kept (bump f 1 e) k0 k' /\
                               k_procs k' = k_procs k) k.
Proof.
  intros H. unfold filedup, fupd. wlp_auto. assert (f < NFILE)%nat by (eapply live_file; [apply H|lia]).
  split; [done|]. split; [done|]. split; [by apply kept_set_file|done].
Qed.

Lemma filealloc_spec e k0 k :
  kept e k0 k ->
  wlp filealloc (fun r k' => match r with
    | Some f => (f < NFILE)%nat /\ kept (bump f 1 e) k0 k' | None => kept e k0 k' end) k.
Proof.
  intros H. unfold filealloc. apply (wlp_find (fun _ k => kept e k0 k)); [done| |done].
  intros f k1 Hf H1. unfold fupd. wlp_auto. destruct (Z.eqb_spec (f_ref (fileat f k1)) 0) as [E|]; wlp_auto.
  - split; [done|]. apply kept_set_file; [done|done|simpl; lia].
  - done.
Qed.

Lemma fileclose_spec e k0 k f :
  kept e k0 k -> wlp (fileclose kend f) (fun _ k' => kept (bump f (-1) e) k0 k') k.
Proof.
  intros H. unfold fileclose. wlp_auto.
  assert (f < NFILE)%nat as Hf by (eapply live_file; [apply H|lia]).
  set (r := f_ref (fileat f k)) in *. unfold fupd at 1. wlp_auto.
  assert (kept (bump f (-1) e) k0 (set_k_files (<[f := set_f_ref (r - 1) (fileat f k)]> (k_files k)) k)) as H1
    by (apply kept_set_file; [done|done|simpl; lia]).
  destruct (Z.ltb_spec 0 (r - 1)); [by apply wlp_ret|].
  set (k1 := set_k_files _ k) in *. apply wlp_bind, wlp_gets.
  assert (f_ref (fileat f k1) = 0) as E1.
  { unfold k1. rewrite fileat_insert by (rewrite (rc_files _ _ (proj1 H)); lia).
    rewrite decide_True by done. simpl. lia. }
  apply wlp_bind. unfold fupd at 1. apply wlp_modify.
  apply (kept_set_file _ _ _ f (set_f_ref 0 (fileat f k1)) 0) in H1; [|done|simpl; lia].
  assert (pres (kept (bump f (-1) e) k0) (bind (fupd f (set_f_type FD_NONE)) (fun _ =>
    match f_type (fileat f k1) with
    | FD_NONE => ret tt
    | FD_PIPE => kpipeclose kend (f_pipe (fileat f k1)) (f_writable (fileat f k1))
    | FD_INODE => on_log begin_op;;; on_fs (iput (f_ip (fileat f k1)));;; on_log end_op
    end))) as Hp by pres_auto.
  apply Hp. eapply kept_ext; [exact H1|]. intros g. unfold bump. repeat case_decide; lia.
Qed.
(** *** proc.c *)

(** A new process: descriptors as before, none of its own. *)
Definition newborn (np : nat) (k : kernel) : Prop :=
  (np < NPROC)%nat /\ no_files (procat np k) /\ p_state (procat np k) = EMBRYO.

(** [kept], and [np] is new. *)
Definition kept_new (e : nat -> Z) (k0 : kernel) (np : nat) (k : kernel) : Prop :=
  kept e k0 k /\ newborn np k /\ dead (procat np k0).

Lemma kept_new_frame e k0 np k k' : frame k k' -> kept_new e k0 np k -> kept_new e k0 np k'.
Proof.
  intros Hf (H & Hn & Hd). split; [by eapply kept_frame|]. split; [|done]. destruct Hf as (Hp & _).
  unfold newborn, procat in *. by rewrite Hp.
Qed.

Lemma kept_new_pupd e k0 np g :
  (forall p, p_ofile (g p) = p_ofile p) -> (forall p, p_state p = EMBRYO -> p_state (g p) = EMBRYO) ->
  pres (kept_new e k0 np) (pupd np g).
Proof.
  intros Hg Hst k [(Hr & Hs & Hm) [(Hnp & Hn & He) Hd]]. apply wlp_modify.
  destruct (rc_upd e k np (g (procat np k))) as [Hr' Hs']; [done|done| |].
  { intros _. unfold no_files. by rewrite Hg. }
  split; [split; [done|]; split; [by eapply same_fds_trans|by apply no_deaths_upd]|]. split; [|done].
  unfold newborn. rewrite procat_insert by (rewrite (rc_procs _ _ Hr); done). rewrite decide_True by done.
  split; [done|]. split; [unfold no_files; by rewrite Hg|]. by apply Hst.
Qed.

Lemma kept_unused e k0 np k :
  kept_new e k0 np k ->
  kept e k0 (set_k_procs (<[np := set_p_state UNUSED (procat np k)]> (k_procs k)) k).
Proof.
  intros [(Hr & Hs & Hm) [(Hnp & Hn & He) Hd]].
  destruct (rc_upd e k np (set_p_state UNUSED (procat np k))) as [Hr' Hs']; [done|done|done|].
  split; [done|]. split; [by eapply same_fds_trans|by apply no_deaths_upd].
Qed.

(** The steps of [allocproc] and [fork] on the new entry. *)
Ltac new_step :=
  match goal with
  | |- pres _ (on_mem _) => apply pres_on_mem, kept_new_frame
  | |- pres _ (on_fs _) => apply pres_on_fs, kept_new_frame
  | |- pres _ (modify _) => apply (pres_frame _ (kept_new_frame _ _ _)); done
  | |- pres _ (pupd _ _) => apply kept_new_pupd; [done|done]
  end.
Ltac new_use :=
  apply wlp_bind; eapply wlp_mono;
  [match goal with H : kept_new ?e ?k0 ?np ?k |- wlp ?m _ ?k =>
     apply ((ltac:(new_step) : pres (kept_new e k0 np) m) k H) end
  |cbv beta].

Lemma find_unused_spec k :
  wlp find_unused (fun r k' => k' = k /\
    forall np, r = Some np -> (np < NPROC)%nat /\ p_state (procat np k) = UNUSED) k.
Proof.
  unfold find_unused. apply (wlp_find (fun _ k' => k' = k)); [done| |by intros ? ->].
  intros i k' Hi ->. wlp_auto. destruct (decide _); [|done]. split; [done|]. by intros ? [= <-].
Qed.

Lemma allocproc_spec e k0 k :
  kept e k0 k ->
  wlp (allocproc trapret forkret) (fun r k' => match r with
    | Some np => kept_new e k0 np k' | None => kept e k0 k' end) k.
Proof.
  intros H. unfold allocproc. apply wlp_bind. eapply wlp_mono; [apply find_unused_spec|].
  intros [np|] k1 [-> Hnp]; [|by apply wlp_ret]. destruct (Hnp np eq_refl) as [Hlt Hst].
  apply wlp_bind, wlp_modify.
  assert (kept_new e k0 np (set_k_procs (<[np := set_p_state EMBRYO (procat np k)]> (k_procs k)) k)) as H1.
  { destruct H as (Hr & Hs & Hm). assert (dead (procat np k0)) as Hd by (apply Hm; by left).
    assert (no_files (procat np k)) as Hn by (apply (rc_dead _ _ Hr); [done|by left]).
    destruct (rc_upd e k np (set_p_state EMBRYO (procat np k))) as [Hr' Hs']; [done|done|done|].
    split; [split; [done|]; split; [by eapply same_fds_trans|by apply no_deaths_upd]|]. split; [|done].
    unfold newborn. rewrite procat_insert by (rewrite (rc_procs _ _ Hr); done). by rewrite decide_True. }
  clear H Hst Hnp. revert H1. generalize (set_k_procs (<[np := set_p_state EMBRYO (procat np k)]> (k_procs k)) k).
  intros k1 H1. apply wlp_bind, wlp_gets.
  new_use. intros _ k2 H2. new_use. intros _ k3 H3. new_use. intros kst k4 H4. new_use. intros _ k5 H5.
  destruct (kst =? 0).
  - apply wlp_bind, wlp_modify, wlp_ret. by apply kept_unused.
  - cbv zeta. new_use. intros _ k6 H6. new_use. intros _ k7 H7. new_use. intros _ k8 H8.
    new_use. intros _ k9 H9. new_use. intros _ k10 H10. by apply wlp_ret.
Qed.
(** What every operation of a process keeps. *)
Definition kinv (k0 k : kernel) : Prop := rc no_debt k /\ k_cur k = k_cur k0.

Lemma kept_kinv k0 k : kept no_debt k0 k -> kinv k0 k.
Proof. intros (H & [Hc _] & _). by split. Qed.

(** Some file at descriptor [i] of a live process where there was none. *)
Lemma give_fd e k np i f :
  rc (bump f 1 e) k -> (np < NPROC)%nat -> (f < NFILE)%nat -> ~ dead (procat np k) ->
  p_ofile (procat np k) !! i = Some None ->
  rc e (set_k_procs (<[np := set_p_ofile (<[i := Some f]> (p_ofile (procat np k))) (procat np k)]>
                       (k_procs k)) k).
Proof.
  intros H Hnp Hf Hd E. eapply rc_ext; [eapply rc_set_fd; [exact H|done|exact E|by left|by intros ? [= <-]]|].
  intros g. unfold bump. repeat case_bool_decide; simplify_eq; repeat case_decide; simplify_eq; unfold b2z; lia.
Qed.

(** The descriptor [i] of a process, gone. *)
Lemma take_fd e k p i f :
  rc (bump f (-1) e) k -> (p < NPROC)%nat -> p_ofile (procat p k) !! i = Some (Some f) ->
  rc e (set_k_procs (<[p := set_p_ofile (<[i := None]> (p_ofile (procat p k))) (procat p k)]>
                       (k_procs k)) k).
Proof.
  intros H Hnp E. eapply rc_ext; [eapply rc_set_fd; [exact H|done|exact E|by right|done]|].
  intros g. unfold bump. repeat case_bool_decide; simplify_eq; repeat case_decide; simplify_eq; unfold b2z; lia.
Qed.

Lemma fork_files_spec k0 k me np :
  kept_new no_debt k0 np k -> wlp (fork_files me np) (fun _ k' => kinv k0 k') k.
Proof.
  intros [(Hr & [Hc Hs] & _) [(Hnp & Hn & He) _]]. unfold fork_files.
  set (J := fun (i : nat) k => kinv k0 k /\ ~ dead (procat np k) /\
    forall j, (i <= j < NOFILE)%nat -> p_ofile (procat np k) !! j = Some None).
  eapply wlp_mono; [apply (wlp_for J)|by intros [] k' [? _]].
  - split; [done|]. split; [by intros [E|E]; rewrite He in E|]. intros j Hj. rewrite Hn.
    apply lookup_replicate_2. lia.
  - intros i k1 Hi ((Hr1 & Hc1) & Hd & Hnone). apply wlp_bind, wlp_gets.
    assert (J (S i) k1) as Hsame by (split; [done|]; split; [done|]; intros; apply Hnone; lia).
    destruct (p_ofile (procat me k1) !!! i) as [f|]; [|by apply wlp_ret].
    apply wlp_bind. eapply wlp_mono; [apply filedup_spec, (kept_refl _ _ Hr1)|].
    intros g k2 (-> & Hf & (Hr2 & [Hc2 _] & _) & Hp2). apply wlp_modify.
    assert (procat np k2 = procat np k1) as Ep by (unfold procat; by rewrite Hp2).
    pose proof (Hnone i ltac:(lia)) as Ei. rewrite <- Ep in Ei, Hd.
    split; [split; [by apply give_fd|simpl; congruence]|].
    rewrite procat_insert by (rewrite Hp2, (rc_procs _ _ Hr1); done). rewrite decide_True by done.
    split; [done|]. intros j Hj. cbn [p_ofile set_p_ofile].
    rewrite list_lookup_insert_ne by lia. rewrite Ep. apply Hnone. lia.
Qed.

Lemma kinv_step k0 {A} (m : K A) :
  (forall e k0, pres (kept e k0) m) -> pres (kinv k0) m.
Proof.
  intros H k [Hr Hc]. eapply wlp_mono; [apply (H no_debt k), (kept_refl _ _ Hr)|].
  intros a k' (Hr' & [Hc' _] & _). split; [done|congruence].
Qed.

(** [fork]: the counts are right afterwards, on every path. *)
Lemma fork_spec k : rc no_debt k -> wlp (fork kend kdata trapret forkret) (fun _ k' => kinv k k') k.
Proof.
  intros H. unfold fork. apply wlp_bind. eapply wlp_mono; [apply (kept_myproc no_debt k), kept_refl, H|].
  intros me k1 H1. apply wlp_bind. eapply wlp_mono; [apply allocproc_spec, H1|].
  intros [np|] k2 H2; [|by apply wlp_ret, kept_kinv].
  apply wlp_bind, wlp_gets. new_use. intros pgdir k3 H3. new_use. intros _ k4 H4.
  destruct (pgdir =? 0).
  - apply wlp_bind, wlp_gets. new_use. intros _ k5 H5. new_use. intros _ k6 H6.
    apply wlp_bind, wlp_modify, wlp_ret. by apply kept_kinv, kept_unused.
  - new_use. intros _ k5 H5. new_use. intros _ k6 H6. apply wlp_bind, wlp_gets.
    new_use. intros _ k7 H7. new_use. intros _ k8 H8. apply wlp_bind.
    eapply wlp_mono; [apply fork_files_spec, H8|]. intros [] k9 H9.
    apply (kinv_step k); [|exact H9]. intros. pres_auto.
Qed.
Lemma fd_open e k me fd f :
  rc e k -> p_ofile (procat me k) !!! fd = Some f ->
  (me < NPROC)%nat /\ p_ofile (procat me k) !! fd = Some (Some f).
Proof.
  intros H E. destruct (decide (me < NPROC)%nat) as [Hme|Hme].
  - split; [done|]. rewrite list_lookup_total_alt in E.
    destruct (p_ofile (procat me k) !! fd) as [o|]; simpl in E; [by subst|done].
  - exfalso. revert E. unfold procat. rewrite (list_lookup_total_alt (k_procs k)), lookup_ge_None_2
      by (rewrite (rc_procs _ _ H); lia). cbn [default from_option proc0 inhabitant proc_inhabited p_ofile].
    rewrite list_lookup_total_alt. change (default inhabitant (replicate NOFILE (@None nat) !! fd) = Some f -> False).
    destruct (replicate NOFILE None !! fd) as [o|] eqn:E; [|done].
    apply lookup_replicate in E as [-> _]. done.
Qed.

Lemma exit_files_spec k0 k me :
  kinv k0 k ->
  wlp (exit_files kend me) (fun _ k' => kinv k0 k' /\
    forall j, (j < NOFILE)%nat -> p_ofile (procat me k') !!! j = None) k.
Proof.
  intros H. unfold exit_files.
  set (J := fun (i : nat) k => kinv k0 k /\ forall j, (j < i)%nat -> p_ofile (procat me k) !!! j = None).
  apply (wlp_for J); [split; [done|lia]|].
  intros i k1 Hi ((Hr1 & Hc1) & Hnone). apply wlp_bind, wlp_gets.
  destruct (p_ofile (procat me k1) !!! i) as [f|] eqn:E; cycle 1.
  { apply wlp_ret. split; [done|]. intros j Hj. destruct (decide (j = i)) as [->|]; [done|]. apply Hnone. lia. }
  destruct (fd_open _ _ _ _ _ Hr1 E) as [Hme Ei]. apply wlp_bind.
  eapply wlp_mono; [apply fileclose_spec, (kept_refl _ _ Hr1)|]. intros [] k2 (Hr2 & [Hc2 Hs2] & _).
  apply wlp_modify. rewrite <- (Hs2 me) in Ei. split; [split; [by eapply take_fd|simpl; congruence]|].
  intros j Hj. rewrite procat_insert by (rewrite (rc_procs _ _ Hr2); done). rewrite decide_True by done.
  cbn [p_ofile set_p_ofile]. destruct (decide (j = i)) as [->|].
  - apply list_lookup_total_insert_eq. by eapply lookup_lt_Some.
  - rewrite list_lookup_total_insert_ne by done. rewrite (Hs2 me). apply Hnone. lia.
Qed.

Lemma no_files_total e k me :
  rc e k -> (me < NPROC)%nat -> (forall j, (j < NOFILE)%nat -> p_ofile (procat me k) !!! j = None) ->
  no_files (procat me k).
Proof.
  intros H Hme Hn. apply list_eq. intros j. pose proof (rc_ofile _ _ H me Hme) as Hl.
  destruct (decide (j < NOFILE)%nat).
  - rewrite lookup_replicate_2 by done. rewrite <- (Hn j) by done.
    apply list_lookup_lookup_total_lt. by rewrite Hl.
  - rewrite !lookup_ge_None_2; [done|rewrite length_replicate; lia|lia].
Qed.

Lemma kept_exit_children e k0 me : pres (kept e k0) (exit_children me).
Proof. unfold exit_children. pres_auto. Qed.
#[local] Hint Resolve kept_exit_children : kspec.

Lemma exit_spec k : rc no_debt k -> wlp (exit kend) (fun _ k' => kinv k k') k.
Proof.
  intros H. unfold exit. apply wlp_bind. eapply wlp_mono; [apply (kept_myproc no_debt k), kept_refl, H|].
  intros me k1 H1%kept_kinv. apply wlp_bind, wlp_gets. apply wlp_bind, wlp_panic_if. intros _.
  apply wlp_bind. eapply wlp_mono; [apply exit_files_spec, H1|]. intros [] k2 [[Hr2 Hc2] Hn2].
  set (m := pupd me (set_p_state ZOMBIE)).
  assert (forall k3, kept no_debt k2 k3 -> wlp m (fun _ k' => kinv k k') k3) as Hz.
  { intros k3 (Hr3 & [Hc3 Hs3] & _). apply wlp_modify.
    destruct (rc_upd no_debt k3 me (set_p_state ZOMBIE (procat me k3))) as [Hr' [Hc' _]]; [done|done| |].
    - intros _. change (no_files (procat me k3)). destruct (decide (me < NPROC)%nat) as [Hme|Hme].
      + eapply no_files_total; [done|done|]. intros j Hj. rewrite Hs3. by apply Hn2.
      + unfold procat. rewrite list_lookup_total_alt, lookup_ge_None_2; [done|]. rewrite (rc_procs _ _ Hr3). lia.
    - split; [done|]. congruence. }
  pose proof (kept_refl _ _ Hr2) as H2. apply wlp_bind, wlp_gets.
  kept_use. intros _ k3 H3. kept_use. intros cwd k4 H4. kept_use. intros _ k5 H5.
  kept_use. intros _ k6 H6. kept_use. intros _ k7 H7. apply wlp_bind, wlp_gets.
  kept_use. intros _ k8 H8. kept_use. intros _ k9 H9. by apply Hz.
Qed.

Lemma kept_reap e k0 k i :
  kept e k0 k -> p_state (procat i k) = ZOMBIE -> wlp (reap kend i) (fun _ k' => kept e k0 k') k.
Proof.
  intros H Hz. unfold reap. set (I := fun k => kept e k0 k /\ dead (procat i k)).
  assert (forall k k', frame k k' -> I k -> I k') as HI.
  { intros k1 k2 Hf [H1 H2]. split; [by eapply kept_frame|]. destruct Hf as (Hp & _).
    unfold procat in *. by rewrite Hp. }
  assert (forall g, (forall p, p_ofile (g p) = p_ofile p) -> (forall p, dead p -> dead (g p)) ->
    pres I (pupd i g)) as Hu.
  { intros g Hg Hd k1 [(Hr & Hs & Hm) H2]. apply wlp_modify.
    destruct (decide (i < NPROC)%nat) as [Hi|Hi].
    - destruct (rc_upd e k1 i (g (procat i k1))) as [Hr' Hs']; [done|done| |].
      { intros _. unfold no_files. rewrite Hg. by apply (rc_dead _ _ Hr). }
      split; [split; [done|split; [by eapply same_fds_trans|]]|].
      { apply no_deaths_upd; [done|]. intros _. by apply Hm. }
      rewrite procat_insert by (rewrite (rc_procs _ _ Hr); done). rewrite decide_True by done. by apply Hd.
    - rewrite list_insert_ge by (rewrite (rc_procs _ _ Hr); lia). by destruct k1. }
  assert (I k) as HIk by (split; [done|by right]). apply wlp_bind, wlp_gets.
  eapply (wlp_mono _ (fun _ k => I k)); [|by intros a k' [? _]].
  revert k H Hz HIk. intros k _ _. generalize (procat i k). intros p. revert k.
  change (pres I (on_mem (kfree kend (p_kstack p));;; pupd i (set_p_kstack 0);;;
    on_mem (freevm kend (p_pgdir p));;; pupd i (set_p_pid 0);;; pupd i (set_p_parent None);;;
    pupd i (fun x => set_p_name (<[0%nat := 0]> (p_name x)) x);;; pupd i (set_p_killed false);;;
    pupd i (set_p_state UNUSED);;; ret (p_pid p))).
  repeat (apply pres_bind; [first [apply (pres_on_mem I HI)|apply Hu; [done|done || by left]]|intros ?]).
  apply pres_ret.
Qed.

Lemma wait_spec k : rc no_debt k -> wlp (wait kend) (fun _ k' => kinv k k') k.
Proof.
  intros H. unfold wait. apply wlp_bind. eapply wlp_mono; [apply (kept_myproc no_debt k), kept_refl, H|].
  intros me k1 H1. apply wlp_bind.
  eapply (wlp_mono _ (fun _ k' => kept no_debt k k')).
  - apply (wlp_find (fun _ k' => kept no_debt k k')); [done| |done].
    intros i k2 _ H2. apply wlp_bind, wlp_gets. destruct (decide _) as [[_ Hz]|]; [|by apply wlp_ret].
    apply wlp_bind. eapply wlp_mono; [by apply kept_reap|]. intros pid k3 H3. by apply wlp_ret.
  - intros r k2 H2. apply kept_kinv in H2 as H2'. destruct r; [by apply wlp_ret|].
    apply wlp_bind, wlp_gets. apply wlp_bind, wlp_gets. destruct (_ || _); [by apply wlp_ret|apply wlp_fail].
Qed.

Lemma kept_switchuvm e k0 p : pres (kept e k0) (switchuvm p).
Proof. unfold switchuvm. pres_auto. Qed.
#[local] Hint Resolve kept_switchuvm : kspec.

Lemma growproc_spec k n : rc no_debt k -> wlp (growproc kend n) (fun _ k' => kinv k k') k.
Proof.
  intros H. assert (pres (kept no_debt k) (growproc kend n)) as Hp by (unfold growproc; pres_auto).
  eapply wlp_mono; [apply Hp, kept_refl, H|]. intros a k' H'. by apply kept_kinv.
Qed.

Lemma kill_spec k pid : rc no_debt k -> wlp (kill pid) (fun _ k' => kinv k k') k.
Proof.
  intros H. unfold kill. apply wlp_bind, wlp_gets.
  destruct (kill_table pid (k_procs k)) as [ps'|] eqn:E; [|by apply wlp_ret].
  apply kill_table_inv in E as (i & p & Ei & _ & ->). apply wlp_bind, wlp_modify, wlp_ret.
  assert (procat i k = p) as Ep by (by apply list_lookup_total_correct).
  assert (forall q, p_ofile (kill_proc q) = p_ofile q) as Ek
    by (intros q; unfold kill_proc; by destruct (bool_decide _)).
  destruct (rc_upd no_debt k i (kill_proc p)) as [Hr [Hc _]]; [done|by rewrite Ep, Ek| |by split].
  intros Hd. unfold no_files. rewrite Ek, <- Ep. apply (rc_dead _ _ H).
  - rewrite <- (rc_procs _ _ H). by eapply lookup_lt_Some.
  - rewrite Ep. revert Hd. unfold kill_proc, dead. destruct (bool_decide _); simpl; [|done]. by intros [|].
Qed.
End ops.
