(* ===== verification/Syscall.v ===== *)
(** System call arguments (syscall.c) and the calls of sysproc.c.

    A user pointer or string is checked against [curproc->sz] and read through
    the page table that is loaded. A pointer result is the user address; a
    string result is its bytes up to and including the NUL. *)

From S2P Require Import Prelude Params KString Bio Log Blocks Fs Kalloc Vm Pipe Kernel Sched File Proc.

Section syscall_c.
Context (kend kdata trapret forkret : Z) `{!Devsw lstate}.

Definition curproc : K proc := let! me := myproc in gets (procat me).

(** [addr] is a [uint]; the result is an [int]. *)
Definition fetchint (addr : Z) : K (option Z) :=
  let! p := curproc in
  if (p_sz p <=? addr) || (p_sz p <? u32 (addr + 4)) then ret None
  else
    let! pgdir := upgdir in
    let! v := on_mem (uload32 pgdir addr) in
    ret (Some (i32 v)).

(** [for(s = *pp; s < ep; s++) if( *s == 0) return s - *pp;] *)
Fixpoint fetchstr_loop (fuel : nat) (s : Z) : K (option (list Z)) :=
  match fuel with
  | O => ret None
  | S fuel =>
    let! pgdir := upgdir in
    let! c := on_mem (uload pgdir s) in
    if c =? 0 then ret (Some [0])
    else
      let! r := fetchstr_loop fuel (s + 1) in
      ret ((c ::.) <$> r)
  end.

Definition fetchstr (addr : Z) : K (option (list Z)) :=
  let! p := curproc in
  if p_sz p <=? addr then ret None
  else fetchstr_loop (Z.to_nat (p_sz p - addr)) addr.

Definition argint (n : Z) : K (option Z) :=
  let! p := curproc in
  let! esp := on_mem (load32 (p_tf p + tf_esp)) in
  fetchint (u32 (esp + 4 + 4 * n)).

Definition argptr (n size : Z) : K (option Z) :=
  let! r := argint n in
  match r with
  | None => ret None
  | Some i =>
    let! p := curproc in
    if (size <? 0) || (p_sz p <=? u32 i) || (p_sz p <? u32 (u32 i + size)) then ret None
    else ret (Some (u32 i))
  end.

Definition argstr (n : Z) : K (option (list Z)) :=
  let! r := argint n in
  match r with
  | None => ret None
  | Some addr => fetchstr (u32 addr)
  end.

(** *** sysproc.c *)

Definition sys_fork : K Z := fork kend kdata trapret forkret.
Definition sys_exit : K Z := exit kend;;; ret 0.
Definition sys_wait : K Z := wait kend.

Definition sys_kill : K Z :=
  let! r := argint 0 in
  match r with None => ret (-1) | Some pid => kill pid end.

Definition sys_getpid : K Z := let! p := curproc in ret (p_pid p).

Definition sys_sbrk : K Z :=
  let! r := argint 0 in
  match r with
  | None => ret (-1)
  | Some n =>
    let! p := curproc in
    let! g := growproc kend n in
    if g <? 0 then ret (-1) else ret (i32 (p_sz p))
  end.

(** [sys_sleep], up to its first [sleep]: [ticks] does not advance while the
    caller runs, so the loop ends at once or sleeps. *)
Definition sys_sleep : K Z :=
  let! r := argint 0 in
  match r with
  | None => ret (-1)
  | Some n =>
    let! ticks := gets k_ticks in
    if u32 (ticks - ticks) <? u32 n then
      let! p := curproc in
      if p_killed p then ret (-1) else fail Block
    else ret 0
  end.

Definition sys_uptime : K Z := let! t := gets k_ticks in ret (i32 t).

End syscall_c.
