(* ===== verification/Sysfile.v ===== *)
(** The file system calls (sysfile.c).

    [create] and [isdirempty] act on the file system alone; the calls fetch
    their arguments, open a transaction and close it again on every path.
    [mycwd] is [myproc()->cwd]: a process that makes a system call has one. *)

From S2P Require Import Prelude Params KString Bio Log Blocks Fs Kalloc Vm Pipe Kernel Sched File Proc.
From S2P Require Import Syscall.


(** The strings "." and "..". *)
Definition dot : list Z := [46; 0].
Definition dotdot : list Z := [46; 46; 0].

Section fs_part.
Context {St : Type} `{!Blocks St, !Devsw St}.

Definition isdirempty (dp : nat) : M (fs St) bool :=
  let! i := gets (inodeat dp) in
  let! r := for_find (dirents (i_size i) - 2) (fun k =>
    let! (r, de) := readi dp (sizeof_dirent * Z.of_nat (k + 2)) sizeof_dirent in
    panic_if (negb (r =? sizeof_dirent)) "isdirempty: readi";;;
    ret (if de_inum de =? 0 then None else Some tt)) in
  ret (bool_decide (r = None)).

(** A local [char name[DIRSIZ]], not initialised: [nameiparent] has stored
    the last path element in it when it returns an inode. *)
Definition name_buf : list Z := replicate DIRSIZ 0.

Definition create (cwd : nat) (path : list Z) (type major minor : Z) : M (fs St) (option nat) :=
  let! (r, name) := nameiparent cwd path name_buf in
  match r with
  | None => ret None
  | Some dp =>
    ilock dp;;;
    let! r := dirlookup dp name in
    match r with
    | Some (ip, _) =>
      iunlockput dp;;;
      ilock ip;;;
      let! i := gets (inodeat ip) in
      if (type =? T_FILE) && (i_type i =? T_FILE) then ret (Some ip)
      else iunlockput ip;;; ret None
    | None =>
      let! d := gets (inodeat dp) in
      let! ip := ialloc (i_dev d) type in
      ilock ip;;;
      iupd ip (set_i_dev (i16 major) (i16 minor));;;
      iupd ip (set_i_nlink 1);;;
      iupdate ip;;;
      (if type =? T_DIR then
         iupd dp (fun x => set_i_nlink (i16 (i_nlink x + 1)) x);;;
         iupdate dp;;;
         let! i := gets (inodeat ip) in
         let! r := dirlink ip dot (i_inum i) in
         let! r2 := (if r <? 0 then ret (-1)
                     else let! d := gets (inodeat dp) in dirlink ip dotdot (i_inum d)) in
         panic_if (r2 <? 0) "create dots"
       else ret tt);;;
      let! i := gets (inodeat ip) in
      let! r := dirlink dp name (i_inum i) in
      panic_if (r <? 0) "create: dirlink";;;
      iunlockput dp;;;
      ret (Some ip)
    end
  end.

End fs_part.

Section sysfile_c.
Context (kend kdata trapret forkret : Z) `{!Devsw lstate}.

(** Returns the descriptor and the file. *)
Definition argfd (n : Z) : K (option (nat * nat)) :=
  let! r := argint n in
  match r with
  | None => ret None
  | Some fd =>
    if (fd <? 0) || (Z.of_nat NOFILE <=? fd) then ret None
    else
      let! p := curproc in
      ret ((Z.to_nat fd,.) <$> p_ofile p !!! Z.to_nat fd)
  end.

Definition fdalloc (f : nat) : K (option nat) :=
  let! me := myproc in
  for_find NOFILE (fun fd =>
    let! p := gets (procat me) in
    match p_ofile p !!! fd with
    | None =>
      pupd me (fun x => set_p_ofile (<[fd := Some f]> (p_ofile x)) x);;;
      ret (Some fd)
    | Some _ => ret None
    end).

Definition sys_dup : K Z :=
  let! r := argfd 0 in
  match r with
  | None => ret (-1)
  | Some (_, f) =>
    let! r := fdalloc f in
    match r with
    | None => ret (-1)
    | Some fd => filedup f;;; ret (Z.of_nat fd)
    end
  end.

(** The arguments of [read] and [write]: file, buffer, count. *)
Definition argrw : K (option (nat * Z * Z)) :=
  let! r := argfd 0 in
  match r with
  | None => ret None
  | Some (_, f) =>
    let! r := argint 2 in
    match r with
    | None => ret None
    | Some n =>
      let! r := argptr 1 n in
      ret ((fun p => (f, p, n)) <$> r)
    end
  end.

Definition sys_read : K Z :=
  let! r := argrw in
  match r with None => ret (-1) | Some (f, p, n) => fileread f p n end.

Definition sys_write : K Z :=
  let! r := argrw in
  match r with None => ret (-1) | Some (f, p, n) => filewrite f p n end.

Definition sys_close : K Z :=
  let! r := argfd 0 in
  match r with
  | None => ret (-1)
  | Some (fd, f) =>
    let! me := myproc in
    pupd me (fun x => set_p_ofile (<[fd := None]> (p_ofile x)) x);;;
    fileclose kend f;;;
    ret 0
  end.

(** [struct stat] as it lies in memory: type and nlink are shorts, padded. *)
Definition stat_size := 20.
Definition stat_fields (st : stat) : list (Z * list Z) :=
  [ (0, le_bytes 2 (u16 (st_type st))); (4, le_bytes 4 (u32 (st_dev st)));
    (8, le_bytes 4 (st_ino st)); (12, le_bytes 2 (u16 (st_nlink st)));
    (16, le_bytes 4 (st_size st)) ].

Fixpoint store_fields (pgdir addr : Z) (l : list (Z * list Z)) : M kmem unit :=
  match l with
  | [] => ret tt
  | (o, b) :: l => ustore_bytes pgdir (addr + o) b;;; store_fields pgdir addr l
  end.

Definition sys_fstat : K Z :=
  let! r := argfd 0 in
  match r with
  | None => ret (-1)
  | Some (_, f) =>
    let! r := argptr 1 stat_size in
    match r with
    | None => ret (-1)
    | Some st =>
      let! r := filestat f in
      match r with
      | None => ret (-1)
      | Some x =>
        let! pgdir := upgdir in
        on_mem (store_fields pgdir st (stat_fields x));;;
        ret 0
      end
    end
  end.

Definition mycwd : K nat := let! p := curproc in of_option (p_cwd p).
Definition ino (ip : nat) : K inode := gets (fun k => inodeat ip (k_fs k)).

(** [bad:] of [sys_link]. *)
Definition sys_link_bad (ip : nat) : K Z :=
  on_fs (ilock ip);;;
  on_fs (iupd ip (fun x => set_i_nlink (i16 (i_nlink x - 1)) x));;;
  on_fs (iupdate ip);;;
  on_fs (iunlockput ip);;;
  on_log end_op;;;
  ret (-1).

Definition sys_link : K Z :=
  let! r := argstr 0 in
  match r with
  | None => ret (-1)
  | Some old =>
    let! r := argstr 1 in
    match r with
    | None => ret (-1)
    | Some new =>
      on_log begin_op;;;
      let! cwd := mycwd in
      let! r := on_fs (namei cwd old) in
      match r with
      | None => on_log end_op;;; ret (-1)
      | Some ip =>
        on_fs (ilock ip);;;
        let! i := ino ip in
        if i_type i =? T_DIR then on_fs (iunlockput ip);;; on_log end_op;;; ret (-1)
        else
          on_fs (iupd ip (fun x => set_i_nlink (i16 (i_nlink x + 1)) x));;;
          on_fs (iupdate ip);;;
          on_fs (iunlock ip);;;
          let! (r, name) := on_fs (nameiparent cwd new name_buf) in
          match r with
          | None => sys_link_bad ip
          | Some dp =>
            on_fs (ilock dp);;;
            let! d := ino dp in
            let! i := ino ip in
            let! r := (if negb (i_dev d =? i_dev i) then ret (-1)
                       else on_fs (dirlink dp name (i_inum i))) in
            if r <? 0 then on_fs (iunlockput dp);;; sys_link_bad ip
            else
              on_fs (iunlockput dp);;;
              on_fs (iput ip);;;
              on_log end_op;;;
              ret 0
          end
      end
    end
  end.

Definition sys_unlink_bad (dp : nat) : K Z :=
  on_fs (iunlockput dp);;; on_log end_op;;; ret (-1).

Definition sys_unlink : K Z :=
  let! r := argstr 0 in
  match r with
  | None => ret (-1)
  | Some path =>
    on_log begin_op;;;
    let! cwd := mycwd in
    let! (r, name) := on_fs (nameiparent cwd path name_buf) in
    match r with
    | None => on_log end_op;;; ret (-1)
    | Some dp =>
      on_fs (ilock dp);;;
      let! c1 := of_option (namecmp name dot) in
      let! c2 := of_option (namecmp name dotdot) in
      if (c1 =? 0) || (c2 =? 0) then sys_unlink_bad dp
      else
        let! r := on_fs (dirlookup dp name) in
        match r with
        | None => sys_unlink_bad dp
        | Some (ip, off) =>
          on_fs (ilock ip);;;
          let! i := ino ip in
          panic_if (i_nlink i <? 1) "unlink: nlink < 1";;;
          let! empty := (if i_type i =? T_DIR then on_fs (isdirempty ip) else ret true) in
          if negb empty then on_fs (iunlockput ip);;; sys_unlink_bad dp
          else
            let! r := on_fs (writei dp (replicate (Z.to_nat sizeof_dirent) 0) off sizeof_dirent) in
            panic_if (negb (r =? sizeof_dirent)) "unlink: writei";;;
            (if i_type i =? T_DIR then
               on_fs (iupd dp (fun x => set_i_nlink (i16 (i_nlink x - 1)) x));;;
               on_fs (iupdate dp)
             else ret tt);;;
            on_fs (iunlockput dp);;;
            on_fs (iupd ip (fun x => set_i_nlink (i16 (i_nlink x - 1)) x));;;
            on_fs (iupdate ip);;;
            on_fs (iunlockput ip);;;
            on_log end_op;;;
            ret 0
        end
    end
  end.

(** The inode [sys_open] opens, locked; [None] after [end_op]. *)
Definition open_inode (path : list Z) (omode : Z) : K (option nat) :=
  let! cwd := mycwd in
  if negb (Z.land omode O_CREATE =? 0) then
    let! r := on_fs (create cwd path T_FILE 0 0) in
    match r with
    | None => on_log end_op;;; ret None
    | Some ip => ret (Some ip)
    end
  else
    let! r := on_fs (namei cwd path) in
    match r with
    | None => on_log end_op;;; ret None
    | Some ip =>
      on_fs (ilock ip);;;
      let! i := ino ip in
      if (i_type i =? T_DIR) && negb (omode =? O_RDONLY) then
        on_fs (iunlockput ip);;; on_log end_op;;; ret None
      else ret (Some ip)
    end.

Definition open_fail (f : option nat) (ip : nat) : K Z :=
  match f with Some f => fileclose kend f | None => ret tt end;;;
  on_fs (iunlockput ip);;; on_log end_op;;; ret (-1).

Definition sys_open : K Z :=
  let! r := argstr 0 in
  match r with
  | None => ret (-1)
  | Some path =>
    let! r := argint 1 in
    match r with
    | None => ret (-1)
    | Some omode =>
      on_log begin_op;;;
      let! r := open_inode path omode in
      match r with
      | None => ret (-1)
      | Some ip =>
        let! r := filealloc in
        match r with
        | None => open_fail None ip
        | Some f =>
          let! r := fdalloc f in
          match r with
          | None => open_fail (Some f) ip
          | Some fd =>
            on_fs (iunlock ip);;;
            on_log end_op;;;
            fupd f (set_f_inode (Z.land omode O_WRONLY =? 0)
                      (negb (Z.land omode O_WRONLY =? 0) || negb (Z.land omode O_RDWR =? 0)) ip);;;
            ret (Z.of_nat fd)
          end
        end
      end
    end
  end.

Definition make_end (r : option nat) : K Z :=
  match r with
  | None => on_log end_op;;; ret (-1)
  | Some ip => on_fs (iunlockput ip);;; on_log end_op;;; ret 0
  end.

Definition sys_mkdir : K Z :=
  on_log begin_op;;;
  let! r := argstr 0 in
  match r with
  | None => make_end None
  | Some path =>
    let! cwd := mycwd in
    let! r := on_fs (create cwd path T_DIR 0 0) in
    make_end r
  end.

Definition sys_mknod : K Z :=
  on_log begin_op;;;
  let! r := argstr 0 in
  match r with
  | None => make_end None
  | Some path =>
    let! r := argint 1 in
    match r with
    | None => make_end None
    | Some major =>
      let! r := argint 2 in
      match r with
      | None => make_end None
      | Some minor =>
        let! cwd := mycwd in
        let! r := on_fs (create cwd path T_DEV major minor) in
        make_end r
      end
    end
  end.

Definition sys_chdir : K Z :=
  on_log begin_op;;;
  let! r := argstr 0 in
  match r with
  | None => on_log end_op;;; ret (-1)
  | Some path =>
    let! cwd := mycwd in
    let! r := on_fs (namei cwd path) in
    match r with
    | None => on_log end_op;;; ret (-1)
    | Some ip =>
      on_fs (ilock ip);;;
      let! i := ino ip in
      if negb (i_type i =? T_DIR) then on_fs (iunlockput ip);;; on_log end_op;;; ret (-1)
      else
        on_fs (iunlock ip);;;
        on_fs (iput cwd);;;
        on_log end_op;;;
        let! me := myproc in
        pupd me (set_p_cwd (Some ip));;;
        ret 0
    end
  end.

Definition sys_pipe_fail (fd0 : option nat) (rf wf : nat) : K Z :=
  match fd0 with
  | Some fd => let! me := myproc in pupd me (fun x => set_p_ofile (<[fd := None]> (p_ofile x)) x)
  | None => ret tt
  end;;;
  fileclose kend rf;;;
  fileclose kend wf;;;
  ret (-1).

Definition sys_pipe : K Z :=
  let! r := argptr 0 8 in
  match r with
  | None => ret (-1)
  | Some fd =>
    let! r := pipealloc kend in
    match r with
    | None => ret (-1)
    | Some (rf, wf) =>
      let! fd0 := fdalloc rf in
      match fd0 with
      | None => sys_pipe_fail None rf wf
      | Some a =>
        let! fd1 := fdalloc wf in
        match fd1 with
        | None => sys_pipe_fail (Some a) rf wf
        | Some b =>
          let! pgdir := upgdir in
          on_mem (ustore_bytes pgdir fd (le_bytes 4 (Z.of_nat a)));;;
          on_mem (ustore_bytes pgdir (fd + 4) (le_bytes 4 (Z.of_nat b)));;;
          ret 0
        end
      end
    end
  end.

End sysfile_c.
