(* ===== verification/Exec.v ===== *)
(** Program loading (exec.c, elf.h; vm.c: loaduvm).

    The arguments of [exec] are the bytes of the path and of each argument,
    NUL included. [copyout] copies from the old address space (the argument
    strings) or from the kernel stack ([ustack]) into the new one. *)

From S2P Require Import Prelude Params KString Bio Log Blocks Fs Kalloc Vm Pipe Kernel Sched File Proc.
From S2P Require Import Syscall.

Definition ELF_PROG_LOAD := 1.

(** The fields [exec] uses of [struct elfhdr] and [struct proghdr]. *)
Record elfhdr := Elfhdr { elf_magic : Z; elf_entry : Z; elf_phoff : Z; elf_phnum : Z }.
Definition sizeof_elfhdr := 52.
Definition ld_elfhdr (d : list Z) : elfhdr :=
  Elfhdr (ldle 4 d 0) (ldle 4 d 24) (ldle 4 d 28) (ldle 2 d 44).

Record proghdr := Proghdr {
  ph_type : Z; ph_off : Z; ph_vaddr : Z; ph_filesz : Z; ph_memsz : Z }.
Definition sizeof_proghdr := 32.
Definition ld_proghdr (d : list Z) : proghdr :=
  Proghdr (ldle 4 d 0) (ldle 4 d 4) (ldle 4 d 8) (ldle 4 d 16) (ldle 4 d 20).

(** [for(last=s=path; *s; s++) if( *s == '/') last = s+1;] *)
Fixpoint last_elem (path last : list Z) : list Z :=
  match path with
  | [] => last
  | c :: rest =>
    if c =? 0 then last
    else last_elem rest (if c =? slash then rest else last)
  end.

Section exec_c.
Context (kend kdata trapret forkret : Z) `{!Devsw lstate}.

Fixpoint loaduvm_loop (fuel : nat) (pgdir addr : Z) (ip : nat) (offset sz i : Z) : K Z :=
  if i <? sz then
    match fuel with
    | O => fail NoFuel
    | S fuel =>
      let! pte := on_mem (walkpgdir pgdir (u32 (addr + i)) false) in
      panic_if (pte =? 0) "loaduvm: address should exist";;;
      let! e := on_mem (load32 pte) in
      let pa := PTE_ADDR e in
      let n := if sz - i <? PGSIZE then sz - i else PGSIZE in
      let! (r, bytes) := on_fs (readi ip (u32 (offset + i)) n) in
      on_mem (kwrite (P2V pa) bytes);;;
      if negb (r =? n) then ret (-1)
      else loaduvm_loop fuel pgdir addr ip offset sz (u32 (i + PGSIZE))
    end
  else ret 0.

Definition loaduvm (pgdir addr : Z) (ip : nat) (offset sz : Z) : K Z :=
  panic_if (negb (u32 addr mod PGSIZE =? 0)) "loaduvm: addr must be page aligned";;;
  loaduvm_loop (Z.to_nat sz) pgdir addr ip offset sz 0.

(** One program header; the result is the new [sz], [None] for [goto bad]. *)
Definition exec_segment (ip : nat) (pgdir off sz : Z) : K (option Z) :=
  let! (r, d) := on_fs (readi ip off sizeof_proghdr) in
  if negb (r =? sizeof_proghdr) then ret None
  else
    let ph := ld_proghdr d in
    if negb (ph_type ph =? ELF_PROG_LOAD) then ret (Some sz)
    else if ph_memsz ph <? ph_filesz ph then ret None
    else if u32 (ph_vaddr ph + ph_memsz ph) <? ph_vaddr ph then ret None
    else
      let! sz := on_mem (allocuvm kend pgdir sz (u32 (ph_vaddr ph + ph_memsz ph))) in
      if sz =? 0 then ret None
      else if negb (ph_vaddr ph mod PGSIZE =? 0) then ret None
      else
        let! r := loaduvm pgdir (ph_vaddr ph) ip (ph_off ph) (ph_filesz ph) in
        if r <? 0 then ret None else ret (Some sz).

Fixpoint exec_load (n : nat) (ip : nat) (pgdir off sz : Z) : K (option Z) :=
  match n with
  | O => ret (Some sz)
  | S n =>
    let! r := exec_segment ip pgdir off sz in
    match r with
    | None => ret None
    | Some sz => exec_load n ip pgdir (u32 (off + sizeof_proghdr)) sz
    end
  end.

(** Push the argument strings; the stack pointer and the pointers, in order. *)
Fixpoint exec_args (argv : list (list Z)) (argc pgdir sp : Z) (ustack : list Z)
  : K (option (Z * list Z)) :=
  match argv with
  | [] => ret (Some (sp, ustack))
  | arg :: argv =>
    if MAXARG <=? argc then ret None
    else
      let! n := of_option (strlen arg) in
      let sp := Z.land (u32 (sp - (n + 1))) (u32 (Z.lnot 3)) in
      let! r := on_mem (copyout pgdir sp (take (Z.to_nat (n + 1)) arg)) in
      if r <? 0 then ret None
      else exec_args argv (argc + 1) pgdir sp (ustack ++ [sp])
  end.

Definition words (l : list Z) : list Z := l ≫= le_bytes 4.

(** The stack image below the strings. *)
Definition exec_ustack (argc sp : Z) (ptrs : list Z) : list Z :=
  words ([0xffffffff; argc; u32 (sp - (argc + 1) * 4)] ++ ptrs ++ [0]).

(** [bad:] *)
Definition exec_bad (pgdir : Z) (ip : option nat) : K Z :=
  (if pgdir =? 0 then ret tt else on_mem (freevm kend pgdir));;;
  match ip with
  | Some ip => on_fs (iunlockput ip);;; on_log end_op
  | None => ret tt
  end;;;
  ret (-1).

(** Commit to the user image. *)
Definition exec_commit (path : list Z) (pgdir sz sp entry : Z) : K Z :=
  let! me := myproc in
  let! p := gets (procat me) in
  let! nm := of_option (safestrcpy (p_name p) (last_elem path path) 16) in
  pupd me (set_p_name nm);;;
  pupd me (set_p_mem sz pgdir);;;
  on_mem (store32 (p_tf p + tf_eip) entry);;;
  on_mem (store32 (p_tf p + tf_esp) sp);;;
  switchuvm me;;;
  on_mem (freevm kend (p_pgdir p));;;
  ret 0.

(** From the stack pages on; the inode has been released. *)
Definition exec_stack (path : list Z) (argv : list (list Z)) (pgdir sz entry : Z) : K Z :=
  let sz := PGROUNDUP sz in
  let! sz := on_mem (allocuvm kend pgdir sz (u32 (sz + 2 * PGSIZE))) in
  if sz =? 0 then exec_bad pgdir None
  else
    on_mem (clearpteu pgdir (u32 (sz - 2 * PGSIZE)));;;
    let! r := exec_args argv 0 pgdir sz [] in
    match r with
    | None => exec_bad pgdir None
    | Some (sp, ptrs) =>
      let argc := Z.of_nat (length ptrs) in
      let sp' := u32 (sp - (3 + argc + 1) * 4) in
      let! r := on_mem (copyout pgdir sp' (exec_ustack argc sp ptrs)) in
      if r <? 0 then exec_bad pgdir None
      else exec_commit path pgdir sz sp' entry
    end.

Definition exec (path : list Z) (argv : list (list Z)) : K Z :=
  on_log begin_op;;;
  let! p := curproc in
  let! cwd := of_option (p_cwd p) in
  let! r := on_fs (namei cwd path) in
  match r with
  | None => on_log end_op;;; ret (-1)
  | Some ip =>
    on_fs (ilock ip);;;
    let! (r, d) := on_fs (readi ip 0 sizeof_elfhdr) in
    if negb (r =? sizeof_elfhdr) then exec_bad 0 (Some ip)
    else
      let elf := ld_elfhdr d in
      if negb (elf_magic elf =? ELF_MAGIC) then exec_bad 0 (Some ip)
      else
        let! pgdir := on_mem (setupkvm kend kdata) in
        if pgdir =? 0 then exec_bad 0 (Some ip)
        else
          let! r := exec_load (Z.to_nat (elf_phnum elf)) ip pgdir (elf_phoff elf) 0 in
          match r with
          | None => exec_bad pgdir (Some ip)
          | Some sz =>
            on_fs (iunlockput ip);;;
            on_log end_op;;;
            exec_stack path argv pgdir sz (elf_entry elf)
          end
  end.

(** The loop of [sys_exec] over the user's [argv]. *)
Fixpoint fetch_argv (fuel : nat) (uargv : Z) : K (option (list (list Z))) :=
  match fuel with
  | O => ret None           (* i >= NELEM(argv) *)
  | S fuel =>
    let! r := fetchint uargv in
    match r with
    | None => ret None
    | Some uarg =>
      if uarg =? 0 then ret (Some [])
      else
        let! r := fetchstr (u32 uarg) in
        match r with
        | None => ret None
        | Some s =>
          let! r := fetch_argv fuel (u32 (uargv + 4)) in
          ret ((s ::.) <$> r)
        end
    end
  end.

Definition sys_exec : K Z :=
  let! r := argstr 0 in
  match r with
  | None => ret (-1)
  | Some path =>
    let! r := argint 1 in
    match r with
    | None => ret (-1)
    | Some uargv =>
      let! r := fetch_argv (Z.to_nat MAXARG) (u32 uargv) in
      match r with
      | None => ret (-1)
      | Some argv => exec path argv
      end
    end
  end.

End exec_c.
