(* ===== verification/Arp.v ===== *)
(** ARP frames and the ARP request (arpfrm.c, arp.c, nic.c).

    Where the code reads a variable it has not written, its contents are an
    argument: [ipvals] of [getip], the padding of the frame, the reply that
    [blockuntilreply] never fills in. A read or write outside an array is
    [None]. The text [parsereply] prints is its result. *)

From S2P Require Import Prelude Params KString.

(** *** Byte order and digits *)

Definition hton (v : Z) : Z := u16 (Z.lor (Z.shiftr v 8) (Z.shiftl v 8)).
Definition htons (v : Z) : Z :=
  u32 (Z.lor (hton (u16 (Z.shiftr v 16))) (Z.shiftl (hton (u16 v)) 16)).

Definition inttohex (n : Z) : Z :=
  if (0 <=? n) && (n <=? 9) then 48 + n
  else if (10 <=? n) && (n <=? 15) then 65 + (n - 10)
  else 48.

Definition hextoint (c : Z) : Z :=
  if (48 <=? c) && (c <=? 57) then c - 48
  else if (65 <=? c) && (c <=? 70) then 10 + (c - 65)
  else if (97 <=? c) && (c <=? 102) then 10 + (c - 97)
  else 0.

(** *** getip

    [char c = ip[j]]: the index is [j], the position in the current number. *)

(** A store to an array of fixed size. *)
Definition aset {A} (l : list A) (i : nat) (x : A) : option (list A) :=
  if decide (i < length l)%nat then Some (<[i := x]> l) else None.

(** The number in [arr], of which [j] bytes and the NUL have been written. *)
Definition getip_num (arr : list (option Z)) (j : nat) : option Z :=
  s ← mapM id (take (S j) arr); atoi s.

Fixpoint getip_loop (n : nat) (ip : list Z) (j k : nat) (arr : list (option Z)) (ipvals : list Z)
  : option (nat * nat * list (option Z) * list Z) :=
  match n with
  | O => Some (j, k, arr, ipvals)
  | S n =>
    c ← ip !! j;
    if c =? 46 then
      arr ← aset arr j (Some 0);
      v ← getip_num arr j;
      ipvals ← aset ipvals k v;
      getip_loop n ip 0 (S k) arr ipvals
    else
      arr ← aset arr j (Some c);
      getip_loop n ip (S j) k arr ipvals
  end.

Definition getip (ipvals : list Z) (ip : list Z) (len : nat) : option Z :=
  '(j, k, arr, ipvals) ← getip_loop len ip 0 0 (replicate 4 None) ipvals;
  arr ← aset arr j (Some 0);
  v ← getip_num arr j;
  ipvals ← aset ipvals k v;
  Some (u32 (u32 (Z.shiftl (ipvals !!! 3%nat) 24) + u32 (Z.shiftl (ipvals !!! 2%nat) 16)
             + u32 (Z.shiftl (ipvals !!! 1%nat) 8) + ipvals !!! 0%nat)).

(** *** parseip

    The state is the buffer [ipstr]; [ipvals] starts without contents. *)

Definition put_at (j : Z) (c : Z) : M (list Z) unit :=
  let! l := get in
  if (0 <=? j) && (j <? Z.of_nat (length l)) then put (<[Z.to_nat j := c]> l) else fail Undef.

(** [for (i = 0; i >= 0; i--) { ipvals[i] = ip && v; v = v << 8; }] *)
Fixpoint parseip_vals (fuel : nat) (i ip v : Z) (ipvals : list (option Z)) : M (list Z) (list (option Z)) :=
  if 0 <=? i then
    match fuel with
    | O => fail NoFuel
    | S fuel =>
      let b := if negb (ip =? 0) && negb (v =? 0) then 1 else 0 in
      parseip_vals fuel (i - 1) ip (u32 (Z.shiftl v 8)) (<[Z.to_nat i := Some b]> ipvals)
    end
  else ret ipvals.

(** [while (ipx > 0) { arr[k++] = (ipx % 10) + '0'; ipx /= 10; }]; [char arr[3]]. *)
Fixpoint parseip_digits (fuel : nat) (ipx : Z) (arr : list Z) : M (list Z) (list Z) :=
  if 0 <? ipx then
    match fuel with
    | O => fail NoFuel
    | S fuel =>
      if (3 <=? length arr)%nat then fail Undef
      else parseip_digits fuel (ipx / 10) (arr ++ [ipx mod 10 + 48])
    end
  else ret arr.

(** [for (k = k - 1; j >= 0; j--) ipstr[j++] = arr[k];] *)
Fixpoint parseip_copy (fuel : nat) (j c : Z) : M (list Z) Z :=
  if 0 <=? j then
    match fuel with
    | O => fail NoFuel
    | S fuel => put_at j c;;; parseip_copy fuel ((j + 1) - 1) c
    end
  else ret j.

Fixpoint parseip_loop (n : nat) (fuel : nat) (ipvals : list (option Z)) (j : Z) : M (list Z) Z :=
  match n with
  | O => ret j
  | S n =>
    let! ipx := of_option (ipvals !!! (4 - S n)%nat) in
    if ipx =? 0 then
      put_at j 48;;; put_at (j + 1) 58;;; parseip_loop n fuel ipvals (j + 2)
    else
      let! arr := parseip_digits fuel ipx [] in
      let! c := of_option (last arr) in
      let! j := parseip_copy fuel j c in
      put_at j 58;;; parseip_loop n fuel ipvals (j + 1)
  end.

Definition parseip (fuel : nat) (ip : Z) : M (list Z) unit :=
  let! ipvals := parseip_vals 1 0 ip 255 (replicate 4 None) in
  let! j := parseip_loop 4 fuel ipvals 0 in
  put_at (j - 1) 0.

(** *** MAC addresses *)

(** The 18 bytes [unpackmac] stores; [mac] has six bytes. *)
Definition unpackmac (mac : list Z) : list Z :=
  <[17%nat := 0]>
    (mac ≫= fun m => [inttohex (Z.shiftr (Z.land m 0xf0) 4); inttohex (Z.land m 0x0f); 58]).

(** [for (i = 0, j = 0; i < 17; i += 3)] *)
Definition packmac (macstr : list Z) : list Z :=
  (fun i => u8 (Z.shiftl (hextoint (macstr !!! (3 * i)%nat)) 4 + hextoint (macstr !!! (3 * i + 1)%nat)))
    <$> seq 0 6.

Definition BROADCASTMAC : list Z := cstring "FF:FF:FF:FF:FF:FF".

(** *** Frames *)

Record eth_head := Eth {
  e_dmac : list Z; e_smac : list Z; e_ethtype : Z; e_hwtype : Z; e_prottype : Z;
  e_hwsize : Z; e_protsize : Z; e_opercode : Z; e_arpsmac : list Z; e_sip : Z;
  e_arpdmac : list Z; e_dip : Z; e_padd : Z;
}.

(** [junk] is what the frame's memory holds before: [padd] is never set. The
    two [ipvals] are those of the two calls of [getip]. *)
Definition initframe (ipvals1 ipvals2 : list Z) (smac ipadd : list Z) (junk : eth_head) : option eth_head :=
  sip ← getip ipvals1 (cstring "192.168.1.1") 11;
  n ← strlen ipadd;
  dip ← getip ipvals2 ipadd (Z.to_nat n);
  Some (Eth (packmac BROADCASTMAC) (take 6 smac) (hton 0x0806) (hton 1) (hton 0x0800) 0x06 0x04
            (hton 1) (take 6 smac) sip (packmac BROADCASTMAC) dip (e_padd junk)).

(** The frame in memory. The struct is not packed: [sip] and [dip] are aligned
    to four bytes, so two bytes of padding precede [dip], and [sizeof] is 48. *)
Definition eth_bytes (pad : list Z) (e : eth_head) : list Z :=
  e_dmac e ++ e_smac e ++ le_bytes 2 (e_ethtype e) ++ le_bytes 2 (e_hwtype e) ++
  le_bytes 2 (e_prottype e) ++ [e_hwsize e; e_protsize e] ++ le_bytes 2 (e_opercode e) ++
  e_arpsmac e ++ le_bytes 4 (e_sip e) ++ e_arpdmac e ++ take 2 pad ++ le_bytes 4 (e_dip e) ++
  le_bytes 2 (e_padd e) ++ take 2 (drop 2 pad).
Definition sizeof_eth_head := 48.

Inductive reply := NotArp | NotIpv4 | NotReply | NotRecipient | Mac (mac : list Z).

Definition parsereply (fuel : nat) (dipbuf : list Z) (e : eth_head) : option reply :=
  if negb (e_ethtype e =? 0x0806) then Some NotArp
  else if negb (e_prottype e =? 0x0800) then Some NotIpv4
  else if negb (e_opercode e =? 2) then Some NotReply
  else
    c ← strcmp BROADCASTMAC (unpackmac (e_arpdmac e));
    if negb (c =? 0) then Some NotRecipient
    else match parseip fuel (e_dip e) dipbuf with
         | Ret _ dip =>
           c ← strcmp (cstring "255.255.255.255") dip;
           if negb (c =? 0) then Some NotRecipient
           else Some (Mac (unpackmac (e_arpsmac e)))
         | Fail _ => None
         end.

(** *** The network interface and the request *)

(** [nics[0]]: the driver is what [sendpacket] acts on. *)
Record nic := Nic { nic_macaddr : list Z; nic_sendpacket : bool; nic_recvpacket : bool }.

Definition regnicdevice (d : nic) (nics : nic) : nic := d.

Definition getnicdevice (nics : nic) : option nic :=
  if negb (nic_sendpacket nics) || negb (nic_recvpacket nics) then None else Some nics.

(** What a request did: its return value, the packet handed to the driver,
    and the bytes stored at [arpresp]. *)
Record request := Request { rq_ret : Z; rq_packet : option (list Z); rq_arpresp : list Z }.

Definition blockuntilreply : Z := 0.

Definition sendrequest (ipvals1 ipvals2 pad : list Z) (eth resp : eth_head) (nics : nic) (ipadd : list Z)
  : option request :=
  match getnicdevice nics with
  | None => Some (Request (-1) None [])
  | Some d =>
    e ← initframe ipvals1 ipvals2 (nic_macaddr d) ipadd eth;
    let pkt := take (Z.to_nat (sizeof_eth_head - 2)) (eth_bytes pad e) in
    if blockuntilreply <? 0 then Some (Request (-3) (Some pkt) [])
    else Some (Request 0 (Some pkt) (<[17%nat := 0]> (unpackmac (e_arpdmac resp))))
  end.

(** ** Conversions *)

Lemma hton_eq v : is_u16 v -> hton v = v mod 256 * 256 + v / 256.
Proof.
  intros H. unfold hton. rewrite Z.lor_comm, lor_low;
    rewrite ?Z.shiftr_div_pow2 by lia; change (2 ^ 8) with 256; dlia.
Qed.

Lemma hton_range v : is_u16 (hton v).
Proof. apply u16_range. Qed.

Lemma htons_eq v : is_u32 v ->
  htons v = hton (v mod 65536) * 65536 + hton (v / 65536).
Proof.
  intros H. unfold htons. rewrite Z.shiftr_div_pow2 by lia. change (2 ^ 16) with 65536.
  rewrite (u16_small (v / 65536)) by dlia. change (u16 v) with (v mod 65536).
  pose proof (hton_range (v mod 65536)). pose proof (hton_range (v / 65536)).
  rewrite Z.lor_comm, lor_low by (change (2 ^ 16) with 65536; dlia). change (2 ^ 16) with 65536.
  apply u32_small. dlia.
Qed.

Lemma hton_hton v : is_u16 v -> hton (hton v) = v.
Proof. intros H. rewrite (hton_eq (hton v)) by apply hton_range. rewrite hton_eq by done. dlia. Qed.

(** [htons] swaps the bytes of a word: it is its own inverse. *)
Theorem htons_involutive v : 0 <= v < 4294967296 -> htons (htons v) = v.
Proof.
  intros H. assert (is_u32 (htons v)) as Hr by apply u32_range.
  rewrite htons_eq by done. rewrite (htons_eq v) in * by done.
  pose proof (hton_range (v mod 65536)) as H1. pose proof (hton_range (v / 65536)) as H2.
  replace ((hton (v mod 65536) * 65536 + hton (v / 65536)) mod 65536) with (hton (v / 65536)) by dlia.
  replace ((hton (v mod 65536) * 65536 + hton (v / 65536)) / 65536) with (hton (v mod 65536)) by dlia.
  rewrite !hton_hton by dlia. dlia.
Qed.

(** The two hexadecimal digits of a byte. *)
Definition hexpair (m : Z) : Z :=
  u8 (Z.shiftl (hextoint (inttohex (Z.shiftr (Z.land m 0xf0) 4))) 4 + hextoint (inttohex (Z.land m 0x0f))).

Lemma hexpair_id m : is_u8 m -> hexpair m = m.
Proof.
  intros H. assert (forallb (fun m => hexpair m =? m) (seqZ 0 256) = true) as A by by vm_compute.
  apply (proj1 (forallb_forall _ _)) with (x := m) in A; [lia|].
  apply list_elem_of_In, elem_of_seqZ. dlia.
Qed.

(** a MAC address survives printing and parsing: [packmac] inverts
    [unpackmac]. *)
Theorem packmac_unpackmac mac :
  length mac = 6%nat -> Forall is_u8 mac -> packmac (unpackmac mac) = mac.
Proof.
  intros Hl Hb. destruct mac as [|a [|b [|c [|d [|e [|f [|]]]]]]]; try discriminate Hl.
  repeat (apply Forall_cons in Hb as [? Hb]).
  change (packmac _) with [hexpair a; hexpair b; hexpair c; hexpair d; hexpair e; hexpair f].
  by rewrite !hexpair_id.
Qed.

(** ** getip *)

Definition is_digit (c : Z) : bool := (48 <=? c) && (c <=? 57).

(** [arr] holds the digits [ds] so far. *)
Definition holds (arr : list (option Z)) (ds : list Z) : Prop :=
  length arr = 4%nat /\ take (length ds) arr = Some <$> ds.

Lemma holds_snoc arr ds c :
  holds arr ds -> (length ds <= 3)%nat ->
  aset arr (length ds) (Some c) = Some (<[length ds := Some c]> arr) /\
  holds (<[length ds := Some c]> arr) (ds ++ [c]).
Proof.
  intros [Hl Ht] Hd. unfold aset, holds. rewrite decide_True by lia. split; [done|].
  rewrite length_insert, length_app. split; [done|]. simpl. rewrite fmap_app. simpl.
  replace (length ds + 1)%nat with (S (length ds)) by lia.
  rewrite (take_S_r _ _ (Some c)) by (apply list_lookup_insert_eq; lia).
  by rewrite take_insert_ge, Ht by lia.
Qed.

Lemma getip_num_holds arr ds : holds arr (ds ++ [0]) -> getip_num arr (length ds) = atoi (ds ++ [0]).
Proof.
  intros [_ Ht]. unfold getip_num. rewrite length_app, Nat.add_1_r in Ht. rewrite Ht.
  by rewrite mapM_fmap_Some.
Qed.

(** The digits of the first number, from position [length pre] on. *)
Lemma getip_digits ds : forall pre arr n ip rest k ipvals,
  ip = pre ++ ds ++ rest -> Forall (fun c => is_digit c = true) ds ->
  holds arr pre -> (length pre + length ds <= 3)%nat ->
  exists arr', holds arr' (pre ++ ds) /\
    getip_loop (length ds + n) ip (length pre) k arr ipvals =
    getip_loop n ip (length pre + length ds) k arr' ipvals.
Proof.
  induction ds as [|c ds IH]; intros pre arr n ip rest k ipvals Hip Hd Ha Hlen.
  { exists arr. rewrite app_nil_r. simpl. by rewrite Nat.add_0_r. }
  apply Forall_cons in Hd as [Hc Hd]. simpl in Hlen.
  destruct (holds_snoc arr pre c Ha ltac:(lia)) as [Hset Ha'].
  destruct (IH (pre ++ [c]) (<[length pre := Some c]> arr) n ip rest k ipvals) as (arr' & Ha2 & E);
    [by rewrite <- app_assoc|done|done|rewrite length_app; simpl; lia|].
  exists arr'. rewrite <- app_assoc in Ha2. split; [done|].
  simpl. rewrite Hip at 1. rewrite lookup_app_r, Nat.sub_diag by done. simpl.
  replace (c =? 46) with false by (unfold is_digit in Hc; lia). rewrite Hset. simpl.
  rewrite length_app, Nat.add_1_r in E. rewrite E. f_equal. simpl. lia.
Qed.

(** A pass over the first number and its dot. *)
Lemma getip_pass ds rest v n k arr ipvals :
  (length ds <= 3)%nat -> Forall (fun c => is_digit c = true) ds -> length arr = 4%nat ->
  atoi (ds ++ [0]) = Some v -> (k < length ipvals)%nat ->
  exists arr', length arr' = 4%nat /\
    getip_loop (length ds + S n) (ds ++ 46 :: rest) 0 k arr ipvals =
    getip_loop n (ds ++ 46 :: rest) 0 (S k) arr' (<[k := v]> ipvals).
Proof.
  intros Hl Hd Ha Hv Hk.
  destruct (getip_digits ds [] arr (S n) (ds ++ 46 :: rest) (46 :: rest) k ipvals) as (arr1 & Ha1 & E);
    [done|done|by split|simpl; lia|].
  destruct (holds_snoc arr1 ds 0 Ha1 Hl) as [Hset Ha2].
  exists (<[length ds := Some 0]> arr1). split; [apply Ha2|]. simpl in E. rewrite E. simpl.
  rewrite lookup_app_r, Nat.sub_diag by done. simpl. rewrite Hset. simpl.
  rewrite getip_num_holds by done. rewrite Hv. simpl. unfold aset. by rewrite decide_True.
Qed.

(** what [getip] computes depends on the first number of the address
    only: for a first number of one to three digits and an address as long as
    four such numbers, the result is that number four times over, whatever
    the rest of the address says. *)
Theorem getip_reads_first_number ds rest v ipvals :
  (length ds <= 3)%nat -> length ipvals = 4%nat ->
  Forall (fun c => is_digit c = true) ds -> atoi (ds ++ [0]) = Some v ->
  getip ipvals (ds ++ 46 :: rest) (4 * length ds + 3) =
    Some (u32 (u32 (Z.shiftl v 24) + u32 (Z.shiftl v 16) + u32 (Z.shiftl v 8) + v)).
Proof.
  intros Hl Hv Hd Ha. destruct ipvals as [|v0 [|v1 [|v2 [|v3 [|]]]]]; try discriminate Hv.
  unfold getip.
  destruct (getip_pass ds rest v (3 * length ds + 2) 0 (replicate 4 None) [v0; v1; v2; v3])
    as (a1 & L1 & E1); [done|done|done|done|simpl; lia|].
  destruct (getip_pass ds rest v (2 * length ds + 1) 1 a1 [v; v1; v2; v3])
    as (a2 & L2 & E2); [done|done|done|done|simpl; lia|].
  destruct (getip_pass ds rest v (length ds) 2 a2 [v; v; v2; v3])
    as (a3 & L3 & E3); [done|done|done|done|simpl; lia|].
  destruct (getip_digits ds [] a3 0 (ds ++ 46 :: rest) (46 :: rest) 3 [v; v; v; v3])
    as (a4 & Ha4 & E4); [done|done|by split|simpl; lia|].
  replace (4 * length ds + 3)%nat with (length ds + S (3 * length ds + 2))%nat by lia. rewrite E1.
  replace (3 * length ds + 2)%nat with (length ds + S (2 * length ds + 1))%nat by lia.
  simpl (<[0%nat := v]> _). rewrite E2.
  replace (2 * length ds + 1)%nat with (length ds + S (length ds))%nat by lia.
  simpl (<[1%nat := v]> _). rewrite E3. simpl (<[2%nat := v]> _).
  rewrite Nat.add_0_r in E4. change (length (@nil Z)) with 0%nat in E4. rewrite E4.
  destruct (holds_snoc a4 ds 0 Ha4 Hl) as [Hset Ha5]. simpl. rewrite Hset. simpl.
  rewrite getip_num_holds, Ha by done. done.
Qed.

(** for the address the driver gives as its own, "192.168.1.1", [getip]
    computes 192.192.192 and a byte it has never written: it is not the
    address, whatever that byte is. *)
Theorem getip_own_address ipvals :
  length ipvals = 4%nat ->
  getip ipvals (cstring "192.168.1.1") 11 =
    Some (u32 (u32 (Z.shiftl (ipvals !!! 3%nat) 24) + 0xC0C0C0)) /\
  getip ipvals (cstring "192.168.1.1") 11 <> Some 0x0101A8C0.
Proof.
  intros Hv. destruct ipvals as [|v0 [|v1 [|v2 [|v3 [|]]]]]; try discriminate Hv.
  assert (getip [v0; v1; v2; v3] (cstring "192.168.1.1") 11 =
    Some (u32 (u32 (Z.shiftl v3 24) + 0xC0C0C0))) as E.
  { unfold getip. change (getip_loop 11 (cstring "192.168.1.1") 0 0 (replicate 4 None) [v0; v1; v2; v3])
      with (Some (3%nat, 2%nat, [Some 49; Some 57; Some 50; Some 0], [192; 192; v2; v3])).
    simpl. change (u32 (Z.shiftl (i32 _) 16)) with 12582912. change (u32 (Z.shiftl 192 8)) with 49152.
    f_equal. f_equal. lia. }
  split; [exact E|]. rewrite E. intros [= H]. rewrite Z.shiftl_mul_pow2 in H by lia.
  change (2 ^ 24) with 16777216 in H. dlia.
Qed.

(** ** parseip *)

Lemma parseip_copy_spins fuel c buf : wlp (parseip_copy fuel 0 c) (fun _ _ => False) buf.
Proof.
  revert buf. induction fuel as [|fuel IH]; intros buf; simpl; [apply wlp_fail|].
  apply wlp_bind. intros [] buf' _. apply IH.
Qed.

Lemma parseip_number fuel ipvals buf :
  ipvals !!! 0%nat = Some 1 \/ ipvals !!! 0%nat = Some 0 /\ ipvals !!! 1%nat = None ->
  wlp (parseip_loop 4 fuel ipvals 0) (fun _ _ => False) buf.
Proof.
  intros H. remember 3%nat as n eqn:En. cbn [parseip_loop]. apply wlp_bind.
  replace (4 - S n)%nat with 0%nat by lia.
  destruct H as [-> | [-> H1]]; apply wlp_ret.
  - change (1 =? 0) with false. apply wlp_bind. intros arr buf1 _. apply wlp_bind. intros c buf2 _.
    apply wlp_bind. eapply wlp_mono; [apply parseip_copy_spins|]. by intros.
  - change (0 =? 0) with true. apply wlp_bind. intros [] buf1 _. apply wlp_bind. intros [] buf2 _.
    subst n. cbn [parseip_loop]. apply wlp_bind. replace (4 - 3)%nat with 1%nat by lia. rewrite H1.
    apply wlp_fail.
Qed.


(** ** Frames *)


(** [parsereply] compares the fields in the byte order of the wire with
    host constants: it rejects every frame whose type field says ARP. *)
Theorem parsereply_rejects_arp fuel buf e :
  le_bytes 2 (e_ethtype e) = [0x08; 0x06] -> is_u16 (e_ethtype e) ->
  parsereply fuel buf e = Some NotArp.
Proof.
  intros H Hr. pose proof (le_val_bytes 2 (e_ethtype e)) as E. rewrite H in E. simpl in E.
  unfold parsereply. replace (e_ethtype e =? 2054) with false; [done|]. dlia.
Qed.

Lemma length_unpackmac mac : length mac = 6%nat -> length (unpackmac mac) = 18%nat.
Proof. intros H. do 7 (destruct mac as [|? mac]; [try discriminate H|]); [|discriminate H]. reflexivity. Qed.

(** the answer of a request does not come from the network: what is
    stored for the caller is the MAC field of a reply that nothing has filled
    in, whatever the interface, the address and the traffic; and it is always
    18 bytes, whatever the room at [arpresp]. *)
Theorem sendrequest_answer ipvals1 ipvals2 pad eth resp nics ipadd r :
  length (e_arpdmac resp) = 6%nat ->
  sendrequest ipvals1 ipvals2 pad eth resp nics ipadd = Some r -> rq_ret r = 0 ->
  rq_arpresp r = unpackmac (e_arpdmac resp) /\ length (rq_arpresp r) = 18%nat.
Proof.
  intros Hl H Hr. unfold sendrequest in H. destruct (getnicdevice nics) as [d|].
  - destruct (initframe _ _ _ _ _) as [e|]; [|done]. simpl in H. injection H as <-. simpl.
    assert (<[17%nat := 0]> (unpackmac (e_arpdmac resp)) = unpackmac (e_arpdmac resp)) as ->
      by (unfold unpackmac; by rewrite list_insert_insert_eq).
    split; [done|by rewrite length_unpackmac].
  - injection H as <-. done.
Qed.

(** ** Instances *)

Definition demo_mac : list Z := [0x52; 0x54; 0; 0x12; 0x34; 0x56].
Definition demo_frame : eth_head :=
  Eth demo_mac demo_mac (hton 0x0806) (hton 1) (hton 0x0800) 6 4 (hton 1) demo_mac 0 demo_mac 0 0.

Lemma packmac_unpackmac_witness : packmac (unpackmac demo_mac) = demo_mac.
Proof.
  apply (packmac_unpackmac demo_mac); [reflexivity|]. repeat constructor; unfold is_u8; lia.
Defined.

Lemma getip_own_address_witness : getip [0; 0; 0; 7] (cstring "192.168.1.1") 11 = Some 0x07C0C0C0.
Proof. exact (proj1 (getip_own_address [0; 0; 0; 7] eq_refl)). Defined.


Lemma parsereply_rejects_arp_witness : parsereply 100 [] demo_frame = Some NotArp.
Proof.
  apply (parsereply_rejects_arp 100 [] demo_frame); [vm_compute; reflexivity|vm_compute; split; congruence].
Defined.

Lemma sendrequest_answer_witness : exists r,
  sendrequest [0; 0; 0; 0] [0; 0; 0; 0] [0; 0; 0; 0] demo_frame demo_frame (Nic demo_mac true true)
    (cstring "10.0.2.2") = Some r /\ rq_arpresp r = unpackmac demo_mac.
Proof.
  destruct (sendrequest [0; 0; 0; 0] [0; 0; 0; 0] [0; 0; 0; 0] demo_frame demo_frame (Nic demo_mac true true)
    (cstring "10.0.2.2")) as [r|] eqn:E; [|vm_compute in E; discriminate E].
  exists r. split; [reflexivity|].
  apply (sendrequest_answer _ _ _ _ demo_frame _ _ r eq_refl E). vm_compute in E. injection E as <-. reflexivity.
Defined.
