(* ===== verification/Pci.v ===== *)
(** The PCI bus (pci.c, pci.h, pciregs.h).

    [PciConf] is the configuration mechanism of the hardware: an [outl] of an
    address to port 0xCF8 and an [inl] or [outl] of data at port 0xCFC. What
    [cprintf] prints is not modelled. *)

From S2P Require Import Prelude.

Definition PCI_ID_REG := 0x00.
Definition PCI_COMMAND_STATUS_REG := 0x04.
Definition PCI_CLASS_REG := 0x08.
Definition PCI_BHLC_REG := 0x0c.
Definition PCI_INTERRUPT_REG := 0x3c.
Definition PCI_MAPREG_START := 0x10.
Definition PCI_MAPREG_END := 0x28.
Definition MAX_DEV_PER_PCI_BUS := 32%nat.

Definition PCI_VENDOR (id : Z) : Z := Z.land (Z.shiftr id 0) 0xffff.
Definition PCI_PRODUCT (id : Z) : Z := Z.land (Z.shiftr id 16) 0xffff.
Definition PCI_CLASS (cr : Z) : Z := Z.land (Z.shiftr cr 24) 0xff.
Definition PCI_HDRTYPE (bhlcr : Z) : Z := Z.land (Z.shiftr bhlcr 16) 0xff.
Definition PCI_HDRTYPE_TYPE (bhlcr : Z) : Z := Z.land (PCI_HDRTYPE bhlcr) 0x7f.
Definition PCI_HDRTYPE_MULTIFN (bhlcr : Z) : bool := negb (Z.land (PCI_HDRTYPE bhlcr) 0x80 =? 0).
Definition PCI_INTERRUPT_PIN (icr : Z) : Z := Z.land (Z.shiftr icr 8) 0xff.
Definition PCI_INTERRUPT_LINE (icr : Z) : Z := Z.land (Z.shiftr icr 0) 0xff.
Definition PCI_DEVICE_CLASS_NETWORK_CONTROLLER := 2.
Definition PCI_COMMAND_ENABLE := Z.lor (Z.lor 0x1 0x2) 0x4.

Definition PCI_MAPREG_NUM (offset : Z) : Z := u32 (offset - PCI_MAPREG_START) / 4.
Definition PCI_MAPREG_TYPE (mr : Z) : Z := Z.land mr 0x1.
Definition PCI_MAPREG_MEM_TYPE (mr : Z) : Z := Z.land mr 0x6.
Definition PCI_MAPREG_MEM_ADDR (mr : Z) : Z := Z.land mr 0xfffffff0.
Definition PCI_MAPREG_MEM_SIZE (mr : Z) : Z :=
  Z.land (PCI_MAPREG_MEM_ADDR mr) (u32 (- PCI_MAPREG_MEM_ADDR mr)).
Definition PCI_MAPREG_IO_ADDR (mr : Z) : Z := Z.land mr 0xfffffffc.
Definition PCI_MAPREG_IO_SIZE (mr : Z) : Z :=
  Z.land (PCI_MAPREG_IO_ADDR mr) (u32 (- PCI_MAPREG_IO_ADDR mr)).

Record pcifunc := PciFunc {
  pf_busnum : Z; pf_dev : Z; pf_func : Z; pf_devid : Z; pf_devcls : Z;
  pf_regbase : list Z; pf_regsize : list Z;      (* [6] *)
  pf_irqline : Z; pf_irqpin : Z;
}.

Definition set_pf_dev (v : Z) (f : pcifunc) : pcifunc :=
  PciFunc (pf_busnum f) v (pf_func f) (pf_devid f) (pf_devcls f) (pf_regbase f) (pf_regsize f)
          (pf_irqline f) (pf_irqpin f).
Definition set_pf_func (v : Z) (f : pcifunc) : pcifunc :=
  PciFunc (pf_busnum f) (pf_dev f) v (pf_devid f) (pf_devcls f) (pf_regbase f) (pf_regsize f)
          (pf_irqline f) (pf_irqpin f).
Definition set_pf_ids (devid devcls line pin : Z) (f : pcifunc) : pcifunc :=
  PciFunc (pf_busnum f) (pf_dev f) (pf_func f) devid devcls (pf_regbase f) (pf_regsize f) line pin.
Definition set_pf_reg (n : nat) (base size : Z) (f : pcifunc) : pcifunc :=
  PciFunc (pf_busnum f) (pf_dev f) (pf_func f) (pf_devid f) (pf_devcls f)
          (<[n := base]> (pf_regbase f)) (<[n := size]> (pf_regsize f)) (pf_irqline f) (pf_irqpin f).

Definition pciconfigformaddr (busaddr devaddr funcaddr offset : Z) : Z :=
  u32 (Z.lor (Z.lor (Z.lor (Z.lor 0x80000000 (Z.shiftl busaddr 16)) (Z.shiftl devaddr 11))
                    (Z.shiftl funcaddr 8)) offset).

Class PciConf (St : Type) := {
  conf_read : Z -> M St Z;
  conf_write : Z -> Z -> M St unit;
}.

Section pci_c.
Context {St : Type} `{!PciConf St}.

Definition pciconfread (f : pcifunc) (offset : Z) : M St Z :=
  conf_read (pciconfigformaddr (pf_busnum f) (pf_dev f) (pf_func f) offset).
Definition pciconfwrite (f : pcifunc) (offset val : Z) : M St unit :=
  conf_write (pciconfigformaddr (pf_busnum f) (pf_dev f) (pf_func f) offset) val.

(** The loop over the base address registers. *)
Fixpoint pcienable_bars (fuel : nat) (bar : Z) (f : pcifunc) : M St pcifunc :=
  if bar <? PCI_MAPREG_END then
    match fuel with
    | O => fail NoFuel
    | S fuel =>
      let! oldv := pciconfread f bar in
      pciconfwrite f bar 0xffffffff;;;
      let! rv := pciconfread f bar in
      if rv =? 0 then pcienable_bars fuel (bar + 4) f
      else
        let regnum := Z.to_nat (PCI_MAPREG_NUM bar) in
        let '(barwidth, size, base) :=
          if PCI_MAPREG_TYPE rv =? 0 then
            (if PCI_MAPREG_MEM_TYPE rv =? 0x4 then 8 else 4,
             PCI_MAPREG_MEM_SIZE rv, PCI_MAPREG_MEM_ADDR oldv)
          else (4, PCI_MAPREG_IO_SIZE rv, PCI_MAPREG_IO_ADDR oldv) in
        pciconfwrite f bar oldv;;;
        pcienable_bars fuel (bar + barwidth) (set_pf_reg regnum base size f)
    end
  else ret f.

Definition pcienabledev (f : pcifunc) : M St pcifunc :=
  pciconfwrite f PCI_COMMAND_STATUS_REG PCI_COMMAND_ENABLE;;;
  let! _ := pciconfread f PCI_COMMAND_STATUS_REG in
  pcienable_bars 6 PCI_MAPREG_START f.

(** [attachpcivendbase]: the one driver; [atch] is [attache1000]. *)
Context (atch : pcifunc -> M St unit).

Definition attachpcinic (f : pcifunc) : M St unit :=
  if (PCI_VENDOR (pf_devid f) =? 0x8086) && (PCI_PRODUCT (pf_devid f) =? 0x100e)
  then atch f else ret tt.

(** The body of the loop over functions. *)
Definition pcienumfunc (f : pcifunc) : M St unit :=
  let! devid := pciconfread f PCI_ID_REG in
  if PCI_VENDOR devid =? 0xffff then ret tt
  else
    let! intr := pciconfread f PCI_INTERRUPT_REG in
    let! devcls := pciconfread f PCI_CLASS_REG in
    let pf := set_pf_ids devid devcls (PCI_INTERRUPT_LINE intr) (PCI_INTERRUPT_PIN intr) f in
    if PCI_CLASS devcls =? PCI_DEVICE_CLASS_NETWORK_CONTROLLER then attachpcinic pf else ret tt.

Definition nfuncs (bhlc : Z) : nat := if PCI_HDRTYPE_MULTIFN bhlc then 8 else 1.

(** [totdev] after the devices [dev] .. 31. *)
Fixpoint pcienum_loop (n : nat) (dev : Z) (func : pcifunc) (totdev : Z) : M St Z :=
  match n with
  | O => ret totdev
  | S n =>
    let f := set_pf_dev dev func in
    let! bhlc := pciconfread f PCI_BHLC_REG in
    if 1 <? PCI_HDRTYPE_TYPE bhlc then pcienum_loop n (dev + 1) func totdev
    else
      for_ (nfuncs bhlc) (fun i => pcienumfunc (set_pf_func (Z.of_nat i) f));;;
      pcienum_loop n (dev + 1) func (totdev + 1)
  end.

Definition pcienumbus (busnum : Z) : M St Z :=
  pcienum_loop MAX_DEV_PER_PCI_BUS 0
    (PciFunc busnum 0 0 0 0 (replicate 6 0) (replicate 6 0) 0 0) 0.

Definition pciinit : M St Z := pcienumbus 0.

End pci_c.

(** ** Configuration addresses *)

Lemma formaddr_eq bus dev func off :
  0 <= bus < 256 -> 0 <= dev < 32 -> 0 <= func < 8 -> 0 <= off < 256 ->
  pciconfigformaddr bus dev func off = 2147483648 + bus * 65536 + dev * 2048 + func * 256 + off.
Proof.
  intros Hb Hd Hf Ho. unfold pciconfigformaddr.
  replace (Z.lor 0x80000000 (Z.shiftl bus 16)) with (2147483648 + bus * 65536).
  2: { rewrite (Z.shiftl_mul_pow2 bus) by lia. change (2 ^ 16) with 65536.
       
       pose proof (lor_low 1 (bus * 65536) 31 ltac:(lia) ltac:(lia)) as E.
       change (Z.shiftl 1 31) with 2147483648 in E. change (2 ^ 31) with 2147483648 in E. lia. }
  replace (2147483648 + bus * 65536) with (Z.shiftl (32768 + bus) 16)
    by (rewrite Z.shiftl_mul_pow2 by lia; change (2 ^ 16) with 65536; lia).
  rewrite (lor_low (32768 + bus) (Z.shiftl dev 11) 16);
    rewrite ?Z.shiftl_mul_pow2 by lia; change (2 ^ 16) with 65536; change (2 ^ 11) with 2048; [|lia..].
  replace ((32768 + bus) * 65536 + dev * 2048) with (Z.shiftl ((32768 + bus) * 32 + dev) 11)
    by (rewrite Z.shiftl_mul_pow2 by lia; change (2 ^ 11) with 2048; lia).
  change (2 ^ 8) with 256. rewrite (lor_low _ (func * 256) 11) by (change (2 ^ 11) with 2048; lia).
  change (2 ^ 11) with 2048.
  replace (((32768 + bus) * 32 + dev) * 2048 + func * 256)
    with (Z.shiftl (((32768 + bus) * 32 + dev) * 8 + func) 8)
    by (rewrite Z.shiftl_mul_pow2 by lia; change (2 ^ 8) with 256; lia).
  rewrite lor_low by (change (2 ^ 8) with 256; lia). change (2 ^ 8) with 256.
  rewrite Z.shiftl_mul_pow2 by lia. change (2 ^ 11) with 2048.
  unfold u32. rewrite Z.mod_small; lia.
Qed.

(** configuration addresses are faithful: two functions or registers
    never share an address on the bus. *)
Theorem pciconfigformaddr_inj bus dev func off bus' dev' func' off' :
  0 <= bus < 256 -> 0 <= dev < 32 -> 0 <= func < 8 -> 0 <= off < 256 ->
  0 <= bus' < 256 -> 0 <= dev' < 32 -> 0 <= func' < 8 -> 0 <= off' < 256 ->
  pciconfigformaddr bus dev func off = pciconfigformaddr bus' dev' func' off' ->
  bus = bus' /\ dev = dev' /\ func = func' /\ off = off'.
Proof. intros ????????. rewrite !formaddr_eq by done. lia. Qed.

(** ** Sizing base address registers

    A device's base address registers as the PCI specification has them: the
    low bits of a register are wired, to zero below the size of the region,
    and to the type in the lowest ones; an unused register is all zeros. *)

Inductive barspec := BNone | BMem (k : Z) | BIo (k : Z).    (* regions of 2^k bytes *)

#[export] Instance barspec_inhabited : Inhabited barspec := populate BNone.

Definition bar_store (b : barspec) (v : Z) : Z :=
  match b with
  | BNone => 0
  | BMem k => v / 2 ^ k * 2 ^ k
  | BIo k => v / 2 ^ k * 2 ^ k + 1
  end.

Record bardev := BarDev { bd_bars : list barspec; bd_regs : list Z }.

Definition bar_index (a : Z) : option nat :=
  let off := a mod 256 in
  if (PCI_MAPREG_START <=? off) && (off <? PCI_MAPREG_END)
  then Some (Z.to_nat ((off - PCI_MAPREG_START) / 4)) else None.

#[export] Instance bardev_conf : PciConf bardev := {
  conf_read a := gets (fun d => match bar_index a with
                                | Some i => bd_regs d !!! i | None => 0 end);
  conf_write a v := modify (fun d => match bar_index a with
    | Some i => BarDev (bd_bars d) (<[i := bar_store (bd_bars d !!! i) v]> (bd_regs d))
    | None => d end);
}.

(** A register with a base address programmed into it. *)
Definition bar_ok (b : barspec) (reg : Z) : Prop :=
  match b with
  | BNone => reg = 0
  | BMem k => 4 <= k <= 31 /\ is_u32 reg /\ reg mod 2 ^ k = 0
  | BIo k => 2 <= k <= 31 /\ is_u32 reg /\ reg mod 2 ^ k = 1
  end.

Definition bar_base (b : barspec) (reg : Z) : Z := match b with BIo _ => reg - 1 | _ => reg end.
Definition bar_size (b : barspec) : Z := match b with BNone => 0 | BMem k | BIo k => 2 ^ k end.

(** What [pcienabledev] should record for the registers from [i] on. *)
Fixpoint bars_found (i : nat) (bars : list barspec) (regs : list Z) (f : pcifunc) : pcifunc :=
  match bars, regs with
  | b :: bars, r :: regs =>
    bars_found (S i) bars regs
      (match b with BNone => f | _ => set_pf_reg i (bar_base b r) (bar_size b) f end)
  | _, _ => f
  end.

Lemma mem_size k : 4 <= k <= 31 ->
  let rv := bar_store (BMem k) 0xffffffff in
  rv <> 0 /\ PCI_MAPREG_TYPE rv = 0 /\ PCI_MAPREG_MEM_TYPE rv = 0 /\ PCI_MAPREG_MEM_SIZE rv = 2 ^ k.
Proof.
  intros H. assert (forallb (fun k => let rv := bar_store (BMem k) 0xffffffff in
    negb (rv =? 0) && (PCI_MAPREG_TYPE rv =? 0) && (PCI_MAPREG_MEM_TYPE rv =? 0)
    && (PCI_MAPREG_MEM_SIZE rv =? 2 ^ k)) (seqZ 4 28) = true) as A by by vm_compute.
  apply (proj1 (forallb_forall _ _)) with (x := k) in A; [cbv zeta in *; lia|].
  apply list_elem_of_In, elem_of_seqZ. lia.
Qed.

Lemma io_size k : 2 <= k <= 31 ->
  let rv := bar_store (BIo k) 0xffffffff in
  rv <> 0 /\ PCI_MAPREG_TYPE rv = 1 /\ PCI_MAPREG_IO_SIZE rv = 2 ^ k.
Proof.
  intros H. assert (forallb (fun k => let rv := bar_store (BIo k) 0xffffffff in
    negb (rv =? 0) && (PCI_MAPREG_TYPE rv =? 1) && (PCI_MAPREG_IO_SIZE rv =? 2 ^ k)) (seqZ 2 30) = true)
    as A by by vm_compute.
  apply (proj1 (forallb_forall _ _)) with (x := k) in A; [cbv zeta in *; lia|].
  apply list_elem_of_In, elem_of_seqZ. lia.
Qed.

Lemma land_high a j : is_u32 a -> 0 <= j <= 32 ->
  Z.land a (Z.shiftl (Z.ones (32 - j)) j) = a - a mod 2 ^ j.
Proof.
  intros Ha Hj. assert (Z.shiftl (Z.shiftr a j) j = a - a mod 2 ^ j) as <-.
  { rewrite Z.shiftl_mul_pow2, Z.shiftr_div_pow2 by lia.
    pose proof (Z.div_mod a (2 ^ j) ltac:(pose proof (Z.pow_pos_nonneg 2 j); lia)). lia. }
  apply Z.bits_inj'. intros n Hn. rewrite Z.land_spec, !Z.shiftl_spec by lia.
  destruct (decide (n < j)).
  - rewrite !(Z.testbit_neg_r _ (n - j)) by lia. apply andb_false_r.
  - rewrite Z.shiftr_spec by lia. replace (n - j + j) with n by lia.
    destruct (decide (n < 32)).
    + rewrite Z.ones_spec_low by lia. apply andb_true_r.
    + rewrite Z.ones_spec_high by lia. rewrite andb_false_r. symmetry.
      destruct (decide (a = 0)) as [->|]; [apply Z.bits_0|].
      apply Z.bits_above_log2; [dlia|]. apply Z.log2_lt_pow2; [dlia|].
      pose proof (Z.pow_le_mono_r 2 32 n). dlia.
Qed.

Lemma mod_pow_le a j k : 0 <= j <= k -> (a mod 2 ^ k) mod 2 ^ j = a mod 2 ^ j.
Proof.
  intros H. replace k with (j + (k - j)) by lia. rewrite Z.pow_add_r by lia.
  pose proof (Z.pow_pos_nonneg 2 j). pose proof (Z.pow_pos_nonneg 2 (k - j)).
  rewrite Z.rem_mul_r by lia. rewrite Z.mul_comm, Z_mod_plus_full. apply Z.mod_mod. lia.
Qed.

Lemma mem_base k reg : bar_ok (BMem k) reg -> PCI_MAPREG_MEM_ADDR reg = reg.
Proof.
  intros (Hk & Hr & Hm). unfold PCI_MAPREG_MEM_ADDR.
  change 0xfffffff0 with (Z.shiftl (Z.ones (32 - 4)) 4). rewrite land_high by (done || lia).
  rewrite <- (mod_pow_le reg 4 k), Hm by lia. rewrite Z.mod_0_l; lia.
Qed.

Lemma io_base k reg : bar_ok (BIo k) reg -> PCI_MAPREG_IO_ADDR reg = reg - 1.
Proof.
  intros (Hk & Hr & Hm). unfold PCI_MAPREG_IO_ADDR.
  change 0xfffffffc with (Z.shiftl (Z.ones (32 - 2)) 2). rewrite land_high by (done || lia).
  rewrite <- (mod_pow_le reg 2 k), Hm by lia. rewrite Z.mod_small; lia.
Qed.

Lemma bar_restore b reg : bar_ok b reg -> bar_store b reg = reg.
Proof.
  destruct b as [|k|k]; simpl; [done| |]; intros (Hk & Hr & Hm);
    pose proof (Z.pow_pos_nonneg 2 k); pose proof (Z.div_mod reg (2 ^ k)); lia.
Qed.

Definition func_ok (f : pcifunc) : Prop :=
  0 <= pf_busnum f < 256 /\ 0 <= pf_dev f < 32 /\ 0 <= pf_func f < 8.

Lemma bar_index_at f (i : nat) : func_ok f -> (i < 6)%nat ->
  bar_index (pciconfigformaddr (pf_busnum f) (pf_dev f) (pf_func f) (PCI_MAPREG_START + 4 * Z.of_nat i)) = Some i.
Proof.
  intros (Hb & Hd & Hf) Hi. unfold PCI_MAPREG_START. rewrite formaddr_eq by lia.
  unfold bar_index, PCI_MAPREG_START, PCI_MAPREG_END.
  replace ((2147483648 + pf_busnum f * 65536 + pf_dev f * 2048 + pf_func f * 256 + (16 + 4 * Z.of_nat i)) mod 256)
    with (16 + 4 * Z.of_nat i) by dlia.
  replace (_ && _) with true by lia. f_equal. dlia.
Qed.

(** One register: what is read back, found and restored. *)
Lemma pcienable_bar f bars regs (i n : nat) b reg :
  func_ok f -> (i < 6)%nat -> bars !! i = Some b -> regs !! i = Some reg -> bar_ok b reg ->
  pcienable_bars (S n) (PCI_MAPREG_START + 4 * Z.of_nat i) f (BarDev bars regs) =
  pcienable_bars n (PCI_MAPREG_START + 4 * Z.of_nat (S i))
    (match b with BNone => f | _ => set_pf_reg i (bar_base b reg) (bar_size b) f end) (BarDev bars regs).
Proof.
  intros Hf Hi Eb Er Hok. pose proof (lookup_lt_Some _ _ _ Er) as Hlt.
  cbn [pcienable_bars].
  replace (PCI_MAPREG_START + 4 * Z.of_nat i <? PCI_MAPREG_END) with true
    by (unfold PCI_MAPREG_START, PCI_MAPREG_END; lia).
  unfold pciconfread, pciconfwrite, conf_read, conf_write, bardev_conf, bind, gets, modify.
  rewrite !bar_index_at by done. cbn [bd_bars bd_regs].
  rewrite (list_lookup_total_correct _ _ _ Eb), (list_lookup_total_correct _ _ _ Er).
  rewrite list_lookup_total_insert_eq by done.
  replace (PCI_MAPREG_START + 4 * Z.of_nat i + 4) with (PCI_MAPREG_START + 4 * Z.of_nat (S i)) by lia.
  assert (Z.to_nat (PCI_MAPREG_NUM (PCI_MAPREG_START + 4 * Z.of_nat i)) = i) as En.
  { unfold PCI_MAPREG_NUM, PCI_MAPREG_START. dlia. }
  destruct b as [|k|k].
  - simpl in Hok. subst reg. change (bar_store BNone _) with 0. rewrite (list_insert_id regs i 0 Er). done.
  - destruct (mem_size k (proj1 Hok)) as (H0 & Ht & Hmt & Hs).
    apply Z.eqb_neq in H0. rewrite H0, Ht, Hmt, Hs, En, (mem_base k reg Hok).
    change (0 =? 0) with true. change (0 =? 4) with false. cbn iota beta. cbn [bd_bars bd_regs].
    rewrite (list_lookup_total_correct _ _ _ Eb), list_insert_insert_eq, (bar_restore _ reg Hok).
    rewrite (list_insert_id regs i reg Er).
    by replace (PCI_MAPREG_START + 4 * Z.of_nat i + 4) with (PCI_MAPREG_START + 4 * Z.of_nat (S i)) by lia.
  - destruct (io_size k (proj1 Hok)) as (H0 & Ht & Hs).
    apply Z.eqb_neq in H0. rewrite H0, Ht, Hs, En, (io_base k reg Hok).
    change (1 =? 0) with false. cbn iota beta. cbn [bd_bars bd_regs].
    rewrite (list_lookup_total_correct _ _ _ Eb), list_insert_insert_eq, (bar_restore _ reg Hok).
    rewrite (list_insert_id regs i reg Er).
    by replace (PCI_MAPREG_START + 4 * Z.of_nat i + 4) with (PCI_MAPREG_START + 4 * Z.of_nat (S i)) by lia.
Qed.

Lemma func_ok_set f i base size : func_ok f -> func_ok (set_pf_reg i base size f).
Proof. done. Qed.

Lemma pcienable_all bars regs n : forall i f,
  (i + n = 6)%nat -> func_ok f -> length bars = 6%nat -> Forall2 bar_ok bars regs ->
  pcienable_bars n (PCI_MAPREG_START + 4 * Z.of_nat i) f (BarDev bars regs) =
  Ret (bars_found i (drop i bars) (drop i regs) f) (BarDev bars regs).
Proof.
  induction n as [|n IH]; intros i f Hi Hf Hl Hok.
  - replace i with 6%nat by lia. rewrite (drop_ge bars) by lia. done.
  - destruct (lookup_lt_is_Some_2 bars i ltac:(lia)) as [b Eb].
    destruct (Forall2_lookup_l _ _ _ _ _ Hok Eb) as (reg & Er & Hb).
    rewrite (pcienable_bar f bars regs i n b reg) by (done || lia).
    rewrite (drop_S bars b i Eb), (drop_S regs reg i Er). cbn [bars_found].
    rewrite IH; [done|lia| |done|done]. by destruct b.
Qed.

(** C38: [pcienabledev] finds the regions of a device: for every assignment of
    memory, I/O and unused regions of power-of-two sizes to the six base
    address registers, it records the base and the size of each region and
    leaves the registers as they were programmed. *)
Theorem pcienabledev_finds_regions f bars regs :
  func_ok f -> length bars = 6%nat -> Forall2 bar_ok bars regs ->
  pcienabledev f (BarDev bars regs) = Ret (bars_found 0 bars regs f) (BarDev bars regs).
Proof.
  intros Hf Hl Hok. unfold pcienabledev, PCI_COMMAND_STATUS_REG.
  assert (bar_index (pciconfigformaddr (pf_busnum f) (pf_dev f) (pf_func f) 4) = None) as E.
  { destruct Hf as (? & ? & ?). rewrite formaddr_eq by lia. unfold bar_index, PCI_MAPREG_START.
    replace (_ mod 256) with 4 by dlia. done. }
  unfold pciconfread, pciconfwrite, conf_read, conf_write, bardev_conf, bind, gets, modify. rewrite E.
  apply (pcienable_all bars regs 6 0); done.
Qed.

(** ** Instances: the regions of the e1000, 128 KB of registers and 64 ports *)

Definition demo_func : pcifunc := PciFunc 0 3 0 0x100E8086 0x020000 (replicate 6 0) (replicate 6 0) 0 0.
Definition demo_bars : list barspec := [BMem 17; BIo 6; BNone; BNone; BNone; BNone].
Definition demo_regs : list Z := [0xFEBC0000; 0xC001; 0; 0; 0; 0].

Lemma pciconfigformaddr_inj_witness :
  pciconfigformaddr 0 3 0 16 = pciconfigformaddr 0 3 0 16 /\ 3 = 3.
Proof.
  split; [reflexivity|].
  apply (pciconfigformaddr_inj 0 3 0 16 0 3 0 16); first [lia | reflexivity].
Defined.

Lemma pcienabledev_finds_regions_witness : exists f,
  pcienabledev demo_func (BarDev demo_bars demo_regs) = Ret f (BarDev demo_bars demo_regs) /\
  take 2 (pf_regbase f) = [0xFEBC0000; 0xC000] /\ take 2 (pf_regsize f) = [0x20000; 64].
Proof.
  exists (bars_found 0 demo_bars demo_regs demo_func). split.
  - apply (pcienabledev_finds_regions demo_func demo_bars demo_regs).
    + unfold func_ok. simpl. lia.
    + reflexivity.
    + repeat (apply Forall2_cons; split; [vm_compute; repeat split; congruence|]). apply Forall2_nil; exact I.
  - vm_compute. split; reflexivity.
Defined.
