(* ===== verification/E1000.v ===== *)
(** The E1000 network driver (e1000.c), and its attachment (pci.c: attache1000).

    [E1000Hw] is the device: its registers in memory, and the status byte of a
    transmit descriptor, which the device writes. The driver's structure holds
    the addresses of its descriptors and buffers; the contents of descriptors
    and buffers are typed. A null result of [kalloc], which the driver does
    not test, is [Undef] when it is used. [junk_io] and [junk_mem] are what the
    page of the structure held where [iobase] and [membase] lie. *)

From S2P Require Import Prelude Params KString Kalloc Pci Arp.

Definition E1000_RBD_SLOTS := 128%nat.
Definition E1000_TBD_SLOTS := 128%nat.
Definition E1000_CONTROL_REG := 0x00000.
Definition E1000_CONTROL_RESET_MASK := 0x04000000.
Definition E1000_CONTROL_ASDE_MASK := 0x00000020.
Definition E1000_CONTROL_SLUP_MASK := 0x00000040.
Definition E1000_RDBAL := 0x02800.
Definition E1000_RDBAH := 0x02804.
Definition E1000_RDLEN := 0x02808.
Definition E1000_RDH := 0x02810.
Definition E1000_RDT := 0x02818.
Definition E1000_TDBAL := 0x03800.
Definition E1000_TDBAH := 0x03804.
Definition E1000_TDLEN := 0x03808.
Definition E1000_TDH := 0x03810.
Definition E1000_TDT := 0x03818.
Definition E1000_RECV_RAL0 := 0x05400.
Definition E1000_RECV_RAH0 := 0x05404.
Definition E1000_TCTL := 0x000400.
Definition E1000_TCTL_EN := 0x00000002.
Definition E1000_TCTL_PSP := 0x00000008.
Definition E1000_TCTL_CT_SET (v : Z) : Z := Z.land (Z.shiftl v 4) 0x00000ff0.
Definition E1000_TCTL_COLD_SET (v : Z) : Z := Z.land (Z.shiftl v 12) 0x003ff000.
Definition E1000_TIPG := 0x00410.
Definition E1000_TIPG_IPGT_SET (v : Z) : Z := Z.land (Z.shiftl v 0) 0x000003ff.
Definition E1000_TIPG_IPGR1_SET (v : Z) : Z := Z.land (Z.shiftl v 10) 0x000ffc00.
Definition E1000_TIPG_IPGR2_SET (v : Z) : Z := Z.land (Z.shiftl v 20) 0x3ff00000.
Definition E1000_IMS := 0x000d0.
Definition E1000_IMS_ALL := Z.lor (Z.lor (Z.lor 0x08 0x40) 0x80) 0x02.
Definition E1000_RCTL := 0x00100.
Definition E1000_RCTL_VAL := Z.lor (Z.lor (Z.lor 0x02 0x8000) 0) 0x08.
Definition E1000_TDESC_CMD_EOP := 0x01.
Definition E1000_TDESC_CMD_IFCS := 0x02.
Definition E1000_TDESC_CMD_RS := 0x08.
Definition E1000_TDESC_STATUS_DONE (status : Z) : bool := negb (Z.land status 0x01 =? 0).

(** Transmit descriptors and the driver's structure. *)
Record e1000_TBD := TBD {
  tb_addr : Z; tb_len : Z; tb_cso : Z; tb_cmd : Z; tb_sts : Z; tb_css : Z; tb_spc : Z }.
Definition sizeof_TBD := 16.
Definition sizeof_packbuf := 2046.

#[export] Instance TBD_inhabited : Inhabited e1000_TBD := populate (TBD 0 0 0 0 0 0 0).

Record e1000 := E1000 {
  e_tbd : list Z; e_rbd : list Z;             (* addresses of the descriptors *)
  e_tbuf : list Z; e_rbuf : list Z;           (* addresses of the buffers *)
  e_tdesc : list e1000_TBD;                   (* contents of the transmit descriptors *)
  e_tdata : list (list Z);                    (* contents of the transmit buffers *)
  e_raddr : list Z;                           (* addr0 of the receive descriptors *)
  e_tbdhead : Z; e_tbdtail : Z; e_rbdhead : Z; e_rbdtail : Z;
  e_iobase : Z; e_membase : Z; e_irqline : Z; e_irqpin : Z; e_mac : list Z;
}.

Class E1000Hw (St : Type) := {
  reg_read : Z -> M St Z;
  reg_write : Z -> Z -> M St unit;
  tx_sts : nat -> M St Z;
}.

Section e1000_c.
Context {St : Type} `{!E1000Hw St} (kend : Z).

(** The machine the driver runs on. *)
Record est := Est { es_hw : St; es_mem : kmem; es_drv : e1000 }.

Definition on_hw {A} (m : M St A) : M est A :=
  fun s => match m (es_hw s) with Ret a h => Ret a (Est h (es_mem s) (es_drv s)) | Fail e => Fail e end.
Definition on_kmem {A} (m : M kmem A) : M est A :=
  fun s => match m (es_mem s) with Ret a k => Ret a (Est (es_hw s) k (es_drv s)) | Fail e => Fail e end.
Definition drv (f : e1000 -> e1000) : M est unit :=
  modify (fun s => Est (es_hw s) (es_mem s) (f (es_drv s))).

Definition e1000regwrite (regaddr val : Z) : M est unit := on_hw (reg_write regaddr val).
Definition e1000regread (regaddr : Z) : M est Z := on_hw (reg_read regaddr).

(** *** Sending *)

(** The contents of slot [t]: a packet descriptor and its bytes. *)
Definition set_slot (t : nat) (d : e1000_TBD) (data : list Z) (e : e1000) : e1000 :=
  E1000 (e_tbd e) (e_rbd e) (e_tbuf e) (e_rbuf e) (<[t := d]> (e_tdesc e)) (<[t := data]> (e_tdata e))
        (e_raddr e) (e_tbdhead e) (e_tbdtail e) (e_rbdhead e) (e_rbdtail e) (e_iobase e) (e_membase e)
        (e_irqline e) (e_irqpin e) (e_mac e).
Definition set_tail (v : Z) (e : e1000) : e1000 :=
  E1000 (e_tbd e) (e_rbd e) (e_tbuf e) (e_rbuf e) (e_tdesc e) (e_tdata e)
        (e_raddr e) (e_tbdhead e) v (e_rbdhead e) (e_rbdtail e) (e_iobase e) (e_membase e)
        (e_irqline e) (e_irqpin e) (e_mac e).

(** [while (!DONE(tbd[oldtail]->sts)) delay(2);] *)
Fixpoint wait_done (fuel : nat) (t : nat) : M est unit :=
  let! sts := on_hw (tx_sts t) in
  if E1000_TDESC_STATUS_DONE sts then ret tt
  else match fuel with O => fail NoFuel | S fuel => wait_done fuel t end.

Definition tx_desc (addr len : Z) : e1000_TBD :=
  TBD addr (u16 len) 0
      (Z.lor (Z.lor E1000_TDESC_CMD_RS E1000_TDESC_CMD_EOP) E1000_TDESC_CMD_IFCS) 0 0 0.

Definition sende1000 (fuel : nat) (pkt : list Z) : M est unit :=
  let! e := gets es_drv in
  let t := Z.to_nat (e_tbdtail e) in
  let! old := of_option (e_tdata e !! t) in
  let! buf := of_option (e_tbuf e !! t) in
  (* memmove into a buffer of sizeof(packbuf) bytes *)
  (if (sizeof_packbuf <? Z.of_nat (length pkt)) then fail Undef else ret tt);;;
  drv (set_slot t (tx_desc (V2P buf) (Z.of_nat (length pkt))) (list_inserts 0 pkt old));;;
  let tail := (e_tbdtail e + 1) mod Z.of_nat E1000_TBD_SLOTS in
  drv (set_tail tail);;;
  e1000regwrite E1000_TDT tail;;;
  wait_done fuel t.

Definition recve1000 (pkt : list Z) : M est unit := ret tt.

(** *** Initialisation *)

(** [for (i = 0; i < 6; i++)] over the regions; [base], [size] from register
    [i] on. The result is [iobase] and [membase]. *)
Fixpoint e1000_bars (base size : list Z) (io mm : Z) : M est (Z * Z) :=
  match base, size with
  | b :: base, s :: size =>
    if b <=? 0xffff then
      panic_if (negb (s =? 64)) "I/O space BAR size != 64";;; ret (b, mm)
    else if 0 <? b then
      panic_if (negb (s =? Z.shiftl 1 17)) "Mem space BAR size != 128KB";;; e1000_bars base size io b
    else e1000_bars base size io mm
  | _, _ => ret (io, mm)
  end.

(** [do delay(3); while (RST_BIT(e1000regread(CONTROL)));] *)
Fixpoint wait_reset (fuel : nat) : M est unit :=
  let! c := e1000regread E1000_CONTROL_REG in
  if Z.land c E1000_CONTROL_RESET_MASK =? 0 then ret tt
  else match fuel with O => fail NoFuel | S fuel => wait_reset fuel end.

(** [kalloc] where the result is used without a test. *)
Definition kalloc_used : M est Z :=
  let! p := on_kmem kalloc in
  if p =? 0 then fail Undef else ret p.

(** Two packet buffers per page: [for (i = 0; i < SLOTS; i += 2)]. *)
Fixpoint alloc_bufs (n : nat) : M est (list Z) :=
  match n with
  | O => ret []
  | S n =>
    let! p := kalloc_used in
    let! l := alloc_bufs n in
    ret (p :: p + sizeof_packbuf :: l)
  end.

Definition slots_from (p : Z) (n : nat) : list Z := (fun i => p + sizeof_TBD * Z.of_nat i) <$> seq 0 n.

(** The registers, in the order the driver writes them. *)
Definition e1000_setup (tbd0 rbd0 : Z) : M est unit :=
  e1000regwrite E1000_TDBAL (V2P tbd0);;;
  e1000regwrite E1000_TDBAH 0;;;
  e1000regwrite E1000_TDLEN (Z.shiftl (Z.of_nat E1000_TBD_SLOTS * 16) 7);;;
  e1000regwrite E1000_TDH 0;;;
  e1000regwrite E1000_TCTL (Z.lor (Z.lor (Z.lor E1000_TCTL_EN E1000_TCTL_PSP) (E1000_TCTL_CT_SET 0x0f))
                                  (E1000_TCTL_COLD_SET 0x200));;;
  e1000regwrite E1000_TDT 0;;;
  e1000regwrite E1000_TIPG (Z.lor (Z.lor (E1000_TIPG_IPGT_SET 10) (E1000_TIPG_IPGR1_SET 10))
                                  (E1000_TIPG_IPGR2_SET 10));;;
  e1000regwrite E1000_RDBAL (V2P rbd0);;;
  e1000regwrite E1000_RDBAH 0;;;
  e1000regwrite E1000_RDLEN (Z.shiftl (Z.of_nat E1000_RBD_SLOTS * 16) 7);;;
  e1000regwrite E1000_RDH 0;;;
  e1000regwrite E1000_RDT 0;;;
  e1000regwrite E1000_IMS E1000_IMS_ALL;;;
  e1000regwrite E1000_RCTL E1000_RCTL_VAL;;;
  let! _ := e1000regread E1000_IMS in
  ret tt.

(** The MAC address from the receive address registers. *)
Definition mac_of (low high : Z) : list Z := le_bytes 4 low ++ le_bytes 2 (u16 high).

Definition inite1000 (fuel : nat) (junk_io junk_mem : Z) (junk_desc : list e1000_TBD)
    (junk_data : list (list Z)) (pcif : pcifunc) : M est Z :=
  let! _ := kalloc_used in
  let! (io, mm) := e1000_bars (pf_regbase pcif) (pf_regsize pcif) junk_io junk_mem in
  panic_if (io =? 0) "Failed to find a valid I/O port base for the E1000";;;
  let! c := e1000regread E1000_CONTROL_REG in
  e1000regwrite E1000_CONTROL_REG (Z.lor c E1000_CONTROL_RESET_MASK);;;
  wait_reset fuel;;;
  let! c := e1000regread E1000_CONTROL_REG in
  e1000regwrite E1000_CONTROL_REG (Z.lor (Z.lor c E1000_CONTROL_ASDE_MASK) E1000_CONTROL_SLUP_MASK);;;
  let! low := e1000regread E1000_RECV_RAL0 in
  let! high := e1000regread E1000_RECV_RAH0 in
  let! tbd0 := kalloc_used in
  if negb (Z.land (V2P tbd0) 0xf =? 0) then
    on_kmem (kfree kend (tbd0 + sizeof_TBD * Z.of_nat E1000_TBD_SLOTS));;; ret (-1)
  else
    let! rbd0 := kalloc_used in
    if negb (Z.land (V2P rbd0) 0xf =? 0) then
      on_kmem (kfree kend (rbd0 + sizeof_TBD * Z.of_nat E1000_RBD_SLOTS));;; ret (-1)
    else
      let! rbuf := alloc_bufs (E1000_RBD_SLOTS / 2) in
      let! tbuf := alloc_bufs (E1000_TBD_SLOTS / 2) in
      drv (fun _ => E1000 (slots_from tbd0 E1000_TBD_SLOTS) (slots_from rbd0 E1000_RBD_SLOTS) tbuf rbuf
                          junk_desc junk_data (V2P <$> rbuf) 0 0 0 0 io mm
                          (pf_irqline pcif) (pf_irqpin pcif) (mac_of low high));;;
      e1000_setup tbd0 rbd0;;;
      ret 0.

(** [attache1000]: what [regnicdevice] is given. *)
Definition attache1000 (fuel : nat) (junk_io junk_mem : Z) (junk_desc : list e1000_TBD)
    (junk_data : list (list Z)) (pcif : pcifunc) : M est nic :=
  let! _ := inite1000 fuel junk_io junk_mem junk_desc junk_data pcif in
  let! e := gets es_drv in
  ret (Nic (e_mac e) true true).

End e1000_c.

(** ** The transmit ring *)

Record ring_ok (e : e1000) : Prop := {
  rg_tail : 0 <= e_tbdtail e < Z.of_nat E1000_TBD_SLOTS;
  rg_bufs : length (e_tbuf e) = E1000_TBD_SLOTS;
  rg_desc : length (e_tdesc e) = E1000_TBD_SLOTS;
  rg_data : length (e_tdata e) = E1000_TBD_SLOTS;
  rg_size : Forall (fun b => length b = Z.to_nat sizeof_packbuf) (e_tdata e);
}.

(** The device: it accepts register writes, and it reports a descriptor done
    after at most [delay] polls. *)
Class E1000Live (St : Type) `{!E1000Hw St} := {
  live_write : forall a v h, exists h', reg_write a v h = Ret tt h';
  live_delay : nat;
  live_left : nat -> St -> nat;
  live_bound : forall t h, (live_left t h <= live_delay)%nat;
  live_poll : forall t h, exists sts h', tx_sts t h = Ret sts h' /\
    (E1000_TDESC_STATUS_DONE sts = true \/ (live_left t h' < live_left t h)%nat);
}.

Section ring.
Context {St : Type} `{!E1000Hw St, !E1000Live St}.

Lemma wait_done_ends fuel t (s : est (St:=St)) :
  (live_left t (es_hw s) <= fuel)%nat ->
  wp (wait_done fuel t) (fun _ s' => es_drv s' = es_drv s) s.
Proof.
  revert s. induction fuel as [|fuel IH]; intros s Hle; simpl; unfold wp, bind, on_hw;
    destruct (live_poll t (es_hw s)) as (sts & h' & -> & Hd); cbn.
  - destruct Hd as [-> |Hd]; [done|lia].
  - destruct (E1000_TDESC_STATUS_DONE sts); [done|]. destruct Hd as [Hd|Hd]; [done|].
    apply (IH (Est h' (es_mem s) (es_drv s))). simpl. lia.
Qed.


End ring.

(** ** The packet buffers *)

(** The two buffers of each page. *)
Definition page_bufs (p : Z) : list Z := [p; p + sizeof_packbuf].

Lemma alloc_bufs_spec {St : Type} kend l : forall l' (s : est (St:=St)),
  kmem_ok kend (es_mem s) (l ++ l') ->
  wp (alloc_bufs (length l)) (fun r s' => r = l ≫= page_bufs /\ kmem_ok kend (es_mem s') l') s.
Proof.
  induction l as [|p l IH]; intros l' s Hs; simpl; [by apply wp_ret|].
  apply wp_bind. unfold kalloc_used. apply wp_bind. unfold wp at 1, on_kmem.
  pose proof (kalloc_spec _ _ _ Hs) as Hk. unfold wp in Hk.
  destruct (kalloc (es_mem s)) as [r k|]; [|done]. destruct Hk as (_ & -> & Hne & Hk).
  apply Z.eqb_neq in Hne. rewrite Hne. apply wp_ret. apply wp_bind.
  eapply wp_mono; [apply (IH l'), Hk|]. intros r s' [-> Hs']. by apply wp_ret.
Qed.

Definition apart (p q : Z) : Prop := p + sizeof_packbuf <= q \/ q + sizeof_packbuf <= p.

Lemma page_bufs_apart kend l i j a b :
  NoDup l -> Forall (is_page kend) l ->
  (l ≫= page_bufs) !! i = Some a -> (l ≫= page_bufs) !! j = Some b -> i <> j -> apart a b.
Proof.
  intros Hn Hp. assert (forall l, Forall (is_page kend) l -> forall i a, (l ≫= page_bufs) !! i = Some a ->
    exists p, l !! (i / 2)%nat = Some p /\ is_page kend p /\ a = p + sizeof_packbuf * Z.of_nat (i mod 2)) as A.
  { clear. induction l as [|p l IH]; intros Hp i a E; [done|]. apply Forall_cons in Hp as [Hp Hl].
    destruct i as [|[|i]]; simpl in E.
    - injection E as <-. exists p. split; [done|]. split; [done|]. simpl. lia.
    - injection E as <-. exists p. split; [done|]. split; [done|]. change (1 mod 2)%nat with 1%nat. lia.
    - destruct (IH Hl i a E) as (q & Eq & Hq & ->). exists q.
      replace (S (S i) / 2)%nat with (S (i / 2)) by (replace (S (S i)) with (i + 1 * 2)%nat by lia; rewrite Nat.div_add by lia; lia).
      replace (S (S i) mod 2)%nat with (i mod 2)%nat by (replace (S (S i)) with (i + 1 * 2)%nat by lia; by rewrite Nat.Div0.mod_add).
      done. }
  intros Ea Eb Hij. destruct (A l Hp i a Ea) as (p & Ep & Hpp & ->).
  destruct (A l Hp j b Eb) as (q & Eq & Hpq & ->).
  pose proof (Nat.mod_upper_bound i 2 ltac:(lia)). pose proof (Nat.mod_upper_bound j 2 ltac:(lia)).
  unfold apart, sizeof_packbuf. destruct (decide (i / 2 = j / 2)%nat) as [E|E].
  - rewrite E in Ep. rewrite Ep in Eq. injection Eq as ->.
    pose proof (Nat.div_mod_eq i 2). pose proof (Nat.div_mod_eq j 2). lia.
  - assert (p <> q) as Hne by (intros ->; apply E; by eapply NoDup_lookup).
    destruct Hpp as (Hp1 & _). destruct Hpq as (Hq1 & _). unfold PGSIZE in *.
    assert (p + 4096 <= q \/ q + 4096 <= p) by dlia. lia.
Qed.

(** the packet buffers [inite1000] lays out, two to a page, do not
    overlap: a packet of at most [sizeof(packbuf)] bytes in one slot never
    reaches another slot's buffer. *)
Theorem packet_buffers_disjoint {St : Type} kend l l' (s : est (St:=St)) :
  kmem_ok kend (es_mem s) (l ++ l') ->
  wp (alloc_bufs (length l)) (fun r s' =>
    length r = (2 * length l)%nat /\
    forall i j a b, r !! i = Some a -> r !! j = Some b -> i <> j -> apart a b) s.
Proof.
  intros Hs. eapply wp_mono; [by apply alloc_bufs_spec|]. intros r s' [-> _].
  destruct Hs as [_ Hn Hp]. apply NoDup_app in Hn as (Hn & _ & _). apply Forall_app in Hp as [Hp _].
  split; [|intros i j a b; by apply (page_bufs_apart kend l)].
  clear. induction l as [|p l IH]; [done|].
  change (S (S (length (l ≫= page_bufs))) = (2 * S (length l))%nat). rewrite IH. lia.
Qed.

(** ** The ring length registers *)

(** A device that records what is written to it, latest first, answers reads
    from that record, and sends at once. *)
#[export] Instance hwlog : E1000Hw (list (Z * Z)) := {
  reg_read a := gets (fun l => match list_find (fun x => x.1 = a) l with Some (_, x) => x.2 | None => 0 end);
  reg_write a v := modify (fun l => (a, v) :: l);
  tx_sts t := ret 1;
}.

#[export] Instance hwlog_live : E1000Live (list (Z * Z)).
Proof.
  refine {| live_delay := 0; live_left _ _ := 0%nat |}; intros; [by eexists|done|].
  eexists _, _. split; [done|by left].
Defined.

Lemma wp_regwrite a v (s : est (St:=list (Z * Z))) {A} (m : M est A) Q :
  wp m Q (Est ((a, v) :: es_hw s) (es_mem s) (es_drv s)) -> wp (e1000regwrite a v;;; m) Q s.
Proof. intros H. by apply wp_bind. Qed.

Ltac in_list := first [left; reflexivity | right; in_list].


(** ** Instances *)

Definition demo_nic : e1000 :=
  E1000 [] [] (replicate E1000_TBD_SLOTS 0x80001000) [] (replicate E1000_TBD_SLOTS (TBD 0 0 0 0 0 0 0))
        (replicate E1000_TBD_SLOTS (replicate (Z.to_nat sizeof_packbuf) 0)) [] 0 127 0 0 0 0 0 0 [].
Definition demo_est : est (St:=list (Z * Z)) := Est [] (Kmem (fun _ => 0) 0 false) demo_nic.

Lemma demo_ring_ok : ring_ok demo_nic.
Proof.
  split; try apply length_replicate.
  - vm_compute. split; congruence.
  - apply Forall_replicate, length_replicate.
Qed.


(** A free list of two pages. *)
Lemma packet_buffers_disjoint_witness : exists (s : est (St:=list (Z * Z))) r s',
  alloc_bufs 2 s = Ret r s' /\ length r = 4%nat.
Proof.
  destruct (wp_elim _ _ _ (freerange_spec (P2V 0x1000) (Kmem (fun _ => 0) 0 false) (P2V 0x1000) (P2V 0x3000)
    eq_refl ltac:(vm_compute; split; congruence) ltac:(vm_compute; split; congruence)
    ltac:(vm_compute; congruence))) as (? & k & _ & Hk).
  set (l := pages _ _) in Hk. rewrite <- (app_nil_r l) in Hk.
  destruct (wp_elim _ _ _ (packet_buffers_disjoint (P2V 0x1000) l [] (Est (St:=list (Z * Z)) [] k demo_nic) Hk))
    as (r & s' & E & Hl & _).
  exists (Est [] k demo_nic), r, s'. split; [exact E|exact Hl].
Defined.
