(* ===== verification/Trap.v ===== *)
(** System call dispatch (syscall.c, sysarp.c) and traps (trap.c).

    The device interrupt handlers and the acknowledgement of the interrupt
    controller are parameters. A call of [exit] does not come back: [syscall]
    and [trap] say whether the process is still there. *)

From S2P Require Import Prelude Params KString Bio Log Blocks Fs Kalloc Vm Pipe Kernel Sched File Proc.
From S2P Require Import Syscall Sysfile Exec Arp.

(** System call numbers. *)
Definition SYS_fork := 1.
Definition SYS_exit := 2.
Definition SYS_wait := 3.
Definition SYS_pipe := 4.
Definition SYS_read := 5.
Definition SYS_kill := 6.
Definition SYS_exec := 7.
Definition SYS_fstat := 8.
Definition SYS_chdir := 9.
Definition SYS_dup := 10.
Definition SYS_getpid := 11.
Definition SYS_sbrk := 12.
Definition SYS_sleep := 13.
Definition SYS_uptime := 14.
Definition SYS_open := 15.
Definition SYS_write := 16.
Definition SYS_mknod := 17.
Definition SYS_unlink := 18.
Definition SYS_link := 19.
Definition SYS_mkdir := 20.
Definition SYS_close := 21.
Definition SYS_arp := 22.

(** Variables of [sendrequest] and [getip] that are read before they are
    written. *)
Record arp_junk := ArpJunk { aj_ip1 : list Z; aj_ip2 : list Z; aj_pad : list Z;
                             aj_eth : eth_head; aj_resp : eth_head }.

(** How [trap] leaves the processor: back to what it interrupted, without the
    process, or in the scheduler until the process runs again. *)
Inductive trap_end := Back | Gone | Yielded.

Section trap_c.
Context (kend kdata trapret forkret : Z) `{!Devsw lstate} (nics : nic) (junk : arp_junk).

Definition sys_arp : K Z :=
  let! intrfc := argstr 0 in
  match intrfc with
  | None => ret (-1)
  | Some _ =>
    let! ipadd := argstr 1 in
    match ipadd with
    | None => ret (-1)
    | Some ipadd =>
      let! size := argint 3 in
      match size with
      | None => ret (-1)
      | Some size =>
        let! arpresp := argptr 2 size in
        match arpresp with
        | None => ret (-1)
        | Some p =>
          let! r := of_option (sendrequest (aj_ip1 junk) (aj_ip2 junk) (aj_pad junk) (aj_eth junk)
                                 (aj_resp junk) nics ipadd) in
          let! pgdir := upgdir in
          on_mem (ustore_bytes pgdir p (rq_arpresp r));;;
          ret (if rq_ret r <? 0 then -1 else 0)
        end
      end
    end
  end.

Definition syscalls : list (option (K Z)) :=
  [ None;
    Some (sys_fork kend kdata trapret forkret);
    Some (sys_exit kend);
    Some (sys_wait kend);
    Some (sys_pipe kend);
    Some sys_read;
    Some sys_kill;
    Some (sys_exec kend kdata);
    Some sys_fstat;
    Some sys_chdir;
    Some sys_dup;
    Some sys_getpid;
    Some (sys_sbrk kend);
    Some sys_sleep;
    Some sys_uptime;
    Some (sys_open kend);
    Some sys_write;
    Some sys_mknod;
    Some sys_unlink;
    Some sys_link;
    Some sys_mkdir;
    Some (sys_close kend);
    Some sys_arp ].

(** [curproc->tf->eax = v] *)
Definition set_eax (v : Z) : K unit :=
  let! p := curproc in on_mem (store32 (p_tf p + tf_eax) (u32 v)).

(** The handler [syscall] calls. *)
Definition handler (num : Z) : option (K Z) :=
  if (0 <? num) && (num <? Z.of_nat (length syscalls)) then syscalls !!! Z.to_nat num else None.

(** Whether the process is still there. *)
Definition syscall : K bool :=
  let! p := curproc in
  let! eax := on_mem (load32 (p_tf p + tf_eax)) in
  let num := i32 eax in
  match handler num with
  | Some f =>
    let! v := f in
    if num =? SYS_exit then ret false
    else set_eax v;;; ret true
  | None => set_eax (-1);;; ret true
  end.

Context (cpuid : Z) (kbdintr uartintr ideintr lapiceoi : K unit).

(** [if(myproc() && myproc()->killed && (tf->cs&3) == DPL_USER) exit();] *)
Definition exit_if_killed (cs : Z) : K bool :=
  let! c := gets k_cur in
  match c with
  | None => ret true
  | Some me =>
    let! p := gets (procat me) in
    if p_killed p && (Z.land cs 3 =? DPL_USER) then exit kend;;; ret false else ret true
  end.

Definition mykill_check : K trap_end :=
  let! p := curproc in
  if p_killed p then exit kend;;; ret Gone else ret Back.

(** The [switch] of [trap]. *)
Definition trap_switch (trapno cs : Z) : K unit :=
  if trapno =? T_IRQ0 + IRQ_TIMER then
    (if cpuid =? 0 then
       modify (fun k => set_k_ticks (u32 (k_ticks k + 1)) k);;;
       wakeup ChTicks
     else ret tt);;;
    lapiceoi
  else if trapno =? T_IRQ0 + IRQ_IDE then ideintr;;; lapiceoi
  else if trapno =? T_IRQ0 + IRQ_IDE + 1 then ret tt
  else if trapno =? T_IRQ0 + IRQ_KBD then kbdintr;;; lapiceoi
  else if trapno =? T_IRQ0 + IRQ_COM1 then uartintr;;; lapiceoi
  else if (trapno =? T_IRQ0 + 7) || (trapno =? T_IRQ0 + IRQ_SPURIOUS) then lapiceoi
  else
    let! c := gets k_cur in
    match c with
    | None => panic "trap"
    | Some me =>
      if Z.land cs 3 =? 0 then panic "trap"
      else pupd me (set_p_killed true)
    end.

Definition trap (tf : Z) : K trap_end :=
  let! trapno := on_mem (load32 (tf + tf_trapno)) in
  if trapno =? T_SYSCALL then
    let! me := myproc in
    let! p := gets (procat me) in
    if p_killed p then exit kend;;; ret Gone
    else
      pupd me (set_p_tf tf);;;
      let! there := syscall in
      if there then mykill_check else ret Gone
  else
    let! cs := on_mem (load32 (tf + tf_cs)) in
    trap_switch trapno cs;;;
    let! there := exit_if_killed cs in
    if negb there then ret Gone
    else
      let! c := gets k_cur in
      match c with
      | Some me =>
        let! p := gets (procat me) in
        if bool_decide (p_state p = RUNNING) && (trapno =? T_IRQ0 + IRQ_TIMER)
        then yield;;; ret Yielded
        else
          let! there := exit_if_killed cs in ret (if there then Back else Gone)
      | None => ret Back
      end.

(** What is left of [trap] when the process runs again after [yield]. *)
Definition trap_resume (cs : Z) : K trap_end :=
  let! there := exit_if_killed cs in ret (if there then Back else Gone).

End trap_c.
