(* ===== verification/Seg.v ===== *)
(** Segment and gate descriptors (mmu.h), and the code that fills them: seginit
    and switchuvm in vm.c, tvinit in trap.c.

    Descriptors are records of their bit fields. What the processor makes of
    them, [seg_base], [seg_limit], [software_int] and [port_io], follows the
    Intel manual: a gate must admit the privilege of the caller, the handler
    runs on the stack of the task state segment, and input and output need the
    I/O privilege level or a bit of the I/O map inside the segment. *)

From S2P Require Import Prelude Params KString Bio Log Blocks Fs Kalloc Vm Pipe Kernel Sched File Proc Trap.

Definition SEG_KCODE : Z := 1.
Definition SEG_KDATA : Z := 2.
Definition SEG_TSS : Z := 5.
Definition NSEGS : Z := 6.
Definition STA_X : Z := 0x8.
Definition STA_W : Z := 0x2.
Definition STA_R : Z := 0x2.
Definition STS_T32A : Z := 0x9.
Definition STS_IG32 : Z := 0xE.
Definition STS_TG32 : Z := 0xF.

(** A value stored in a bit field of [w] bits. *)
Definition bits (w x : Z) : Z := x mod 2 ^ w.

Record segdesc := Segdesc {
  lim_15_0 : Z; base_15_0 : Z; base_23_16 : Z; sd_type : Z; sd_s : Z; sd_dpl : Z; sd_p : Z;
  lim_19_16 : Z; sd_avl : Z; sd_rsv1 : Z; sd_db : Z; sd_g : Z; base_31_24 : Z }.

Definition SEG (type base lim dpl : Z) : segdesc :=
  Segdesc (bits 16 (Z.land (Z.shiftr lim 12) 0xffff)) (bits 16 (Z.land (u32 base) 0xffff))
    (bits 8 (Z.land (Z.shiftr (u32 base) 16) 0xff)) (bits 4 type) 1 (bits 2 dpl) 1
    (bits 4 (Z.shiftr (u32 lim) 28)) 0 0 1 1 (bits 8 (Z.shiftr (u32 base) 24)).
Definition SEG16 (type base lim dpl : Z) : segdesc :=
  Segdesc (bits 16 (Z.land lim 0xffff)) (bits 16 (Z.land (u32 base) 0xffff))
    (bits 8 (Z.land (Z.shiftr (u32 base) 16) 0xff)) (bits 4 type) 1 (bits 2 dpl) 1
    (bits 4 (Z.shiftr (u32 lim) 16)) 0 0 1 0 (bits 8 (Z.shiftr (u32 base) 24)).
Definition set_s (v : Z) (d : segdesc) : segdesc :=
  Segdesc (lim_15_0 d) (base_15_0 d) (base_23_16 d) (sd_type d) v (sd_dpl d) (sd_p d)
    (lim_19_16 d) (sd_avl d) (sd_rsv1 d) (sd_db d) (sd_g d) (base_31_24 d).

Record gatedesc := Gatedesc {
  off_15_0 : Z; gd_cs : Z; gd_args : Z; gd_rsv1 : Z; gd_type : Z; gd_s : Z; gd_dpl : Z; gd_p : Z; off_31_16 : Z }.

Definition SETGATE (istrap : bool) (sel off d : Z) : gatedesc :=
  Gatedesc (bits 16 (Z.land (u32 off) 0xffff)) (bits 16 sel) 0 0 (bits 4 (if istrap then STS_TG32 else STS_IG32)) 0
    (bits 2 d) 1 (bits 16 (Z.shiftr (u32 off) 16)).

(** The fields of [struct taskstate] the kernel uses. *)
Record taskstate := Taskstate { ts_esp0 : Z; ts_ss0 : Z; ts_iomb : Z }.
Definition sizeof_taskstate : Z := 104.

(** The part of [struct cpu] these functions set, and the processor's
    registers. [cp_ts_addr] is the address of [cpu->ts]. *)
Record cpuseg := Cpuseg { cp_gdt : gmap Z segdesc; cp_ts : taskstate; cp_ts_addr : Z; cp_tr : Z; cp_cr3 : Z }.

(** ** vm.c *)

Definition seginit (c : cpuseg) : cpuseg :=
  let gdt := cp_gdt c in
  let gdt := <[SEG_KCODE := SEG (Z.lor STA_X STA_R) 0 0xffffffff 0]> gdt in
  let gdt := <[SEG_KDATA := SEG STA_W 0 0xffffffff 0]> gdt in
  let gdt := <[SEG_UCODE := SEG (Z.lor STA_X STA_R) 0 0xffffffff DPL_USER]> gdt in
  let gdt := <[SEG_UDATA := SEG STA_W 0 0xffffffff DPL_USER]> gdt in
  Cpuseg gdt (cp_ts c) (cp_ts_addr c) (cp_tr c) (cp_cr3 c).

(** [switchuvm] behind its checks, between [pushcli] and [popcli]. *)
Definition switch_seg (p : proc) (c : cpuseg) : cpuseg :=
  let tss := set_s 0 (SEG16 STS_T32A (cp_ts_addr c) (sizeof_taskstate - 1) 0) in
  Cpuseg (<[SEG_TSS := tss]> (cp_gdt c))
    (Taskstate (u32 (p_kstack p + KSTACKSIZE)) (u16 (Z.shiftl SEG_KDATA 3)) 0xFFFF)
    (cp_ts_addr c) (Z.shiftl SEG_TSS 3) (V2P (p_pgdir p)).

(** ** trap.c *)

Definition tvinit (vectors : Z -> Z) : list gatedesc :=
  let idt := (fun i => SETGATE false (Z.shiftl SEG_KCODE 3) (vectors i) 0) <$> seqZ 0 256 in
  <[Z.to_nat T_SYSCALL := SETGATE true (Z.shiftl SEG_KCODE 3) (vectors T_SYSCALL) DPL_USER]> idt.

(** ** The processor *)

Definition seg_base (d : segdesc) : Z := base_15_0 d + 2 ^ 16 * base_23_16 d + 2 ^ 24 * base_31_24 d.
Definition seg_limit (d : segdesc) : Z :=
  let l := lim_15_0 d + 2 ^ 16 * lim_19_16 d in if sd_g d =? 1 then 4096 * l + 4095 else l.
Definition gate_offset (g : gatedesc) : Z := off_15_0 g + 2 ^ 16 * off_31_16 g.

(** A control transfer: the code, its privilege, the stack, the interrupt flag. *)
Record entered := Entered { en_eip : Z; en_cpl : Z; en_ss : Z; en_esp : Z; en_if : bool }.

(** [int n] executed at privilege [cpl]; [None] is a general protection fault. *)
Definition software_int (idt : list gatedesc) (c : cpuseg) (n cpl : Z) (esp : Z) (ifl : bool) : option entered :=
  match idt !! Z.to_nat n with
  | None => None
  | Some g =>
    match cp_gdt c !! (gd_cs g / 8) with
    | None => None
    | Some code =>
      if (gd_p g =? 1) && (cpl <=? gd_dpl g) && (sd_p code =? 1) && (sd_s code =? 1) && Z.testbit (sd_type code) 3 && (sd_dpl code <=? cpl) then
        let ifl := if gd_type g =? 0xE then false else ifl in
        if sd_dpl code <? cpl then
          match cp_gdt c !! (cp_tr c / 8) with
          | Some tss => if (seg_base tss =? cp_ts_addr c) && (103 <=? seg_limit tss)
                        then Some (Entered (gate_offset g) (sd_dpl code) (ts_ss0 (cp_ts c)) (ts_esp0 (cp_ts c)) ifl) else None
          | None => None
          end
        else Some (Entered (gate_offset g) (sd_dpl code) (ts_ss0 (cp_ts c)) esp ifl)
      else None
    end
  end.

(** [in] or [out] at port [p]: with enough I/O privilege, or when the map has a
    bit for the port. *)
Definition port_io (c : cpuseg) (cpl iopl p : Z) : bool :=
  (cpl <=? iopl) ||
  match cp_gdt c !! (cp_tr c / 8) with Some tss => ts_iomb (cp_ts c) + p / 8 <? seg_limit tss | None => false end.

(** ** Protection *)

Lemma split16 x : is_u32 x -> bits 16 (Z.land (u32 x) 0xffff) + 2 ^ 16 * bits 16 (Z.shiftr (u32 x) 16) = x.
Proof.
  intros Hx. rewrite u32_small by done. unfold bits, is_u32 in *. change 0xffff with (Z.ones 16). rewrite Z.land_ones, Z.shiftr_div_pow2 by lia.
  change (2 ^ 16) with 65536 in *. dlia.
Qed.
Lemma SEG16_base type base lim dpl : is_u32 base -> seg_base (SEG16 type base lim dpl) = base.
Proof.
  intros Hx. unfold seg_base, SEG16. cbn [base_15_0 base_23_16 base_31_24]. rewrite u32_small by done. unfold bits, is_u32 in *.
  change 0xffff with (Z.ones 16). change 0xff with (Z.ones 8). rewrite !Z.land_ones, !Z.shiftr_div_pow2 by lia.
  change (2 ^ 16) with 65536. change (2 ^ 24) with 16777216. change (2 ^ 8) with 256. dlia.
Qed.

Lemma tvinit_lookup vectors n : 0 <= n < 256 -> tvinit vectors !! Z.to_nat n =
  Some (SETGATE (n =? T_SYSCALL) (Z.shiftl SEG_KCODE 3) (vectors n) (if n =? T_SYSCALL then DPL_USER else 0)).
Proof.
  intros Hn. unfold tvinit. destruct (Z.eqb_spec n T_SYSCALL) as [->|Hne].
  - by rewrite list_lookup_insert_eq by (rewrite length_fmap, length_seqZ; unfold T_SYSCALL; lia).
  - rewrite list_lookup_insert_ne by (unfold T_SYSCALL in *; lia). rewrite list_lookup_fmap, lookup_seqZ_lt by lia. cbn [fmap option_fmap option_map].
    by replace (0 + Z.of_nat (Z.to_nat n)) with n by lia.
Qed.

(** C27: A user process gets into the kernel only where the kernel wants it. With
    the tables as tvinit, seginit and switchuvm leave them, an int instruction
    at user privilege faults for every vector but the system call's; that one
    enters the handler vectors[T_SYSCALL] at kernel privilege, on the kernel
    stack of the process, with the interrupt flag as it was; and no port can
    be read or written. *)
Theorem user_enters_by_syscall vectors c p n esp ifl : (forall i, 0 <= i < 256 -> is_u32 (vectors i)) -> is_u32 (cp_ts_addr c) -> 0 <= n < 256 ->
  let c := switch_seg p (seginit c) in
  software_int (tvinit vectors) c n DPL_USER esp ifl =
    (if n =? T_SYSCALL then Some (Entered (vectors T_SYSCALL) 0 (SEG_KDATA * 8) (u32 (p_kstack p + KSTACKSIZE)) ifl) else None) /\
  forall port, 0 <= port < 65536 -> port_io c DPL_USER 0 port = false.
Proof.
  intros Hv Ha Hn c'. assert (Hk : cp_gdt c' !! 1 = Some (SEG (Z.lor STA_X STA_R) 0 0xffffffff 0)).
  { unfold c', switch_seg, seginit. cbn [cp_gdt]. rewrite !lookup_insert_ne by done. by rewrite lookup_insert_eq. }
  assert (Ht : cp_gdt c' !! 5 = Some (set_s 0 (SEG16 STS_T32A (cp_ts_addr c) 103 0))) by (unfold c', switch_seg; cbn [cp_gdt]; by rewrite lookup_insert_eq).
  assert (Hb : seg_base (set_s 0 (SEG16 STS_T32A (cp_ts_addr c) 103 0)) = cp_ts_addr c) by (by apply SEG16_base).
  split.
  - unfold software_int. rewrite tvinit_lookup by done. change (gd_cs (SETGATE _ _ _ _) / 8) with 1. rewrite Hk.
    destruct (Z.eqb_spec n T_SYSCALL) as [->|Hne]; [|done]. cbv iota.
    change (cp_tr c' / 8) with 5. rewrite Ht, Hb. change (cp_ts_addr c') with (cp_ts_addr c). rewrite (Z.eqb_refl (cp_ts_addr c)).
    replace (gate_offset (SETGATE true (Z.shiftl SEG_KCODE 3) (vectors T_SYSCALL) DPL_USER)) with (vectors T_SYSCALL); [done|].
    symmetry. by apply split16, Hv.
  - intros port Hp. unfold port_io. change (cp_tr c' / 8) with 5. rewrite Ht. change (ts_iomb (cp_ts c')) with 0xFFFF.
    change (seg_limit (set_s 0 (SEG16 STS_T32A (cp_ts_addr c) 103 0))) with 103. change (DPL_USER <=? 0) with false. cbn [orb]. apply Z.ltb_ge. dlia.
Qed.

Definition demo_proc : proc := Proc 4096 0x80100000 0x80200000 RUNNING 1 None 0 0 NoChan false [] None [].
Definition demo_cpu : cpuseg := switch_seg demo_proc (seginit (Cpuseg ∅ (Taskstate 0 0 0) 0x80112233 0 0)).

Lemma user_enters_by_syscall_witness :
  software_int (tvinit (fun i => 0x80105000 + 16 * i)) demo_cpu 64 3 0x2fc0 true = Some (Entered 0x80105400 0 16 0x80201000 true) /\
  software_int (tvinit (fun i => 0x80105000 + 16 * i)) demo_cpu 14 3 0x2fc0 true = None /\ port_io demo_cpu 3 0 0x60 = false.
Proof.
  assert (Hv : forall i, 0 <= i < 256 -> is_u32 (0x80105000 + 16 * i)) by (unfold is_u32; lia). assert (Ha : is_u32 0x80112233) by (unfold is_u32; lia).
  pose proof (user_enters_by_syscall _ (Cpuseg ∅ (Taskstate 0 0 0) 0x80112233 0 0) demo_proc 64 0x2fc0 true Hv Ha ltac:(lia)) as [H1 H2].
  pose proof (user_enters_by_syscall _ (Cpuseg ∅ (Taskstate 0 0 0) 0x80112233 0 0) demo_proc 14 0x2fc0 true Hv Ha ltac:(lia)) as [H3 _].
  split; [exact H1|]. split; [exact H3|]. apply H2. lia.
Defined.
