(* ===== verification/SysRef.v ===== *)
(** The reference counts of open files over whole runs of the kernel: the
    invariant of RefCount.v for the system calls of sysfile.c and exec.c, for
    [trap], and so for every sequence of traps of any processes. *)

From S2P Require Import Prelude Params KString Bio Log Blocks Fs Kalloc Vm Pipe Kernel Sched File Proc.
From S2P Require Import RefCount Syscall Sysfile Exec Arp Trap.

(** The process that makes the call has not exited. *)
Definition cur_live (k : kernel) : Prop :=
  forall me, k_cur k = Some me -> (me < NPROC)%nat /\ ~ dead (procat me k).

Definition okay (e : nat -> Z) (k : kernel) : Prop := rc e k /\ cur_live k.

Lemma kept_okay e e0 k k' : kept e k k' -> okay e0 k -> okay e k'.
Proof.
  intros (Hr & [Hc _] & Hd) [_ Hl]. split; [done|]. intros me Hme. rewrite Hc in Hme.
  destruct (Hl me Hme) as [H1 H2]. split; [done|]. intros H. by apply H2, Hd.
Qed.

Lemma okay_kept e k : okay e k -> kept e k k.
Proof. intros [H _]. by apply kept_refl. Qed.

Lemma okay_ext e e' k : okay e k -> (forall f, e f = e' f) -> okay e' k.
Proof. intros [H Hl] He. split; [by eapply rc_ext|done]. Qed.

(** The debts of an operation add up. *)
Ltac debts := intros ?; unfold bump, no_debt; repeat case_decide; simplify_eq; lia.

(** *** Calls that leave the descriptors alone *)

Section pure.
Context (kend kdata : Z) `{!Devsw lstate} (nics : nic) (junk : arp_junk) (e : nat -> Z) (k0 : kernel).

#[local] Hint Resolve kept_myproc kept_upgdir kept_fileread kept_filewrite kept_filestat kept_switchuvm : kspec.

Lemma kept_curproc : pres (kept e k0) curproc.
Proof. unfold curproc. pres_auto. Qed.
#[local] Hint Resolve kept_curproc : kspec.
Lemma kept_fetchint a : pres (kept e k0) (fetchint a).
Proof. unfold fetchint. pres_auto. Qed.
#[local] Hint Resolve kept_fetchint : kspec.
Lemma kept_fetchstr_loop fuel : forall s, pres (kept e k0) (fetchstr_loop fuel s).
Proof. induction fuel as [|fuel IH]; intros s; simpl; pres_auto; apply IH. Qed.
#[local] Hint Resolve kept_fetchstr_loop : kspec.
Lemma kept_fetchstr a : pres (kept e k0) (fetchstr a).
Proof. unfold fetchstr. pres_auto. Qed.
#[local] Hint Resolve kept_fetchstr : kspec.
Lemma kept_argint n : pres (kept e k0) (argint n).
Proof. unfold argint. pres_auto. Qed.
#[local] Hint Resolve kept_argint : kspec.
Lemma kept_argptr n size : pres (kept e k0) (argptr n size).
Proof. unfold argptr. pres_auto. Qed.
Lemma kept_argstr n : pres (kept e k0) (argstr n).
Proof. unfold argstr. pres_auto. Qed.
#[local] Hint Resolve kept_argptr kept_argstr : kspec.
Lemma kept_argfd n : pres (kept e k0) (argfd n).
Proof. unfold argfd. pres_auto. Qed.
#[local] Hint Resolve kept_argfd : kspec.
Lemma kept_argrw : pres (kept e k0) argrw.
Proof. unfold argrw. pres_auto. Qed.
#[local] Hint Resolve kept_argrw : kspec.
Lemma kept_mycwd : pres (kept e k0) mycwd.
Proof. unfold mycwd. pres_auto. Qed.
Lemma kept_ino ip : pres (kept e k0) (ino ip).
Proof. unfold ino. pres_auto. Qed.
#[local] Hint Resolve kept_mycwd kept_ino : kspec.

Lemma kept_open_inode path omode : pres (kept e k0) (open_inode path omode).
Proof. unfold open_inode. pres_auto. Qed.

Lemma kept_make_end r : pres (kept e k0) (make_end r).
Proof. unfold make_end. pres_auto. Qed.
Lemma kept_sys_link_bad ip : pres (kept e k0) (sys_link_bad ip).
Proof. unfold sys_link_bad. pres_auto. Qed.
Lemma kept_sys_unlink_bad dp : pres (kept e k0) (sys_unlink_bad dp).
Proof. unfold sys_unlink_bad. pres_auto. Qed.
#[local] Hint Resolve kept_make_end kept_sys_link_bad kept_sys_unlink_bad : kspec.

Lemma kept_exec_bad pgdir ip : pres (kept e k0) (exec_bad kend pgdir ip).
Proof. unfold exec_bad. pres_auto. Qed.
Lemma kept_loaduvm_loop fuel : forall pgdir addr ip off sz i,
  pres (kept e k0) (loaduvm_loop fuel pgdir addr ip off sz i).
Proof. induction fuel as [|fuel IH]; intros; simpl; pres_auto; apply IH. Qed.
#[local] Hint Resolve kept_exec_bad kept_loaduvm_loop : kspec.
Lemma kept_loaduvm pgdir addr ip off sz : pres (kept e k0) (loaduvm pgdir addr ip off sz).
Proof. unfold loaduvm. pres_auto. Qed.
#[local] Hint Resolve kept_loaduvm : kspec.
Lemma kept_exec_segment ip pgdir off sz : pres (kept e k0) (exec_segment kend ip pgdir off sz).
Proof. unfold exec_segment. pres_auto. Qed.
#[local] Hint Resolve kept_exec_segment : kspec.
Lemma kept_exec_load n : forall ip pgdir off sz, pres (kept e k0) (exec_load kend n ip pgdir off sz).
Proof. induction n as [|n IH]; intros; simpl; pres_auto; apply IH. Qed.
Lemma kept_exec_args argv : forall argc pgdir sp us, pres (kept e k0) (exec_args argv argc pgdir sp us).
Proof. induction argv as [|a argv IH]; intros; simpl; pres_auto; apply IH. Qed.
Lemma kept_exec_commit path pgdir sz sp entry : pres (kept e k0) (exec_commit kend path pgdir sz sp entry).
Proof. unfold exec_commit. pres_auto. Qed.
#[local] Hint Resolve kept_exec_load kept_exec_args kept_exec_commit : kspec.
Lemma kept_exec_stack path argv pgdir sz entry :
  pres (kept e k0) (exec_stack kend path argv pgdir sz entry).
Proof. unfold exec_stack. pres_auto. Qed.
#[local] Hint Resolve kept_exec_stack : kspec.
Lemma kept_exec path argv : pres (kept e k0) (exec kend kdata path argv).
Proof. unfold exec. pres_auto. Qed.
Lemma kept_fetch_argv fuel : forall a, pres (kept e k0) (fetch_argv fuel a).
Proof. induction fuel as [|fuel IH]; intros; simpl; pres_auto; apply IH. Qed.
#[local] Hint Resolve kept_exec kept_fetch_argv : kspec.

(** The calls that neither open nor close, and make or end no process. *)
Definition plain_calls : list (K Z) :=
  [ sys_read; sys_exec kend kdata; sys_fstat; sys_chdir; sys_getpid; sys_sleep; sys_uptime;
    sys_write; sys_mknod; sys_unlink; sys_link; sys_mkdir; sys_arp nics junk ].

Lemma kept_plain_calls : Forall (fun m => pres (kept e k0) m) plain_calls.
Proof.
  unfold plain_calls, sys_read, sys_exec, sys_fstat, sys_chdir, sys_getpid, sys_sleep, sys_uptime,
    sys_write, sys_mknod, sys_unlink, sys_link, sys_mkdir, sys_arp.
  repeat (apply Forall_cons; split); [..|by apply Forall_nil].
  all: pres_auto.
Qed.
End pure.

(** *** Calls that open and close *)

Section calls.
Context (kend kdata trapret forkret : Z) `{!Devsw lstate}.

(** [argfd] returns an open descriptor of the caller. *)
Lemma argfd_spec n k : okay no_debt k ->
  wlp (argfd n) (fun r k' => okay no_debt k' /\ match r with
    | Some (fd, f) => exists me, k_cur k' = Some me /\ (f < NFILE)%nat /\
        p_ofile (procat me k') !! fd = Some (Some f)
    | None => True end) k.
Proof.
  intros H. unfold argfd. apply wlp_bind.
  eapply wlp_mono; [apply kept_argint, okay_kept, H|]. intros [fd|] k1 H1; cycle 1.
  { apply wlp_ret. split; [exact (kept_okay _ _ _ _ H1 H)|done]. }
  eapply kept_okay in H1; [|exact H].
  destruct (_ || _); [by apply wlp_ret|]. unfold curproc, myproc. wlp_auto.
  destruct (k_cur k1) as [me|] eqn:Ec; [|done]. simpl in E. injection E as <-.
  split; [done|]. destruct (p_ofile (procat me k1) !!! Z.to_nat fd) as [f|] eqn:Ef; simpl; [|done].
  destruct (fd_open _ _ _ _ _ (proj1 H1) Ef) as [Hme Ei]. exists me. split_and!; [done| |done].
  by eapply (rc_range _ _ (proj1 H1)).
Qed.

(** [fdalloc] gives the file to a free descriptor of the caller. *)
Lemma fdalloc_spec e k f : okay e k -> (f < NFILE)%nat ->
  wlp (fdalloc f) (fun r k' => match r with
    | Some fd => okay (bump f (-1) e) k' /\
        exists me, k_cur k' = Some me /\ p_ofile (procat me k') !! fd = Some (Some f)
    | None => k' = k end) k.
Proof.
  intros [Hr Hl] Hf. unfold fdalloc. apply wlp_bind. unfold myproc. apply wlp_bind, wlp_gets.
  destruct (k_cur k) as [me|] eqn:Ec; [|apply wlp_fail]. apply wlp_ret.
  destruct (Hl me Ec) as [Hme Hd]. apply (wlp_find (fun _ k' => k' = k)); [done| |by intros ? ->].
  intros fd k1 Hfd ->. apply wlp_bind, wlp_gets.
  destruct (p_ofile (procat me k) !!! fd) as [g|] eqn:Eg; [by apply wlp_ret|].
  apply wlp_bind, wlp_modify, wlp_ret.
  pose proof (rc_ofile _ _ Hr me Hme) as Hlen.
  assert (p_ofile (procat me k) !! fd = Some None) as E
    by (rewrite <- Eg; apply list_lookup_lookup_total_lt; by rewrite Hlen).
  assert (me < length (k_procs k))%nat by (by rewrite (rc_procs _ _ Hr)).
  split; [split|].
  - eapply rc_ext; [eapply rc_set_fd; [exact Hr|done|exact E|by left|by intros ? [= <-]]|].
    intros h. unfold bump. repeat case_bool_decide; simplify_eq; repeat case_decide; simplify_eq; unfold b2z; lia.
  - intros me' Hme'. destruct (Hl me' Hme') as [H1 H2]. split; [done|].
    rewrite procat_insert by done. destruct (decide _) as [<-|]; [|done]. exact Hd.
  - exists me. split; [done|]. rewrite procat_insert by done. rewrite decide_True by done.
    cbn [p_ofile set_p_ofile]. apply list_lookup_insert_eq. by rewrite Hlen.
Qed.

Lemma okay_fileclose e k f : okay e k -> wlp (fileclose kend f) (fun _ k' => okay (bump f (-1) e) k') k.
Proof.
  intros H. eapply wlp_mono; [apply fileclose_spec, okay_kept, H|]. intros [] k' H'. exact (kept_okay _ _ _ _ H' H).
Qed.

(** The descriptor [fd] of the caller is cleared. *)
Lemma okay_clear e k me fd f : okay e k -> k_cur k = Some me -> p_ofile (procat me k) !! fd = Some (Some f) ->
  wlp (pupd me (fun x => set_p_ofile (<[fd := None]> (p_ofile x)) x)) (fun _ k' => okay (bump f 1 e) k') k.
Proof.
  intros [Hr Hl] Ec E. destruct (Hl me Ec) as [Hme Hd]. apply wlp_modify.
  assert (me < length (k_procs k))%nat by (by rewrite (rc_procs _ _ Hr)). split.
  - eapply rc_ext; [eapply rc_set_fd; [exact Hr|done|exact E|by right|done]|].
    intros h. unfold bump. repeat case_bool_decide; simplify_eq; repeat case_decide; simplify_eq; unfold b2z; lia.
  - intros me' Hme'. destruct (Hl me' Hme') as [H1 H2]. split; [done|].
    rewrite procat_insert by done. destruct (decide _) as [<-|]; done.
Qed.

Lemma sys_dup_spec k : okay no_debt k -> wlp sys_dup (fun _ k' => okay no_debt k') k.
Proof.
  intros H. unfold sys_dup. apply wlp_bind. eapply wlp_mono; [apply argfd_spec, H|].
  intros [[fd f]|] k1 [H1 Hf]; [|by apply wlp_ret]. destruct Hf as (me & _ & Hf & _).
  apply wlp_bind. eapply wlp_mono; [by apply fdalloc_spec|].
  intros [fd'|] k2 H2; [|subst; by apply wlp_ret]. destruct H2 as [H2 _].
  apply wlp_bind. eapply wlp_mono; [apply filedup_spec, okay_kept, H2|].
  intros g k3 (_ & _ & H3 & _). apply wlp_ret. eapply kept_okay in H3; [|exact H2].
  eapply okay_ext; [exact H3|]. debts.
Qed.

Lemma sys_close_spec k : okay no_debt k -> wlp (sys_close kend) (fun _ k' => okay no_debt k') k.
Proof.
  intros H. unfold sys_close. apply wlp_bind. eapply wlp_mono; [apply argfd_spec, H|].
  intros [[fd f]|] k1 [H1 Hf]; [|by apply wlp_ret]. destruct Hf as (me & Ec & Hf & E).
  apply wlp_bind. unfold myproc. apply wlp_bind, wlp_gets. rewrite Ec. apply wlp_ret.
  apply wlp_bind. eapply wlp_mono; [by eapply okay_clear|]. intros [] k2 H2.
  apply wlp_bind. eapply wlp_mono; [apply okay_fileclose, H2|]. intros [] k3 H3. apply wlp_ret.
  eapply okay_ext; [exact H3|]. debts.
Qed.

Lemma okay_step {A} e (m : K A) k : pres (kept e k) m -> okay e k -> wlp m (fun _ k' => okay e k') k.
Proof. intros Hm H. eapply wlp_mono; [apply Hm, okay_kept, H|]. intros a k' H'. exact (kept_okay _ _ _ _ H' H). Qed.

Lemma okay_filealloc e k : okay e k -> wlp filealloc (fun r k' => match r with
  | Some f => (f < NFILE)%nat /\ okay (bump f 1 e) k' | None => okay e k' end) k.
Proof.
  intros H. eapply wlp_mono; [apply filealloc_spec, okay_kept, H|].
  intros [f|] k' H'; [destruct H' as [Hf H']; split; [done|]|]; exact (kept_okay _ _ _ _ H' H).
Qed.

Lemma sys_open_spec k : okay no_debt k -> wlp (sys_open kend) (fun _ k' => okay no_debt k') k.
Proof.
  intros H. unfold sys_open. apply wlp_bind. eapply wlp_mono; [apply okay_step, H; apply kept_argstr|].
  intros [path|] k1 H1; [|by apply wlp_ret]. apply wlp_bind.
  eapply wlp_mono; [apply okay_step, H1; apply kept_argint|].
  intros [omode|] k2 H2; [|by apply wlp_ret]. apply wlp_bind.
  eapply wlp_mono; [apply okay_step, H2; apply kept_on_log|]. intros [] k3 H3. apply wlp_bind.
  eapply wlp_mono; [apply okay_step, H3; apply kept_open_inode|].
  intros [ip|] k4 H4; [|by apply wlp_ret].
  apply wlp_bind. eapply wlp_mono; [apply okay_filealloc, H4|]. intros [f|] k5 H5; cycle 1.
  { apply okay_step; [|done]. unfold open_fail. pres_auto. }
  destruct H5 as [Hf H5]. apply wlp_bind. eapply wlp_mono; [by apply fdalloc_spec|].
  intros [fd|] k6 H6.
  - destruct H6 as [H6 _]. eapply (okay_ext _ no_debt) in H6; [|debts].
    apply okay_step; [|done]. pres_auto.
  - subst k6. unfold open_fail. apply wlp_bind. eapply wlp_mono; [apply okay_fileclose, H5|].
    intros [] k6 H6. eapply (okay_ext _ no_debt) in H6; [|debts]. apply okay_step; [|done]. pres_auto.
Qed.

Lemma pipealloc_spec e k : okay e k -> wlp (pipealloc kend) (fun r k' => match r with
  | Some (a, b) => (a < NFILE)%nat /\ (b < NFILE)%nat /\ okay (bump b 1 (bump a 1 e)) k'
  | None => okay e k' end) k.
Proof.
  intros H. unfold pipealloc, pipealloc_bad. apply wlp_bind.
  eapply wlp_mono; [apply okay_filealloc, H|]. intros [a|] k1 H1; [|by apply wlp_bind, wlp_ret, wlp_bind, wlp_ret, wlp_ret].
  destruct H1 as [Ha H1]. apply wlp_bind. eapply wlp_mono; [apply okay_filealloc, H1|].
  intros [b|] k2 H2; cycle 1.
  { apply wlp_bind. eapply wlp_mono; [apply okay_fileclose, H2|]. intros [] k3 H3.
    apply wlp_bind, wlp_ret, wlp_ret. eapply okay_ext; [exact H3|]. debts. }
  destruct H2 as [Hb H2]. apply wlp_bind. eapply wlp_mono; [apply okay_step, H2; apply kept_on_mem|].
  intros p k3 H3. destruct (p =? 0).
  - apply wlp_bind. eapply wlp_mono; [apply okay_fileclose, H3|]. intros [] k4 H4.
    apply wlp_bind. eapply wlp_mono; [apply okay_fileclose, H4|]. intros [] k5 H5. apply wlp_ret.
    eapply okay_ext; [exact H5|]. debts.
  - apply wlp_bind, wlp_gets, wlp_bind.
    eapply wlp_mono; [apply okay_step, H3; apply kept_pipeupd|]. intros [] k4 H4. apply wlp_bind.
    eapply wlp_mono; [apply okay_step, H4; by apply kept_fupd|]. intros [] k5 H5. apply wlp_bind.
    eapply wlp_mono; [apply okay_step, H5; by apply kept_fupd|]. intros [] k6 H6. by apply wlp_ret.
Qed.

Lemma sys_pipe_spec k : okay no_debt k -> wlp (sys_pipe kend) (fun _ k' => okay no_debt k') k.
Proof.
  intros H. unfold sys_pipe. apply wlp_bind. eapply wlp_mono; [apply okay_step, H; apply kept_argptr|].
  intros [fd|] k1 H1; [|by apply wlp_ret]. apply wlp_bind. eapply wlp_mono; [apply pipealloc_spec, H1|].
  intros [[rf wf]|] k2 H2; [|by apply wlp_ret]. destruct H2 as (Hrf & Hwf & H2).
  assert (forall k e, okay e k -> (forall f, bump wf (-1) (bump rf (-1) e) f = no_debt f) ->
    wlp (fileclose kend rf;;; fileclose kend wf;;; ret (-1)) (fun _ k' => okay no_debt k') k) as Hclose.
  { intros k3 e H3 He. apply wlp_bind. eapply wlp_mono; [apply okay_fileclose, H3|]. intros [] k4 H4.
    apply wlp_bind. eapply wlp_mono; [apply okay_fileclose, H4|]. intros [] k5 H5. apply wlp_ret.
    eapply okay_ext; [exact H5|exact He]. }
  apply wlp_bind. eapply wlp_mono; [by apply fdalloc_spec|]. intros [a|] k3 H3; cycle 1.
  { subst k3. apply wlp_bind, wlp_ret. apply (Hclose _ _ H2). debts. }
  destruct H3 as (H3 & me & Ec & Ea). apply wlp_bind. eapply wlp_mono; [by apply fdalloc_spec|].
  intros [b|] k4 H4.
  - destruct H4 as [H4 _]. eapply (okay_ext _ no_debt) in H4; [|debts].
    apply okay_step; [|done]. pres_auto.
  - subst k4. apply wlp_bind. unfold myproc. apply wlp_bind, wlp_bind, wlp_gets. rewrite Ec. apply wlp_ret.
    eapply wlp_mono; [by eapply okay_clear|]. intros [] k4 H4. apply (Hclose _ _ H4). debts.
Qed.

(** *** Every system call *)

Context (nics : nic) (junk : arp_junk).

(** After a call the counts are right. *)
Definition call_ok (k : kernel) (o : option (K Z)) : Prop :=
  match o with Some m => wlp m (fun _ k' => rc no_debt k') k | None => True end.

Lemma kinv_rc {A} (m : K A) k : wlp m (fun _ k' => kinv k k') k -> wlp m (fun _ k' => rc no_debt k') k.
Proof. intros H. eapply wlp_mono; [exact H|]. by intros a k' []. Qed.

Lemma okay_rc {A} (m : K A) k : wlp m (fun _ k' => okay no_debt k') k -> wlp m (fun _ k' => rc no_debt k') k.
Proof. intros H. eapply wlp_mono; [exact H|]. by intros a k' []. Qed.

Lemma sys_kill_spec k : okay no_debt k -> wlp sys_kill (fun _ k' => rc no_debt k') k.
Proof.
  intros H. unfold sys_kill. apply wlp_bind. eapply wlp_mono; [apply okay_step, H; apply kept_argint|].
  intros [pid|] k1 [H1 _]; [|by apply wlp_ret]. apply kinv_rc, kill_spec, H1.
Qed.

Lemma sys_sbrk_spec k : okay no_debt k -> wlp (sys_sbrk kend) (fun _ k' => rc no_debt k') k.
Proof.
  intros H. unfold sys_sbrk. apply wlp_bind. eapply wlp_mono; [apply okay_step, H; apply kept_argint|].
  intros [n|] k1 H1; [|by apply wlp_ret; destruct H1]. apply wlp_bind.
  eapply wlp_mono; [apply okay_step, H1; apply kept_curproc|]. intros p k2 [H2 _]. apply wlp_bind.
  eapply wlp_mono; [apply kinv_rc, growproc_spec, H2|]. intros g k3 H3. by destruct (g <? 0); apply wlp_ret.
Qed.

Lemma syscalls_ok k : okay no_debt k ->
  Forall (call_ok k) (syscalls kend kdata trapret forkret nics junk).
Proof.
  intros H. pose proof (kept_plain_calls kend kdata nics junk no_debt k) as Hp. unfold plain_calls in Hp.
  repeat (apply Forall_cons in Hp as [?Hp Hp]).
  unfold syscalls. repeat (apply Forall_cons; split); simpl; try done;
    try (apply okay_rc, okay_step; done).
  - apply kinv_rc, fork_spec, H.
  - unfold sys_exit. apply wlp_bind. eapply wlp_mono; [apply kinv_rc, exit_spec, H|]. intros [] k' H'.
    by apply wlp_ret.
  - apply kinv_rc, wait_spec, H.
  - by apply okay_rc, sys_pipe_spec.
  - by apply sys_kill_spec.
  - by apply okay_rc, sys_dup_spec.
  - by apply sys_sbrk_spec.
  - by apply okay_rc, sys_open_spec.
  - by apply okay_rc, sys_close_spec.
Qed.

(** [syscall], called with a running process. *)
Lemma syscall_spec k : okay no_debt k ->
  wlp (syscall kend kdata trapret forkret nics junk) (fun _ k' => rc no_debt k') k.
Proof.
  intros H. unfold syscall. apply wlp_bind. eapply wlp_mono; [apply okay_step, H; apply kept_curproc|].
  intros p k1 H1. apply wlp_bind. eapply wlp_mono; [apply okay_step, H1; apply kept_on_mem|].
  intros eax k2 H2. cbv zeta.
  assert (forall v k, rc no_debt k -> wlp (set_eax v;;; ret true) (fun _ k' => rc no_debt k') k) as Hset.
  { intros v k3 H3. eapply wlp_mono; [apply (ltac:(unfold set_eax; pres_auto; apply kept_curproc) :
      pres (kept no_debt k3) (set_eax v;;; ret true)), kept_refl, H3|]. by intros a k' []. }
  destruct (handler _ _ _ _ _ _ _) as [f|] eqn:Eh; [|apply Hset, H2].
  assert (call_ok k2 (Some f)) as Hf.
  { rewrite <- Eh. unfold handler. destruct (_ && _); [|done].
    rewrite list_lookup_total_alt. destruct (syscalls _ _ _ _ _ _ !! _) as [o|] eqn:E; [|done]. simpl.
    by eapply Forall_lookup_1; [apply syscalls_ok|]. }
  apply wlp_bind. eapply wlp_mono; [exact Hf|]. intros v k3 H3.
  destruct (_ =? SYS_exit); [by apply wlp_ret|]. by apply Hset.
Qed.

(** *** Traps *)

(** The device interrupt handlers run the code of the drivers, which has no
    business with the descriptors; what they wake up is [wakeup]. *)
Definition keeps_files (m : K unit) : Prop := forall e k0, pres (kept e k0) m.

Context (cpuid : Z) (kbdintr uartintr ideintr lapiceoi : K unit).
Context (Hkbd : keeps_files kbdintr) (Huart : keeps_files uartintr).
Context (Hide : keeps_files ideintr) (Heoi : keeps_files lapiceoi).

Lemma exit_then {A} (a : A) k : rc no_debt k -> wlp (exit kend;;; ret a) (fun _ k' => rc no_debt k') k.
Proof.
  intros H. apply wlp_bind. eapply wlp_mono; [apply kinv_rc, exit_spec, H|]. intros [] k' H'. by apply wlp_ret.
Qed.

Lemma exit_if_killed_spec cs k : rc no_debt k -> wlp (exit_if_killed kend cs) (fun _ k' => rc no_debt k') k.
Proof.
  intros H. unfold exit_if_killed. apply wlp_bind, wlp_gets. destruct (k_cur k); [|by apply wlp_ret].
  apply wlp_bind, wlp_gets. destruct (_ && _); [by apply exit_then|by apply wlp_ret].
Qed.

Lemma kept_trap_switch trapno cs e k0 :
  pres (kept e k0) (trap_switch cpuid kbdintr uartintr ideintr lapiceoi trapno cs).
Proof. unfold trap_switch. pres_auto; first [apply Hkbd|apply Huart|apply Hide|apply Heoi]. Qed.

Lemma trap_spec tf k : okay no_debt k ->
  wlp (trap kend kdata trapret forkret nics junk cpuid kbdintr uartintr ideintr lapiceoi tf)
    (fun _ k' => rc no_debt k') k.
Proof.
  intros H. unfold trap. apply wlp_bind. eapply wlp_mono; [apply okay_step, H; apply kept_on_mem|].
  intros trapno k1 H1. destruct (trapno =? T_SYSCALL).
  - apply wlp_bind. eapply wlp_mono; [apply okay_step, H1; apply kept_myproc|]. intros me k2 H2.
    apply wlp_bind, wlp_gets. destruct (p_killed _); [by apply exit_then; destruct H2|].
    apply wlp_bind. eapply wlp_mono; [apply okay_step, H2; apply kept_pupd; [done|exact (fun _ H => H)]|].
    intros [] k3 H3. apply wlp_bind. eapply wlp_mono; [by apply syscall_spec|]. intros there k4 H4.
    destruct there; [|by apply wlp_ret]. unfold mykill_check. apply wlp_bind.
    eapply wlp_mono; [apply kept_curproc, kept_refl, H4|]. intros p k5 [H5 _].
    destruct (p_killed p); [by apply exit_then|by apply wlp_ret].
  - apply wlp_bind. eapply wlp_mono; [apply okay_step, H1; apply kept_on_mem|]. intros cs k2 H2.
    apply wlp_bind. eapply wlp_mono; [apply okay_step, H2; apply kept_trap_switch|]. intros [] k3 [H3 _].
    apply wlp_bind. eapply wlp_mono; [by apply exit_if_killed_spec|]. intros there k4 H4.
    destruct there; simpl negb; cbv iota; [|by apply wlp_ret].
    apply wlp_bind, wlp_gets. destruct (k_cur k4) as [me|]; [|by apply wlp_ret].
    apply wlp_bind, wlp_gets. destruct (_ && _).
    + assert (pres (kept no_debt k4) (yield;;; ret Yielded)) as Hy.
      { unfold yield. pres_auto. apply kept_myproc. }
      eapply wlp_mono; [apply Hy, kept_refl, H4|]. by intros a k' [].
    + apply wlp_bind. eapply wlp_mono; [by apply exit_if_killed_spec|]. intros there' k5 H5. by apply wlp_ret.
Qed.
End calls.

(** *** The system *)

Section system.
Context (kend kdata trapret forkret : Z) `{!Devsw lstate} (nics : nic) (junk : arp_junk).
Context (kbdintr uartintr ideintr lapiceoi : K unit).

(** [k] right after [pinit] and [fileinit]: no process, no open file. *)
Record kstart (k : kernel) : Prop := {
  kt_procs : length (k_procs k) = NPROC;
  kt_unused : Forall (fun p => p_state p = UNUSED /\ no_files p) (k_procs k);
  kt_files : length (k_files k) = NFILE;
  kt_refs : Forall (fun f => f_ref f = 0) (k_files k);
}.

(** What happens: the first process is made; the scheduler, [sleep] and
    [wakeup] move a process between the states of a live process; a trap comes
    to a processor, with the process it runs or with none; [trap] goes on
    after [yield]. *)
Inductive kstep (k : kernel) : kernel -> Prop :=
  | ks_userinit init size name root k' :
    userinit kend kdata trapret forkret init size name root k = Ret tt k' -> kstep k k'
  | ks_sched i st k' :
    ~ dead (procat i k) -> st <> UNUSED -> st <> ZOMBIE ->
    pupd i (set_p_state st) k = Ret tt k' -> kstep k k'
  | ks_trap c cr3 esp0 cpuid tf r k' :
    cur_live (set_k_cpu c cr3 esp0 k) ->
    trap kend kdata trapret forkret nics junk cpuid kbdintr uartintr ideintr lapiceoi tf
      (set_k_cpu c cr3 esp0 k) = Ret r k' -> kstep k k'
  | ks_resume c cr3 esp0 cs r k' :
    trap_resume kend cs (set_k_cpu c cr3 esp0 k) = Ret r k' -> kstep k k'.

Lemma kstart_rc k : kstart k -> rc no_debt k.
Proof.
  intros [Hp Hu Hf Hr].
  assert (forall i, (i < NPROC)%nat -> p_state (procat i k) = UNUSED /\ no_files (procat i k)) as Hi.
  { intros i Hi. apply (Forall_lookup_1 _ _ i (procat i k) Hu), list_lookup_lookup_total_lt. by rewrite Hp. }
  constructor; try done.
  - intros i H. destruct (Hi i H) as [_ E]. rewrite E. apply length_replicate.
  - intros i j f H. destruct (Hi i H) as [_ E]. rewrite E. by intros [? _]%lookup_replicate.
  - intros f H. rewrite (Forall_lookup_1 _ _ f (fileat f k) Hr)
      by (apply list_lookup_lookup_total_lt; by rewrite Hf).
    unfold no_debt. assert (table_refs f (k_procs k) = 0) as ->; [|done].
    clear -Hu. induction Hu as [|p ps [_ Hn] _ IH]; simpl; [done|]. rewrite IH.
    unfold fd_refs. rewrite Hn. clear. induction NOFILE as [|n IHn]; [done|]. simpl.
    by rewrite filter_cons, decide_False.
  - intros i H _. by apply Hi.
Qed.

Lemma userinit_spec init size name root k : rc no_debt k ->
  wlp (userinit kend kdata trapret forkret init size name root) (fun _ k' => rc no_debt k') k.
Proof.
  intros H. unfold userinit. apply wlp_bind. eapply wlp_mono; [apply allocproc_spec, kept_refl, H|].
  intros r k1 H1. eapply (wlp_mono _ (fun _ k' => kept no_debt k k')); [|by intros a k' []].
  assert (kept no_debt k k1) as H2 by (destruct r; [by destruct H1|done]). clear H1.
  match goal with |- wlp ?m _ _ => assert (pres (kept no_debt k) m) as Hm by pres_auto end.
  by apply Hm.
Qed.

Context (Hkbd : keeps_files kbdintr) (Huart : keeps_files uartintr).
Context (Hide : keeps_files ideintr) (Heoi : keeps_files lapiceoi).

Lemma rc_cpu e c cr3 esp0 k : rc e k -> rc e (set_k_cpu c cr3 esp0 k).
Proof. intros []. by constructor. Qed.

Lemma kstep_rc k k' : kstep k k' -> rc no_debt k -> rc no_debt k'.
Proof.
  intros Hs H. destruct Hs as [init size name root k' E|i st k' Hd H1 H2 E|c cr3 esp0 cpuid tf r k' Hl E|c cr3 esp0 cs r k' E].
  - by apply (userinit_spec init size name root k H) in E.
  - destruct (kept_pupd no_debt k i (set_p_state st)) with (k := k) (a := tt) (s' := k') as [? _]; try done.
    + intros p [|]; simpl in *; congruence.
    + by apply kept_refl.
  - apply trap_spec in E; try done. split; [by apply rc_cpu|done].
  - unfold trap_resume in E. apply bind_inv in E as (there & k1 & E1 & E2). injection E2 as _ <-.
    apply exit_if_killed_spec in E1; [done|by apply rc_cpu].
Qed.


End system.

(** The state of a machine that has only started: the time interrupt of an
    idle processor is a step. *)
Definition idle_tf : Z := 100.
Definition idle_mem : mem := fun a => if a =? idle_tf + tf_trapno then 32 else 0.
Definition kernel0 (d : lstate) : kernel :=
  Kernel (replicate NPROC proc0) 1 None (replicate NFILE inhabitant) ∅ (Kmem idle_mem 0 false)
    (Fs (sb_of []) [] d) 0 None 0 0.

