(* ===== verification/ProcProps.v ===== *)
(** Corner cases of the process calls: user pointers (syscall.c), shrinking to
    nothing (growproc), and [kill] of a process that does not exist. *)

From S2P Require Import Prelude Params KString Bio Log Blocks Fs Kalloc Vm Pipe Kernel Sched File Proc.
From S2P Require Import RefCount Syscall Trap.

(** A kernel with one process: it has one page of memory at address 0, mapped
    to physical page 3; its trap frame is in physical page 4. *)
Definition demo_mem (words : list (Z * Z)) : mem :=
  foldr (fun w m => mwrite32 m (P2V w.1) w.2) (fun _ => 0)
    (words ++ [(0x1000, 0x2007); (0x2000, 0x3007)]).
Definition demo_proc : proc :=
  Proc 4096 (P2V 0x1000) (P2V 0x5000) RUNNING 7 None (P2V 0x4000) 0 NoChan false
    (replicate NOFILE None) None (replicate 16 0).
Definition demo_kernel (words : list (Z * Z)) : kernel :=
  Kernel (demo_proc :: replicate 63 proc0) 8 (Some 0%nat) (replicate NFILE inhabitant) ∅
    (Kmem (demo_mem words) 0 false) (Fs (sb_of []) [] (LState log0 (Bcache [] ∅ []))) 0 (Some 0%nat) 0x1000 0.

(** C35: a user pointer is accepted exactly when the whole block it points to
    is in the caller's memory: [argptr] never lets a block through that wraps
    around or crosses [sz]. *)
Theorem argptr_exact n size i me k k1 :
  argint n k = Ret (Some i) k1 -> k_cur k1 = Some me ->
  0 <= p_sz (procat me k1) <= KERNBASE -> -2147483648 <= size < 2147483648 ->
  exists r, argptr n size k = Ret r k1 /\
    forall a, r = Some a <->
      a = u32 i /\ 0 <= size /\ a < p_sz (procat me k1) /\ a + size <= p_sz (procat me k1).
Proof.
  intros Ha Ec Hsz Hs. unfold argptr. erewrite bind_Ret by exact Ha.
  unfold curproc, myproc. krun. rewrite Ec. set (sz := p_sz _) in *.
  pose proof (u32_range i) as Hi. unfold is_u32, KERNBASE in *.
  destruct (_ <? 0) eqn:E1; [eexists; split; [done|]; intros a; split; [done|lia]|].
  destruct (sz <=? u32 i) eqn:E2; [eexists; split; [done|]; intros a; split; [done|lia]|].
  rewrite (u32_small (u32 i + size)) by (unfold is_u32; lia).
  destruct (sz <? u32 i + size) eqn:E3; eexists; (split; [done|]); intros a; split; try done; try lia.
  - intros [= <-]. lia.
  - by intros (-> & _).
Qed.

Lemma argptr_exact_witness : exists r k1, argptr 0 100 (demo_kernel [(0x4044, 0); (0x3004, 16)]) = Ret r k1 /\
  (r = Some 16 <-> 16 = u32 16 /\ 0 <= 100 /\ 16 < 4096 /\ 16 + 100 <= 4096).
Proof.
  set (k := demo_kernel [(0x4044, 0); (0x3004, 16)]).
  destruct (argptr_exact 0 100 16 0 k k) as (r & Hr & H).
  - vm_compute. reflexivity.
  - reflexivity.
  - vm_compute. split; discriminate.
  - lia.
  - exists r, k. split; [exact Hr|exact (H 16)].
Defined.

(** *** growproc *)

Section growproc.
Context (kend : Z).

Lemma deallocuvm_ret pgdir oldsz newsz s r s' :
  deallocuvm kend pgdir oldsz newsz s = Ret r s' -> newsz < oldsz -> r = newsz.
Proof.
  intros E H. unfold deallocuvm in E. rewrite (proj2 (Z.leb_gt oldsz newsz)) in E by lia.
  apply bind_inv in E as ([] & s1 & _ & [= <- _]). done.
Qed.

(** [growproc] takes a size of 0 for a failure: a process that gives back
    all its memory is told -1, and its [sz] and the loaded page table still
    say that it has the memory that was freed. *)
Theorem growproc_to_zero k me r k' :
  k_cur k = Some me -> (me < length (k_procs k))%nat -> 0 < p_sz (procat me k) < 2147483648 ->
  growproc kend (- p_sz (procat me k)) k = Ret r k' ->
  r = -1 /\ p_sz (procat me k') = p_sz (procat me k) /\ k_cr3 k' = k_cr3 k /\
  exists s, deallocuvm kend (p_pgdir (procat me k)) (p_sz (procat me k)) 0 (k_mem k) = Ret 0 s /\ k_mem k' = s.
Proof.
  intros Ec Hme Hsz E. unfold growproc in E. apply bind_inv in E as (me' & k1 & E1 & E).
  unfold myproc in E1. apply bind_inv in E1 as (c & k2 & [= <- <-] & E1). rewrite Ec in E1. injection E1 as <- <-.
  apply bind_inv in E as (p & k2 & [= <- <-] & E). cbv zeta in E. set (sz := p_sz (procat me k)) in *.
  rewrite (proj2 (Z.ltb_ge 0 (- sz))), (proj2 (Z.ltb_lt (- sz) 0)) in E by lia.
  apply bind_inv in E as (sz' & k2 & E2 & E). rewrite Z.add_opp_diag_r in E2. change (u32 0) with 0 in E2.
  unfold on_mem in E2. destruct (deallocuvm kend _ sz 0 (k_mem k)) as [r0 s|] eqn:Ed; [|done].
  injection E2 as <- <-. apply deallocuvm_ret in Ed as Er; [|lia]. subst r0.
  rewrite (proj2 (Z.eqb_neq (- sz) 0)) in E by lia. injection E as <- <-.
  split_and!; [done|done|done|]. by exists s.
Qed.
End growproc.

Lemma growproc_to_zero_witness : exists k', growproc 0 (- 4096) (demo_kernel [(0x1000, 0)]) = Ret (-1) k' /\
  p_sz (procat 0 k') = 4096.
Proof.
  set (k := demo_kernel [(0x1000, 0)]).
  assert (exists k', growproc 0 (-4096) k = Ret (-1) k') as [k' E] by (eexists; vm_compute; reflexivity).
  exists k'. split; [exact E|]. apply (growproc_to_zero 0 k 0 (-1) k').
  - reflexivity.
  - apply Nat.ltb_lt. reflexivity.
  - vm_compute. split; reflexivity.
  - exact E.
Defined.

(** *** kill *)

Section kill.
Context (trapret forkret : Z).

(** The free entries are the ones without a pid, as [pinit] and [wait] leave
    the table. *)
Definition pids_ok (k : kernel) : Prop :=
  Forall (fun p => p_state p = UNUSED <-> p_pid p = 0) (k_procs k) /\ length (k_procs k) = NPROC.

Lemma kill_table_first pid ps i p :
  ps !! i = Some p -> p_pid p = pid -> (forall j q, (j < i)%nat -> ps !! j = Some q -> p_pid q <> pid) ->
  kill_table pid ps = Some (<[i := kill_proc p]> ps).
Proof.
  revert i. induction ps as [|q ps IH]; intros [|i] E Ep Hb; simpl in *; try done.
  - injection E as ->. by rewrite Ep, Z.eqb_refl.
  - rewrite (proj2 (Z.eqb_neq _ _)) by (apply (Hb 0%nat q); [lia|done]).
    rewrite (IH i E Ep); [done|]. intros j r Hj Er. apply (Hb (S j) r); [lia|done].
Qed.

(** An entry killed while it is free. *)
Definition killed_new (np : nat) (k : kernel) : Prop :=
  (np < length (k_procs k))%nat /\ p_killed (procat np k) = true.

Lemma killed_new_pupd np g k : (forall p, p_killed (g p) = p_killed p) -> killed_new np k ->
  killed_new np (set_k_procs (<[np := g (procat np k)]> (k_procs k)) k).
Proof.
  intros Hg [Hn Hk]. split; simpl; [by rewrite length_insert|].
  unfold procat. simpl. rewrite list_lookup_total_insert_eq by done. by rewrite Hg.
Qed.

Lemma pres_killed_new np g : (forall p, p_killed (g p) = p_killed p) -> pres (killed_new np) (pupd np g).
Proof. intros Hg k Hk. apply wlp_modify. by apply killed_new_pupd. Qed.

Lemma killed_new_frame np k k' : frame k k' -> killed_new np k -> killed_new np k'.
Proof. intros (Hp & _) H. unfold killed_new, procat in *. by rewrite Hp. Qed.

(** [find_unused] returns the first free entry. *)
Lemma find_unused_first k i p :
  k_procs k !! i = Some p -> (i < NPROC)%nat -> p_state p = UNUSED ->
  (forall j q, (j < i)%nat -> k_procs k !! j = Some q -> p_state q <> UNUSED) ->
  (length (k_procs k) = NPROC) ->
  find_unused k = Ret (Some i) k.
Proof.
  intros E Hi Hp Hb Hl. unfold find_unused, for_find.
  set (body := fun i => _). assert (forall j, (j < NPROC)%nat -> body j k =
    Ret (if decide (p_state (procat j k) = UNUSED) then Some j else None) k) as Hbody by done.
  assert (forall j, (j < i)%nat -> p_state (procat j k) <> UNUSED) as Hne.
  { intros j Hj. apply (Hb j (procat j k) Hj). apply list_lookup_lookup_total_lt. lia. }
  assert (p_state (procat i k) = UNUSED) as Hst by (unfold procat; by rewrite (list_lookup_total_correct _ _ _ E)).
  clearbody body. clear E Hp Hb p. enough (forall n i0, (i0 <= i < i0 + n)%nat -> (i0 + n <= NPROC)%nat ->
    find_from i0 n body k = Ret (Some i) k) as H by (apply (H NPROC 0%nat); lia).
  induction n as [|n IH]; intros i0 H1 H2; [lia|]. simpl. unfold bind. rewrite Hbody by lia.
  destruct (decide (i0 = i)) as [->|]; [by rewrite decide_True|].
  rewrite decide_False by (apply Hne; lia). apply IH; lia.
Qed.

(** [allocproc] does not touch [killed]. *)
Lemma allocproc_killed np k : find_unused k = Ret (Some np) k -> killed_new np k ->
  wlp (allocproc trapret forkret) (fun r k' => forall p, r = Some p -> p_killed (procat p k') = true) k.
Proof.
  intros Hf Hk. unfold allocproc. apply wlp_bind. intros r k1 E. rewrite Hf in E. injection E as <- <-.
  eapply (wlp_mono _ (fun r k' => killed_new np k' /\ forall p, r = Some p -> p = np));
    [|by intros r k' [[_ H] Hr] p ->%Hr].
  assert (forall (f : kernel -> kernel), (forall k, frame k (f k)) -> pres (killed_new np) (modify f)) as Hm
    by apply pres_frame, killed_new_frame.
  assert (forall A (m : M kmem A), pres (killed_new np) (on_mem m)) as Hom
    by (intros; apply pres_on_mem, killed_new_frame).
  assert (forall g, (forall p, p_killed (g p) = p_killed p) -> pres (killed_new np) (pupd np g)) as Hu
    by apply pres_killed_new.
  apply wlp_bind. eapply wlp_mono; [by apply Hu|]. intros [] k2 H2. apply wlp_bind, wlp_gets, wlp_bind.
  eapply wlp_mono; [by apply Hu|]. intros [] k3 H3. apply wlp_bind.
  eapply wlp_mono; [by apply Hm|]. intros [] k4 H4. apply wlp_bind.
  eapply wlp_mono; [by apply Hom|]. intros kst k5 H5. apply wlp_bind.
  eapply wlp_mono; [by apply Hu|]. intros [] k6 H6. destruct (kst =? 0).
  - apply wlp_bind. eapply wlp_mono; [by apply Hu|]. intros [] k7 H7. by apply wlp_ret.
  - cbv zeta. apply wlp_bind. eapply wlp_mono; [by apply Hu|]. intros [] k7 H7. apply wlp_bind.
    eapply wlp_mono; [by apply Hom|]. intros [] k8 H8. apply wlp_bind.
    eapply wlp_mono; [by apply Hu|]. intros [] k9 H9. apply wlp_bind.
    eapply wlp_mono; [by apply Hom|]. intros [] k10 H10. apply wlp_bind.
    eapply wlp_mono; [by apply Hom|]. intros [] k11 H11. apply wlp_ret. split; [done|]. by intros p [= <-].
Qed.

(** The first free entry after [kill(0)] is the one it marked. *)
Lemma kill_zero_first k np p :
  pids_ok k -> k_procs k !! np = Some p -> p_state p = UNUSED ->
  (forall j q, (j < np)%nat -> k_procs k !! j = Some q -> p_state q <> UNUSED) ->
  let k1 := set_k_procs (<[np := set_p_killed true p]> (k_procs k)) k in
  kill 0 k = Ret 0 k1 /\ find_unused k1 = Ret (Some np) k1 /\ killed_new np k1.
Proof.
  intros [Hpid Hl] E Hp Hb k1. pose proof (lookup_lt_Some _ _ _ E) as Hnp.
  assert (forall j q, k_procs k !! j = Some q -> p_state q = UNUSED <-> p_pid q = 0) as Hq
    by (intros j q Eq; exact (Forall_lookup_1 _ _ _ _ Hpid Eq)).
  split_and!.
  - unfold kill. krun. rewrite (kill_table_first 0 (k_procs k) np p); try done.
    + unfold kill_proc. simpl. by rewrite Hp.
    + by apply (Hq np).
    + intros j q Hj Eq E0. apply (Hb j q Hj Eq). by apply (Hq j).
  - apply (find_unused_first _ np (set_p_killed true p)); simpl; try done; try lia.
    + by apply list_lookup_insert_eq.
    + intros j q Hj. rewrite list_lookup_insert_ne by lia. by apply Hb.
    + by rewrite length_insert.
  - split; simpl; [by rewrite length_insert|]. unfold procat. simpl.
    by rewrite list_lookup_total_insert_eq.
Qed.

(** [kill] does not look at the state of an entry, and a free entry has
    pid 0: [kill(0)] succeeds, and since neither [allocproc] nor [fork] resets
    [killed], the process that gets the entry next is born killed. *)
Theorem kill_zero_poisons k i :
  pids_ok k -> (i < NPROC)%nat -> p_state (procat i k) = UNUSED ->
  exists k1 np, kill 0 k = Ret 0 k1 /\ find_unused k1 = Ret (Some np) k1 /\
    p_state (procat np k) = UNUSED /\
    wlp (allocproc trapret forkret) (fun r k' => forall p, r = Some p -> p_killed (procat p k') = true) k1.
Proof.
  intros Hok Hi Hst. pose proof (proj2 Hok) as Hl.
  destruct (list_find_elem_of (fun p => p_state p = UNUSED) (k_procs k) (procat i k))
    as [[np p] Hf]; [|done|].
  { eapply list_elem_of_lookup_2, list_lookup_lookup_total_lt. lia. }
  apply list_find_Some in Hf as (E & Hp & Hb).
  destruct (kill_zero_first k np p Hok E Hp) as (H1 & H2 & H3); [eauto|].
  eexists _, np. split_and!; [exact H1|exact H2| |by apply (allocproc_killed np)].
  unfold procat. by rewrite (list_lookup_total_correct _ _ _ E).
Qed.
End kill.

Lemma kill_zero_poisons_witness : exists k1, kill 0 (demo_kernel []) = Ret 0 k1 /\
  exists np, find_unused k1 = Ret (Some np) k1.
Proof.
  destruct (kill_zero_poisons 0 0 (demo_kernel []) 1) as (k1 & np & H1 & H2 & _).
  - split; [|reflexivity]. apply Forall_cons; split; [split; discriminate|]. by apply Forall_replicate.
  - apply Nat.ltb_lt. reflexivity.
  - reflexivity.
  - exists k1. split; [exact H1|]. exists np. exact H2.
Defined.
