(* ===== verification/Console.v ===== *)
(** The console (console.c): formatted output, the CGA screen, and the line
    editor that interrupts feed and [consoleread] drains.

    What is sent to the serial port is a list of bytes. [consoleread] and the
    interrupt handler hold [cons.lock], so each character of input, and each
    run of [consoleread] up to a [sleep], is one step. *)

From S2P Require Import Prelude Params KString Pipe.

(** ** Numbers *)

Definition digits : list Z := chars "0123456789abcdef".

(** [do buf[i++] = digits[x % base]; while((x /= base) != 0);]; the digits,
    least significant first. 32 digits are enough for a [uint]. *)
Fixpoint print_digits (fuel : nat) (x base : Z) : list Z :=
  match fuel with
  | O => []
  | S fuel =>
    digits !!! Z.to_nat (x mod base) :: (if x / base =? 0 then [] else print_digits fuel (x / base) base)
  end.

(** The characters [printint] outputs. *)
Definition printint (xx base : Z) (sign : bool) : list Z :=
  let neg := sign && (xx <? 0) in
  let x := u32 (if neg then - xx else xx) in
  let buf := print_digits 32 x base ++ (if neg then [45] else []) in
  reverse buf.

(** ** cprintf *)

(** A variable argument: a word, or a pointer to a string. *)
Inductive carg := AWord (v : Z) | AStr (s : option (list Z)).

(** The characters of [cprintf(fmt, args)]; [None] when the arguments do not
    fit the format. [fmt] is without its NUL. *)
Fixpoint cprintf (fmt : list Z) (args : list carg) : option (list Z) :=
  match fmt with
  | [] => Some []
  | c :: fmt =>
    if negb (c =? 37) then (c ::.) <$> cprintf fmt args
    else match fmt with
    | [] => Some []
    | c :: fmt =>
      if c =? 100 then                                   (* %d *)
        match args with
        | AWord v :: args => (printint (i32 v) 10 true ++.) <$> cprintf fmt args
        | _ => None
        end
      else if (c =? 120) || (c =? 112) then              (* %x %p *)
        match args with
        | AWord v :: args => (printint (i32 v) 16 false ++.) <$> cprintf fmt args
        | _ => None
        end
      else if c =? 115 then                              (* %s *)
        match args with
        | AStr s :: args => (default (chars "(null)") s ++.) <$> cprintf fmt args
        | _ => None
        end
      else if c =? 37 then (37 ::.) <$> cprintf fmt args
      else (fun l => 37 :: c :: l) <$> cprintf fmt args
    end
  end.

(** ** The screen *)

Definition BACKSPACE := 0x100.

(** The CGA memory, 25 rows of 80 cells, and the cursor the hardware keeps. *)
Record cga := Cga { crt : list Z; cursor : Z }.

Definition cgaputc (c : Z) : M cga unit :=
  let! s := get in
  let pos := cursor s in
  let '(pos, m) :=
    if c =? 10 then (pos + (80 - pos mod 80), crt s)
    else if c =? BACKSPACE then (if 0 <? pos then pos - 1 else pos, crt s)
    else (pos + 1, <[Z.to_nat pos := Z.lor (Z.land c 0xff) 0x0700]> (crt s)) in
  panic_if ((pos <? 0) || (25 * 80 <? pos)) "pos under/overflow";;;
  let '(pos, m) :=
    if 24 <=? pos / 80 then
      (* memmove of 23 rows up by one, then the rest of the page is cleared *)
      let m := take (23 * 80) (drop 80 m) ++ drop (23 * 80) m in
      let pos := pos - 80 in
      (pos, list_inserts (Z.to_nat pos) (replicate (Z.to_nat (24 * 80 - pos)) 0) m)
    else (pos, m) in
  put (Cga (<[Z.to_nat pos := Z.lor 32 0x0700]> m) pos).

(** [consputc]: the bytes for the serial port, and the screen. *)
Definition consputc (c : Z) : M (list Z * cga) unit :=
  fun s =>
    match cgaputc c s.2 with
    | Ret _ g => Ret tt (s.1 ++ (if c =? BACKSPACE then [8; 32; 8] else [c]), g)
    | Fail e => Fail e
    end.

Definition consolewrite (buf : list Z) : M (list Z * cga) Z :=
  (fix go (l : list Z) : M (list Z * cga) unit :=
     match l with [] => ret tt | c :: l => consputc (Z.land c 0xff);;; go l end) buf;;;
  ret (Z.of_nat (length buf)).

(** ** Input *)

Definition INPUT_BUF := 128.
Definition C (x : Z) : Z := x - 64.

Record input := Input { in_buf : list Z; in_r : Z; in_w : Z; in_e : Z }.

Definition inbuf_at (s : input) (i : Z) : Z := in_buf s !!! Z.to_nat (i mod INPUT_BUF).

(** The console: the input ring, the serial output and the screen, how often
    [wakeup(&input.r)] was called, and whether [procdump] is to run. *)
Record con := Con {
  co_in : input;
  co_out : list Z * cga;
  co_wakeups : nat;
  co_dump : bool;
}.

Definition con_in (f : input -> input) : M con unit :=
  modify (fun s => Con (f (co_in s)) (co_out s) (co_wakeups s) (co_dump s)).
Definition con_putc (c : Z) : M con unit :=
  fun s => match consputc c (co_out s) with
           | Ret _ o => Ret tt (Con (co_in s) o (co_wakeups s) (co_dump s))
           | Fail e => Fail e
           end.

(** [input.e--] *)
Definition in_back (s : input) : input := Input (in_buf s) (in_r s) (in_w s) (u32 (in_e s - 1)).
(** [input.buf[input.e++ % INPUT_BUF] = c] *)
Definition in_push (c : Z) (s : input) : input :=
  Input (<[Z.to_nat (in_e s mod INPUT_BUF) := c]> (in_buf s)) (in_r s) (in_w s) (u32 (in_e s + 1)).
(** [input.w = input.e] *)
Definition in_commit (s : input) : input := Input (in_buf s) (in_r s) (in_e s) (in_e s).
(** [input.buf[input.r++ % INPUT_BUF]] *)
Definition in_next (s : input) : input := Input (in_buf s) (u32 (in_r s + 1)) (in_w s) (in_e s).

(** [while(input.e != input.w && input.buf[(input.e-1) % INPUT_BUF] != '\n')];
    the ring holds at most 128 characters. *)
Fixpoint kill_line (fuel : nat) : M con unit :=
  match fuel with
  | O => fail NoFuel
  | S fuel =>
    let! s := gets co_in in
    if negb (in_e s =? in_w s) && negb (inbuf_at s (u32 (in_e s - 1)) =? 10)
    then con_in in_back;;; con_putc BACKSPACE;;; kill_line fuel
    else ret tt
  end.

(** The [switch] of [consoleintr]. *)
Definition cons_char (c : Z) : M con unit :=
  let! s := gets co_in in
  if c =? C 80 then                                      (* ^P *)
    modify (fun s => Con (co_in s) (co_out s) (co_wakeups s) true)
  else if c =? C 85 then kill_line 129                   (* ^U *)
  else if (c =? C 72) || (c =? 127) then                 (* backspace *)
    if negb (in_e s =? in_w s) then con_in in_back;;; con_putc BACKSPACE else ret tt
  else if negb (c =? 0) && (u32 (in_e s - in_r s) <? INPUT_BUF) then
    let c := if c =? 13 then 10 else c in
    con_in (in_push c);;;
    con_putc c;;;
    let! s := gets co_in in
    if (c =? 10) || (c =? C 68) || (in_e s =? u32 (in_r s + INPUT_BUF)) then
      con_in in_commit;;;
      modify (fun s => Con (co_in s) (co_out s) (S (co_wakeups s)) (co_dump s))
    else ret tt
  else ret tt.

(** [consoleintr] on what [getc] returns before it runs dry. *)
Fixpoint consoleintr (cs : list Z) : M con unit :=
  match cs with [] => ret tt | c :: cs => cons_char c;;; consoleintr cs end.

(** [consoleread] from the top of its loop, with [n] bytes still wanted of
    [target]: how the segment ends, the bytes it stores, the bytes still
    wanted. A reader woken up goes on from the top of the loop. *)
Fixpoint consoleread (killed : bool) (target n : nat) (s : input) : seg Z * list Z * nat * input :=
  match n with
  | O => (Return (Z.of_nat target), [], O, s)
  | S n' =>
    if in_r s =? in_w s then
      if killed then (Return (-1), [], n, s) else (Sleep, [], n, s)
    else
      let c := inbuf_at s (in_r s) in
      if c =? C 68 then
        (Return (Z.of_nat (target - n)), [], n, if (n <? target)%nat then s else in_next s)
      else if c =? 10 then (Return (Z.of_nat (target - n')), [c], n', in_next s)
      else
        let '(r, l, n2, s2) := consoleread killed target n' (in_next s) in (r, c :: l, n2, s2)
  end.

(** ** The screen stays in bounds *)

(** 25 rows, of which the cursor uses the first 24. *)
Record cga_ok (g : cga) : Prop := {
  cg_size : length (crt g) = 2000%nat;
  cg_pos : 0 <= cursor g < 1920;
}.

Lemma cgaputc_ok c g : cga_ok g -> wp (cgaputc c) (fun _ g' => cga_ok g') g.
Proof.
  intros [Hs Hp]. unfold cgaputc. apply wp_bind. change (wp get ?Q g) with (Q g g). cbv beta zeta.
  set (q := if c =? 10 then _ else _).
  assert (0 <= q.1 <= 1920 /\ length q.2 = 2000%nat) as [Hq Hl].
  { unfold q. destruct (c =? 10); [|destruct (c =? BACKSPACE)]; cbn [fst snd];
      rewrite ?length_insert; split; try done; [dlia|destruct (Z.ltb_spec 0 (cursor g)); lia|lia]. }
  clearbody q. destruct q as [pos m]; cbn [fst snd] in *.
  apply wp_bind, wp_panic_if; [apply orb_false_iff; lia|].
  destruct (Z.leb_spec 24 (pos / 80)) as [H24|H24].
  - assert (pos = 1920) as -> by dlia. change (wp (put ?x) ?Q g) with (Q tt x).
    constructor; cbn [crt cursor]; [|lia]. rewrite length_insert, length_inserts, length_app, length_take, !length_drop, Hl. lia.
  - change (wp (put ?x) ?Q g) with (Q tt x). constructor; cbn [crt cursor]; [by rewrite length_insert|dlia].
Qed.

Lemma consputc_ok c o g : cga_ok g ->
  wp (consputc c) (fun _ s => cga_ok s.2 /\ s.1 = o ++ (if c =? BACKSPACE then [8; 32; 8] else [c])) (o, g).
Proof.
  intros Hg. apply (cgaputc_ok c) in Hg. apply wp_elim in Hg as ([] & g' & E & Hg').
  unfold wp, consputc. cbn [snd fst]. by rewrite E.
Qed.

(** writing to the console never panics and never leaves the screen: with
    the cursor in the first 24 rows, [consolewrite] returns [n], every byte has
    gone to the serial port in order, and the cursor is in the first 24 rows
    again. *)
Theorem consolewrite_total buf o g : cga_ok g -> Forall is_u8 buf ->
  wp (consolewrite buf) (fun n s => n = Z.of_nat (length buf) /\ s.1 = o ++ buf /\ cga_ok s.2) (o, g).
Proof.
  intros Hg Hb. unfold consolewrite. apply wp_bind.
  set (go := fix go l := match l with [] => _ | c :: l => _ end).
  apply (wp_mono _ (fun _ s => s.1 = o ++ buf /\ cga_ok s.2)); [|by intros [] s H; apply wp_ret].
  revert o g Hg. induction Hb as [|c l Hc _ IH]; intros o g Hg; simpl.
  { apply wp_ret. by rewrite app_nil_r. }
  assert (Z.land c 255 = c) as -> by (change 255 with (Z.ones 8); rewrite Z.land_ones by lia; by apply u8_small).
  apply wp_bind. eapply wp_mono; [by apply consputc_ok|]. intros [] [o' g'] [Hg' E]. cbn [fst snd] in *.
  eapply wp_mono; [by apply IH|]. intros _ s [Hs Hg2]. split; [|done].
  rewrite Hs, E. unfold is_u8 in Hc. rewrite (proj2 (Z.eqb_neq c BACKSPACE)) by (unfold BACKSPACE; lia).
  by rewrite <- app_assoc.
Qed.

(** a newline on the last row scrolls: every row moves up by one, and the
    cursor is at the start of an empty last row. *)
Theorem cgaputc_scroll g : cga_ok g -> 1840 <= cursor g ->
  wp (cgaputc 10) (fun _ g' => cursor g' = 1840 /\
    forall k, (k < 1840)%nat -> crt g' !! k = crt g !! (k + 80)%nat) g.
Proof.
  intros [Hs Hp] H. unfold cgaputc. apply wp_bind. change (wp get ?Q g) with (Q g g). cbv beta zeta.
  simpl (10 =? 10). cbv iota. replace (cursor g + (80 - cursor g mod 80)) with 1920 by dlia.
  apply wp_bind, wp_panic_if; [done|]. change (24 <=? 1920 / 80) with true. cbv iota.
  change (wp (put ?x) ?Q g) with (Q tt x). cbv beta. cbn [cursor crt]. split; [done|].
  intros k Hk. rewrite list_lookup_insert_ne by lia.
  rewrite list_lookup_inserts_lt by lia.
  rewrite lookup_app_l by (rewrite length_take, length_drop; lia).
  rewrite lookup_take_lt by lia. rewrite lookup_drop. f_equal. lia.
Qed.

(** ** The line discipline *)

Definition ilen (s : input) : Z := u32 (in_e s - in_r s).
Definition iwlen (s : input) : Z := u32 (in_w s - in_r s).

(** The characters in the ring, oldest first; those before [w] are lines
    entered, the rest is the line being edited. *)
Definition icontents (s : input) : list Z :=
  (fun k => in_buf s !!! Z.to_nat ((in_r s + k) mod INPUT_BUF)) <$> seqZ 0 (ilen s).
Definition entered (s : input) : list Z := take (Z.to_nat (iwlen s)) (icontents s).
Definition editing (s : input) : list Z := drop (Z.to_nat (iwlen s)) (icontents s).

Record input_ok (s : input) : Prop := {
  io_buf : length (in_buf s) = 128%nat;
  io_r : is_u32 (in_r s);
  io_w : is_u32 (in_w s);
  io_e : is_u32 (in_e s);
  io_we : iwlen s <= ilen s <= 128;
  io_nl : Forall (fun c => c <> 10) (editing s);
}.

(** What a line editor does with a character: [(lines entered, current
    line)]. *)
Definition edit_char (st : list Z * list Z) (c : Z) : list Z * list Z :=
  let '(ent, line) := st in
  if c =? C 80 then (ent, line)
  else if c =? C 85 then (ent, [])
  else if (c =? C 72) || (c =? 127) then (ent, removelast line)
  else if negb (c =? 0) && (length (ent ++ line) <? 128)%nat then
    let c := if c =? 13 then 10 else c in
    if (c =? 10) || (c =? C 68) || (length (ent ++ line) =? 127)%nat
    then (ent ++ line ++ [c], [])
    else (ent, line ++ [c])
  else (ent, line).

Lemma ilen_range s : 0 <= ilen s /\ 0 <= iwlen s.
Proof. unfold ilen, iwlen. dlia. Qed.

Lemma length_icontents s : length (icontents s) = Z.to_nat (ilen s).
Proof. unfold icontents. by rewrite length_fmap, length_seqZ. Qed.

Lemma in_back_contents s : input_ok s -> in_e s <> in_w s ->
  ilen (in_back s) = ilen s - 1 /\ iwlen s < ilen s /\ icontents (in_back s) = removelast (icontents s).
Proof.
  intros [_ Hr Hw He Hwe _] Hne. assert (ilen (in_back s) = ilen s - 1 /\ iwlen s < ilen s) as [E H]
    by (unfold ilen, iwlen, in_back in *; cbn [in_e in_r] in *; dlia).
  split_and!; [done..|]. pose proof (ilen_range s). unfold icontents. rewrite E.
  replace (seqZ 0 (ilen s)) with (seqZ 0 (ilen s - 1) ++ [ilen s - 1]).
  - rewrite fmap_app. symmetry. apply removelast_last.
  - replace (ilen s) with (ilen s - 1 + 1) at 3 by lia. rewrite seqZ_app by lia. simpl.
    do 2 f_equal.
Qed.

Lemma removelast_split {A} n (l : list A) : (n < length l)%nat ->
  take n (removelast l) = take n l /\ drop n (removelast l) = removelast (drop n l).
Proof.
  intros H. destruct l as [|x l _] using rev_ind; [simpl in H; lia|].
  rewrite length_app in H. simpl in H. rewrite removelast_last, take_app_le, drop_app_le by lia.
  by rewrite removelast_last.
Qed.

Lemma Forall_removelast {A} (P : A -> Prop) l : Forall P l -> Forall P (removelast l).
Proof.
  destruct l as [|x l _] using rev_ind; [done|]. rewrite removelast_last, Forall_app. by intros [].
Qed.

Lemma in_back_ok s : input_ok s -> in_e s <> in_w s ->
  input_ok (in_back s) /\ entered (in_back s) = entered s /\ editing (in_back s) = removelast (editing s).
Proof.
  intros Hs Hne. destruct (in_back_contents s Hs Hne) as (El & Hlt & Ec).
  pose proof (ilen_range s). change (iwlen (in_back s)) with (iwlen s) in *.
  destruct (removelast_split (Z.to_nat (iwlen s)) (icontents s)) as [Et Ed];
    [rewrite length_icontents; lia|].
  assert (entered (in_back s) = entered s /\ editing (in_back s) = removelast (editing s)) as [E1 E2]
    by (unfold entered, editing; change (iwlen (in_back s)) with (iwlen s); by rewrite Ec).
  split; [|done]. destruct Hs. constructor; rewrite ?E2; auto using Forall_removelast; [apply u32_range|].
  change (iwlen (in_back s)) with (iwlen s). lia.
Qed.

Lemma in_push_contents c s : input_ok s -> ilen s < 128 ->
  ilen (in_push c s) = ilen s + 1 /\ icontents (in_push c s) = icontents s ++ [c].
Proof.
  intros [Hb Hr Hw He Hwe _] Hlt.
  assert (ilen (in_push c s) = ilen s + 1) as E
    by (unfold ilen, in_push in *; cbn [in_e in_r] in *; dlia).
  split; [done|]. pose proof (ilen_range s). unfold icontents. rewrite E, seqZ_app, fmap_app by lia.
  simpl. f_equal.
  - apply list_fmap_ext. intros ? k [-> Hk]%lookup_seqZ. simpl.
    apply list_lookup_total_insert_ne. unfold ilen, INPUT_BUF, is_u32 in *. dlia.
  - f_equal. unfold INPUT_BUF in *.
    replace (Z.to_nat ((in_r s + (Z.of_nat 0 + (0 + ilen s))) mod 128))
      with (Z.to_nat (in_e s mod 128)) by (unfold ilen, is_u32 in *; dlia).
    apply list_lookup_total_insert_eq. rewrite Hb. dlia.
Qed.

(** [in_push], and then [in_commit] if the line ends. *)
Lemma in_push_ok c s : input_ok s -> ilen s < 128 -> c <> 10 ->
  input_ok (in_push c s) /\ entered (in_push c s) = entered s /\ editing (in_push c s) = editing s ++ [c].
Proof.
  intros Hs Hlt Hc. destruct (in_push_contents c s Hs Hlt) as [El Ec]. pose proof (ilen_range s).
  assert (Z.to_nat (iwlen s) <= length (icontents s))%nat
    by (rewrite length_icontents; pose proof (io_we _ Hs); lia).
  assert (entered (in_push c s) = entered s /\ editing (in_push c s) = editing s ++ [c]) as [E1 E2].
  { unfold entered, editing. change (iwlen (in_push c s)) with (iwlen s).
    by rewrite Ec, take_app_le, drop_app_le. }
  split; [|done]. destruct Hs as [Hb Hr Hw He Hwe Hnl].
  constructor; rewrite ?E2; auto; cbn [in_buf in_push in_e].
  - by rewrite length_insert.
  - apply u32_range.
  - change (iwlen (in_push c s)) with (iwlen s). lia.
  - apply Forall_app; auto.
Qed.

Lemma in_commit_ok c s : input_ok s -> ilen s < 128 ->
  let s' := in_commit (in_push c s) in
  input_ok s' /\ entered s' = entered s ++ editing s ++ [c] /\ editing s' = [].
Proof.
  intros Hs Hlt s'. destruct (in_push_contents c s Hs Hlt) as [El Ec]. pose proof (ilen_range s).
  assert (icontents s' = icontents s ++ [c] /\ iwlen s' = ilen s + 1 /\ ilen s' = ilen s + 1)
    as (Ec' & Ew & El') by (rewrite <- Ec, <- El; done).
  assert (editing s' = []) as Ee.
  { unfold editing. apply drop_ge. rewrite Ec', Ew, length_app, length_icontents. simpl. lia. }
  split_and!; [|unfold entered at 1, editing|done].
  - destruct Hs as [Hb Hr Hw He Hwe Hnl]. constructor; rewrite ?Ee; auto; try apply u32_range; [|lia].
    subst s'. cbn [in_buf in_commit in_push]. by rewrite length_insert.
  - rewrite app_assoc. unfold entered. rewrite take_drop. rewrite take_ge; [done|].
    rewrite Ec', Ew, length_app, length_icontents. simpl. lia.
Qed.

Lemma in_next_ok s : input_ok s -> in_r s <> in_w s ->
  input_ok (in_next s) /\ entered s = inbuf_at s (in_r s) :: entered (in_next s) /\
  editing (in_next s) = editing s.
Proof.
  intros [Hb Hr Hw He Hwe Hnl] Hne.
  assert (ilen (in_next s) = ilen s - 1 /\ iwlen (in_next s) = iwlen s - 1 /\ 0 < iwlen s) as (El & Ew & Hp)
    by (unfold ilen, iwlen, in_next in *; cbn [in_e in_r in_w] in *; dlia).
  assert (icontents s = inbuf_at s (in_r s) :: icontents (in_next s)) as Ec.
  { unfold icontents. rewrite El, seqZ_cons, fmap_cons by lia. f_equal.
    { unfold inbuf_at. by rewrite Z.add_0_r. }
    apply list_eq. intros k. rewrite !list_lookup_fmap.
    destruct (decide (Z.of_nat k < ilen s - 1)).
    - rewrite !lookup_seqZ_lt by lia. simpl. do 3 f_equal. unfold INPUT_BUF, is_u32 in *. dlia.
    - by rewrite !lookup_seqZ_ge by lia. }
  assert (editing (in_next s) = editing s) as Ee.
  { unfold editing. rewrite Ew, Ec. replace (Z.to_nat (iwlen s)) with (S (Z.to_nat (iwlen s - 1))) by lia.
    done. }
  split_and!; [|unfold entered|done].
  - constructor; rewrite ?Ee; auto; [apply u32_range|lia].
  - rewrite Ew, Ec. replace (Z.to_nat (iwlen s)) with (S (Z.to_nat (iwlen s - 1))) by lia. done.
Qed.

Definition con_ok (s : con) : Prop := input_ok (co_in s) /\ cga_ok (co_out s).2.
Definition con_lines (s : con) : list Z * list Z := (entered (co_in s), editing (co_in s)).

Lemma input_all s : input_ok s -> length (entered s ++ editing s) = Z.to_nat (ilen s).
Proof. intros Hs. unfold entered, editing. by rewrite take_drop, length_icontents. Qed.

Lemma editing_nil s : input_ok s -> in_e s = in_w s <-> editing s = [].
Proof.
  intros [_ Hr Hw He Hwe _]. pose proof (ilen_range s). split.
  - intros E. unfold editing. apply drop_ge. rewrite length_icontents. unfold ilen, iwlen in *. by rewrite E.
  - intros E%(f_equal length). unfold editing in E. rewrite length_drop, length_icontents in E. simpl in E.
    unfold ilen, iwlen, is_u32 in *. dlia.
Qed.

Lemma editing_last s : input_ok s -> in_e s <> in_w s -> inbuf_at s (u32 (in_e s - 1)) <> 10.
Proof.
  intros Hs Hne. destruct (in_back_contents s Hs Hne) as (_ & Hlt & _). destruct Hs as [_ Hr Hw He Hwe Hnl].
  pose proof (ilen_range s). eapply Forall_lookup_1 in Hnl; [exact Hnl|].
  unfold editing. rewrite lookup_drop.
  replace (Z.to_nat (iwlen s) + (Z.to_nat (ilen s - 1 - iwlen s)))%nat with (Z.to_nat (ilen s - 1)) by lia.
  unfold icontents. rewrite list_lookup_fmap, lookup_seqZ_lt by lia. simpl. f_equal. unfold inbuf_at.
  f_equal. unfold ilen, INPUT_BUF, is_u32 in *. dlia.
Qed.

(** One [con_putc] leaves everything but the output. *)
Lemma con_putc_ok c s : cga_ok (co_out s).2 ->
  wp (con_putc c) (fun _ s' => co_in s' = co_in s /\ cga_ok (co_out s').2 /\ co_wakeups s' = co_wakeups s) s.
Proof.
  intros Hg. destruct s as [i [o g] k d]. cbn [co_out snd] in Hg.
  destruct (wp_elim _ _ _ (consputc_ok c o g Hg)) as ([] & o' & E & Hg' & _).
  unfold wp, con_putc. cbn [co_out]. by rewrite E.
Qed.

Lemma kill_line_ok fuel : forall s, con_ok s -> (length (editing (co_in s)) < fuel)%nat ->
  wp (kill_line fuel) (fun _ s' => con_ok s' /\ con_lines s' = (entered (co_in s), []) /\
    co_wakeups s' = co_wakeups s) s.
Proof.
  induction fuel as [|fuel IH]; intros s [Hs Hg] Hf; [lia|]. cbn [kill_line].
  apply wp_bind, wp_gets. destruct (Z.eqb_spec (in_e (co_in s)) (in_w (co_in s))) as [E|E].
  { apply wp_ret. unfold con_lines. rewrite (proj1 (editing_nil _ Hs) E). by split_and!. }
  rewrite (proj2 (Z.eqb_neq _ 10)) by (by apply editing_last). simpl negb. simpl andb. cbv iota.
  destruct (in_back_ok _ Hs E) as (Hs' & Eent & Eed).
  apply wp_bind, wp_modify, wp_bind. eapply wp_mono; [apply con_putc_ok; exact Hg|].
  cbn [co_in co_wakeups]. intros [] s1 (E1 & Hg1 & Ew1).
  eapply wp_mono; [apply IH|].
  - split; [by rewrite E1|done].
  - rewrite E1, Eed. rewrite editing_nil in E by done.
    destruct (editing (co_in s)) as [|x l _] using rev_ind; [done|].
    rewrite removelast_last. rewrite length_app in Hf. simpl in Hf. lia.
  - intros [] s2 (H1 & H2 & H3). by rewrite H2, H3, E1, Eent, Ew1.
Qed.

Lemma cons_char_ok c s : con_ok s ->
  wp (cons_char c) (fun _ s' => con_ok s' /\ con_lines s' = edit_char (con_lines s) c /\
    (co_wakeups s <= co_wakeups s')%nat /\
    (entered (co_in s') <> entered (co_in s) -> (co_wakeups s < co_wakeups s')%nat)) s.
Proof.
  intros [Hs Hg]. unfold cons_char, edit_char, con_lines. apply wp_bind, wp_gets.
  pose proof (input_all _ Hs) as Hall. pose proof (ilen_range (co_in s)) as Hrange.
  pose proof (io_we _ Hs) as Hwe.
  destruct (c =? C 80); [by apply wp_modify|].
  destruct (c =? C 85).
  { eapply wp_mono; [apply kill_line_ok; [done|]|].
    - rewrite length_app in Hall. lia.
    - intros [] s' (H1 & [= H2 H3] & H4). split_and!; [done| |lia|congruence]. by rewrite H2, H3. }
  destruct (_ || _).
  { destruct (Z.eqb_spec (in_e (co_in s)) (in_w (co_in s))) as [E|E]; simpl negb; cbv iota.
    - apply wp_ret. split_and!; [done| |lia|done]. by rewrite (proj1 (editing_nil _ Hs) E).
    - destruct (in_back_ok _ Hs E) as (Hs' & Eent & Eed). apply wp_bind, wp_modify.
      eapply wp_mono; [apply con_putc_ok; exact Hg|]. cbn [co_in co_wakeups]. intros [] s1 (E1 & Hg1 & Ew1).
      unfold con_ok. rewrite E1, Eent, Eed. split_and!; (done || lia). }
  replace (length _ <? 128)%nat with (u32 (in_e (co_in s) - in_r (co_in s)) <? INPUT_BUF)
    by (fold (ilen (co_in s)); rewrite Hall; unfold INPUT_BUF; apply eq_true_iff_eq;
        rewrite Z.ltb_lt, Nat.ltb_lt; lia).
  fold (ilen (co_in s)). unfold INPUT_BUF.
  destruct (negb (c =? 0) && (ilen (co_in s) <? 128)) eqn:Ec; [|by apply wp_ret].
  apply andb_prop in Ec as [_ Hlt%Z.ltb_lt]. set (c' := if c =? 13 then 10 else c).
  apply wp_bind, wp_modify, wp_bind. eapply wp_mono; [apply con_putc_ok; exact Hg|].
  cbn [co_in co_wakeups]. intros [] s1 (E1 & Hg1 & Ew1). apply wp_bind, wp_gets. rewrite E1.
  replace (in_e (in_push c' (co_in s)) =? _) with (length (entered (co_in s) ++ editing (co_in s)) =? 127)%nat.
  2: { rewrite Hall. apply eq_true_iff_eq. rewrite Nat.eqb_eq, Z.eqb_eq. destruct Hs.
       unfold ilen, in_push in *. cbn [in_e in_r]. dlia. }
  destruct (_ || _) eqn:Eend.
  - apply wp_bind, wp_modify, wp_modify. cbn [co_in co_wakeups co_out]. rewrite E1.
    destruct (in_commit_ok c' _ Hs Hlt) as (H1 & -> & ->). split_and!; (done || lia).
  - apply wp_ret. rewrite !orb_false_iff, !Z.eqb_neq in Eend. destruct Eend as [[Hc _] _].
    destruct (in_push_ok c' _ Hs Hlt Hc) as (H1 & H2 & H3). unfold con_ok. rewrite E1, H2, H3. split_and!; (done || lia).
Qed.

Lemma consoleintr_ok cs : forall s, con_ok s ->
  wp (consoleintr cs) (fun _ s' => con_ok s' /\ con_lines s' = foldl edit_char (con_lines s) cs /\
    (co_wakeups s <= co_wakeups s')%nat /\
    (entered (co_in s') <> entered (co_in s) -> (co_wakeups s < co_wakeups s')%nat)) s.
Proof.
  induction cs as [|c cs IH]; intros s Hs; simpl; [apply wp_ret; by split_and!|].
  wp_use cons_char_ok; [done|]. intros [] s1 (H1 & E1 & Hle & Hw).
  eapply wp_mono; [by apply IH|]. intros [] s2 (H2 & E2 & Hle2 & Hw2). rewrite E2, E1.
  split_and!; [done|done|lia|]. intros Hne.
  destruct (decide (entered (co_in s1) = entered (co_in s))) as [E|E]; [|specialize (Hw E); lia].
  rewrite <- E in Hne. specialize (Hw2 Hne). lia.
Qed.

(** C32: the interrupt handler is a line editor: whatever is typed, it never
    panics, keeps the ring and the screen well formed, leaves in the ring what
    editing with ^U and backspace leaves, and calls [wakeup] whenever the
    characters a reader may take have changed. *)
Theorem consoleintr_edits cs s : con_ok s ->
  wp (consoleintr cs) (fun _ s' => con_ok s' /\ con_lines s' = foldl edit_char (con_lines s) cs /\
    (entered (co_in s') <> entered (co_in s) -> (co_wakeups s < co_wakeups s')%nat)) s.
Proof.
  intros Hs. eapply wp_mono; [by apply consoleintr_ok|]. intros [] s' (H1 & H2 & _ & H3). by split_and!.
Qed.

Lemma entered_nil s : input_ok s -> entered s = [] -> in_r s = in_w s.
Proof.
  intros [_ Hr Hw He Hwe _] E%(f_equal length). pose proof (ilen_range s).
  unfold entered in E. rewrite length_take, length_icontents in E. simpl in E.
  unfold ilen, iwlen, is_u32 in *. dlia.
Qed.

Lemma in_next_cons s c rest : input_ok s -> entered s = c :: rest ->
  in_r s <> in_w s /\ inbuf_at s (in_r s) = c /\ input_ok (in_next s) /\ entered (in_next s) = rest /\
  editing (in_next s) = editing s.
Proof.
  intros Hs E. assert (in_r s <> in_w s) as Hne.
  { intros Er. apply (f_equal length) in E. unfold entered, iwlen in E. by rewrite Er, Z.sub_diag in E. }
  destruct (in_next_ok s Hs Hne) as (H1 & H2 & H3). rewrite E in H2. injection H2 as -> ->. done.
Qed.

(** A character that ends no line and edits nothing. *)
Definition plain (c : Z) : bool :=
  negb (existsb (Z.eqb c) [0; C 68; C 72; 10; 13; C 80; C 85; 127]).

(** A reader that has room for a line entered gets the line. *)
Lemma consoleread_line killed line rest target : forall n s,
  input_ok s -> entered s = line ++ 10 :: rest -> Forall (fun c => plain c = true) line ->
  (length line < n <= target)%nat ->
  exists s', consoleread killed target n s =
    (Return (Z.of_nat (target - (n - S (length line)))), line ++ [10], (n - S (length line))%nat, s') /\
    input_ok s' /\ entered s' = rest /\ editing s' = editing s.
Proof.
  induction line as [|c line IH]; intros n s Hs E Hl Hn; destruct n as [|n]; simpl in Hn; try lia;
    destruct (in_next_cons s _ _ Hs E) as (Hne & Hc & Hs' & Ee & Ed); cbn [consoleread];
    rewrite (proj2 (Z.eqb_neq _ _) Hne), Hc; cbv iota.
  - exists (in_next s). simpl length. by replace (S n - 1)%nat with n by lia.
  - apply Forall_cons in Hl as [Hp Hl].
    destruct (IH n (in_next s) Hs' Ee Hl) as (s' & Er & H1 & H2 & H3); [lia|].
    unfold plain in Hp. apply negb_true_iff in Hp. cbn [existsb] in Hp. rewrite !orb_false_iff in Hp.
    destruct Hp as (_ & -> & _ & -> & _). exists s'. by rewrite Er, <- Ed.
Qed.

(** Typing plain characters only adds to the line. *)
Lemma edit_plain text : forall line, Forall (fun c => plain c = true) text ->
  (length line + length text < 128)%nat -> foldl edit_char ([], line) text = ([], line ++ text).
Proof.
  induction text as [|c text IH]; intros line Hp Hl; simpl; [by rewrite app_nil_r|].
  apply Forall_cons in Hp as [Hc Hp]. simpl in Hl.
  unfold plain in Hc. apply negb_true_iff in Hc. cbn [existsb] in Hc. rewrite !orb_false_iff in Hc.
  destruct Hc as (E1 & E2 & E3 & E4 & E5 & E6 & E7 & E8 & _).
  rewrite E1, E3, E5, E6, E7, E8. cbn [orb negb andb].
  rewrite (proj2 (Nat.ltb_lt _ _)) by lia. rewrite E2, E4, (proj2 (Nat.eqb_neq _ _)) by lia. cbn [orb].
  rewrite IH, <- app_assoc; [done..|]. rewrite length_app. simpl. lia.
Qed.

(** a line typed at an idle console is what the next read returns: up to
    126 plain characters and Return, read into a buffer with room for them. *)
Theorem console_line_roundtrip text n s :
  con_ok s -> con_lines s = ([], []) -> Forall (fun c => plain c = true) text ->
  (length text < 127)%nat -> (length text < n)%nat ->
  wp (consoleintr (text ++ [13])) (fun _ s' => exists i,
    consoleread false n n (co_in s') =
      (Return (Z.of_nat (length text + 1)), text ++ [10], (n - S (length text))%nat, i) /\
    entered i = [] /\ editing i = []) s.
Proof.
  intros Hs E Hp Hl Hn. eapply wp_mono; [by apply consoleintr_ok|]. intros [] s' ([Hi _] & El & _).
  rewrite E, foldl_app, edit_plain in El by (simpl; done || lia). simpl in El.
  rewrite (proj2 (Nat.ltb_lt _ _)) in El by lia. simpl in El. injection El as Ee Ed.
  destruct (consoleread_line false text [] n n (co_in s') Hi Ee Hp) as (i & Er & H1 & H2 & H3); [lia|].
  exists i. rewrite Er, H2, H3, Ed. split_and!; [|done..]. do 4 f_equal. lia.
Qed.

(** ** Numbers read back *)

Lemma digits_dec d : 0 <= d < 10 -> digits !!! Z.to_nat d = 48 + d.
Proof.
  intros H. assert (d = 0 \/ d = 1 \/ d = 2 \/ d = 3 \/ d = 4 \/ d = 5 \/ d = 6 \/ d = 7 \/ d = 8 \/ d = 9)
    as Hd by lia. naive_solver.
Qed.

(** [fuel] digits are enough for a number below [base^fuel], and there are no
    more digits than needed. *)
Lemma print_digits_len fuel : forall x base, 2 <= base -> 0 <= x < base ^ Z.of_nat fuel ->
  (length (print_digits fuel x base) <= fuel)%nat.
Proof.
  induction fuel as [|fuel IH]; intros x base Hb Hx; [simpl in *; lia|]. simpl.
  destruct (Z.eqb_spec (x / base) 0); [simpl; lia|]. simpl. apply le_n_S, IH; [done|].
  rewrite Nat2Z.inj_succ, Z.pow_succ_r in Hx by lia. split; [apply Z.div_pos; lia|].
  apply Z.div_lt_upper_bound; lia.
Qed.

(** More fuel prints nothing more. *)
Lemma print_digits_fuel k fuel : forall x base, 2 <= base -> 0 <= x < base ^ Z.of_nat fuel ->
  (0 < fuel)%nat -> print_digits (fuel + k) x base = print_digits fuel x base.
Proof.
  induction fuel as [|fuel IH]; intros x base Hb Hx Hf; [lia|]. simpl. f_equal.
  destruct (Z.eqb_spec (x / base) 0) as [|Hne]; [done|].
  rewrite Nat2Z.inj_succ, Z.pow_succ_r in Hx by lia.
  assert (0 <= x / base < base ^ Z.of_nat fuel).
  { split; [apply Z.div_pos; lia|]. apply Z.div_lt_upper_bound; lia. }
  apply IH; [done|done|]. destruct fuel; [|lia]. simpl in *. lia.
Qed.

Lemma atoi_loop_app fuel : forall x n rest, 0 <= x < 10 ^ Z.of_nat fuel ->
  0 <= n -> (0 < fuel)%nat ->
  n * 10 ^ Z.of_nat (length (print_digits fuel x 10)) + x < 2147483648 ->
  atoi_loop (reverse (print_digits fuel x 10) ++ rest) n =
  atoi_loop rest (n * 10 ^ Z.of_nat (length (print_digits fuel x 10)) + x).
Proof.
  induction fuel as [|fuel IH]; intros x n rest Hx Hn Hf Hb; [lia|]. clear Hf.
  rewrite Nat2Z.inj_succ, Z.pow_succ_r in Hx by lia.
  cbn [print_digits] in *. rewrite digits_dec in * by dlia.
  destruct (Z.eqb_spec (x / 10) 0) as [E|E].
  - simpl in *. rewrite (proj2 (Z.leb_le 48 _)), (proj2 (Z.leb_le _ 57)) by dlia. simpl andb. cbv iota.
    f_equal. assert (x mod 10 = x) as -> by dlia. rewrite i32_small by lia. lia.
  - simpl length in *. rewrite Nat2Z.inj_succ, Z.pow_succ_r in * by lia.
    set (k := Z.of_nat (length _)) in *. assert (0 < 10 ^ k) by (apply Z.pow_pos_nonneg; lia).
    assert (x = 10 * (x / 10) + x mod 10) as Ex by dlia. assert (0 <= x mod 10 < 10) by dlia.
    set (q := x / 10) in *. set (r := x mod 10) in *. clearbody q r. subst x.
    assert (0 < fuel)%nat by (destruct fuel; [simpl in *; lia|lia]).
    rewrite reverse_cons, <- app_assoc, IH; [|lia|lia|done|fold k; nia].
    fold k. simpl app. cbn [atoi_loop].
    rewrite (proj2 (Z.leb_le 48 _)), (proj2 (Z.leb_le _ 57)) by lia. simpl andb. cbv iota.
    f_equal. rewrite i32_small by nia. lia.
Qed.

(** what [printint] prints in decimal, [atoi] reads back. *)
Theorem printint_atoi x : 0 <= x < 2147483648 -> atoi (printint x 10 true ++ [0]) = Some x.
Proof.
  intros Hx. unfold printint. rewrite (proj2 (Z.ltb_ge x 0)) by lia.
  cbv zeta. cbn [andb]. rewrite u32_small, app_nil_r by (unfold is_u32; lia). unfold atoi. change 32%nat with (10 + 22)%nat.
  assert (0 <= x < 10 ^ Z.of_nat 10) by (change (10 ^ Z.of_nat 10) with 10000000000; lia).
  rewrite print_digits_fuel, atoi_loop_app by lia. by rewrite Z.mul_0_l.
Qed.

(** [printint] fits its buffer: for each base and sign it is called with,
    at most 16 characters are stored. *)
Theorem printint_fits xx base sign : -2147483648 <= xx < 2147483648 ->
  (base, sign) = (10, true) \/ (base, sign) = (16, false) ->
  (length (printint xx base sign) <= 16)%nat.
Proof.
  intros Hx Hb. unfold printint. rewrite length_reverse, length_app.
  assert (forall x, is_u32 x -> (length (print_digits 32 x base) <= 10)%nat) as H.
  { unfold is_u32. intros x Hu. change 32%nat with (10 + 22)%nat.
    assert (x < base ^ Z.of_nat 10)
      by (destruct Hb as [[= -> _]|[= -> _]];
          [change (10 ^ Z.of_nat 10) with 10000000000|change (16 ^ Z.of_nat 10) with 1099511627776]; lia).
    assert (2 <= base) by (destruct Hb as [[= -> _]|[= -> _]]; lia).
    rewrite print_digits_fuel by lia. apply print_digits_len; lia. }
  specialize (H _ (u32_range (if sign && (xx <? 0) then - xx else xx))).
  destruct (sign && (xx <? 0)); cbn [length]; lia.
Qed.

(** ** Instances: an idle console with a blank screen *)

Definition blank_screen : cga := Cga (replicate 2000 0) 0.
Definition idle_console : con :=
  Con (Input (replicate 128 0) 0 0 0) ([], blank_screen) 0 false.

Lemma blank_screen_ok : cga_ok blank_screen.
Proof. split; [reflexivity|simpl; lia]. Qed.

Lemma consolewrite_total_witness : exists s, consolewrite [104; 105] ([], blank_screen) = Ret 2 s /\
  s.1 = [104; 105].
Proof.
  destruct (wp_elim _ _ _ (consolewrite_total [104; 105] [] blank_screen blank_screen_ok
    ltac:(repeat constructor; unfold is_u8; lia))) as (n & s & E & Hn & Ho & _).
  rewrite Hn in E. exists s. split; [exact E|exact Ho].
Defined.

Lemma idle_console_ok : con_ok idle_console.
Proof.
  split; [|exact blank_screen_ok].
  constructor; try (vm_compute; split; congruence). by apply Forall_nil_2.
Qed.

(** "ab", backspace, "c", Return. *)
Lemma consoleintr_edits_witness : exists s, consoleintr [97; 98; 8; 99; 13] idle_console = Ret tt s /\
  con_lines s = ([97; 99; 10], []).
Proof.
  destruct (wp_elim _ _ _ (consoleintr_edits [97; 98; 8; 99; 13] idle_console idle_console_ok))
    as ([] & s & E & _ & H & _).
  exists s. split; [exact E|]. rewrite H. vm_compute. reflexivity.
Defined.

Lemma console_line_roundtrip_witness : exists s i, consoleintr [108; 115; 13] idle_console = Ret tt s /\
  consoleread false 100 100 (co_in s) = (Return 3, [108; 115; 10], 97%nat, i).
Proof.
  destruct (wp_elim _ _ _ (console_line_roundtrip [108; 115] 100 idle_console idle_console_ok eq_refl
    ltac:(repeat constructor) ltac:(simpl; lia) ltac:(simpl; lia))) as ([] & s & E & i & H & _).
  exists s, i. split; [exact E|exact H].
Defined.

Lemma printint_atoi_witness : atoi (printint 4095 10 true ++ [0]) = Some 4095.
Proof. apply (printint_atoi 4095). lia. Defined.
