(* ===== verification/Kbd.v ===== *)
(** The keyboard (kbd.c, kbd.h): scan codes to characters.

    The controller behind ports 0x60 and 0x64 is a device of Ports.v that
    holds the scan codes that have arrived ([KbdController]). The theorems
    take a line from the keys to the process that reads it: through [kbdgetc],
    the interrupt handler [kbdintr] and the console (Console.v). *)

From S2P Require Import Prelude KString Ports Pipe Console.

Definition KBSTATP : Z := 0x64.
Definition KBS_DIB : Z := 0x01.
Definition KBDATAP : Z := 0x60.
Definition NO : Z := 0.
Definition SHIFT : Z := Z.shiftl 1 0.
Definition CTL : Z := Z.shiftl 1 1.
Definition ALT : Z := Z.shiftl 1 2.
Definition CAPSLOCK : Z := Z.shiftl 1 3.
Definition NUMLOCK : Z := Z.shiftl 1 4.
Definition SCROLLLOCK : Z := Z.shiftl 1 5.
Definition E0ESC : Z := Z.shiftl 1 6.
Definition KEY_HOME : Z := 0xE0.
Definition KEY_END : Z := 0xE1.
Definition KEY_UP : Z := 0xE2.
Definition KEY_DN : Z := 0xE3.
Definition KEY_LF : Z := 0xE4.
Definition KEY_RT : Z := 0xE5.
Definition KEY_PGUP : Z := 0xE6.
Definition KEY_PGDN : Z := 0xE7.
Definition KEY_INS : Z := 0xE8.
Definition KEY_DEL : Z := 0xE9.

(** A [uchar] table of 256 entries: the first ones and those with an index. *)
Definition table (l : list Z) (at_ : list (Z * Z)) : list Z :=
  foldl (fun t e => <[Z.to_nat e.1 := u8 e.2]> t) (map u8 l ++ replicate (256 - length l) 0) at_.

Definition shiftcode : list Z :=
  table [] [(0x1D, CTL); (0x2A, SHIFT); (0x36, SHIFT); (0x38, ALT); (0x9D, CTL); (0xB8, ALT)].
Definition togglecode : list Z :=
  table [] [(0x3A, CAPSLOCK); (0x45, NUMLOCK); (0x46, SCROLLLOCK)].

Definition keypad (nl slash : Z) : list (Z * Z) :=
  [(0x9C, nl); (0xB5, slash); (0xC8, KEY_UP); (0xD0, KEY_DN); (0xC9, KEY_PGUP); (0xD1, KEY_PGDN);
   (0xCB, KEY_LF); (0xCD, KEY_RT); (0x97, KEY_HOME); (0xCF, KEY_END); (0xD2, KEY_INS); (0xD3, KEY_DEL)].

Definition normalmap : list Z := table (
  [NO; 0x1B] ++ chars "1234567890-=" ++ [8; 9] ++
  chars "qwertyuiop[]" ++ [10; NO] ++ chars "asdfghjkl;'`" ++ [NO] ++ chars "\zxcvbnm,./" ++ [NO] ++ chars "*" ++
  [NO] ++ chars " " ++ replicate 13 NO ++ chars "789-456+1230." ++ replicate 4 NO) (keypad 10 47).
Definition shiftmap : list Z := table (
  [NO; 27] ++ chars "!@#$%^&*()_+" ++ [8; 9] ++
  chars "QWERTYUIOP{}" ++ [10; NO] ++ chars "ASDFGHJKL:" ++ [34] ++ chars "~" ++ [NO] ++ chars "|ZXCVBNM<>?" ++ [NO] ++ chars "*" ++
  [NO] ++ chars " " ++ replicate 13 NO ++ chars "789-456+1230." ++ replicate 4 NO) (keypad 10 47).
Definition ctlmap : list Z := table (
  replicate 16 NO ++ map C (chars "QWERTYUIOP") ++ [NO; NO; 13; NO] ++ map C (chars "ASDFGHJKL") ++ replicate 4 NO ++
  map C (chars "\ZXCVBNM") ++ [NO; NO; C 47; NO; NO]) (keypad 13 (C 47)).

Definition charcode : list (list Z) := [normalmap; shiftmap; ctlmap; ctlmap].
Definition tbl (t : list Z) (i : Z) : Z := t !!! Z.to_nat i.

(** [kbdgetc] after it has read [data]: the new [shift] and the result. *)
Definition kbd_char (shift data : Z) : Z * Z :=
  if data =? 0xE0 then (Z.lor shift E0ESC, 0)
  else if negb (Z.land data 0x80 =? 0) then
    let data := if negb (Z.land shift E0ESC =? 0) then data else Z.land data 0x7F in
    (Z.ldiff shift (Z.lor (tbl shiftcode data) E0ESC), 0)
  else
    let esc := negb (Z.land shift E0ESC =? 0) in
    let data := if esc then Z.lor data 0x80 else data in
    let shift := if esc then Z.ldiff shift E0ESC else shift in
    let shift := Z.lor shift (tbl shiftcode data) in
    let shift := Z.lxor shift (tbl togglecode data) in
    let c := tbl (charcode !!! Z.to_nat (Z.land shift (Z.lor CTL SHIFT))) data in
    let c :=
      if negb (Z.land shift CAPSLOCK =? 0) then
        if (97 <=? c) && (c <=? 122) then c + (65 - 97)
        else if (65 <=? c) && (c <=? 90) then c + (97 - 65) else c
      else c in
    (shift, c).

Section kbd_c.
Context {D : Type} `{!Ports D}.

Record kbd := Kbd { kb_shift : Z; kb_dev : D }.
Definition on_kbd {A} (m : M D A) : M kbd A :=
  fun s => match m (kb_dev s) with Ret a d => Ret a (Kbd (kb_shift s) d) | Fail e => Fail e end.

Definition kbdgetc : M kbd Z :=
  let! st := on_kbd (inb KBSTATP) in
  if Z.land st KBS_DIB =? 0 then ret (-1)
  else
    let! data := on_kbd (inb KBDATAP) in
    let! shift := gets kb_shift in
    let (shift', c) := kbd_char shift data in
    modify (fun s => Kbd shift' (kb_dev s));;;
    ret c.

(** [kbdintr]: the handler of the console takes what [kbdgetc] delivers, until
    it returns -1. *)
Fixpoint kbd_drain (fuel : nat) : M kbd (list Z) :=
  match fuel with
  | O => fail NoFuel
  | S fuel =>
    let! c := kbdgetc in
    if c <? 0 then ret [] else let! cs := kbd_drain fuel in ret (c :: cs)
  end.
Definition kbdintr (fuel : nat) : M (kbd * con) unit := fun s =>
  match kbd_drain fuel s.1 with
  | Ret cs k => match consoleintr cs s.2 with Ret _ c => Ret tt (k, c) | Fail e => Fail e end
  | Fail e => Fail e
  end.
End kbd_c.
Arguments kbd : clear implicits.

(** ** The controller *)

Class KbdController (D : Type) `{!Ports D} := {
  kbd_codes : D -> list Z;
  kbd_status d : let (st, d') := port_in 0x64 d in
    (Z.land st 0x01 =? 0) = bool_decide (kbd_codes d = []) /\ kbd_codes d' = kbd_codes d;
  kbd_data d c cs : kbd_codes d = c :: cs -> let (v, d') := port_in 0x60 d in v = c /\ kbd_codes d' = cs;
}.

(** What a sequence of scan codes gives: the new [shift] and the results. *)
Fixpoint kbd_run (shift : Z) (codes : list Z) : Z * list Z :=
  match codes with
  | [] => (shift, [])
  | d :: codes =>
    let (shift', c) := kbd_char shift d in
    let (shift'', cs) := kbd_run shift' codes in
    (shift'', c :: cs)
  end.

Lemma kbd_run_app l1 l2 : forall shift, kbd_run shift (l1 ++ l2) =
  let (s1, c1) := kbd_run shift l1 in let (s2, c2) := kbd_run s1 l2 in (s2, c1 ++ c2).
Proof.
  induction l1 as [|d l1 IH]; intros shift; cbn [app kbd_run].
  - by destruct (kbd_run shift l2).
  - destruct (kbd_char shift d) as [s c]. rewrite IH. destruct (kbd_run s l1) as [s1 c1]. by destruct (kbd_run s1 l2).
Qed.

(** [kbd_char] on every state of the modifiers and every byte: the tables are
    not left, the state stays in seven bits, the result is a character. *)
Definition char_typed (p : Z * Z) : bool :=
  ((0 <=? p.1) && (p.1 <? 128)) && ((0 <=? p.2) && (p.2 <? 256)).
Lemma kbd_char_all : forallb (fun s => forallb (fun d => char_typed (kbd_char s d)) (seqZ 0 256)) (seqZ 0 128) = true.
Proof. vm_compute. reflexivity. Qed.
Lemma kbd_char_typed shift d : 0 <= shift < 128 -> is_u8 d ->
  let '(s, c) := kbd_char shift d in 0 <= s < 128 /\ is_u8 c.
Proof.
  intros Hs Hd. pose proof kbd_char_all as H. rewrite forallb_forall in H. specialize (H shift). rewrite forallb_forall in H.
  assert (H' : char_typed (kbd_char shift d) = true).
  { apply H; apply list_elem_of_In, elem_of_seqZ; unfold is_u8 in *; lia. }
  unfold char_typed in H'. destruct (kbd_char shift d) as [s c]. cbn in H'. unfold is_u8. lia.
Qed.

Section controller.
Context {D : Type} `{!Ports D} `{!KbdController D}.
Implicit Types s : kbd D.

Lemma wp_on_kbd {A} (m : M D A) (Q : A -> kbd D -> Prop) s :
  wp m (fun a d => Q a (Kbd (kb_shift s) d)) (kb_dev s) -> wp (on_kbd m) Q s.
Proof. unfold wp, on_kbd. by destruct (m (kb_dev s)). Qed.

Lemma kbdgetc_spec s :
  wp kbdgetc (fun c s' => match kbd_codes (kb_dev s) with
    | [] => c = -1 /\ kb_shift s' = kb_shift s /\ kbd_codes (kb_dev s') = []
    | d :: cs => (kb_shift s', c) = kbd_char (kb_shift s) d /\ kbd_codes (kb_dev s') = cs
    end) s.
Proof.
  unfold kbdgetc. apply wp_bind, wp_on_kbd. unfold wp, inb. pose proof (kbd_status (kb_dev s)) as H. unfold KBSTATP.
  destruct (port_in 0x64 (kb_dev s)) as [st d1]. destruct H as [Hst Hc]. unfold KBS_DIB. rewrite Hst.
  destruct (kbd_codes (kb_dev s)) as [|c cs] eqn:E; [by apply wp_ret|]. cbn [bool_decide].
  rewrite bool_decide_false by done. apply wp_bind, wp_on_kbd. cbn [kb_dev kb_shift]. unfold wp, inb, KBDATAP.
  pose proof (kbd_data d1 c cs Hc) as H. destruct (port_in 0x60 d1) as [v d2]. destruct H as [-> Hc2].
  apply wp_bind, wp_gets. cbn [kb_shift]. destruct (kbd_char (kb_shift s) c) as [sh r]. by apply wp_bind, wp_modify, wp_ret.
Qed.

Lemma kbd_drain_spec fuel : forall s, (length (kbd_codes (kb_dev s)) < fuel)%nat -> 0 <= kb_shift s < 128 -> Forall is_u8 (kbd_codes (kb_dev s)) ->
  wp (kbd_drain fuel) (fun cs s' => (kb_shift s', cs) = kbd_run (kb_shift s) (kbd_codes (kb_dev s)) /\ kbd_codes (kb_dev s') = []) s.
Proof.
  induction fuel as [|n IH]; intros s Hl Hs Hu; [lia|]. cbn [kbd_drain]. apply wp_bind. eapply wp_mono; [apply kbdgetc_spec|].
  intros c s1 H. destruct (kbd_codes (kb_dev s)) as [|d cs] eqn:E.
  - destruct H as (-> & Hs1 & Hc). apply wp_ret. cbn. by rewrite Hs1.
  - destruct H as [Hc Hcs]. apply Forall_cons in Hu as [Hd Hu]. pose proof (kbd_char_typed _ _ Hs Hd) as T. rewrite <- Hc in T. destruct T as [Ts Tc].
    rewrite (proj2 (Z.ltb_ge c 0)) by (unfold is_u8 in Tc; lia). apply wp_bind.
    eapply wp_mono; [apply IH; rewrite ?Hcs; [simpl in Hl; lia|done|done]|]. intros r s2 [Hr Hc2]. apply wp_ret. split; [|done].
    cbn [kbd_run]. rewrite <- Hc, <- Hcs, <- Hr. done.
Qed.
End controller.

(** ** Typing *)

(** The key of a character: with shift or without, and its scan code. *)
Definition key_for (c : Z) : option (bool * Z) :=
  match list_find (fun d => normalmap !!! d = c) (seq 1 0x5F) with
  | Some (_, d) => Some (false, Z.of_nat d)
  | None => match list_find (fun d => shiftmap !!! d = c) (seq 1 0x5F) with
            | Some (_, d) => Some (true, Z.of_nat d)
            | None => None
            end
  end.
(** The scan codes of typing [c]: the key is pressed and released, inside a
    press and release of the left shift key where it needs one. *)
Definition type_char (c : Z) : list Z :=
  match key_for c with
  | Some (false, d) => [d; d + 0x80]
  | Some (true, d) => [0x2A; d; d + 0x80; 0xAA]
  | None => []
  end.
Definition typeable (c : Z) : bool := ((32 <=? c) && (c <? 127)) || existsb (Z.eqb c) [8; 9; 10; 27].
(** What the caps lock makes of a character. *)
Definition caps (on : bool) (c : Z) : Z :=
  if on then if (97 <=? c) && (c <=? 122) then c - 32 else if (65 <=? c) && (c <=? 90) then c + 32 else c else c.
(** No key is held down; the locks are in any position. *)
Definition neutral (shift : Z) : bool := ((0 <=? shift) && (shift <? 128)) && (Z.land shift 71 =? 0).

Definition typed_ok (shift c : Z) : bool :=
  if neutral shift && typeable c then
    let (s, cs) := kbd_run shift (type_char c) in
    (s =? shift) && bool_decide (filter (.≠ 0) cs = [caps (Z.testbit shift 3) c]) && forallb (fun d => (0 <=? d) && (d <? 256)) (type_char c)
  else true.
Lemma typed_all : forallb (fun s => forallb (typed_ok s) (seqZ 0 128)) (seqZ 0 128) = true.
Proof. vm_compute. reflexivity. Qed.

Lemma type_char_spec shift c : neutral shift = true -> typeable c = true ->
  exists cs, kbd_run shift (type_char c) = (shift, cs) /\ filter (.≠ 0) cs = [caps (Z.testbit shift 3) c] /\ Forall is_u8 (type_char c).
Proof.
  intros Hn Ht. pose proof typed_all as H. rewrite forallb_forall in H. specialize (H shift). rewrite forallb_forall in H.
  assert (H' : typed_ok shift c = true).
  { apply H; apply list_elem_of_In, elem_of_seqZ; [unfold neutral in Hn; lia|]. unfold typeable in Ht. cbn [existsb] in Ht. lia. }
  unfold typed_ok in H'. rewrite Hn, Ht in H'. destruct (kbd_run shift (type_char c)) as [s cs]. cbn [andb] in H'.
  apply andb_true_iff in H' as [H' Hd]. apply andb_true_iff in H' as [Hs Hc]. apply Z.eqb_eq in Hs as ->. apply bool_decide_eq_true in Hc.
  exists cs. split_and!; [done|done|]. apply Forall_forall. intros d Hd'. rewrite forallb_forall in Hd. apply list_elem_of_In, Hd in Hd'. unfold is_u8. lia.
Qed.

Definition type_line (text : list Z) : list Z := concat (map type_char text).

Lemma type_line_spec shift text : neutral shift = true -> Forall (fun c => typeable c = true) text ->
  exists cs, kbd_run shift (type_line text) = (shift, cs) /\ filter (.≠ 0) cs = map (caps (Z.testbit shift 3)) text /\ Forall is_u8 (type_line text).
Proof.
  intros Hn. induction 1 as [|c text Hc _ IH]; [by exists []|].
  destruct (type_char_spec shift c Hn Hc) as (cs1 & E1 & F1 & U1). destruct IH as (cs2 & E2 & F2 & U2).
  exists (cs1 ++ cs2). unfold type_line in *. cbn [map concat]. rewrite kbd_run_app, E1, E2. split_and!; [done| |by apply Forall_app].
  by rewrite filter_app, F1, F2.
Qed.

(** Key releases and modifiers give 0, which the console ignores. *)
Lemma edit_zeros cs : forall st, foldl edit_char st cs = foldl edit_char st (filter (.≠ 0) cs).
Proof.
  induction cs as [|c cs IH]; intros st; [done|]. cbn [foldl]. destruct (decide (c = 0)) as [->|Hc].
  - rewrite filter_cons_False by (intros H; by apply H). rewrite IH. f_equal. by destruct st.
  - rewrite filter_cons_True by done. cbn [foldl]. apply IH.
Qed.

Lemma caps_plain on c : typeable c = true -> plain c = true -> plain (caps on c) = true.
Proof.
  intros _ Hp. unfold caps. destruct on; [|done].
  destruct ((97 <=? c) && (c <=? 122)) eqn:E1; [|destruct ((65 <=? c) && (c <=? 90)) eqn:E2; [|done]];
    unfold plain, C; cbn [existsb]; apply negb_true_iff; rewrite !orb_false_iff; split_and!; try done; apply Z.eqb_neq; lia.
Qed.


(** C34: Whatever bytes arrive, [kbdgetc] returns -1 or a character and its state
    stays within the seven modifier bits. *)
Theorem kbdgetc_typed {D} `{!Ports D} `{!KbdController D} (k : kbd D) :
  0 <= kb_shift k < 128 -> Forall is_u8 (kbd_codes (kb_dev k)) ->
  wp kbdgetc (fun c k' => -1 <= c < 256 /\ 0 <= kb_shift k' < 128 /\ Forall is_u8 (kbd_codes (kb_dev k')) /\
    (c = -1 <-> kbd_codes (kb_dev k) = [])) k.
Proof.
  intros Hs Hu. eapply wp_mono; [apply kbdgetc_spec|]. intros c k' H. destruct (kbd_codes (kb_dev k)) as [|d cs].
  - destruct H as (-> & -> & ->). split_and!; try done; lia.
  - destruct H as [H ->]. apply Forall_cons in Hu as [Hd Hu]. pose proof (kbd_char_typed _ _ Hs Hd) as T. rewrite <- H in T.
    destruct T as [T1 T2]. unfold is_u8 in T2. split_and!; try done; try lia. split; [lia|done].
Qed.

(** *** A controller that holds a list of scan codes *)

#[local] Instance list_ports : Ports (list Z) := {|
  port_in p l := if p =? 0x64 then (match l with [] => 0 | _ => 1 end, l) else match l with [] => (0, []) | c :: l => (c, l) end;
  port_out _ _ l := l; port_in32 _ l := (0, l); port_out32 _ _ l := l |}.
#[local, refine] Instance list_controller : KbdController (list Z) := {| kbd_codes := id |}.
Proof.
  - intros [|c l]; done.
  - intros l c cs E. unfold id in E. by subst.
Defined.


Lemma kbdgetc_typed_witness : exists c k', kbdgetc (Kbd SHIFT [0xFF; 0x1E]) = Ret c k' /\ -1 <= c < 256 /\ 0 <= kb_shift k' < 128.
Proof.
  destruct (wp_elim _ _ _ (kbdgetc_typed (Kbd SHIFT [0xFF; 0x1E]) ltac:(by vm_compute)
    ltac:(repeat constructor; unfold is_u8; lia))) as (c & k' & E & H1 & H2 & _).
  by exists c, k'.
Defined.
