(* ===== verification/Uart.v ===== *)
(** The serial port (uart.c).

    The device behind ports 0x3f8 to 0x3fd is one of Ports.v with the
    documented behaviour of an 8250 ([Uart8250]), seen through its registers:
    the bytes received and sent, the status reads until the transmitter is
    free, the line control register, the divisor and the interrupt enable
    register. [ua_irqs] records the calls of [ioapicenable]. *)

From S2P Require Import Prelude Params KString Ports Pipe Console.

Definition COM1 : Z := 0x3f8.

Section uart_c.
Context {D : Type} `{!Ports D}.

Record uart := Uart { ua_uart : bool; ua_irqs : list (Z * Z); ua_dev : D }.
Definition on_uart {A} (m : M D A) : M uart A :=
  fun s => match m (ua_dev s) with Ret a d => Ret a (Uart (ua_uart s) (ua_irqs s) d) | Fail e => Fail e end.

(** [for(i = 0; i < 128 && !(inb(COM1+5) & 0x20); i++) microdelay(10);] *)
Fixpoint uart_poll (n : nat) : M uart unit :=
  match n with
  | O => ret tt
  | S n =>
    let! st := on_uart (inb (COM1 + 5)) in
    if Z.land st 0x20 =? 0 then uart_poll n else ret tt
  end.
Definition uartputc (c : Z) : M uart unit :=
  let! u := gets ua_uart in
  if negb u then ret tt
  else uart_poll 128;;; on_uart (outb (COM1 + 0) c).

Fixpoint uart_puts (l : list Z) : M uart unit :=
  match l with [] => ret tt | c :: l => uartputc c;;; uart_puts l end.

Definition uartinit : M uart unit :=
  on_uart (outb (COM1 + 2) 0);;;
  on_uart (outb (COM1 + 3) 0x80);;;
  on_uart (outb (COM1 + 0) (115200 / 9600));;;
  on_uart (outb (COM1 + 1) 0);;;
  on_uart (outb (COM1 + 3) 0x03);;;
  on_uart (outb (COM1 + 4) 0);;;
  on_uart (outb (COM1 + 1) 0x01);;;
  let! st := on_uart (inb (COM1 + 5)) in
  if st =? 0xFF then ret tt
  else
    modify (fun s => Uart true (ua_irqs s) (ua_dev s));;;
    let! _ := on_uart (inb (COM1 + 2)) in
    let! _ := on_uart (inb (COM1 + 0)) in
    modify (fun s => Uart (ua_uart s) (ua_irqs s ++ [(IRQ_COM1, 0)]) (ua_dev s));;;
    uart_puts (chars "xv6..." ++ [10]).

Definition uartgetc : M uart Z :=
  let! u := gets ua_uart in
  if negb u then ret (-1)
  else
    let! st := on_uart (inb (COM1 + 5)) in
    if Z.land st 0x01 =? 0 then ret (-1) else on_uart (inb (COM1 + 0)).

(** [uartintr]: the handler of the console takes what [uartgetc] delivers,
    until it returns -1. *)
Fixpoint uart_drain (fuel : nat) : M uart (list Z) :=
  match fuel with
  | O => fail NoFuel
  | S fuel =>
    let! c := uartgetc in
    if c <? 0 then ret [] else let! cs := uart_drain fuel in ret (c :: cs)
  end.
Definition uartintr (fuel : nat) : M (uart * con) unit := fun s =>
  match uart_drain fuel s.1 with
  | Ret cs u => match consoleintr cs s.2 with Ret _ c => Ret tt (u, c) | Fail e => Fail e end
  | Fail e => Fail e
  end.
End uart_c.
Arguments uart : clear implicits.
#[local] Arguments uart_poll : simpl never.

(** ** The device *)

Record u8250 := U8250 {
  u_rx : list Z;
  u_tx : list Z;
  u_busy : nat;
  u_lcr : Z;
  u_div : Z * Z;
  u_ier : Z;
}.
Definition u_dlab (u : u8250) : bool := Z.testbit (u_lcr u) 7.
Definition set_rx (l : list Z) (u : u8250) : u8250 := U8250 l (u_tx u) (u_busy u) (u_lcr u) (u_div u) (u_ier u).
Definition set_ubusy (n : nat) (u : u8250) : u8250 := U8250 (u_rx u) (u_tx u) n (u_lcr u) (u_div u) (u_ier u).
Definition send (c : Z) (n : nat) (u : u8250) : u8250 := U8250 (u_rx u) (u_tx u ++ [c]) n (u_lcr u) (u_div u) (u_ier u).
Definition set_lcr (v : Z) (u : u8250) : u8250 := U8250 (u_rx u) (u_tx u) (u_busy u) v (u_div u) (u_ier u).
Definition set_div (v : Z * Z) (u : u8250) : u8250 := U8250 (u_rx u) (u_tx u) (u_busy u) (u_lcr u) v (u_ier u).
Definition set_ier (v : Z) (u : u8250) : u8250 := U8250 (u_rx u) (u_tx u) (u_busy u) (u_lcr u) (u_div u) v.

Class Uart8250 (D : Type) `{!Ports D} (delay : nat) := {
  uart_of : D -> u8250;
  uart_lsr d : let (v, d') := port_in 0x3fd d in v <> 0xFF /\
    (Z.land v 0x01 =? 0) = bool_decide (u_rx (uart_of d) = []) /\
    (Z.land v 0x20 =? 0) = negb (u_busy (uart_of d) =? 0)%nat /\ uart_of d' = set_ubusy (pred (u_busy (uart_of d))) (uart_of d);
  uart_rbr d : u_dlab (uart_of d) = false -> let (v, d') := port_in 0x3f8 d in
    match u_rx (uart_of d) with [] => uart_of d' = uart_of d | c :: l => v = c /\ uart_of d' = set_rx l (uart_of d) end;
  uart_iir d : let (v, d') := port_in 0x3fa d in uart_of d' = uart_of d;
  uart_thr d c : u_dlab (uart_of d) = false -> u_busy (uart_of d) = O ->
    exists n, (n <= delay)%nat /\ uart_of (port_out 0x3f8 c d) = send c n (uart_of d);
  uart_dll d c : u_dlab (uart_of d) = true -> uart_of (port_out 0x3f8 c d) = set_div (c, (u_div (uart_of d)).2) (uart_of d);
  uart_dlm d c : u_dlab (uart_of d) = true -> uart_of (port_out 0x3f9 c d) = set_div ((u_div (uart_of d)).1, c) (uart_of d);
  uart_ier d c : u_dlab (uart_of d) = false -> uart_of (port_out 0x3f9 c d) = set_ier c (uart_of d);
  uart_lcr d c : uart_of (port_out 0x3fb c d) = set_lcr c (uart_of d);
  uart_other d p c : p = 0x3fa \/ p = 0x3fc -> uart_of (port_out p c d) = uart_of d;
}.

Section device.
Context {D : Type} `{!Ports D} {delay : nat} `{!Uart8250 D delay} (Hdelay : (delay < 128)%nat).
Implicit Types s : uart D.

Lemma wp_on_uart {A} (m : M D A) (Q : A -> uart D -> Prop) s :
  wp m (fun a d => Q a (Uart (ua_uart s) (ua_irqs s) d)) (ua_dev s) -> wp (on_uart m) Q s.
Proof. unfold wp, on_uart. by destruct (m (ua_dev s)). Qed.

Lemma uart_poll_spec n u irqs : forall d, (u_busy (uart_of d) < n)%nat ->
  wp (uart_poll n) (fun _ s' => exists d', s' = Uart u irqs d' /\ uart_of d' = set_ubusy 0 (uart_of d)) (Uart u irqs d).
Proof.
  induction n as [|n IH]; intros d Hb; [lia|]. unfold uart_poll; fold (uart_poll (D := D)). apply wp_bind, wp_on_uart, wp_inb. cbn.
  pose proof (uart_lsr d) as H. change (COM1 + 5) with 0x3fd. destruct (port_in 0x3fd d) as [v d']. cbn. destruct H as (_ & _ & -> & Hd').
  destruct (u_busy (uart_of d)) as [|k] eqn:E; cbn [Nat.eqb negb].
  - apply wp_ret. exists d'. split; [done|]. exact Hd'.
  - eapply wp_mono; [apply IH; rewrite Hd'; cbn; lia|]. intros [] s' (d'' & -> & E'). exists d''. split; [done|]. by rewrite E', Hd'.
Qed.

(** The transmitter is set up, and what has been sent. *)
Lemma uartputc_spec c irqs d : u_dlab (uart_of d) = false -> (u_busy (uart_of d) <= delay)%nat ->
  wp (uartputc c) (fun _ s' => exists d' n, s' = Uart true irqs d' /\ (n <= delay)%nat /\ uart_of d' = send (u8 c) n (uart_of d)) (Uart true irqs d).
Proof.
  intros Hl Hb. unfold uartputc. apply wp_bind, wp_gets. cbn [ua_uart negb]. apply wp_bind. eapply wp_mono; [apply uart_poll_spec; lia|].
  intros [] s' (d1 & -> & E1). apply wp_on_uart, wp_modify. cbn. change (COM1 + 0) with 0x3f8.
  destruct (uart_thr d1 (u8 c)) as (n & Hn & E2); [by rewrite E1|by rewrite E1|].
  eexists _, n. split; [done|]. split; [done|]. by rewrite E2, E1.
Qed.

Lemma uart_puts_spec l irqs : forall d, u_dlab (uart_of d) = false -> (u_busy (uart_of d) <= delay)%nat ->
  wp (uart_puts l) (fun _ s' => exists d' n, s' = Uart true irqs d' /\ (n <= delay)%nat /\
    uart_of d' = U8250 (u_rx (uart_of d)) (u_tx (uart_of d) ++ map u8 l) n (u_lcr (uart_of d)) (u_div (uart_of d)) (u_ier (uart_of d))) (Uart true irqs d).
Proof.
  induction l as [|c l IH]; intros d Hl Hb; cbn [uart_puts].
  - apply wp_ret. exists d, (u_busy (uart_of d)). split_and!; [done|done|]. rewrite app_nil_r. by destruct (uart_of d).
  - apply wp_bind. eapply wp_mono; [by apply uartputc_spec|]. intros [] s' (d1 & n & -> & Hn & E1).
    eapply wp_mono; [apply IH; by rewrite E1|]. intros [] s' (d2 & n2 & -> & Hn2 & E2). exists d2, n2. split_and!; [done|done|].
    rewrite E2, E1. cbn. by rewrite <- app_assoc.
Qed.

(** The serial port is set up for 9600 baud, 8 bits and receive interrupts,
    and announces the kernel: every character of the message is sent although
    the transmitter is slow. Characters received before are lost but for the
    queue behind the first. *)
Theorem uartinit_announces b irqs d : (u_busy (uart_of d) <= delay)%nat ->
  wp uartinit (fun _ s' => ua_uart s' = true /\ ua_irqs s' = irqs ++ [(4, 0)] /\ let u := uart_of (ua_dev s') in
    u_div u = (12, 0) /\ u_lcr u = 3 /\ u_ier u = 1 /\ u_tx u = u_tx (uart_of d) ++ chars "xv6..." ++ [10] /\ u_rx u = tail (u_rx (uart_of d)))
    (Uart b irqs d).
Proof.
  intros Hb. unfold uartinit. change (COM1 + 0) with 0x3f8. change (COM1 + 1) with 0x3f9. change (COM1 + 2) with 0x3fa.
  change (COM1 + 3) with 0x3fb. change (COM1 + 4) with 0x3fc. change (COM1 + 5) with 0x3fd.
  apply wp_bind, wp_on_uart, wp_modify. pose proof (uart_other (delay := delay) d 0x3fa (u8 0) ltac:(by left)) as E. cbn [ua_uart ua_irqs ua_dev].
  set (d1 := port_out 0x3fa _ d) in *. clearbody d1.
  apply wp_bind, wp_on_uart, wp_modify. pose proof (uart_lcr (delay := delay) d1 (u8 0x80)) as E1. rewrite E in E1. cbn [ua_uart ua_irqs ua_dev].
  set (d2 := port_out 0x3fb _ d1) in *. clearbody d2.
  apply wp_bind, wp_on_uart, wp_modify. pose proof (uart_dll (delay := delay) d2 (u8 (115200 / 9600)) ltac:(by rewrite E1)) as E2. rewrite E1 in E2. cbn [ua_uart ua_irqs ua_dev].
  set (d3 := port_out 0x3f8 _ d2) in *. clearbody d3.
  apply wp_bind, wp_on_uart, wp_modify. pose proof (uart_dlm (delay := delay) d3 (u8 0) ltac:(by rewrite E2)) as E3. rewrite E2 in E3. cbn [ua_uart ua_irqs ua_dev].
  set (d4 := port_out 0x3f9 _ d3) in *. clearbody d4.
  apply wp_bind, wp_on_uart, wp_modify. pose proof (uart_lcr (delay := delay) d4 (u8 0x03)) as E4. rewrite E3 in E4. cbn [ua_uart ua_irqs ua_dev].
  set (d5 := port_out 0x3fb _ d4) in *. clearbody d5.
  apply wp_bind, wp_on_uart, wp_modify. pose proof (uart_other (delay := delay) d5 0x3fc (u8 0) ltac:(by right)) as E5. rewrite E4 in E5. cbn [ua_uart ua_irqs ua_dev].
  set (d6 := port_out 0x3fc _ d5) in *. clearbody d6.
  apply wp_bind, wp_on_uart, wp_modify. pose proof (uart_ier (delay := delay) d6 (u8 0x01) ltac:(by rewrite E5)) as E6. rewrite E5 in E6. cbn [ua_uart ua_irqs ua_dev].
  set (d7 := port_out 0x3f9 _ d6) in *. clearbody d7. clear E E1 E2 E3 E4 E5 d1 d2 d3 d4 d5 d6.
  apply wp_bind, wp_on_uart, wp_inb. cbn [ua_uart ua_irqs ua_dev]. pose proof (uart_lsr d7) as L. destruct (port_in 0x3fd d7) as [v d8].
  destruct L as (Hv & _ & _ & E8). cbn [fst snd]. rewrite (proj2 (Z.eqb_neq _ _) Hv), E6 in *. apply wp_bind, wp_modify. cbn [ua_uart ua_irqs ua_dev].
  apply wp_bind, wp_on_uart, wp_inb. cbn [ua_uart ua_irqs ua_dev]. pose proof (uart_iir d8) as E9. destruct (port_in 0x3fa d8) as [v9 d9]. cbn [fst snd].
  apply wp_bind, wp_on_uart, wp_inb. cbn [ua_uart ua_irqs ua_dev]. pose proof (uart_rbr d9) as R. rewrite E9, E8 in R. specialize (R eq_refl).
  destruct (port_in 0x3f8 d9) as [v10 d10]. cbn [fst snd]. apply wp_bind, wp_modify. cbn [ua_uart ua_irqs ua_dev].
  assert (E10 : uart_of d10 = U8250 (tail (u_rx (uart_of d))) (u_tx (uart_of d)) (pred (u_busy (uart_of d))) 3 (12, 0) 1).
  { cbn in R. destruct (u_rx (uart_of d)) eqn:Erx; [|destruct R as [_ R]]; rewrite R; [|done]. unfold set_ubusy. cbn. by rewrite Erx. }
  eapply wp_mono; [apply uart_puts_spec; rewrite E10; cbn; [done|lia]|]. intros [] s' (d' & n & -> & Hn & E'). cbn [ua_uart ua_irqs ua_dev].
  rewrite E', E10. done.
Qed.

(** What has arrived at the serial port is typed at the console. *)
Lemma uart_drain_spec fuel irqs : forall d, (length (u_rx (uart_of d)) < fuel)%nat -> Forall is_u8 (u_rx (uart_of d)) -> u_dlab (uart_of d) = false ->
  wp (uart_drain fuel) (fun cs s' => cs = u_rx (uart_of d) /\ u_rx (uart_of (ua_dev s')) = []) (Uart true irqs d).
Proof.
  induction fuel as [|n IH]; intros d Hl Hu Hd; [lia|]. cbn [uart_drain]. apply wp_bind. unfold uartgetc. apply wp_bind, wp_gets. cbn [ua_uart negb].
  apply wp_bind, wp_on_uart, wp_inb. cbn [ua_uart ua_irqs ua_dev]. change (COM1 + 5) with 0x3fd. change (COM1 + 0) with 0x3f8.
  pose proof (uart_lsr d) as L. destruct (port_in 0x3fd d) as [v d1]. destruct L as (_ & L & _ & E1). cbn [fst snd]. rewrite L.
  destruct (u_rx (uart_of d)) as [|c l] eqn:E.
  - rewrite bool_decide_true by done. apply wp_ret, wp_ret. split; [done|]. cbn. by rewrite E1.
  - rewrite bool_decide_false by done. apply wp_on_uart, wp_inb. cbn [ua_uart ua_irqs ua_dev].
    pose proof (uart_rbr d1) as R. rewrite E1 in R. specialize (R Hd). cbn in R. rewrite E in R. destruct (port_in 0x3f8 d1) as [w d2]. cbn [fst snd].
    destruct R as [-> E2]. apply Forall_cons in Hu as [Hc Hu]. rewrite (proj2 (Z.ltb_ge c 0)) by (unfold is_u8 in Hc; lia). apply wp_bind.
    eapply wp_mono; [apply IH; rewrite E2; cbn in *; [lia|done|done]|]. intros cs s' [-> Hr]. apply wp_ret. by rewrite E2.
Qed.

(** The bytes of the serial line are the input of the console's line editor,
    in order. *)
Theorem uartintr_types irqs d (s : con) fuel : (length (u_rx (uart_of d)) < fuel)%nat -> Forall is_u8 (u_rx (uart_of d)) -> u_dlab (uart_of d) = false -> con_ok s ->
  wp (uartintr fuel) (fun _ us => u_rx (uart_of (ua_dev us.1)) = [] /\ con_ok us.2 /\ con_lines us.2 = foldl edit_char (con_lines s) (u_rx (uart_of d)))
    (Uart true irqs d, s).
Proof.
  intros Hl Hu Hd Hs. destruct (wp_elim _ _ _ (uart_drain_spec fuel irqs d Hl Hu Hd)) as (cs & u & Eu & -> & Hr).
  destruct (wp_elim _ _ _ (consoleintr_ok (u_rx (uart_of d)) s Hs)) as ([] & s' & Ec & Hok & Hed & _).
  unfold wp, uartintr. cbn [fst snd]. rewrite Eu, Ec. done.
Qed.
End device.

(** *** A device with the contract: the transmitter is busy for three reads *)

#[local] Instance sim_uart_ports : Ports u8250 := {|
  port_in p u :=
    if p =? 0x3fd then ((match u_rx u with [] => 0 | _ => 1 end) + (if (u_busy u =? 0)%nat then 0x20 else 0), set_ubusy (pred (u_busy u)) u)
    else if p =? 0x3f8 then match u_rx u with [] => (0, u) | c :: l => (c, set_rx l u) end else (0, u);
  port_out p v u :=
    if p =? 0x3f8 then if u_dlab u then set_div (v, (u_div u).2) u else send v 3 u
    else if p =? 0x3f9 then if u_dlab u then set_div ((u_div u).1, v) u else set_ier v u
    else if p =? 0x3fb then set_lcr v u else u;
  port_in32 _ u := (0, u); port_out32 _ _ u := u |}.
#[local, refine] Instance sim_uart : Uart8250 u8250 3 := {| uart_of := id |}.
Proof.
  - intros u. cbn. unfold id. by destruct (u_rx u), (u_busy u).
  - intros u _. cbn. unfold id. by destruct (u_rx u).
  - done.
  - intros u c Hl Hb. exists 3%nat. split; [lia|]. cbn. unfold id in *. by rewrite Hl.
  - intros u c Hl. cbn. unfold id in *. by rewrite Hl.
  - intros u c Hl. cbn. unfold id in *. by rewrite Hl.
  - intros u c Hl. cbn. unfold id in *. by rewrite Hl.
  - done.
  - intros u p c [->| ->]; done.
Defined.

Lemma uartinit_announces_witness : exists s', uartinit (Uart false [] (U8250 [7; 8] [] 2 0 (0, 0) 0)) = Ret tt s' /\
  u_tx (ua_dev s') = chars "xv6..." ++ [10] /\ u_rx (ua_dev s') = [8].
Proof.
  destruct (wp_elim _ _ _ (uartinit_announces (delay := 3) ltac:(lia) false [] (U8250 [7; 8] [] 2 0 (0, 0) 0) ltac:(cbn; lia)))
    as ([] & s' & E & _ & _ & _ & _ & _ & H1 & H2).
  exists s'. split; [exact E|]. by split.
Defined.
