(* ===== verification/Cmos.v ===== *)
(** The real-time clock (lapic.c: cmos_read, fill_rtcdate, cmostime).

    [RtcClock] states the documented behaviour of the clock behind the ports
    0x70 and 0x71, through the view [rtc_of]: the time in seconds, the number
    of port accesses until the clock ticks, and the selected register. A tick
    can fall between any two accesses; there are at least a hundred accesses
    between two ticks, and the update-in-progress bit announces a tick at most
    forty accesses ahead. The calendar is a parameter. *)

From S2P Require Import Prelude Params Ports.

Definition CMOS_PORT : Z := 0x70.
Definition CMOS_RETURN : Z := 0x71.
Definition CMOS_STATA : Z := 0x0a.
Definition CMOS_STATB : Z := 0x0b.
Definition CMOS_UIP : Z := Z.shiftl 1 7.
Definition SECS : Z := 0x00.
Definition MINS : Z := 0x02.
Definition HOURS : Z := 0x04.
Definition DAY : Z := 0x07.
Definition MONTH : Z := 0x08.
Definition YEAR : Z := 0x09.

(** [struct rtcdate] *)
Record rtcdate := Rtcdate { second : Z; minute : Z; hour : Z; day : Z; month : Z; year : Z }.
#[export] Instance rtcdate_eq_dec : EqDecision rtcdate.
Proof. solve_decision. Defined.

Section lapic_c.
Context {D : Type} `{!Ports D}.

Definition cmos_read (reg : Z) : M D Z := outb CMOS_PORT reg;;; inb CMOS_RETURN.

Definition fill_rtcdate : M D rtcdate :=
  let! s := cmos_read SECS in
  let! mi := cmos_read MINS in
  let! h := cmos_read HOURS in
  let! d := cmos_read DAY in
  let! mo := cmos_read MONTH in
  let! y := cmos_read YEAR in
  ret (Rtcdate s mi h d mo y).

(** The loop: make sure CMOS doesn't modify time while we read it. *)
Fixpoint cmos_loop (fuel : nat) : M D rtcdate :=
  match fuel with
  | O => fail NoFuel
  | S fuel =>
    let! t1 := fill_rtcdate in
    let! a := cmos_read CMOS_STATA in
    if negb (Z.land a CMOS_UIP =? 0) then cmos_loop fuel
    else
      let! t2 := fill_rtcdate in
      if bool_decide (t1 = t2) then ret t1 else cmos_loop fuel
  end.

Definition CONV (x : Z) : Z := u32 (u32 (Z.shiftr x 4 * 10) + Z.land x 0xf).

Definition cmostime (fuel : nat) : M D rtcdate :=
  let! sb := cmos_read CMOS_STATB in
  let bcd := Z.land sb (Z.shiftl 1 2) =? 0 in
  let! t := cmos_loop fuel in
  let t :=
    if bcd then Rtcdate (CONV (second t)) (CONV (minute t)) (CONV (hour t)) (CONV (day t)) (CONV (month t)) (CONV (year t))
    else t in
  ret (Rtcdate (second t) (minute t) (hour t) (day t) (month t) (u32 (year t + 2000))).
End lapic_c.

(** ** The device *)

Record rtc := Rtc { r_time : Z; r_next : nat; r_sel : Z; r_statb : Z }.

(** One access goes by. *)
Definition passes (r r' : rtc) : Prop :=
  r_sel r' = r_sel r /\ r_statb r' = r_statb r /\
  match r_next r with
  | O => r_time r' = r_time r + 1 /\ (100 <= r_next r')%nat
  | S k => r_time r' = r_time r /\ r_next r' = k
  end.
Definition select (v : Z) (r : rtc) : rtc := Rtc (r_time r) (r_next r) v (r_statb r).

(** How a number is stored: binary, or as two decimal digits. *)
Definition enc (statb x : Z) : Z := if Z.testbit statb 2 then x else x / 10 * 16 + x mod 10.

Class Calendar (date : Z -> rtcdate) := {
  cal_second t : second (date t) = t mod 60;
  cal_small t : Forall (fun x => 0 <= x < 100) [second (date t); minute (date t); hour (date t); day (date t); month (date t); year (date t)];
}.

Definition reg_value (date : Z -> rtcdate) (r : rtc) : option Z :=
  let v f := Some (enc (r_statb r) (f (date (r_time r)))) in
  let s := r_sel r in
  if s =? 0x00 then v second else if s =? 0x02 then v minute else if s =? 0x04 then v hour
  else if s =? 0x07 then v day else if s =? 0x08 then v month else if s =? 0x09 then v year
  else if s =? 0x0b then Some (r_statb r) else None.

Class RtcClock (date : Z -> rtcdate) (D : Type) `{!Ports D} := {
  rtc_of : D -> rtc;
  rtc_select d v : exists r, passes (rtc_of d) r /\ rtc_of (port_out 0x70 v d) = select v r;
  rtc_read d : let (v, d') := port_in 0x71 d in passes (rtc_of d) (rtc_of d') /\
    match reg_value date (rtc_of d) with
    | Some x => v = x
    | None => r_sel (rtc_of d) = 0x0a -> exists ahead, (ahead <= 40)%nat /\ (Z.land v 0x80 =? 0) = negb (r_next (rtc_of d) <? ahead)%nat
    end;
}.

(** [k] accesses go by; at most one tick falls among a hundred. *)
Inductive ops : nat -> rtc -> rtc -> Prop :=
  | ops_0 r : ops 0 r r
  | ops_S k r r1 r2 v : ops k r r1 -> passes r1 r2 -> ops (S k) r (select v r2).

Lemma ops_spec k r r' : ops k r r' -> (k <= 100)%nat -> r_statb r' = r_statb r /\
  ((k <= r_next r /\ r_time r' = r_time r /\ r_next r' = r_next r - k)%nat \/
   (r_next r < k)%nat /\ r_time r' = r_time r + 1 /\ (100 <= r_next r' + k)%nat).
Proof.
  induction 1 as [r|k r r1 r2 v H IH (_ & Hb & Hp)]; intros Hk; [split; [done|left; lia]|].
  destruct IH as [Hb1 Hc]; [lia|]. cbn [select r_time r_next r_statb]. split; [congruence|].
  destruct Hc as [(C1 & C2 & C3)|(C1 & C2 & C3)]; destruct (r_next r1) as [|m] eqn:E; destruct Hp as [P1 P2]; try lia.
Qed.

(** The time after [j] accesses, as long as there is at most one tick. *)
Definition at_op (r : rtc) (j : nat) : Z := r_time r + if (r_next r <? j)%nat then 1 else 0.

Lemma ops_at k r r' : ops k r r' -> (k <= 100)%nat -> r_time r' = at_op r k.
Proof. intros H Hk. destruct (ops_spec k r r' H Hk) as [_ H']. unfold at_op. destruct (Nat.ltb_spec (r_next r) k); lia. Qed.
Lemma at_op_ops k j r r' : ops k r r' -> (k + j <= 100)%nat -> at_op r' j = at_op r (k + j).
Proof.
  intros H Hk. destruct (ops_spec k r r' H) as [_ H']; [lia|]. unfold at_op.
  destruct (Nat.ltb_spec (r_next r') j), (Nat.ltb_spec (r_next r) (k + j)); lia.
Qed.
Lemma ops_app k m r r1 r2 : ops k r r1 -> ops m r1 r2 -> ops (k + m) r r2.
Proof.
  intros H. induction 1 as [|m r1 r3 r4 v H' IH Hp]; [by rewrite Nat.add_0_r|]. rewrite Nat.add_succ_r. by econstructor; [apply IH|].
Qed.

Definition encdate (statb : Z) (t : rtcdate) : rtcdate :=
  Rtcdate (enc statb (second t)) (enc statb (minute t)) (enc statb (hour t)) (enc statb (day t)) (enc statb (month t)) (enc statb (year t)).

Lemma enc_inj statb x y : 0 <= x < 100 -> 0 <= y < 100 -> enc statb x = enc statb y -> x = y.
Proof. intros Hx Hy. unfold enc. destruct (Z.testbit statb 2); [done|]. intros E. dlia. Qed.
Lemma CONV_enc statb x : 0 <= x < 100 -> Z.testbit statb 2 = false -> CONV (enc statb x) = x.
Proof.
  intros Hx Hb. unfold enc. rewrite Hb. unfold CONV. change 0xf with (Z.ones 4). rewrite Z.land_ones, Z.shiftr_div_pow2 by lia. change (2 ^ 4) with 16.
  replace ((x / 10 * 16 + x mod 10) / 16) with (x / 10) by dlia. replace ((x / 10 * 16 + x mod 10) mod 16) with (x mod 10) by dlia.
  rewrite !u32_small by (unfold is_u32; dlia). dlia.
Qed.

Section clock.
Context {date : Z -> rtcdate} {D : Type} `{!Ports D} `{!Calendar date} `{!RtcClock date D}.

Lemma cmos_read_spec reg d : 0 <= reg < 256 -> wp (cmos_read reg) (fun v d' => exists r1,
  ops 1 (rtc_of d) r1 /\ r_sel r1 = reg /\ ops 2 (rtc_of d) (rtc_of d') /\
  match reg_value date r1 with
  | Some x => v = x
  | None => r_sel r1 = 0x0a -> exists ahead, (ahead <= 40)%nat /\ (Z.land v 0x80 =? 0) = negb (r_next r1 <? ahead)%nat
  end) d.
Proof.
  intros Hreg. unfold cmos_read. apply wp_bind, wp_modify. rewrite u8_small by (unfold is_u8; lia). unfold CMOS_PORT, CMOS_RETURN.
  destruct (rtc_select d reg) as (r & Hp & E). assert (O1 : ops 1 (rtc_of d) (select reg r)) by (by econstructor; [constructor|]).
  unfold wp, inb. pose proof (rtc_read (port_out 0x70 reg d)) as H. destruct (port_in 0x71 _) as [v d']. rewrite E in H. destruct H as [Hp' Hv].
  exists (select reg r). split_and!; [done|done| |done]. assert (rtc_of d' = select (r_sel (rtc_of d')) (rtc_of d')) as -> by (by destruct (rtc_of d')).
  by econstructor.
Qed.

(** A register of the date, read in the second of two accesses. *)
Lemma read_field (f : rtcdate -> Z) reg d k r : 0 <= reg < 256 -> ops k r (rtc_of d) -> (k <= 98)%nat ->
  (forall r1, r_sel r1 = reg -> reg_value date r1 = Some (enc (r_statb r1) (f (date (r_time r1))))) ->
  wp (cmos_read reg) (fun v d' => v = enc (r_statb r) (f (date (at_op r (k + 1)))) /\ ops (k + 2) r (rtc_of d')) d.
Proof.
  intros Hreg O Hk Hf. eapply wp_mono; [by apply cmos_read_spec|]. intros v d' (r1 & O1 & Hs & O2 & Hv). rewrite (Hf r1 Hs) in Hv.
  split; [|by eapply ops_app]. pose proof (ops_app _ _ _ _ _ O O1) as O'. destruct (ops_spec _ _ _ O') as [-> _] in Hv; [lia|].
  by rewrite (ops_at _ _ _ O') in Hv by lia.
Qed.

Lemma fill_spec d k r : ops k r (rtc_of d) -> (k <= 80)%nat -> wp fill_rtcdate (fun t d' => ops (k + 12) r (rtc_of d') /\
  t = Rtcdate (enc (r_statb r) (second (date (at_op r (k + 1))))) (enc (r_statb r) (minute (date (at_op r (k + 3)))))
    (enc (r_statb r) (hour (date (at_op r (k + 5))))) (enc (r_statb r) (day (date (at_op r (k + 7)))))
    (enc (r_statb r) (month (date (at_op r (k + 9))))) (enc (r_statb r) (year (date (at_op r (k + 11)))))) d.
Proof.
  intros O Hk. unfold fill_rtcdate.
  apply wp_bind. eapply wp_mono; [apply (read_field second SECS d k r); [done|done|lia|by intros r1; unfold reg_value; intros ->]|]. intros ? d1 [-> O1].
  apply wp_bind. eapply wp_mono; [apply (read_field minute MINS d1 (k + 2) r); [done|done|lia|by intros r1; unfold reg_value; intros ->]|]. intros ? d2 [-> O2].
  apply wp_bind. eapply wp_mono; [apply (read_field hour HOURS d2 (k + 2 + 2) r); [done|done|lia|by intros r1; unfold reg_value; intros ->]|]. intros ? d3 [-> O3].
  apply wp_bind. eapply wp_mono; [apply (read_field day DAY d3 (k + 2 + 2 + 2) r); [done|done|lia|by intros r1; unfold reg_value; intros ->]|]. intros ? d4 [-> O4].
  apply wp_bind. eapply wp_mono; [apply (read_field month MONTH d4 (k + 2 + 2 + 2 + 2) r); [done|done|lia|by intros r1; unfold reg_value; intros ->]|]. intros ? d5 [-> O5].
  apply wp_bind. eapply wp_mono; [apply (read_field year YEAR d5 (k + 2 + 2 + 2 + 2 + 2) r); [done|done|lia|by intros r1; unfold reg_value; intros ->]|]. intros ? d6 [-> O6].
  apply wp_ret. replace (k + 12)%nat with (k + 2 + 2 + 2 + 2 + 2 + 2)%nat by lia. split; [done|]. f_equal; do 4 f_equal; lia.
Qed.

Lemma at_op_mono r j j' : (j <= j')%nat -> at_op r j <= at_op r j'.
Proof. intros H. unfold at_op. destruct (Nat.ltb_spec (r_next r) j), (Nat.ltb_spec (r_next r) j'); lia. Qed.
Lemma at_op_bound r j : r_time r <= at_op r j <= r_time r + 1.
Proof. unfold at_op. destruct (_ <? _)%nat; lia. Qed.

(** Enough rounds: after a failed one the tick is nearer, or just over. *)
Definition rounds (fuel next : nat) : Prop := (1 <= fuel)%nat /\ (66 <= next \/ next < 14 * (fuel - 1))%nat.

Lemma cmos_loop_spec fuel : forall d, rounds fuel (r_next (rtc_of d)) -> wp (cmos_loop fuel) (fun t d' => exists T,
  r_time (rtc_of d) <= T <= r_time (rtc_of d') /\ t = encdate (r_statb (rtc_of d)) (date T)) d.
Proof.
  induction fuel as [|fuel IH]; intros d [Hf Hn]; [lia|]. cbn [cmos_loop]. set (r := rtc_of d) in *.
  assert (Again : forall k d', ops k r (rtc_of d') -> (k = 14 \/ k = 26)%nat -> (r_next r < 66)%nat -> (k = 26 -> r_next r < 26)%nat ->
    wp (cmos_loop fuel) (fun t d'' => exists T, r_time r <= T <= r_time (rtc_of d'') /\ t = encdate (r_statb r) (date T)) d').
  { intros k d' O Hk H66 H26. destruct (ops_spec k r (rtc_of d') O) as [Hb Hc]; [lia|].
    eapply wp_mono; [apply IH; split; [lia|]|].
    - destruct Hk as [-> | ->]; lia.
    - intros t d'' (T & HT & ->). exists T. rewrite Hb. split; [lia|done]. }
  apply wp_bind. eapply wp_mono; [apply (fill_spec d 0 r); [constructor|lia]|]. intros t1 d1 [O1 ->]. cbn [Nat.add] in *.
  apply wp_bind. eapply wp_mono; [by apply (cmos_read_spec CMOS_STATA)|]. intros a d2 (r1 & P1 & Hs & P2 & Ha).
  pose proof (ops_app _ _ _ _ _ O1 P1) as O13. pose proof (ops_app _ _ _ _ _ O1 P2) as O14. cbn [Nat.add] in *.
  assert (reg_value date r1 = None) as Er by (unfold reg_value; by rewrite Hs). rewrite Er in Ha. destruct (Ha Hs) as (ahead & Hah & Ea).
  change CMOS_UIP with 0x80. rewrite Ea. destruct (ops_spec _ _ _ O13) as [_ H13]; [lia|].
  destruct (Nat.ltb_spec (r_next r1) ahead) as [Hlt|Hge]; cbn [negb].
  { apply (Again 14%nat); [done|by left|lia|lia]. }
  apply wp_bind. eapply wp_mono; [apply (fill_spec d2 14 r); [done|lia]|]. intros t2 d3 [O26 ->]. cbn [Nat.add] in *.
  case_bool_decide as Eq.
  - apply wp_ret. injection Eq as Es _ _ _ _ _. assert (Hsm : forall t, 0 <= second (date t) < 100) by (intros t; by pose proof (cal_small t) as [? _]%Forall_cons).
    apply enc_inj in Es; [|apply Hsm|apply Hsm]. rewrite !cal_second in Es. pose proof (at_op_bound r 1). pose proof (at_op_bound r 15).
    pose proof (at_op_mono r 1 15 ltac:(lia)). assert (E15 : at_op r 1 = at_op r 15) by dlia.
    assert (forall j, (1 <= j <= 15)%nat -> at_op r j = at_op r 1) as Hj.
    { intros j Hj. pose proof (at_op_mono r 1 j ltac:(lia)). pose proof (at_op_mono r j 15 ltac:(lia)). lia. }
    exists (at_op r 1). rewrite (ops_at _ _ _ O26) by lia. split; [pose proof (at_op_mono r 1 26 ltac:(lia)); lia|]. unfold encdate. by rewrite (Hj 3%nat), (Hj 5%nat), (Hj 7%nat), (Hj 9%nat), (Hj 11%nat) by lia.
  - apply (Again 26%nat); [done|by right| |].
    + destruct (decide (r_next r < 66)%nat); [done|]. exfalso. apply Eq. unfold at_op. by repeat (rewrite (proj2 (Nat.ltb_ge _ _)) by lia).
    + intros _. destruct (decide (r_next r < 26)%nat); [done|]. exfalso. apply Eq. unfold at_op. by repeat (rewrite (proj2 (Nat.ltb_ge _ _)) by lia).
Qed.

End clock.

(** ** A clock that ticks *)

Definition sim_date (t : Z) : rtcdate := Rtcdate (t mod 60) (t / 60 mod 60) (t / 3600 mod 24) 15 11 26.
#[export] Instance sim_calendar : Calendar sim_date.
Proof. constructor; [done|]. intros t. unfold sim_date. cbn. repeat (apply Forall_cons; split; [dlia|]). by apply Forall_nil_2. Qed.

Definition sim_pass (r : rtc) : rtc :=
  match r_next r with O => Rtc (r_time r + 1) 100 (r_sel r) (r_statb r) | S k => Rtc (r_time r) k (r_sel r) (r_statb r) end.
#[export] Instance sim_clock_ports : Ports rtc := {|
  port_in p r := (match reg_value sim_date r with Some x => x | None => if (r_next r <? 40)%nat then 0x80 else 0 end, sim_pass r);
  port_out p v r := select v (sim_pass r);
  port_in32 p r := (0, r);
  port_out32 p v r := r |}.
Lemma sim_passes r : passes r (sim_pass r).
Proof. unfold passes, sim_pass. destruct (r_next r); cbn; split_and!; done || lia. Qed.
#[export] Instance sim_clock : RtcClock sim_date rtc.
Proof.
  refine {| rtc_of := fun r => r |}.
  - intros d v. exists (sim_pass d). split; [apply sim_passes|done].
  - intros d. cbn [port_in sim_clock_ports]. split; [apply sim_passes|]. destruct (reg_value sim_date d); [done|]. intros _. exists 40%nat. split; [lia|].
    by destruct (r_next d <? 40)%nat.
Defined.

