(* ===== verification/Apic.v ===== *)
(** The interrupt controllers: lapic.c (without the clock, which is in Cmos.v),
    ioapic.c and picirq.c.

    Each device is a parameter with a contract. [LapicDev] states the documented
    behaviour of a local APIC through the view [lapic_of]: its registers, the
    interprocessor interrupts it has sent, the vectors in service, and how often
    it will still say that the last interrupt is being delivered. [IoapicDev] is
    the register window of an I/O APIC. [PicPair] is the pair of 8259As, whose
    data ports take initialisation words, and not masks, after an ICW1. *)

From S2P Require Import Prelude Params KString Ports Kalloc Cmos.

(** ** The local APIC *)

(** Registers, as indices of words. *)
Definition ID : Z := 0x0020 / 4.
Definition VER : Z := 0x0030 / 4.
Definition TPR : Z := 0x0080 / 4.
Definition EOI : Z := 0x00B0 / 4.
Definition SVR : Z := 0x00F0 / 4.
Definition ENABLE : Z := 0x00000100.
Definition ESR : Z := 0x0280 / 4.
Definition ICRLO : Z := 0x0300 / 4.
Definition INIT : Z := 0x00000500.
Definition STARTUP : Z := 0x00000600.
Definition DELIVS : Z := 0x00001000.
Definition ASSERT : Z := 0x00004000.
Definition LEVEL : Z := 0x00008000.
Definition BCAST : Z := 0x00080000.
Definition ICRHI : Z := 0x0310 / 4.
Definition TIMER : Z := 0x0320 / 4.
Definition X1 : Z := 0x0000000B.
Definition PERIODIC : Z := 0x00020000.
Definition PCINT : Z := 0x0340 / 4.
Definition LINT0 : Z := 0x0350 / 4.
Definition LINT1 : Z := 0x0360 / 4.
Definition ERROR : Z := 0x0370 / 4.
Definition MASKED : Z := 0x00010000.
Definition TICR : Z := 0x0380 / 4.
Definition TDCR : Z := 0x03E0 / 4.

(** A little-endian 16-bit store. *)
Definition mwrite16 (m : mem) (a v : Z) : mem := mwrite (mwrite m a (u8 v)) (a + 1) (u8 (Z.shiftr v 8)).

Class Lapic (L : Type) := {
  lapic_read : Z -> L -> Z * L;
  lapic_write : Z -> Z -> L -> L;
}.

Section lapic_c.
Context {L D : Type} `{!Lapic L, !Ports D}.

(** The pointer [lapic], the device behind it, the ports, and memory. *)
Record machine := Machine { mc_lapic : Z; mc_dev : L; mc_ports : D; mc_mem : mem }.

Definition lread (index : Z) : M machine Z :=
  fun s => let (v, d) := lapic_read index (mc_dev s) in Ret v (Machine (mc_lapic s) d (mc_ports s) (mc_mem s)).
Definition lwrite (index value : Z) : M machine unit :=
  modify (fun s => Machine (mc_lapic s) (lapic_write index (u32 value) (mc_dev s)) (mc_ports s) (mc_mem s)).
Definition on_ports {A} (m : M D A) : M machine A :=
  fun s => match m (mc_ports s) with Ret a d => Ret a (Machine (mc_lapic s) (mc_dev s) d (mc_mem s)) | Fail e => Fail e end.
Definition store (f : mem -> mem) : M machine unit :=
  modify (fun s => Machine (mc_lapic s) (mc_dev s) (mc_ports s) (f (mc_mem s))).

Definition lapicw (index value : Z) : M machine unit :=
  lwrite index value;;;
  let! _ := lread ID in ret tt.

(** [while(lapic[ICRLO] & DELIVS);] *)
Fixpoint wait_delivered (fuel : nat) : M machine unit :=
  match fuel with
  | O => fail NoFuel
  | S fuel =>
    let! v := lread ICRLO in
    if Z.land v DELIVS =? 0 then ret tt else wait_delivered fuel
  end.

Definition lapicinit (fuel : nat) : M machine unit :=
  let! p := gets mc_lapic in
  if p =? 0 then ret tt
  else
    lapicw SVR (Z.lor ENABLE (T_IRQ0 + IRQ_SPURIOUS));;;
    lapicw TDCR X1;;;
    lapicw TIMER (Z.lor PERIODIC (T_IRQ0 + IRQ_TIMER));;;
    lapicw TICR 10000000;;;
    lapicw LINT0 MASKED;;;
    lapicw LINT1 MASKED;;;
    let! v := lread VER in
    (if 4 <=? Z.land (Z.shiftr v 16) 0xFF then lapicw PCINT MASKED else ret tt);;;
    lapicw ERROR (T_IRQ0 + IRQ_ERROR);;;
    lapicw ESR 0;;;
    lapicw ESR 0;;;
    lapicw EOI 0;;;
    lapicw ICRHI 0;;;
    lapicw ICRLO (Z.lor (Z.lor BCAST INIT) LEVEL);;;
    wait_delivered fuel;;;
    lapicw TPR 0.

Definition lapicid : M machine Z :=
  let! p := gets mc_lapic in
  if p =? 0 then ret 0
  else let! v := lread ID in ret (Z.shiftr v 24).

Definition lapiceoi : M machine unit :=
  let! p := gets mc_lapic in
  if p =? 0 then ret tt else lapicw EOI 0.

(** [wrv] is an array of [ushort] at the warm reset vector. [microdelay], which
    the code calls between the interrupts, has an empty body. *)
Definition lapicstartap (apicid addr : Z) : M machine unit :=
  on_ports (outb CMOS_PORT 0xF);;;
  on_ports (outb (CMOS_PORT + 1) 0x0A);;;
  let wrv := P2V (Z.lor (Z.shiftl 0x40 4) 0x67) in
  store (fun m => mwrite16 m wrv 0);;;
  store (fun m => mwrite16 m (wrv + 2) (u16 (Z.shiftr addr 4)));;;
  lapicw ICRHI (Z.shiftl apicid 24);;;
  lapicw ICRLO (Z.lor (Z.lor INIT LEVEL) ASSERT);;;
  lapicw ICRLO (Z.lor INIT LEVEL);;;
  for_ 2 (fun _ =>
    lapicw ICRHI (Z.shiftl apicid 24);;;
    lapicw ICRLO (Z.lor STARTUP (Z.shiftr addr 12))).
End lapic_c.
Arguments machine : clear implicits.

(** ** The I/O APIC *)

Definition REG_ID : Z := 0x00.
Definition REG_VER : Z := 0x01.
Definition REG_TABLE : Z := 0x10.
Definition INT_DISABLED : Z := 0x00010000.

(** [struct ioapic]: stores to [reg], loads of and stores to [data]. *)
Class Ioapic (D : Type) := {
  io_select : Z -> D -> D;
  io_load : D -> Z * D;
  io_store : Z -> D -> D;
}.

Section ioapic_c.
Context {D : Type} `{!Ioapic D}.

Definition ioapicread (reg : Z) : M D Z :=
  modify (io_select (u32 reg));;;
  fun d => let (v, d') := io_load d in Ret v d'.
Definition ioapicwrite (reg data : Z) : M D unit :=
  modify (io_select (u32 reg));;;
  modify (io_store (u32 data)).

(** The result is whether the warning about the id is printed. *)
Definition ioapicinit (ioapicid : Z) : M D bool :=
  let! v := ioapicread REG_VER in
  let maxintr := Z.land (Z.shiftr v 16) 0xFF in
  let! i := ioapicread REG_ID in
  let id := Z.shiftr i 24 in
  for_ (Z.to_nat (maxintr + 1)) (fun i =>
    let i := Z.of_nat i in
    ioapicwrite (REG_TABLE + 2 * i) (Z.lor INT_DISABLED (T_IRQ0 + i));;;
    ioapicwrite (REG_TABLE + 2 * i + 1) 0);;;
  ret (negb (id =? ioapicid)).

Definition ioapicenable (irq cpunum : Z) : M D unit :=
  ioapicwrite (REG_TABLE + 2 * irq) (T_IRQ0 + irq);;;
  ioapicwrite (REG_TABLE + 2 * irq + 1) (Z.shiftl cpunum 24).
End ioapic_c.

(** ** The 8259A pair *)

Definition IO_PIC1 : Z := 0x20.
Definition IO_PIC2 : Z := 0xA0.
Definition IRQ_SLAVE : Z := 2.

(** The initial value of [irqmask]. *)
Definition irqmask0 : Z := Z.ldiff 0xFFFF (Z.shiftl 1 IRQ_SLAVE).

Section picirq_c.
Context {D : Type} `{!Ports D}.

(** [irqmask] and the ports. *)
Record picst := Picst { pc_irqmask : Z; pc_ports : D }.
Definition pic_out (port v : Z) : M picst unit :=
  fun s => match outb port v (pc_ports s) with Ret _ d => Ret tt (Picst (pc_irqmask s) d) | Fail e => Fail e end.

Definition picsetmask (mask : Z) : M picst unit :=
  modify (fun s => Picst (u16 mask) (pc_ports s));;;
  pic_out (IO_PIC1 + 1) mask;;;
  pic_out (IO_PIC2 + 1) (Z.shiftr (u16 mask) 8).
Definition picenable (irq : Z) : M picst unit :=
  let! m := gets pc_irqmask in picsetmask (Z.ldiff m (Z.shiftl 1 irq)).

Definition picinit : M picst unit :=
  pic_out (IO_PIC1 + 1) 0xFF;;;
  pic_out (IO_PIC2 + 1) 0xFF;;;
  pic_out IO_PIC1 0x11;;;
  pic_out (IO_PIC1 + 1) T_IRQ0;;;
  pic_out (IO_PIC1 + 1) (Z.shiftl 1 IRQ_SLAVE);;;
  pic_out (IO_PIC1 + 1) 0x3;;;
  pic_out IO_PIC2 0x11;;;
  pic_out (IO_PIC2 + 1) (T_IRQ0 + 8);;;
  pic_out (IO_PIC2 + 1) IRQ_SLAVE;;;
  pic_out (IO_PIC2 + 1) 0x3;;;
  pic_out IO_PIC1 0x68;;;
  pic_out IO_PIC1 0x0a;;;
  pic_out IO_PIC2 0x68;;;
  pic_out IO_PIC2 0x0a;;;
  let! m := gets pc_irqmask in
  if negb (m =? 0xFFFF) then picsetmask m else ret tt.
End picirq_c.
Arguments picst : clear implicits.

(** ** The local APIC's contract *)

Record lapic_view := LapicView {
  lv_reg : Z -> Z;
  lv_sent : list (Z * Z);   (* the high and low words of the commands sent *)
  lv_isr : list Z;          (* vectors in service, the latest first *)
  lv_busy : nat;
}.
Definition set_lreg (r v : Z) (V : lapic_view) : lapic_view :=
  LapicView (fun q => if q =? r then v else lv_reg V q) (lv_sent V) (lv_isr V) (lv_busy V).
Definition set_lbusy (n : nat) (V : lapic_view) : lapic_view := LapicView (lv_reg V) (lv_sent V) (lv_isr V) n.
Definition ack (V : lapic_view) : lapic_view := LapicView (lv_reg V) (lv_sent V) (tail (lv_isr V)) (lv_busy V).
Definition send (n : nat) (v : Z) (V : lapic_view) : lapic_view :=
  LapicView (lv_reg V) (lv_sent V ++ [(lv_reg V ICRHI, v)]) (lv_isr V) n.

(** The bits software may set in the registers that hold what is written. *)
Definition lapic_mask (r : Z) : Z :=
  if r =? TPR then 0xFF else if r =? SVR then 0x3FF else if r =? ICRHI then 0xFF000000
  else if r =? TIMER then 0x300FF else if r =? PCINT then 0x107FF
  else if (r =? LINT0) || (r =? LINT1) then 0x1A7FF else if r =? ERROR then 0x100FF
  else if r =? TICR then 0xFFFFFFFF else if r =? TDCR then 0xB else 0.
Definition writable (r v : Z) : bool := negb (lapic_mask r =? 0) && (Z.land v (lapic_mask r) =? v).

(** A command may be given only when the one before has been delivered; [delay]
    bounds how often the status says that it has not. *)
Class LapicDev (L : Type) `{!Lapic L} (delay : nat) := {
  lapic_of : L -> lapic_view;
  lapic_read_id d r : r = ID \/ r = VER ->
    let (v, d') := lapic_read r d in v = lv_reg (lapic_of d) r /\ lapic_of d' = lapic_of d;
  lapic_read_icr d : let (v, d') := lapic_read ICRLO d in
    match lv_busy (lapic_of d) with
    | O => Z.land v DELIVS = 0 /\ lapic_of d' = lapic_of d
    | S n => Z.land v DELIVS <> 0 /\ lapic_of d' = set_lbusy n (lapic_of d)
    end;
  lapic_write_reg d r v : writable r v = true -> lapic_of (lapic_write r v d) = set_lreg r v (lapic_of d);
  lapic_write_esr d : lapic_of (lapic_write ESR 0 d) = lapic_of d;
  lapic_write_eoi d : lapic_of (lapic_write EOI 0 d) = ack (lapic_of d);
  lapic_write_icr d v : lv_busy (lapic_of d) = O ->
    exists n, (n <= delay)%nat /\ lapic_of (lapic_write ICRLO v d) = send n v (lapic_of d);
}.

(** A processor that receives commands: INIT makes it wait for a STARTUP, whose
    vector is the page it starts at; one that does not wait ignores STARTUP, and
    the de-assertion of INIT is ignored. Destination 255 and the shorthand in
    bits 18 and 19 address every processor. *)
Inductive cpu_state := Before | WaitSipi | Running (entry : Z).
Definition addressed (id hi lo : Z) : bool :=
  (Z.land lo 0xC0000 =? BCAST) || (Z.shiftr hi 24 =? 0xFF) || (Z.shiftr hi 24 =? id).
Definition receive (id : Z) (c : cpu_state) (ipi : Z * Z) : cpu_state :=
  let (hi, lo) := ipi in
  if negb (addressed id hi lo) then c
  else if Z.land lo 0x700 =? INIT then (if Z.land lo ASSERT =? 0 then c else WaitSipi)
  else if Z.land lo 0x700 =? STARTUP then
    match c with WaitSipi => Running (Z.land lo 0xFF * 4096) | _ => c end
  else c.
Definition receive_all (id : Z) (ipis : list (Z * Z)) (c : cpu_state) : cpu_state := fold_left (receive id) ipis c.

(** A property of the bytes is decided by trying them. *)
Lemma byte_check (f : Z -> bool) : forallb f (seqZ 0 256) = true -> forall v, 0 <= v < 256 -> f v = true.
Proof. intros H v Hv. rewrite forallb_forall in H. apply H, list_elem_of_In, elem_of_seqZ. lia. Qed.

Lemma dest_byte v : 0 <= v < 256 -> writable ICRHI (u32 (Z.shiftl v 24)) = true /\ Z.shiftr (u32 (Z.shiftl v 24)) 24 = v.
Proof.
  intros Hv. assert (H : writable ICRHI (u32 (Z.shiftl v 24)) && (Z.shiftr (u32 (Z.shiftl v 24)) 24 =? v) = true)
    by (apply (byte_check (fun v => writable ICRHI (u32 (Z.shiftl v 24)) && (Z.shiftr (u32 (Z.shiftl v 24)) 24 =? v))); [by vm_compute|done]).
  apply andb_prop in H as [? ?%Z.eqb_eq]. done.
Qed.

Lemma sipi_byte v : 0 <= v < 256 -> let lo := u32 (Z.lor STARTUP v) in
  Z.land lo 0xC0000 = 0 /\ Z.land lo 0x700 = STARTUP /\ Z.land lo 0xFF = v.
Proof.
  intros Hv lo. assert (H : (Z.land lo 0xC0000 =? 0) && (Z.land lo 0x700 =? STARTUP) && (Z.land lo 0xFF =? v) = true)
    by (apply (byte_check (fun v => let lo := u32 (Z.lor STARTUP v) in (Z.land lo 0xC0000 =? 0) && (Z.land lo 0x700 =? STARTUP) && (Z.land lo 0xFF =? v))); [by vm_compute|done]).
  apply andb_prop in H as [[?%Z.eqb_eq ?%Z.eqb_eq]%andb_prop ?%Z.eqb_eq]. done.
Qed.

Section lapic_proofs.
Context {L D : Type} `{!Lapic L, !Ports D} {delay : nat} `{!LapicDev L delay}.
Implicit Types s : machine L D.

(** What is known of a machine: the pointer, the ports, memory, and the view. *)
Definition seen (p : Z) (o : D) (m : mem) (V : lapic_view) s : Prop :=
  mc_lapic s = p /\ mc_ports s = o /\ mc_mem s = m /\ lapic_of (mc_dev s) = V.

Lemma wp_lread_id r p o m V (Q : Z -> machine L D -> Prop) s : r = ID \/ r = VER -> seen p o m V s ->
  (forall s', seen p o m V s' -> Q (lv_reg V r) s') -> wp (lread r) Q s.
Proof.
  intros Hr (<- & <- & <- & <-) HQ. unfold wp, lread. pose proof (lapic_read_id (mc_dev s) r Hr) as H.
  destruct (lapic_read r (mc_dev s)) as [v d']. destruct H as [-> H]. by apply HQ.
Qed.

(** A store and the load of [ID] after it. *)
Lemma wp_lapicw r v p o m V (Q : unit -> machine L D -> Prop) s : seen p o m V s ->
  (forall s', mc_lapic s' = p -> mc_ports s' = o -> mc_mem s' = m ->
    lapic_of (mc_dev s') = lapic_of (lapic_write r (u32 v) (mc_dev s)) -> Q tt s') -> wp (lapicw r v) Q s.
Proof.
  intros (<- & <- & <- & <-) HQ. apply wp_bind, wp_modify, wp_bind.
  eapply (wp_lread_id ID); [by left|by repeat split|]. intros s' (? & ? & ? & ?). by apply wp_ret, HQ.
Qed.

Lemma wp_lapicw_reg r v p o m V (Q : unit -> machine L D -> Prop) s : writable r (u32 v) = true -> seen p o m V s ->
  (forall s', seen p o m (set_lreg r (u32 v) V) s' -> Q tt s') -> wp (lapicw r v) Q s.
Proof.
  intros Hw Hs HQ. eapply wp_lapicw; [done|]. intros s' ? ? ? Hd. apply HQ. repeat split; try done.
  rewrite Hd, lapic_write_reg by done. by destruct Hs as (_ & _ & _ & ->).
Qed.

Lemma wp_lapicw_esr p o m V (Q : unit -> machine L D -> Prop) s : seen p o m V s ->
  (forall s', seen p o m V s' -> Q tt s') -> wp (lapicw ESR 0) Q s.
Proof.
  intros Hs HQ. eapply wp_lapicw; [done|]. intros s' ? ? ? Hd. apply HQ. repeat split; try done.
  rewrite Hd. change (u32 0) with 0. rewrite lapic_write_esr. by destruct Hs as (_ & _ & _ & ->).
Qed.

Lemma wp_lapicw_eoi p o m V (Q : unit -> machine L D -> Prop) s : seen p o m V s ->
  (forall s', seen p o m (ack V) s' -> Q tt s') -> wp (lapicw EOI 0) Q s.
Proof.
  intros Hs HQ. eapply wp_lapicw; [done|]. intros s' ? ? ? Hd. apply HQ. repeat split; try done.
  rewrite Hd. change (u32 0) with 0. rewrite lapic_write_eoi. by destruct Hs as (_ & _ & _ & ->).
Qed.

Lemma wp_lapicw_icr v p o m V (Q : unit -> machine L D -> Prop) s : lv_busy V = O -> seen p o m V s ->
  (forall s' n, (n <= delay)%nat -> seen p o m (send n (u32 v) V) s' -> Q tt s') -> wp (lapicw ICRLO v) Q s.
Proof.
  intros Hb Hs HQ. eapply wp_lapicw; [done|]. intros s' ? ? ? Hd. destruct Hs as (_ & _ & _ & HV).
  destruct (lapic_write_icr (mc_dev s) (u32 v)) as (n & Hn & E); [by rewrite HV|].
  apply (HQ s' n Hn). repeat split; try done. by rewrite Hd, E, HV.
Qed.

Lemma wait_delivered_done fuel : forall p o m V s, (lv_busy V < fuel)%nat -> seen p o m V s ->
  wp (wait_delivered fuel) (fun _ s' => seen p o m (set_lbusy 0 V) s') s.
Proof.
  induction fuel as [|fuel IH]; intros p o m V s Hf (<- & <- & <- & <-); [lia|]. cbn [wait_delivered]. apply wp_bind.
  unfold wp at 1, lread. pose proof (lapic_read_icr (mc_dev s)) as H. destruct (lapic_read ICRLO (mc_dev s)) as [v d'].
  destruct (lv_busy (lapic_of (mc_dev s))) as [|n] eqn:E; destruct H as [Hv Hd].
  - rewrite Hv. apply wp_ret. repeat split; simpl; rewrite Hd. unfold set_lbusy. rewrite <- E. by destruct (lapic_of (mc_dev s)).
  - rewrite (proj2 (Z.eqb_neq _ _) Hv). eapply wp_mono; [apply (IH (mc_lapic s) (mc_ports s) (mc_mem s) (set_lbusy n (lapic_of (mc_dev s)))); [simpl; lia|by repeat split]|].
    intros [] s'. done.
Qed.
End lapic_proofs.

(** The registers after [lapicinit]. *)
Definition configured (V : lapic_view) : list (Z * Z) :=
  [(SVR, 0x13F); (TDCR, 0xB); (TIMER, 0x20020); (TICR, 10000000); (LINT0, 0x10000); (LINT1, 0x10000);
   (ERROR, 51); (TPR, 0)] ++ (if 4 <=? Z.land (Z.shiftr (lv_reg V VER) 16) 0xFF then [(PCINT, 0x10000)] else []).

(** A store to a register of the machine that is known, one step of a body. *)
Ltac lreg := apply wp_bind; eapply wp_lapicw_reg; [first [reflexivity|eassumption]|eassumption|];
  let s' := fresh "s" in let H := fresh "Hs" in intros s' H.

(** A command, on an APIC that delivers at once. *)
Ltac lsend := first [apply wp_bind|idtac]; eapply wp_lapicw_icr; [|eassumption|]; [first [assumption|reflexivity]|];
  let s' := fresh "s" in let n := fresh "n" in let Hn := fresh "Hn" in let H := fresh "Hs" in
  intros s' n Hn H; assert (n = O) by lia; subst n; clear Hn.

Theorem lapicinit_configures {L D : Type} `{!Lapic L, !Ports D} {delay : nat} `{!LapicDev L delay} fuel p (o : D) m V (s : machine L D) : p <> 0 -> lv_busy V = O -> (delay < fuel)%nat -> seen p o m V s ->
  wp (lapicinit fuel) (fun _ s' => exists V', seen p o m V' s' /\ Forall (fun rv => lv_reg V' rv.1 = rv.2) (configured V) /\
    lv_sent V' = lv_sent V ++ [(0, 0x88500)] /\ lv_isr V' = tail (lv_isr V) /\ lv_busy V' = O) s.
Proof.
  intros Hp Hb Hf Hs. apply wp_bind, wp_gets. rewrite (proj1 Hs), (proj2 (Z.eqb_neq _ _) Hp). unfold configured.
  do 6 lreg. apply wp_bind. eapply wp_lread_id; [by right|eassumption|]. intros t1 Ht1.
  change (lv_reg _ VER) with (lv_reg V VER). apply wp_bind.
  eapply (wp_mono _ (fun _ s' => exists V', seen p o m V' s' /\ lv_sent V' = lv_sent V /\ lv_isr V' = lv_isr V /\ lv_busy V' = O /\
    Forall (fun rv => lv_reg V' rv.1 = rv.2) ([(SVR, 0x13F); (TDCR, 0xB); (TIMER, 0x20020); (TICR, 10000000); (LINT0, 0x10000); (LINT1, 0x10000)] ++
      (if 4 <=? Z.land (Z.shiftr (lv_reg V VER) 16) 0xFF then [(PCINT, 0x10000)] else [])))).
  { case_match.
    - eapply wp_lapicw_reg; [reflexivity|eassumption|]. intros s' Hs'. eexists. split; [exact Hs'|]. by repeat constructor.
    - apply wp_ret. eexists. split; [exact Ht1|]. by repeat constructor. }
  intros [] t2 (V1 & Ht2 & Hsent & Hisr & Hb1 & Hregs).
  lreg. do 2 (apply wp_bind; eapply wp_lapicw_esr; [eassumption|]; intros).
  apply wp_bind. eapply wp_lapicw_eoi; [eassumption|]. intros t3 Ht3. lreg.
  apply wp_bind. eapply wp_lapicw_icr; [|eassumption|]; [exact Hb1|]. intros t4 n Hn Ht4.
  apply wp_bind. eapply wp_mono; [apply wait_delivered_done; [|eassumption]; simpl; lia|]. intros [] t5 Ht5.
  eapply wp_lapicw_reg; [reflexivity|eassumption|]. intros t6 Ht6. eexists. split; [exact Ht6|].
  split; [|simpl; by rewrite Hsent, Hisr]. revert Hregs. rewrite !Forall_app. intros [H6 Hpc]. split.
  - by repeat match goal with H : Forall _ (_ :: _) |- _ => apply Forall_cons in H as [? ?] end; repeat constructor.
  - case_match; [|done]. apply Forall_cons in Hpc as [? _]. by repeat constructor.
Qed.

(** The commands of [lapicstartap] and what processors make of them. *)
Definition startap_ipis (apicid v : Z) : list (Z * Z) :=
  let hi := u32 (Z.shiftl apicid 24) in
  [(hi, 0xC500); (hi, 0x8500); (hi, u32 (Z.lor STARTUP v)); (hi, u32 (Z.lor STARTUP v))].

Lemma startap_ipis_received apicid v : 0 <= apicid < 255 -> 0 <= v < 256 ->
  (forall c, receive_all apicid (startap_ipis apicid v) c = Running (4096 * v)) /\
  (forall id c, id <> apicid -> receive_all id (startap_ipis apicid v) c = c).
Proof.
  intros Ha Hv. destruct (dest_byte apicid ltac:(lia)) as [_ Hid]. destruct (sipi_byte v Hv) as (Hl1 & Hl2 & Hl3).
  unfold receive_all, startap_ipis. cbn [fold_left].
  assert (Hn : (apicid =? 0xFF) = false) by lia. unfold receive, addressed. rewrite Hid, Hn, Hl1, Hl2, Hl3.
  split; [intros c|intros id c Hne].
  - rewrite Z.eqb_refl. cbn. f_equal. lia.
  - by rewrite (proj2 (Z.eqb_neq apicid id)) by done.
Qed.

(** The warm reset vector. *)
Lemma warm_vector m v : 0 <= v < 256 -> let m' := mwrite16 (mwrite16 m (P2V 0x467) 0) (P2V 0x469) (u16 (256 * v)) in
  mread16 m' (P2V 0x467) = 0 /\ mread16 m' (P2V 0x469) * 16 = 4096 * v /\ forall a, ~ P2V 0x467 <= a < P2V 0x46B -> m' a = m a.
Proof.
  intros Hv m'. unfold m', mwrite16, mread16. rewrite (u16_small (256 * v)) by (unfold is_u16; lia).
  assert (E : u8 (Z.shiftr (256 * v) 8) = v) by (rewrite Z.shiftr_div_pow2 by lia; change (2 ^ 8) with 256; rewrite Z.mul_comm, Z.div_mul by lia; by apply u8_small).
  assert (E0 : u8 (256 * v) = 0) by (unfold u8; rewrite Z.mul_comm; apply Z.mod_mul; lia).
  rewrite E, E0. change (P2V 0x467) with 0x80000467. change (P2V 0x469) with 0x80000469. change (P2V 0x46B) with 0x8000046B.
  unfold mwrite. split_and!; [done|repeat first [rewrite decide_True by lia|rewrite decide_False by lia]; lia|]. intros a Hna. by rewrite !decide_False by lia.
Qed.

(** C29: [lapicstartap] starts the processor it names, and no other: on an APIC
    that delivers a command at once (the code's [microdelay] is empty, and it
    does not wait for the delivery), the commands it sends make the processor
    [apicid] run from [addr], whatever it did before, and leave every other
    processor as it was; the shutdown code is set, and the warm reset vector
    holds the segment of [addr] and offset 0. *)
Theorem lapicstartap_starts {L D : Type} `{!Lapic L, !Ports D, !LapicDev L 0} (apicid v p : Z) (o : D) (m : mem) V (s : machine L D) :
  0 <= apicid < 255 -> 0 <= v < 256 -> lv_busy V = O -> seen p o m V s ->
  wp (lapicstartap apicid (4096 * v)) (fun _ s' => exists V' m' ipis,
    seen p (port_out 0x71 0x0A (port_out 0x70 0xF o)) m' V' s' /\
    (mread16 m' (P2V 0x467) = 0 /\ mread16 m' (P2V 0x469) * 16 = 4096 * v /\ forall a, ~ P2V 0x467 <= a < P2V 0x46B -> m' a = m a) /\
    lv_sent V' = lv_sent V ++ ipis /\
    (forall c, receive_all apicid ipis c = Running (4096 * v)) /\
    (forall id c, id <> apicid -> receive_all id ipis c = c)) s.
Proof.
  intros Ha Hv Hb (Hs1 & Hs2 & Hs3 & Hs4). destruct (dest_byte apicid ltac:(lia)) as [Hw _].
  assert (E12 : Z.shiftr (4096 * v) 12 = v) by (rewrite Z.shiftr_div_pow2 by lia; change (2 ^ 12) with 4096; rewrite Z.mul_comm; apply Z.div_mul; lia).
  assert (E4 : Z.shiftr (4096 * v) 4 = 256 * v) by (rewrite Z.shiftr_div_pow2 by lia; change (2 ^ 4) with 16; replace (4096 * v) with (256 * v * 16) by lia; apply Z.div_mul; lia).
  unfold lapicstartap. rewrite E12, E4.
  set (m' := mwrite16 (mwrite16 m (P2V 0x467) 0) (P2V 0x469) (u16 (256 * v))).
  assert (Hs : seen p (port_out 0x71 0x0A (port_out 0x70 0xF o)) m' V (Machine (mc_lapic s) (mc_dev s) (port_out 0x71 0x0A (port_out 0x70 0xF (mc_ports s))) m'))
    by (repeat split; simpl; congruence).
  do 2 (apply wp_bind; eapply wp_intro; [reflexivity|]). do 2 apply wp_bind, wp_modify. cbn [mc_lapic mc_dev mc_ports mc_mem].
  rewrite Hs3. change (wp ?a ?b ?c) with (wp a b (Machine (mc_lapic s) (mc_dev s) (port_out 0x71 0x0A (port_out 0x70 0xF (mc_ports s))) m')).
  cbn [for_ for_from]. lreg. lsend. lsend. apply wp_bind. lreg. lsend. apply wp_bind. lreg. lsend.
  apply wp_ret. do 3 eexists. split; [eassumption|]. split; [by apply warm_vector|].
  split; [cbn [lv_sent send set_lreg lv_reg]; rewrite <- !app_assoc; reflexivity|]. by apply startap_ipis_received.
Qed.

(** An APIC with the contract, and ports that record what is written to them. *)
#[export] Instance sim_lapic : Lapic lapic_view := {|
  lapic_read r V :=
    if r =? ICRLO then match lv_busy V with O => (0, V) | S n => (DELIVS, set_lbusy n V) end else (lv_reg V r, V);
  lapic_write r v V :=
    if r =? ICRLO then send 0 v V else if r =? EOI then ack V else if r =? ESR then V else set_lreg r v V;
|}.
#[export, refine] Instance sim_lapic_dev : LapicDev lapic_view 0 := {| lapic_of := id |}.
Proof.
  - by intros d r [-> | ->].
  - intros d. simpl. unfold id. by destruct (lv_busy d).
  - intros d r v Hw. simpl. unfold id. unfold writable in Hw. apply andb_prop in Hw as [Hw _].
    destruct (Z.eqb_spec r ICRLO) as [->|]; [done|]. destruct (Z.eqb_spec r EOI) as [->|]; [done|]. by destruct (Z.eqb_spec r ESR) as [->|].
  - done.
  - done.
  - intros d v _. by exists O.
Defined.
#[export] Instance trace_ports : Ports (list (Z * Z)) := {|
  port_in p d := (0, d); port_out p v d := d ++ [(p, v)]; port_in32 p d := (0, d); port_out32 p v d := d ++ [(p, v)];
|}.

Lemma lapicstartap_starts_witness : let V := LapicView (fun _ => 0) [] [] 0 in
  wp (lapicstartap 3 0x7000) (fun _ s' => mc_ports s' = [(0x70, 0xF); (0x71, 0x0A)] /\
    receive_all 3 (lv_sent (mc_dev s')) Before = Running 0x7000 /\ receive_all 1 (lv_sent (mc_dev s')) (Running 0x1000) = Running 0x1000)
    (Machine 0xFEE00000 V ([] : list (Z * Z)) (fun _ => 0)).
Proof.
  intros V. eapply wp_mono; [apply (lapicstartap_starts 3 7 0xFEE00000 [] (fun _ => 0) V (Machine 0xFEE00000 V [] (fun _ => 0))); [lia|lia|done|done]|].
  intros [] s' (V' & m' & ipis & (_ & Hp & _ & Hd) & _ & Hs & Hr & Ho). change (mc_dev s' = V') in Hd. rewrite Hp, Hd, Hs.
  split; [done|]. split; [apply Hr|apply Ho; lia].
Defined.

(** ** The I/O APIC's contract *)

Definition io_maxintr (regs : Z -> Z) : Z := Z.land (Z.shiftr (regs REG_VER) 16) 0xFF.

(** A load gives the selected register; a store to a register of the table sets
    it, its read-only bits 12 and 14 apart. *)
Class IoapicDev (D : Type) `{!Ioapic D} := {
  io_of : D -> Z * (Z -> Z);   (* the selected register, and the registers *)
  io_select_of d r : io_of (io_select r d) = (r, (io_of d).2);
  io_load_of d : let (v, d') := io_load d in v = (io_of d).2 (io_of d).1 /\ io_of d' = io_of d;
  io_store_of d v : REG_TABLE <= (io_of d).1 < REG_TABLE + 2 * (io_maxintr (io_of d).2 + 1) -> Z.land v 0x5000 = 0 ->
    io_of (io_store v d) = ((io_of d).1, fun q => if q =? (io_of d).1 then v else (io_of d).2 q);
}.

(** The entry of a line, low and high words, after a sequence of calls of
    [ioapicenable]: the last one for the line counts. *)
Definition entry (regs : Z -> Z) (i : Z) : Z * Z := (regs (REG_TABLE + 2 * i), regs (REG_TABLE + 2 * i + 1)).
Definition routed (l : list (Z * Z)) (i : Z) : Z * Z :=
  fold_left (fun e '(irq, cpunum) => if irq =? i then (T_IRQ0 + i, Z.shiftl cpunum 24) else e) l (Z.lor INT_DISABLED (T_IRQ0 + i), 0).
Fixpoint enable_all {D} `{!Ioapic D} (l : list (Z * Z)) : M D unit :=
  match l with [] => ret tt | (irq, cpunum) :: l => ioapicenable irq cpunum;;; enable_all l end.

(** The words the driver stores are as they are meant, and writable. *)
Definition plain (v : Z) : Prop := u32 v = v /\ Z.land v 0x5000 = 0.
Lemma plain_words i : 0 <= i < 256 -> plain (T_IRQ0 + i) /\ plain (Z.lor INT_DISABLED (T_IRQ0 + i)) /\ plain (Z.shiftl i 24).
Proof.
  intros Hi. pose (f := fun i => forallb (fun v => (u32 v =? v) && (Z.land v 0x5000 =? 0)) [T_IRQ0 + i; Z.lor INT_DISABLED (T_IRQ0 + i); Z.shiftl i 24]).
  assert (H : f i = true) by (apply byte_check; [by vm_compute|done]). unfold f in H. cbn [forallb] in H.
  rewrite !andb_true_iff, !Z.eqb_eq in H. unfold plain. tauto.
Qed.

Section ioapic_proofs.
Context {D : Type} `{!Ioapic D, !IoapicDev D}.
Implicit Types d : D.

Lemma io_maxintr_range regs : 0 <= io_maxintr regs < 256.
Proof. unfold io_maxintr. change 0xFF with (Z.ones 8). rewrite Z.land_ones by lia. apply Z.mod_pos_bound. lia. Qed.

Lemma wp_ioapicread r (Q : Z -> D -> Prop) d : u32 r = r ->
  (forall d', (io_of d').2 = (io_of d).2 -> Q ((io_of d).2 r) d') -> wp (ioapicread r) Q d.
Proof.
  intros Hr HQ. apply wp_bind, wp_modify. rewrite Hr. unfold wp. pose proof (io_load_of (io_select r d)) as H.
  destruct (io_load (io_select r d)) as [v d']. rewrite io_select_of in H. destruct H as [-> H]. apply HQ. by rewrite H.
Qed.

Lemma wp_ioapicwrite r v (Q : unit -> D -> Prop) d : REG_TABLE <= r < REG_TABLE + 2 * (io_maxintr (io_of d).2 + 1) -> plain v ->
  (forall d', (io_of d').2 = (fun q => if q =? r then v else (io_of d).2 q) -> Q tt d') -> wp (ioapicwrite r v) Q d.
Proof.
  intros Hr [Hv Hl] HQ. pose proof (io_maxintr_range (io_of d).2). unfold REG_TABLE in Hr.
  apply wp_bind, wp_modify, wp_modify, HQ. rewrite Hv, (u32_small r) by (unfold is_u32; lia).
  rewrite io_store_of; [by rewrite io_select_of|by rewrite io_select_of|done].
Qed.

(** The two stores that set an entry. *)
Lemma wp_set_entry lo hi i (Q : unit -> D -> Prop) d : 0 <= i <= io_maxintr (io_of d).2 -> plain lo -> plain hi ->
  (forall d', io_maxintr (io_of d').2 = io_maxintr (io_of d).2 ->
    (forall j, 0 <= j -> entry (io_of d').2 j = if j =? i then (lo, hi) else entry (io_of d).2 j) -> Q tt d') ->
  wp (ioapicwrite (REG_TABLE + 2 * i) lo;;; ioapicwrite (REG_TABLE + 2 * i + 1) hi) Q d.
Proof.
  intros Hi Hlo Hhi HQ. assert (Hm : forall f r v, REG_TABLE <= r -> io_maxintr (fun q => if q =? r then v else f q) = io_maxintr f).
  { intros f r v Hr. unfold io_maxintr. by rewrite (proj2 (Z.eqb_neq REG_VER r)) by (unfold REG_TABLE, REG_VER in *; lia). }
  apply wp_bind. apply wp_ioapicwrite; [lia|done|]. intros d1 E1.
  apply wp_ioapicwrite; [rewrite E1, Hm by lia; lia|done|]. intros d2 E2. apply HQ.
  - rewrite E2, Hm, E1, Hm by lia. done.
  - intros j Hj. unfold entry. rewrite E2, E1. destruct (Z.eqb_spec j i) as [->|Hne].
    + by rewrite (proj2 (Z.eqb_neq (REG_TABLE + 2 * i) (REG_TABLE + 2 * i + 1))), !Z.eqb_refl by lia.
    + by rewrite !(fun a b => proj2 (Z.eqb_neq a b)) by lia.
Qed.

Lemma enable_all_routes (n : Z) l : forall d e0, io_maxintr (io_of d).2 = n ->
  Forall (fun ic => 0 <= ic.1 <= n /\ 0 <= ic.2 < 256) l -> (forall j, 0 <= j <= n -> entry (io_of d).2 j = e0 j) ->
  wp (enable_all l) (fun _ d' => forall j, 0 <= j <= n -> entry (io_of d').2 j =
    fold_left (fun e '(irq, cpunum) => if irq =? j then (T_IRQ0 + j, Z.shiftl cpunum 24) else e) l (e0 j)) d.
Proof.
  induction l as [|[irq c] l IH]; intros d e0 Hn Hl He; cbn [enable_all]; [by apply wp_ret|].
  apply Forall_cons in Hl as [[Hi Hc] Hl]. simpl in Hi, Hc. pose proof (io_maxintr_range (io_of d).2).
  apply wp_bind. apply wp_set_entry; [lia|apply plain_words; lia|apply plain_words; lia|]. intros d' Hn' He'.
  eapply wp_mono; [apply (IH d' (fun j => if irq =? j then (T_IRQ0 + j, Z.shiftl c 24) else e0 j)); [congruence|done|]|done].
  intros j Hj. rewrite He' by lia. rewrite (Z.eqb_sym irq j). destruct (Z.eqb_spec j irq) as [->|]; [done|by apply He].
Qed.

(** After [ioapicinit] and any sequence of [ioapicenable] for lines the
    chip has, each line's entry is that of the last call for it: its vector is
    [T_IRQ0] plus the line, and its destination the processor given; the lines
    nobody enabled are masked and routed to no processor. The warning is printed
    exactly when the chip's id is not the configured one. *)
Theorem ioapic_routes (ioapicid : Z) l d :
  Forall (fun ic => 0 <= ic.1 <= io_maxintr (io_of d).2 /\ 0 <= ic.2 < 256) l ->
  wp (let! w := ioapicinit ioapicid in enable_all l;;; ret w) (fun w d' =>
    w = negb (Z.shiftr ((io_of d).2 REG_ID) 24 =? ioapicid) /\
    forall i, 0 <= i <= io_maxintr (io_of d).2 -> entry (io_of d').2 i = routed l i) d.
Proof.
  intros Hl. pose proof (io_maxintr_range (io_of d).2) as Hr. set (n := io_maxintr (io_of d).2) in *.
  apply wp_bind. apply wp_bind. apply wp_ioapicread; [done|]. intros d1 E1. fold (io_maxintr (io_of d).2). fold n.
  apply wp_bind. apply wp_ioapicread; [done|]. intros d2 E2. apply wp_bind.
  eapply wp_mono; [apply (wp_for (fun k d => io_maxintr (io_of d).2 = n /\
    forall j, 0 <= j < Z.of_nat k -> entry (io_of d).2 j = (Z.lor INT_DISABLED (T_IRQ0 + j), 0)))|].
  - split; [by rewrite E2, E1|lia].
  - intros i d3 Hi [Hn He]. apply wp_set_entry; [lia|apply plain_words; lia|done|]. intros d4 Hn4 He4.
    split; [congruence|]. intros j Hj. rewrite He4 by lia. destruct (Z.eqb_spec j (Z.of_nat i)) as [->|]; [done|]. apply He. lia.
  - intros [] d3 [Hn He]. apply wp_ret, wp_bind.
    eapply wp_mono; [apply (enable_all_routes n l d3 (fun j => (Z.lor INT_DISABLED (T_IRQ0 + j), 0)) Hn Hl)|].
    + intros j Hj. apply He. lia.
    + intros [] d4 H4. apply wp_ret. split; [by rewrite E1|exact H4].
Qed.
End ioapic_proofs.

(** A chip with the contract. *)
#[export] Instance sim_ioapic : Ioapic (Z * (Z -> Z)) := {|
  io_select r d := (r, d.2); io_load d := (d.2 d.1, d); io_store v d := (d.1, fun q => if q =? d.1 then v else d.2 q);
|}.
#[export, refine] Instance sim_ioapic_dev : IoapicDev (Z * (Z -> Z)) := {| io_of := id |}.
Proof. all: done. Defined.

(** A network card that is routed to processor 0 and then to processor 1 is
    served by processor 1. *)
Lemma ioapic_routes_witness : let d := (0, fun r => if r =? REG_VER then 0x170011 else 0) in
  wp (let! w := ioapicinit 0 in enable_all [(1, 0); (11, 0); (11, 1)];;; ret w) (fun w d' => w = false /\
    entry d'.2 11 = (43, 0x1000000) /\ entry d'.2 1 = (33, 0) /\ entry d'.2 5 = (0x10025, 0)) d.
Proof.
  intros d. eapply wp_mono; [apply (ioapic_routes 0 [(1, 0); (11, 0); (11, 1)] d); by repeat constructor|].
  intros w d' [-> H]. change (forall i, 0 <= i <= 23 -> entry d'.2 i = routed [(1, 0); (11, 0); (11, 1)] i) in H. rewrite !H by lia. done.
Defined.

(** ** The 8259As' contract *)

(** One chip: which initialisation word the data port takes next (0: none, it
    takes the mask), the vector of its first line, and the mask. *)
Record chip := Chip { ch_stage : nat; ch_base : Z; ch_mask : Z }.
Definition chip_cmd (v : Z) (c : chip) : chip := if Z.testbit v 4 then Chip 1 (ch_base c) 0 else c.
Definition chip_data (v : Z) (c : chip) : chip :=
  match ch_stage c with
  | O => Chip 0 (ch_base c) v
  | 1%nat => Chip 2 (Z.land v 0xF8) (ch_mask c)
  | 2%nat => Chip 3 (ch_base c) (ch_mask c)
  | _ => Chip 0 (ch_base c) (ch_mask c)
  end.
Definition pics_out (p v : Z) (c : chip * chip) : chip * chip :=
  if p =? IO_PIC1 then (chip_cmd v c.1, c.2) else if p =? IO_PIC1 + 1 then (chip_data v c.1, c.2)
  else if p =? IO_PIC2 then (c.1, chip_cmd v c.2) else if p =? IO_PIC2 + 1 then (c.1, chip_data v c.2) else c.

(** The contract is for an ICW1 of cascaded chips that announces an ICW4. *)
Class PicPair (D : Type) `{!Ports D} := {
  pics_of : D -> chip * chip;
  pics_out_of d p v : (p = IO_PIC1 \/ p = IO_PIC2 -> Z.testbit v 4 = true -> Z.land v 0x13 = 0x11) ->
    pics_of (port_out p v d) = pics_out p v (pics_of d);
}.

Section pic_proofs.
Context {D : Type} `{!Ports D, !PicPair D}.
Implicit Types s : picst D.

Fixpoint pic_enable_all (l : list Z) : M (picst D) unit :=
  match l with [] => ret tt | irq :: l => picenable irq;;; pic_enable_all l end.

(** Both chips are initialised and hold [irqmask]. *)
Definition pics_hold (s : picst D) : Prop :=
  0 <= pc_irqmask s < 65536 /\
  pics_of (pc_ports s) = (Chip 0 T_IRQ0 (u8 (pc_irqmask s)), Chip 0 (T_IRQ0 + 8) (Z.shiftr (pc_irqmask s) 8)).

Lemma wp_pic_out p v c (Q : unit -> picst D -> Prop) s : pics_of (pc_ports s) = c ->
  (p = IO_PIC1 \/ p = IO_PIC2 -> Z.testbit (u8 v) 4 = true -> Z.land (u8 v) 0x13 = 0x11) ->
  (forall s', pc_irqmask s' = pc_irqmask s -> pics_of (pc_ports s') = pics_out p (u8 v) c -> Q tt s') -> wp (pic_out p v) Q s.
Proof. intros <- Hv HQ. unfold wp, pic_out. cbn. apply HQ; [done|]. by apply pics_out_of. Qed.

Lemma picsetmask_holds m m1 m2 s : 0 <= m < 65536 -> pics_of (pc_ports s) = (Chip 0 T_IRQ0 m1, Chip 0 (T_IRQ0 + 8) m2) ->
  wp (picsetmask m) (fun _ s' => pc_irqmask s' = m /\ pics_hold s') s.
Proof.
  intros Hm Hc. assert (H8 : 0 <= Z.shiftr m 8 < 256) by (rewrite Z.shiftr_div_pow2 by lia; change (2 ^ 8) with 256; dlia).
  apply wp_bind, wp_modify. rewrite (u16_small m) by done.
  apply wp_bind. eapply wp_pic_out; [exact Hc|by intros [?|?]|]. intros s1 E1 Hc1.
  eapply wp_pic_out; [exact Hc1|by intros [?|?]|]. intros s2 E2 Hc2. unfold pics_hold. rewrite E2, E1. split; [done|]. split; [done|].
  rewrite Hc2. cbn. by rewrite (u8_small (Z.shiftr m 8)).
Qed.

Lemma ldiff_mask m b : 0 <= m < 65536 -> 0 <= Z.ldiff m b < 65536.
Proof.
  intros Hm. assert (E : Z.land m (Z.ones 16) = m) by (rewrite Z.land_ones by lia; by apply Z.mod_small).
  assert (H : Z.land (Z.ldiff m b) (Z.ones 16) = Z.ldiff m b).
  { rewrite <- E. apply Z.bits_inj'. intros n _. rewrite !Z.land_spec, !Z.ldiff_spec, Z.land_spec.
    by destruct (Z.testbit m n), (Z.testbit b n), (Z.testbit (Z.ones 16) n). }
  rewrite <- H, Z.land_ones by lia. by apply Z.mod_pos_bound.
Qed.

Lemma pic_enable_all_holds l : forall s, Forall (fun i => 0 <= i < 16) l -> pics_hold s ->
  wp (pic_enable_all l) (fun _ s' => pics_hold s' /\
    forall i, 0 <= i < 16 -> Z.testbit (pc_irqmask s') i = Z.testbit (pc_irqmask s) i && negb (bool_decide (i ∈ l))) s.
Proof.
  induction l as [|irq l IH]; intros s Hl Hs; cbn [pic_enable_all].
  - apply wp_ret. split; [done|]. intros i Hi. rewrite bool_decide_false by apply not_elem_of_nil. by rewrite andb_true_r.
  - apply Forall_cons in Hl as [Hi Hl]. destruct Hs as [Hm Hc]. apply wp_bind. apply wp_bind, wp_gets.
    eapply wp_mono; [eapply picsetmask_holds; [by apply ldiff_mask|exact Hc]|]. intros [] s1 [E1 H1].
    eapply wp_mono; [by apply IH|]. intros [] s2 [H2 Hb]. split; [done|]. intros i Hj.
    rewrite (Hb i Hj), E1, Z.ldiff_spec, Z.shiftl_1_l, Z.pow2_bits_eqb by lia. rewrite <- andb_assoc, <- negb_orb.
    do 2 f_equal. apply Bool.eq_iff_eq_true. rewrite orb_true_iff, Z.eqb_eq, !bool_decide_eq_true, elem_of_cons. naive_solver.
Qed.

(** The line [i] of the pair, and the vector it raises. *)
Definition masked (d : D) (i : Z) : bool :=
  if i <? 8 then Z.testbit (ch_mask (pics_of d).1) i else Z.testbit (ch_mask (pics_of d).2) (i - 8).

(** [picinit], from chips that are not in the middle of an initialisation. *)
Lemma picinit_holds m d : 0 <= m < 65535 -> ch_stage (pics_of d).1 = O -> ch_stage (pics_of d).2 = O ->
  wp picinit (fun _ s' => pc_irqmask s' = m /\ pics_hold s') (Picst m d).
Proof.
  intros Hm H1 H2. destruct (pics_of d) as [[st1 b1 m1] [st2 b2 m2]] eqn:Hc. simpl in H1, H2. subst st1 st2.
  change d with (pc_ports (Picst m d)) in Hc. set (s := Picst m d) in *. assert (E : pc_irqmask s = m) by done. clearbody s.
  unfold picinit.
  do 14 (apply wp_bind; eapply wp_pic_out; [exact Hc|by intros [?|?]|];
    let s' := fresh "s" in let E' := fresh "E" in let Hc' := fresh "Hc" in
    intros s' E' Hc'; rewrite E in E'; cbn in Hc'; clear dependent s; rename s' into s, E' into E, Hc' into Hc).
  apply wp_bind, wp_gets. rewrite E, (proj2 (Z.eqb_neq m 0xFFFF)) by lia. eapply picsetmask_holds; [lia|exact Hc].
Qed.

(** After [picinit] and any sequence of [picenable], the pair raises [T_IRQ0] and
    up, and exactly the cascade and the lines enabled are not masked. *)
Theorem picinit_masks l d : ch_stage (pics_of d).1 = O -> ch_stage (pics_of d).2 = O -> Forall (fun i => 0 <= i < 16) l ->
  wp (picinit;;; pic_enable_all l) (fun _ s' =>
    ch_base (pics_of (pc_ports s')).1 = T_IRQ0 /\ ch_base (pics_of (pc_ports s')).2 = T_IRQ0 + 8 /\
    forall i, 0 <= i < 16 -> masked (pc_ports s') i = negb (bool_decide (i = IRQ_SLAVE \/ i ∈ l))) (Picst irqmask0 d).
Proof.
  intros H1 H2 Hl. apply wp_bind. eapply wp_mono; [by apply picinit_holds|]. intros [] s1 [E1 Hs1].
  eapply wp_mono; [by apply pic_enable_all_holds|]. intros [] s2 [[Hm Hc] Hb]. rewrite Hc. split_and!; [done|done|].
  intros i Hi. assert (Et : masked (pc_ports s2) i = Z.testbit (pc_irqmask s2) i).
  { unfold masked. rewrite Hc. cbn [fst snd ch_mask]. destruct (Z.ltb_spec i 8).
    - unfold u8. change 256 with (2 ^ 8). by apply Z.mod_pow2_bits_low.
    - rewrite Z.shiftr_spec by lia. f_equal. lia. }
  rewrite Et, Hb, E1 by done.
  assert (H0 : Z.testbit irqmask0 i = negb (bool_decide (i = IRQ_SLAVE))).
  { assert (i ∈ seqZ 0 16) as Hin by (apply elem_of_seqZ; lia). clear - Hin. revert i Hin. apply Forall_forall. by repeat constructor. }
  rewrite H0, <- negb_orb. f_equal. apply Bool.eq_iff_eq_true. rewrite orb_true_iff, !bool_decide_eq_true. done.
Qed.
End pic_proofs.
