(* ===== verification/Umalloc.v ===== *)
(** The allocator of user programs (umalloc.c): a circular list of free blocks
    in address order, with a header in front of every block.

    The memory of the process is the byte function of KString.v. A header is
    eight bytes: the pointer and the size in units of a header. The loops take
    fuel; the theorems say how much is enough. *)

From Stdlib Require Import Sorting.Sorted.
From S2P Require Import Prelude Params KString Kalloc.

Record heap := Heap {
  h_mem : mem;
  h_freep : Z;          (* 0 before the first call *)
  h_brk : Z;            (* the size of the process *)
  h_room : Z;           (* the bytes the kernel can still give *)
}.

(** [p->s.ptr] and [p->s.size] *)
Definition hptr (m : mem) (p : Z) : Z := mread32 m p.
Definition hsize (m : mem) (p : Z) : Z := mread32 m (p + 4).
Definition set_ptr (p v : Z) : M heap unit :=
  modify (fun h => Heap (mwrite32 (h_mem h) p v) (h_freep h) (h_brk h) (h_room h)).
Definition set_size (p v : Z) : M heap unit :=
  modify (fun h => Heap (mwrite32 (h_mem h) (p + 4) v) (h_freep h) (h_brk h) (h_room h)).
Definition set_freep (p : Z) : M heap unit :=
  modify (fun h => Heap (h_mem h) p (h_brk h) (h_room h)).
Definition get_ptr (p : Z) : M heap Z := gets (fun h => hptr (h_mem h) p).
Definition get_size (p : Z) : M heap Z := gets (fun h => hsize (h_mem h) p).

(** [p + n] on header pointers *)
Definition hdr_add (p n : Z) : Z := u32 (p + 8 * n).

(** The system call as the kernel implements it. Shrinking below zero wraps,
    is taken for growth by [deallocuvm] and changes nothing. *)
Definition sbrk (n : Z) : M heap Z :=
  let! h := get in
  let n := i32 n in
  if 0 <? n then
    if n <=? h_room h then put (Heap (h_mem h) (h_freep h) (h_brk h + n) (h_room h - n));;; ret (h_brk h)
    else ret (-1)
  else
    let newsz := u32 (h_brk h + n) in
    if h_brk h <=? newsz then ret (h_brk h)
    else if newsz =? 0 then ret (-1)
    else put (Heap (h_mem h) (h_freep h) newsz (h_room h - n));;; ret (h_brk h).

Section umalloc.
(** [&base] *)
Context (base : Z).

(** [for(p = freep; !(bp > p && bp < p->s.ptr); p = p->s.ptr)
       if(p >= p->s.ptr && (bp > p || bp < p->s.ptr)) break;] *)
Definition free_here (m : mem) (bp p : Z) : bool :=
  ((p <? bp) && (bp <? hptr m p)) || ((hptr m p <=? p) && ((p <? bp) || (bp <? hptr m p))).
Fixpoint free_find (fuel : nat) (bp p : Z) : M heap Z :=
  match fuel with
  | O => fail NoFuel
  | S fuel =>
    let! m := gets h_mem in
    if free_here m bp p then ret p else free_find fuel bp (hptr m p)
  end.

(** The block behind [bp] is joined to it, or [bp] points to it; then [bp] is
    joined to [p], or [p] points to it. *)
Definition free_right (p bp : Z) : M heap unit :=
  let! q := get_ptr p in
  let! n := get_size bp in
  if hdr_add bp n =? q then
    let! k := get_size q in
    set_size bp (u32 (n + k));;;
    let! q := get_ptr p in
    let! r := get_ptr q in
    set_ptr bp r
  else set_ptr bp q.
Definition free_left (p bp : Z) : M heap unit :=
  let! k := get_size p in
  if hdr_add p k =? bp then
    let! n := get_size bp in
    set_size p (u32 (k + n));;;
    let! r := get_ptr bp in
    set_ptr p r
  else set_ptr p bp.

Definition free (fuel : nat) (ap : Z) : M heap unit :=
  let bp := u32 (ap - 8) in
  let! p := gets h_freep in
  let! p := free_find fuel bp p in
  free_right p bp;;;
  free_left p bp;;;
  set_freep p.

Definition morecore (fuel : nat) (nu : Z) : M heap Z :=
  let nu := if nu <? 4096 then 4096 else nu in
  let! p := sbrk (u32 (nu * 8)) in
  if p =? -1 then ret 0
  else
    set_size p nu;;;
    free fuel (hdr_add p 1);;;
    gets h_freep.

(** [p] is large enough. *)
Definition malloc_take (nunits prevp p : Z) : M heap Z :=
  let! n := get_size p in
  let! p := (if n =? nunits then
               let! q := get_ptr p in
               set_ptr prevp q;;; ret p
             else
               set_size p (u32 (n - nunits));;;
               let! n := get_size p in
               let p := hdr_add p n in
               set_size p nunits;;; ret p) in
  set_freep prevp;;;
  ret (hdr_add p 1).

(** [for(p = prevp->s.ptr; ; prevp = p, p = p->s.ptr)] *)
Fixpoint malloc_loop (fuel : nat) (nunits prevp p : Z) : M heap Z :=
  match fuel with
  | O => fail NoFuel
  | S fuel =>
    let! n := get_size p in
    if nunits <=? n then malloc_take nunits prevp p
    else
      let! fp := gets h_freep in
      if p =? fp then
        let! p := morecore fuel nunits in
        if p =? 0 then ret 0
        else let! q := get_ptr p in malloc_loop fuel nunits p q
      else
        let! q := get_ptr p in malloc_loop fuel nunits p q
  end.

Definition malloc (fuel : nat) (nbytes : Z) : M heap Z :=
  let nunits := u32 (u32 (nbytes + 8 - 1) / 8 + 1) in
  let! prevp := gets h_freep in
  let! prevp := (if prevp =? 0 then
                   set_freep base;;; set_ptr base base;;; set_size base 0;;; ret base
                 else ret prevp) in
  let! p := get_ptr prevp in
  malloc_loop fuel nunits prevp p.

(** ** The heap as a row of tiles *)

(** A tile is a block, its size in units and whether it is free; the tiles lie
    one behind the other from [a]. *)
Abbreviation tile := (Z * bool)%type.

Fixpoint tend (a : Z) (T : list tile) : Z :=
  match T with [] => a | (n, _) :: T => tend (a + 8 * n) T end.
(** The addresses of the free tiles. *)
Fixpoint frees (a : Z) (T : list tile) : list Z :=
  match T with
  | [] => []
  | (n, f) :: T => if f : bool then a :: frees (a + 8 * n) T else frees (a + 8 * n) T
  end.
(** The headers hold the sizes. *)
Fixpoint sizes_ok (m : mem) (a : Z) (T : list tile) : Prop :=
  match T with
  | [] => True
  | (n, _) :: T => 1 <= n /\ hsize m a = n /\ sizes_ok m (a + 8 * n) T
  end.

(** Neighbouring free tiles joined. *)
Definition cons_tile (t : tile) (T : list tile) : list tile :=
  match t, T with
  | (n, true), (k, true) :: T => (n + k, true) :: T
  | _, _ => t :: T
  end.
Definition coalesce (T : list tile) : list tile := foldr cons_tile [] T.

Fixpoint joined (T : list tile) : Prop :=
  match T with
  | [] => True
  | (_, f) :: T => joined T /\ match f, T with true, (_, true) :: _ => False | _, _ => True end
  end.

(** Following the pointers from [p] leads through [F]; and then to [q]. *)
Fixpoint path (m : mem) (p : Z) (F : list Z) : Prop :=
  match F with
  | [] => True
  | x :: F => hptr m p = x /\ path m x F
  end.
Fixpoint lastd (p : Z) (F : list Z) : Z := match F with [] => p | x :: F => lastd x F end.
Definition lseg (m : mem) (p : Z) (F : list Z) (q : Z) : Prop := path m p F /\ hptr m (lastd p F) = q.

Context (start : Z).

(** The state of the allocator is the row [T] from [start] on. *)
Record heap_ok (h : heap) (T : list tile) : Prop := {
  ho_base : 0 < base /\ base + 8 <= start;
  ho_brk : tend start T = h_brk h;
  ho_top : 0 <= h_room h /\ h_brk h + h_room h <= KERNBASE;
  ho_joined : joined T;
  ho_sizes : sizes_ok (h_mem h) start T;
  ho_list : (h_freep h = 0 /\ T = []) \/
    (h_freep h ∈ base :: frees start T /\ hsize (h_mem h) base = 0 /\
     lseg (h_mem h) base (frees start T) base);
}.

(** A byte of a block the program owns. *)
Fixpoint owned (a : Z) (T : list tile) (x : Z) : Prop :=
  match T with
  | [] => False
  | (n, f) :: T => (f = false /\ a + 8 <= x < a + 8 * n) \/ owned (a + 8 * n) T x
  end.

(** No free tile has [nu] units. *)
Definition nofit (nu : Z) (T : list tile) : Prop := forall n, (n, true) ∈ T -> n < nu.

(** [nu] units taken out of a free tile, from its end; [r] is where they are. *)
Inductive takes (nu : Z) : list tile -> Z -> list tile -> Prop :=
| takes_all T1 T2 : takes nu (T1 ++ (nu, true) :: T2) (tend start T1) (T1 ++ (nu, false) :: T2)
| takes_part T1 n T2 : nu < n ->
    takes nu (T1 ++ (n, true) :: T2) (tend start T1 + 8 * (n - nu)) (T1 ++ (n - nu, true) :: (nu, false) :: T2).

(** *** Memory and headers *)

Lemma mread32_frame m a v b : a + 4 <= b \/ b + 4 <= a -> mread32 (mwrite32 m a v) b = mread32 m b.
Proof. intros H. apply mread32_ext. intros x Hx. unfold mwrite32, mwrite. by rewrite !decide_False by lia. Qed.
Lemma mwrite32_out m a v x : x < a \/ a + 4 <= x -> mwrite32 m a v x = m x.
Proof. intros H. unfold mwrite32, mwrite. by rewrite !decide_False by lia. Qed.

(** *** Rows of tiles *)

Lemma tend_app a T1 T2 : tend a (T1 ++ T2) = tend (tend a T1) T2.
Proof. revert a. induction T1 as [|[n f] T1 IH]; intros a; [done|]. apply IH. Qed.
Lemma frees_app a T1 T2 : frees a (T1 ++ T2) = frees a T1 ++ frees (tend a T1) T2.
Proof. revert a. induction T1 as [|[n []] T1 IH]; intros a; simpl; [done|by rewrite IH|apply IH]. Qed.
Lemma sizes_ok_app m a T1 T2 : sizes_ok m a (T1 ++ T2) <-> sizes_ok m a T1 /\ sizes_ok m (tend a T1) T2.
Proof. revert a. induction T1 as [|[n f] T1 IH]; intros a; simpl; [tauto|]. rewrite IH. tauto. Qed.
Lemma owned_app a T1 T2 x : owned a (T1 ++ T2) x <-> owned a T1 x \/ owned (tend a T1) T2 x.
Proof. revert a. induction T1 as [|[n f] T1 IH]; intros a; simpl; [tauto|]. rewrite IH. tauto. Qed.

Lemma sizes_le m a T : sizes_ok m a T -> a <= tend a T.
Proof. revert a. induction T as [|[n f] T IH]; intros a; simpl; [lia|]. intros (? & ? & H%IH). lia. Qed.
Lemma frees_range m a T : sizes_ok m a T -> Forall (fun x => a <= x /\ x + 8 <= tend a T) (frees a T).
Proof.
  revert a. induction T as [|[n f] T IH]; intros a; simpl; [done|]. intros (? & ? & H).
  pose proof (sizes_le _ _ _ H). apply IH in H.
  assert (Forall (fun x => a <= x /\ x + 8 <= tend (a + 8 * n) T) (frees (a + 8 * n) T)).
  { eapply Forall_impl; [exact H|]. simpl. lia. }
  destruct f; [constructor; [lia|done]|done].
Qed.
Lemma owned_range m a T x : sizes_ok m a T -> owned a T x -> a + 8 <= x < tend a T.
Proof.
  revert a. induction T as [|[n f] T IH]; intros a; simpl; [done|]. intros (? & ? & H) [[_ Hx]|Hx].
  - apply sizes_le in H. lia.
  - apply IH in Hx; [lia|done].
Qed.
Lemma owned_free m a T x y : sizes_ok m a T -> owned a T x -> y ∈ frees a T -> x < y \/ y + 8 <= x.
Proof.
  revert a. induction T as [|[n f] T IH]; intros a; simpl; [done|]. intros (? & ? & H) Hx Hy.
  pose proof (proj1 (Forall_forall _ _) (frees_range _ _ _ H)) as R. simpl in R. pose proof (owned_range _ _ _ x H) as O.
  destruct f; [apply elem_of_cons in Hy as [->|Hy]|]; destruct Hx as [[? Hx]|Hx]; try done; try (by apply (IH (a + 8 * n)));
    try (specialize (R _ Hy); lia). specialize (O Hx). lia.
Qed.
Lemma sizes_ok_ext m m' a T : sizes_ok m a T -> (forall x, a <= x -> x + 8 <= tend a T -> hsize m' x = hsize m x) -> sizes_ok m' a T.
Proof.
  revert a. induction T as [|[n f] T IH]; intros a; simpl; [done|]. intros (? & ? & H) E. pose proof (sizes_le _ _ _ H).
  split_and!; [done|rewrite E by lia; done|]. apply IH; [done|]. intros. apply E; lia.
Qed.
Lemma frees_sorted m a T : sizes_ok m a T -> StronglySorted Z.lt (frees a T).
Proof.
  revert a. induction T as [|[n f] T IH]; intros a; simpl; [constructor|]. intros (? & ? & H). destruct f; [|by apply IH].
  constructor; [by apply IH|]. eapply Forall_impl; [by eapply frees_range|]. simpl. lia.
Qed.
Lemma frees_elem a T x : x ∈ frees a T -> exists T1 n T2, T = T1 ++ (n, true) :: T2 /\ x = tend a T1.
Proof.
  revert a. induction T as [|[n f] T IH]; intros a; simpl; [by intros ?%elem_of_nil|]. intros Hx.
  assert (x ∈ frees (a + 8 * n) T -> exists T1 k T2, (n, f) :: T = T1 ++ (k, true) :: T2 /\ x = tend a T1) as IH'.
  { intros (T1 & k & T2 & -> & ->)%IH. by exists ((n, f) :: T1), k, T2. }
  destruct f; [|by apply IH']. apply elem_of_cons in Hx as [->|Hx]; [|by apply IH']. by exists [], n, T.
Qed.

(** *** Joining free tiles *)

Lemma joined_foldr T X : joined T -> (forall T' k, T <> T' ++ [(k, true)]) -> foldr cons_tile X T = T ++ X.
Proof.
  induction T as [|[n f] T IH]; intros [HT Hf] He || intros HT He; [done|]. cbn [foldr].
  destruct T as [|[k g] T].
  - destruct f; [by destruct (He [] n)|done].
  - rewrite IH; [by destruct f, g| done |]. intros T' j E. apply (He ((n, f) :: T') j). by rewrite E.
Qed.
Lemma joined_coalesce T : joined T -> coalesce T = T.
Proof.
  intros H. unfold coalesce. induction T as [|[n f] T IH]; [done|]. destruct H as [H Hf]. cbn [foldr]. rewrite IH by done.
  destruct T as [|[k g] T]; [by destruct f|]. by destruct f, g.
Qed.
Lemma coalesce_joined T : joined (coalesce T).
Proof.
  unfold coalesce. induction T as [|[n f] T IH]; [done|]. cbn [foldr]. destruct (foldr cons_tile [] T) as [|[k g] X]; [by destruct f|].
  destruct f, g; simpl in *; tauto.
Qed.
Lemma joined_app T1 T2 : joined (T1 ++ T2) -> joined T1 /\ joined T2.
Proof.
  induction T1 as [|[n f] T1 IH]; simpl; [tauto|]. intros [[H1 H2]%IH Hf]. split_and!; [done| |done].
  destruct T1 as [|[k g] T1]; simpl in *; [by destruct f|done].
Qed.
(** A tile becomes free: the tiles on its left, and then on its right. *)
Lemma coalesce_left T1 k n X : joined (T1 ++ [(k, true)]) ->
  foldr cons_tile ((n, true) :: X) (T1 ++ [(k, true)]) = T1 ++ (k + n, true) :: X.
Proof.
  intros H. rewrite foldr_app. cbn [foldr cons_tile]. apply joined_foldr; [by apply joined_app in H as []|].
  intros T' j ->. rewrite <- app_assoc in H. apply joined_app in H as [_ H]. by destruct H as [_ []].
Qed.
Lemma last_cases T : T = [] \/ exists T' k f, T = T' ++ [(k, f) : tile].
Proof. destruct T as [|[k f] T' _] using rev_ind; [by left|right]. by exists T', k, f. Qed.

(** *** Lists of headers *)

Lemma path_app m p F1 F2 : path m p (F1 ++ F2) <-> path m p F1 /\ path m (lastd p F1) F2.
Proof. revert p. induction F1 as [|x F1 IH]; intros p; simpl; [tauto|]. rewrite IH. tauto. Qed.
Lemma lastd_app p F1 F2 : lastd p (F1 ++ F2) = lastd (lastd p F1) F2.
Proof. revert p. induction F1 as [|x F1 IH]; intros p; simpl; [done|apply IH]. Qed.
Lemma lastd_in p F : lastd p F ∈ p :: F.
Proof. revert p. induction F as [|x F IH]; intros p; simpl; [by left|right; apply IH]. Qed.
Lemma lseg_app m p F1 F2 q : lseg m p (F1 ++ F2) q <-> path m p F1 /\ lseg m (lastd p F1) F2 q.
Proof. unfold lseg. rewrite path_app, lastd_app. tauto. Qed.
Lemma lseg_cons m p x F q : lseg m p (x :: F) q <-> hptr m p = x /\ lseg m x F q.
Proof. unfold lseg. simpl. tauto. Qed.

Lemma sorted_last p F : StronglySorted Z.lt (p :: F) -> Forall (fun x => x <= lastd p F) (p :: F).
Proof.
  revert p. induction F as [|x F IH]; intros p Hs; [by apply Forall_singleton|].
  apply StronglySorted_inv in Hs as [Hs Hp]. specialize (IH _ Hs). simpl. constructor; [|done].
  apply Forall_cons in Hp as [Hp _]. apply Forall_cons in IH as [IH _]. lia.
Qed.

(** The path does not read the pointer of its last header. *)
Lemma path_ext m m' p F : StronglySorted Z.lt (p :: F) -> path m p F ->
  (forall x, x ∈ p :: F -> x < lastd p F -> hptr m' x = hptr m x) -> path m' p F.
Proof.
  revert p. induction F as [|x F IH]; intros p Hs; [done|]. simpl. intros [E H] Hm.
  pose proof (StronglySorted_inv Hs) as [Hs' Hp]. pose proof (sorted_last _ _ Hs') as Hl.
  apply Forall_cons in Hp as [Hp _]. apply Forall_cons in Hl as [Hl _]. split.
  - rewrite Hm; [done|by left|lia].
  - apply IH; [done|done|]. intros y Hy. apply Hm. by right.
Qed.
(** The list behind [x], now behind [y]. *)
Lemma lseg_head m m' x y F q : lseg m x F q -> hptr m' y = hptr m x ->
  (forall z, z ∈ F -> hptr m' z = hptr m z) -> lseg m' y F q.
Proof.
  intros H E Hm. destruct F as [|z F]; [unfold lseg in *; simpl in *; naive_solver congruence|].
  apply lseg_cons in H as [E' H]. apply lseg_cons. split; [congruence|].
  destruct H as [H1 H2]. split.
  - clear -H1 Hm. revert z H1 Hm. induction F as [|w F IH]; intros z; simpl; [done|]. intros [E H] Hm. split.
    + rewrite Hm; [done|by left].
    + apply IH; [done|]. intros v Hv. apply Hm. by right.
  - rewrite Hm; [done|apply lastd_in].
Qed.

(** The header behind [y] is the next one upwards, or [y] is the highest. *)
Lemma lseg_next m p F q : lseg m p F q -> StronglySorted Z.lt (p :: F) -> forall y, y ∈ p :: F ->
  (hptr m y = q /\ forall z, z ∈ p :: F -> z <= y) \/
  (y < hptr m y /\ hptr m y ∈ F /\ forall z, z ∈ p :: F -> z <= y \/ hptr m y <= z).
Proof.
  revert p. induction F as [|x F IH]; intros p H Hs y Hy.
  - apply list_elem_of_singleton in Hy as ->. left. split; [apply H|]. by intros z ->%list_elem_of_singleton.
  - apply lseg_cons in H as [E H]. apply StronglySorted_inv in Hs as [Hs Hp].
    pose proof (proj1 (Forall_forall _ _) Hp) as Hp'. clear Hp.
    apply elem_of_cons in Hy as [->|Hy].
    + right. rewrite E. split_and!; [apply Hp'; by left|by left|].
      intros z [->|[->|Hz]%elem_of_cons]%elem_of_cons; [lia|lia|].
      apply StronglySorted_inv in Hs as [_ Hs]. rewrite Forall_forall in Hs. specialize (Hs _ Hz). lia.
    + pose proof (Hp' _ Hy) as Hpy. destruct (IH x H Hs y Hy) as [[E' Hz]|(? & ? & Hz)]; [left|right]; split_and!; try done.
      * intros z [->|Hz']%elem_of_cons; [lia|by apply Hz].
      * by right.
      * intros z [->|Hz']%elem_of_cons; [lia|by apply Hz].
Qed.

(** The circle, entered at any of its headers. *)
Lemma lseg_rotate m p F x : lseg m p F p -> x ∈ p :: F -> NoDup (p :: F) ->
  exists G, lseg m x G x /\ (x ∉ G) /\ Permutation (p :: F) (x :: G).
Proof.
  intros H Hx Hn. apply elem_of_cons in Hx as [->|Hx].
  { exists F. split_and!; [done|by apply NoDup_cons in Hn as []|done]. }
  apply list_elem_of_split in Hx as (F1 & F2 & ->). exists (F2 ++ p :: F1).
  apply lseg_app in H as [H1 [H2 H3]%lseg_cons].
  assert (HP : Permutation (p :: F1 ++ x :: F2) (x :: F2 ++ p :: F1)) by apply (Permutation_app_comm (p :: F1) (x :: F2)).
  split_and!; [|rewrite HP in Hn; by apply NoDup_cons in Hn as []|done].
  apply lseg_app. destruct H3 as [H3 H4]. split; [done|]. apply lseg_cons. split; [done|]. by split.
Qed.

Lemma frees_length a T : (length (frees a T) <= length T)%nat.
Proof. revert a. induction T as [|[n []] T IH]; intros a; simpl; [lia|specialize (IH (a + 8 * n)); lia..]. Qed.

(** *** free *)

Lemma free_find_seg fuel bp x G q h : lseg (h_mem h) x G q -> (exists y, y ∈ x :: G /\ free_here (h_mem h) bp y = true) ->
  (length G < fuel)%nat ->
  wp (free_find fuel bp x) (fun r h' => h' = h /\ r ∈ x :: G /\ free_here (h_mem h) bp r = true) h.
Proof.
  revert x G. induction fuel as [|fuel IH]; intros x G Hl (y & Hy & Hf) Hlen; [lia|]. cbn [free_find].
  apply wp_bind, wp_gets. destruct (free_here (h_mem h) bp x) eqn:Ex.
  - apply wp_ret. split_and!; [done|by left|done].
  - apply elem_of_cons in Hy as [->|Hy]; [congruence|]. destruct G as [|z G]; [by apply elem_of_nil in Hy|].
    apply lseg_cons in Hl as [-> Hl]. eapply wp_mono; [apply (IH z G); [done|by exists y|simpl in Hlen; lia]|].
    intros r h' (-> & Hr & Hf'). split_and!; [done|by right|done].
Qed.

Lemma base_sorted m T : sizes_ok m start T -> base + 8 <= start -> StronglySorted Z.lt (base :: frees start T).
Proof.
  intros H Hb. constructor; [by eapply frees_sorted|]. eapply Forall_impl; [by eapply frees_range|]. simpl. lia.
Qed.
Lemma sorted_nodup l : StronglySorted Z.lt l -> NoDup l.
Proof.
  induction 1 as [|x l Hs IH Hx]; constructor; [|done]. intros Hin. rewrite Forall_forall in Hx. specialize (Hx _ Hin). lia.
Qed.

(** The search ends at the highest header below the block. *)
Lemma free_find_spec fuel bp pd F h : lseg (h_mem h) base F base -> StronglySorted Z.lt (base :: F) ->
  h_freep h ∈ base :: F -> (length F < fuel)%nat -> base < bp ->
  pd ∈ base :: F -> pd < bp -> (forall z, z ∈ base :: F -> z <= pd \/ bp < z) ->
  wp (free_find fuel bp (h_freep h)) (fun r h' => h' = h /\ r = pd) h.
Proof.
  intros Hl Hs Hfp Hlen Hb Hpd Hlt Hz. pose proof (lseg_next _ _ _ _ Hl Hs) as Hn.
  destruct (lseg_rotate _ _ _ _ Hl Hfp (sorted_nodup _ Hs)) as (G & HG & _ & HP).
  assert (Hb' : forall y, y ∈ base :: F -> base <= y).
  { apply StronglySorted_inv in Hs as [_ Hs]. rewrite Forall_forall in Hs.
    intros y [->|Hy]%elem_of_cons; [lia|]. specialize (Hs _ Hy). lia. }
  eapply wp_mono; [eapply free_find_seg; [exact HG| |apply Permutation_length in HP; simpl in HP; lia]|].
  - exists pd. rewrite <- HP. split; [done|]. unfold free_here. specialize (Hb' _ Hpd).
    destruct (Hn _ Hpd) as [[-> _]|(H1 & H2 & _)]; [lia|]. destruct (Hz (hptr (h_mem h) pd)); [by right|lia|lia].
  - intros y h' (-> & Hy & Hf). split; [done|]. rewrite <- HP in Hy. unfold free_here in Hf. specialize (Hb' _ Hy).
    pose proof (Hz _ Hy). destruct (Hn _ Hy) as [[E Hm]|(H1 & H2 & Hm)]; pose proof (Hm _ Hpd); lia.
Qed.

Lemma hptr_set_same m p v : is_u32 v -> hptr (mwrite32 m p v) p = v.
Proof. apply mread32_write. Qed.
Lemma hsize_set_same m p v : is_u32 v -> hsize (mwrite32 m (p + 4) v) p = v.
Proof. apply mread32_write. Qed.
Lemma hsize_set_ptr m p v x : x = p \/ x + 8 <= p \/ p + 8 <= x -> hsize (mwrite32 m p v) x = hsize m x.
Proof. intros H. apply mread32_frame. lia. Qed.
Lemma hptr_set_size m p v x : x = p \/ x + 8 <= p \/ p + 8 <= x -> hptr (mwrite32 m (p + 4) v) x = hptr m x.
Proof. intros H. apply mread32_frame. lia. Qed.
Lemma hptr_ext m m' p x : (forall y, y < p \/ p + 8 <= y -> m' y = m y) -> x + 8 <= p \/ p + 8 <= x -> hptr m' x = hptr m x.
Proof. intros H Hx. apply mread32_ext. intros y Hy. apply H. lia. Qed.
Lemma hsize_ext m m' p x : (forall y, y < p \/ p + 8 <= y -> m' y = m y) -> x + 8 <= p \/ p + 8 <= x -> hsize m' x = hsize m x.
Proof. intros H Hx. apply mread32_ext. intros y Hy. apply H. lia. Qed.

Lemma lseg_val m p F q : lseg m p F q -> hptr m p = hd q F.
Proof. destruct F as [|x F]; [by intros []|]. by intros [-> _]%lseg_cons. Qed.

(** Writes to the header at [p] leave the tiles above or below as they are. *)
Lemma sizes_ok_out m m' p a T : (forall y, y < p \/ p + 8 <= y -> m' y = m y) -> sizes_ok m a T ->
  tend a T <= p \/ p + 8 <= a -> sizes_ok m' a T.
Proof. intros E H Hp. eapply sizes_ok_ext; [done|]. intros x H1 H2. apply (hsize_ext _ _ p); [done|lia]. Qed.

Lemma tile_end m a T x : sizes_ok m a T -> x ∈ frees a T -> 1 <= hsize m x /\ x + 8 * hsize m x <= tend a T.
Proof.
  intros H Hx. destruct (frees_elem _ _ _ Hx) as (T1 & n & T2 & -> & ->). apply sizes_ok_app in H as [H1 (Hn & -> & H2)].
  rewrite tend_app. simpl. apply sizes_le in H2. lia.
Qed.

Lemma heads_apart m T x y : sizes_ok m start T -> base + 8 <= start ->
  x ∈ base :: frees start T -> y ∈ base :: frees start T -> x < y -> x + 8 <= y.
Proof.
  intros H Hb Hx Hy Hlt. pose proof (proj1 (Forall_forall _ _) (frees_range _ _ _ H)) as R. simpl in R.
  apply elem_of_cons in Hy as [->|Hy]; [apply elem_of_cons in Hx as [->|Hx]; [lia|]; specialize (R _ Hx); lia|].
  apply elem_of_cons in Hx as [->|Hx]; [specialize (R _ Hy); lia|]. clear R.
  destruct (frees_elem _ _ _ Hx) as (T1 & n & T2 & -> & ->). apply sizes_ok_app in H as [H1 (Hn & _ & H2)].
  rewrite frees_app in Hy. cbn [frees] in Hy. apply elem_of_app in Hy as [Hy|[->|Hy]%elem_of_cons]; [|lia|].
  - pose proof (proj1 (Forall_forall _ _) (frees_range _ _ _ H1) _ Hy) as R. simpl in R. lia.
  - pose proof (proj1 (Forall_forall _ _) (frees_range _ _ _ H2) _ Hy) as R. simpl in R. lia.
Qed.

Lemma sizes_ok_head m m' p T : (forall y, y < p \/ p + 8 <= y -> m' y = m y) -> sizes_ok m start T -> base + 8 <= start ->
  p ∈ base :: frees start T -> hsize m' p = hsize m p -> sizes_ok m' start T.
Proof.
  intros Hout H Hb Hp Hs. apply elem_of_cons in Hp as [->|Hp]; [apply (sizes_ok_out _ _ _ _ _ Hout H); lia|].
  destruct (frees_elem _ _ _ Hp) as (T1 & n & T2 & -> & ->). apply sizes_ok_app in H as [H1 (Hn & E & H2)].
  apply sizes_ok_app. split; [apply (sizes_ok_out _ _ _ _ _ Hout H1); lia|]. cbn [sizes_ok]. rewrite Hs.
  split_and!; [done|done|apply (sizes_ok_out _ _ _ _ _ Hout H2); lia].
Qed.

Section free_parts.
Context (h : heap) (T1 : list tile) (n : Z) (T2 : list tile).
Let bp := tend start T1.
Let p := lastd base (frees start T1).
Let F2 := frees (bp + 8 * n) T2.
Context (Hbase : 0 < base /\ base + 8 <= start) (H1 : sizes_ok (h_mem h) start T1) (Hn : 1 <= n)
  (H2 : sizes_ok (h_mem h) (bp + 8 * n) T2) (Htop : tend (bp + 8 * n) T2 <= KERNBASE).

Lemma pred_range : base <= p /\ p + 8 <= bp /\ start <= bp.
Proof.
  pose proof (frees_range _ _ _ H1) as R. pose proof (sizes_le _ _ _ H1). rewrite Forall_forall in R.
  unfold p, bp in *. pose proof (lastd_in base (frees start T1)) as [->|Hx]%elem_of_cons; [lia|]. apply R in Hx. lia.
Qed.
Lemma behind_range x : x ∈ F2 -> bp + 8 * n <= x /\ x + 8 <= KERNBASE.
Proof. intros Hx. pose proof (frees_range _ _ _ H2) as R. rewrite Forall_forall in R. apply R in Hx. lia. Qed.

(** The block behind is free: [bp] takes it in. *)
Lemma free_right_join k T2' : T2 = (k, true) :: T2' -> hsize (h_mem h) bp = n -> lseg (h_mem h) p F2 base ->
  wp (free_right p bp) (fun _ h' => exists m', h' = Heap m' (h_freep h) (h_brk h) (h_room h) /\
    (forall y, y < bp \/ bp + 8 <= y -> m' y = h_mem h y) /\ hsize m' bp = n + k /\
    sizes_ok m' (bp + 8 * (n + k)) T2' /\ lseg m' bp (frees (bp + 8 * (n + k)) T2') base) h.
Proof.
  intros ET Hsz Hl. pose proof pred_range as R. pose proof behind_range as B. unfold F2 in *. subst T2.
  destruct H2 as (Hk & Ek & H2'). cbn [frees] in *. apply lseg_cons in Hl as [Ep Hl].
  cbn [tend] in Htop. pose proof (sizes_le _ _ _ H2') as Hle. unfold KERNBASE in *.
  unfold free_right, get_ptr, get_size, set_ptr, set_size, wp. krun. rewrite Hsz, Ep.
  unfold hdr_add. rewrite u32_small by (unfold is_u32; lia). rewrite Z.eqb_refl. rewrite Ek, (u32_small (n + k)) by (unfold is_u32; lia).
  cbn [h_mem h_freep h_brk h_room]. rewrite (hptr_set_size _ bp _ p), Ep, hptr_set_size by lia.
  set (m1 := mwrite32 _ (bp + 4) _). set (v := hptr _ _). set (m2 := mwrite32 m1 bp v).
  assert (Hout : forall y, y < bp \/ bp + 8 <= y -> m2 y = h_mem h y).
  { intros y Hy. unfold m2, m1. rewrite !mwrite32_out by lia. done. }
  assert (Hv : is_u32 v).
  { unfold v. rewrite (lseg_val _ _ _ _ Hl). unfold is_u32. destruct (frees _ T2') as [|z F] eqn:EF; simpl; [lia|].
    specialize (B z ltac:(right; rewrite ?EF; by left)). lia. }
  exists m2. replace (bp + 8 * (n + k)) with (bp + 8 * n + 8 * k) by lia. split_and!; [done|done| | |].
  - unfold m2. rewrite hsize_set_ptr by lia. apply hsize_set_same. unfold is_u32; lia.
  - apply (sizes_ok_out _ _ bp _ _ Hout H2'). lia.
  - eapply lseg_head; [exact Hl|by apply hptr_set_same|]. intros z Hz. apply (hptr_ext _ _ bp); [done|].
    specialize (B z ltac:(by right)). lia.
Qed.

(** It is not: [bp] points to the next free block. *)
Lemma free_right_keep : (forall k T2', T2 <> (k, true) :: T2') -> hsize (h_mem h) bp = n -> lseg (h_mem h) p F2 base ->
  wp (free_right p bp) (fun _ h' => exists m', h' = Heap m' (h_freep h) (h_brk h) (h_room h) /\
    (forall y, y < bp \/ bp + 8 <= y -> m' y = h_mem h y) /\ hsize m' bp = n /\
    sizes_ok m' (bp + 8 * n) T2 /\ lseg m' bp F2 base) h.
Proof.
  intros ET Hsz Hl. pose proof pred_range as R. pose proof behind_range as B. pose proof (sizes_le _ _ _ H2). unfold KERNBASE in *.
  assert (Eq : hptr (h_mem h) p = base \/ bp + 8 * n < hptr (h_mem h) p < 2147483648).
  { rewrite (lseg_val _ _ _ _ Hl). destruct F2 as [|z F] eqn:EF; [by left|]. right. simpl.
    specialize (B z ltac:(by left)). split; [|lia]. unfold F2 in EF. destruct T2 as [|[k f] T2']; [done|]. destruct f; [by destruct (ET k T2')|].
    destruct H2 as (? & ? & H2'). pose proof (frees_range _ _ _ H2') as R2. rewrite Forall_forall in R2. simpl in EF.
    specialize (R2 z ltac:(rewrite EF; by left)). lia. }
  unfold free_right, get_ptr, get_size, set_ptr, set_size, wp. krun. rewrite Hsz.
  unfold hdr_add. rewrite u32_small by (unfold is_u32; lia).
  rewrite (proj2 (Z.eqb_neq (bp + 8 * n) _)) by lia. set (m1 := mwrite32 _ bp _). exists m1.
  assert (Hout : forall y, y < bp \/ bp + 8 <= y -> m1 y = h_mem h y).
  { intros y Hy. unfold m1. by rewrite mwrite32_out by lia. }
  split_and!; [done|done| | |].
  - unfold m1. rewrite hsize_set_ptr by lia. done.
  - apply (sizes_ok_out _ _ bp _ _ Hout H2). lia.
  - eapply lseg_head; [exact Hl|apply hptr_set_same; unfold is_u32; lia|]. intros z Hz. apply (hptr_ext _ _ bp); [done|].
    specialize (B z Hz). lia.
Qed.

(** The block in front is free: it takes [bp] in. *)
Lemma free_left_join k T1' : T1 = T1' ++ [(k, true)] -> hsize (h_mem h) bp = n -> lseg (h_mem h) bp F2 base ->
  wp (free_left p bp) (fun _ h' => exists m', h' = Heap m' (h_freep h) (h_brk h) (h_room h) /\
    (forall y, y < p \/ p + 8 <= y -> m' y = h_mem h y) /\ p = tend start T1' /\ hsize m' p = k + n /\ lseg m' p F2 base) h.
Proof.
  intros ET Hsz Hl. pose proof pred_range as R. pose proof behind_range as B. pose proof (sizes_le _ _ _ H2). unfold KERNBASE in *.
  assert (Ep : p = tend start T1') by (unfold p; rewrite ET, frees_app, lastd_app; done).
  assert (Ek : hsize (h_mem h) p = k /\ 1 <= k /\ bp = p + 8 * k).
  { unfold bp. rewrite ET in H1 |- *. apply sizes_ok_app in H1 as (_ & ? & ? & _). rewrite tend_app. simpl. by rewrite Ep. }
  destruct Ek as (Ek & Hk & Ebp). unfold free_left, get_ptr, get_size, set_ptr, set_size, wp. krun. rewrite Ek.
  unfold hdr_add. rewrite u32_small, <- Ebp, Z.eqb_refl by (unfold is_u32; lia). rewrite Hsz, (u32_small (k + n)) by (unfold is_u32; lia).
  cbn [h_mem h_freep h_brk h_room]. rewrite hptr_set_size by lia.
  set (m1 := mwrite32 _ (p + 4) _). set (v := hptr _ _). set (m2 := mwrite32 m1 p v).
  assert (Hout : forall y, y < p \/ p + 8 <= y -> m2 y = h_mem h y).
  { intros y Hy. unfold m2, m1. rewrite !mwrite32_out by lia. done. }
  assert (Hv : is_u32 v).
  { unfold v. rewrite (lseg_val _ _ _ _ Hl). unfold is_u32. destruct F2 as [|z F]; simpl; [lia|].
    specialize (B z ltac:(by left)). lia. }
  exists m2. split_and!; [done|done|done| |].
  - unfold m2. rewrite hsize_set_ptr by lia. apply hsize_set_same. unfold is_u32; lia.
  - eapply lseg_head; [exact Hl|by apply hptr_set_same|]. intros z Hz. apply (hptr_ext _ _ p); [done|].
    specialize (B z Hz). lia.
Qed.

(** It is not: the free header in front points to [bp]. *)
Lemma free_left_keep : (forall T' k, T1 <> T' ++ [(k, true)]) -> hsize (h_mem h) base = 0 -> lseg (h_mem h) bp F2 base ->
  wp (free_left p bp) (fun _ h' => exists m', h' = Heap m' (h_freep h) (h_brk h) (h_room h) /\
    (forall y, y < p \/ p + 8 <= y -> m' y = h_mem h y) /\ hsize m' p = hsize (h_mem h) p /\ lseg m' p (bp :: F2) base) h.
Proof.
  intros ET Hsz Hl. pose proof pred_range as R. pose proof behind_range as B. pose proof (sizes_le _ _ _ H2). unfold KERNBASE in *.
  assert (Hp : 0 <= hsize (h_mem h) p /\ p + 8 * hsize (h_mem h) p < bp).
  { unfold p, bp in *. pose proof (lastd_in base (frees start T1)) as [E|Hx]%elem_of_cons; [rewrite E, Hsz; lia|].
    destruct (last_cases T1) as [->|(T' & k & f & E)]; [by apply elem_of_nil in Hx|]. destruct f; [by destruct (ET T' k)|].
    rewrite E in H1, Hx |- *. rewrite frees_app in Hx |- *. cbn [frees] in *. rewrite app_nil_r in *. apply sizes_ok_app in H1 as [H1' (? & ? & _)].
    pose proof (tile_end _ _ _ _ H1' Hx). rewrite tend_app. simpl. lia. }
  unfold free_left, get_ptr, get_size, set_ptr, set_size, wp. krun.
  unfold hdr_add. rewrite u32_small by (unfold is_u32; lia). rewrite (proj2 (Z.eqb_neq _ bp)) by lia.
  set (m1 := mwrite32 _ p _). exists m1.
  assert (Hout : forall y, y < p \/ p + 8 <= y -> m1 y = h_mem h y).
  { intros y Hy. unfold m1. by rewrite mwrite32_out by lia. }
  split_and!; [done|done|apply hsize_set_ptr; lia|]. apply lseg_cons. split; [apply hptr_set_same; unfold is_u32; lia|].
  eapply lseg_head; [exact Hl|apply (hptr_ext _ _ p); [done|lia]|]. intros z Hz. apply (hptr_ext _ _ p); [done|].
  specialize (B z Hz). lia.
Qed.

Lemma free_right_spec : joined T2 -> hsize (h_mem h) bp = n -> lseg (h_mem h) p F2 base ->
  wp (free_right p bp) (fun _ h' => exists m' n' T2', h' = Heap m' (h_freep h) (h_brk h) (h_room h) /\
    (forall y, y < bp \/ bp + 8 <= y -> m' y = h_mem h y) /\ coalesce ((n, true) :: T2) = (n', true) :: T2' /\
    1 <= n' /\ hsize m' bp = n' /\ sizes_ok m' (bp + 8 * n') T2' /\ lseg m' bp (frees (bp + 8 * n') T2') base /\
    tend (bp + 8 * n') T2' = tend (bp + 8 * n) T2) h.
Proof.
  intros HJ Hsz Hl. unfold coalesce. cbn [foldr]. fold (coalesce T2). rewrite (joined_coalesce T2) by done.
  assert (HC : (exists k T2', T2 = (k, true) :: T2') \/ (forall k T2', T2 <> (k, true) :: T2')).
  { destruct T2 as [|[k []] T2']; [by right|left; by exists k, T2'|by right]. }
  destruct HC as [(k & T2' & E)|HT].
  - eapply wp_mono; [by eapply free_right_join|]. intros _ h' (m' & -> & Hout & Hs & Hok & Hl').
    exists m', (n + k), T2'. rewrite E in H2 |- *. destruct H2 as (? & ? & _).
    replace (bp + 8 * (n + k)) with (bp + 8 * n + 8 * k) in * by lia. split_and!; try done; lia.
  - eapply wp_mono; [by eapply free_right_keep|]. intros _ h' (m' & -> & Hout & Hs & Hok & Hl').
    exists m', n, T2. split_and!; try done. destruct T2 as [|[k []] T2']; [done| |done]. by destruct (HT k T2').
Qed.

Lemma free_left_spec : joined T1 -> hsize (h_mem h) bp = n -> hsize (h_mem h) base = 0 ->
  path (h_mem h) base (frees start T1) -> lseg (h_mem h) bp F2 base ->
  let T' := foldr cons_tile ((n, true) :: T2) T1 in
  wp (free_left p bp) (fun _ h' => exists m', h' = Heap m' (h_freep h) (h_brk h) (h_room h) /\
    (forall y, y < p \/ p + 8 <= y -> m' y = h_mem h y) /\ sizes_ok m' start T' /\ hsize m' base = 0 /\
    lseg m' base (frees start T') base /\ p ∈ base :: frees start T' /\ tend start T' = tend (bp + 8 * n) T2) h.
Proof.
  intros HJ Hsz Hb0 HP Hl. pose proof pred_range as R. pose proof (sizes_le _ _ _ H2) as Hle2.
  pose proof (base_sorted _ _ H1 (proj2 Hbase)) as Hsort.
  assert (HC : (exists T' k, T1 = T' ++ [(k, true)]) \/ (forall T' k, T1 <> T' ++ [(k, true)])).
  { destruct (last_cases T1) as [->|(T' & k & [] & ->)]; [right|left; by exists T', k|right]; intros T'' j E.
    - by destruct T''.
    - apply app_inj_tail in E as [_ E]. done. }
  assert (HP' : forall m', (forall y, y < p \/ p + 8 <= y -> m' y = h_mem h y) -> path m' base (frees start T1)).
  { intros m' Hout. eapply path_ext; [done|done|]. intros x Hx Hlt. apply (hptr_ext _ _ p); [done|]. left.
    eapply heads_apart; [exact H1|lia|exact Hx|apply lastd_in|exact Hlt]. }
  destruct HC as [(T' & k & E)|HT]; intros T0; unfold T0.
  - rewrite E, coalesce_left by (by rewrite <- E).
    eapply wp_mono; [by eapply free_left_join|]. intros _ h' (m' & -> & Hout & Ep & Hs & Hl'). exists m'.
    specialize (HP' m' Hout). rewrite E in H1, HP'. apply sizes_ok_app in H1 as [H1' (Hk & _ & _)].
    assert (Ebp : bp = p + 8 * k) by (unfold bp; rewrite E, tend_app, Ep; done).
    rewrite frees_app in HP' |- *. rewrite tend_app. cbn [frees tend] in HP' |- *. rewrite <- Ep in HP' |- *.
    replace (p + 8 * (k + n)) with (bp + 8 * n) by lia. split_and!; try done.
    + apply sizes_ok_app. rewrite <- Ep. split; [apply (sizes_ok_out _ _ p _ _ Hout H1'); lia|]. cbn [sizes_ok].
      split_and!; [lia|done|]. replace (p + 8 * (k + n)) with (bp + 8 * n) by lia. apply (sizes_ok_out _ _ p _ _ Hout H2). lia.
    + rewrite (hsize_ext _ _ p _ Hout); [done|]. pose proof (sizes_le _ _ _ H1'). lia.
    + apply path_app in HP' as [HP1 [HP2 _]]. apply lseg_app. split; [done|]. by apply lseg_cons.
    + right. apply elem_of_app. right. by left.
  - rewrite joined_foldr by done.
    eapply wp_mono; [by eapply free_left_keep|]. intros _ h' (m' & -> & Hout & Hs & Hl'). exists m'.
    specialize (HP' m' Hout). rewrite frees_app, tend_app. cbn [frees tend]. split_and!; try done.
    + apply sizes_ok_app. fold bp. cbn [sizes_ok]. split_and!; [|lia| |].
      * apply (sizes_ok_head _ _ p _ Hout); [done|lia|apply lastd_in|done].
      * rewrite (hsize_ext _ _ p _ Hout); [done|lia].
      * apply (sizes_ok_out _ _ p _ _ Hout H2). lia.
    + destruct (decide (p = base)) as [Eb|Hne]; [rewrite Eb in Hs; congruence|]. rewrite (hsize_ext _ _ p _ Hout); [done|].
      left. eapply heads_apart; [exact H1|lia|by left|apply lastd_in|]. fold p. lia.
    + apply lseg_app. by split.
    + pose proof (lastd_in base (frees start T1)) as [E|Hp]%elem_of_cons; apply elem_of_cons; [left; exact E|right].
      apply elem_of_app. by left.
Qed.
End free_parts.

(** [free] of a block the program owns makes it free and joins it with the free
    blocks beside it; what the program keeps is not touched. *)
Lemma free_spec fuel h T1 n T2 : heap_ok h (T1 ++ (n, false) :: T2) -> (length (T1 ++ (n, false) :: T2) < fuel)%nat ->
  wp (free fuel (tend start T1 + 8)) (fun _ h' =>
    heap_ok h' (coalesce (T1 ++ (n, true) :: T2)) /\ h_freep h' <> 0 /\ h_brk h' = h_brk h /\ h_room h' = h_room h /\
    forall x, owned start (T1 ++ (n, true) :: T2) x -> h_mem h' x = h_mem h x) h.
Proof.
  intros [Hb Hbrk Htop HJ Hsz Hlist] Hfuel. destruct Hlist as [[_ E]|(Hfp & Hb0 & Hl)]; [by destruct T1|].
  pose proof (base_sorted _ _ Hsz (proj2 Hb)) as Hsort. pose proof (joined_app _ _ HJ) as [HJ1 [HJ2 _]].
  rewrite tend_app in Hbrk. cbn [tend] in Hbrk. rewrite frees_app in Hl, Hfp, Hsort. cbn [frees] in *.
  apply sizes_ok_app in Hsz as [H1 (Hn & En & H2)]. set (bp := tend start T1) in *.
  pose proof (sizes_le _ _ _ H1) as Hle1. pose proof (sizes_le _ _ _ H2) as Hle2. fold bp in Hle1.
  pose proof (pred_range h T1 Hb H1) as R. fold bp in R. set (p := lastd base (frees start T1)) in *.
  assert (Hlow : forall z, z ∈ frees start T1 -> z <= p).
  { intros z Hz. pose proof (base_sorted _ _ H1 (proj2 Hb)) as Hs1. apply sorted_last in Hs1. rewrite Forall_forall in Hs1.
    apply Hs1. by right. }
  assert (Hup : forall z, z ∈ frees (bp + 8 * n) T2 -> bp < z).
  { intros z Hz. pose proof (proj1 (Forall_forall _ _) (frees_range _ _ _ H2) _ Hz) as R2. simpl in R2. lia. }
  unfold free. rewrite Z.add_simpl_r, u32_small by (unfold is_u32, KERNBASE in *; lia).
  apply wp_bind, wp_gets, wp_bind. eapply wp_mono.
  { apply (free_find_spec fuel bp p _ h Hl Hsort Hfp).
    - rewrite !length_app in *. cbn [length] in Hfuel. pose proof (frees_length start T1). pose proof (frees_length (bp + 8 * n) T2). lia.
    - lia.
    - pose proof (lastd_in base (frees start T1)) as [E|Hx]%elem_of_cons; apply elem_of_cons; [left; exact E|right].
      apply elem_of_app. by left.
    - lia.
    - intros z [->|[Hz|Hz]%elem_of_app]%elem_of_cons; [lia|left; by apply Hlow|right; by apply Hup]. }
  intros r h0 [-> ->]. apply lseg_app in Hl as [HP Hl]. fold p in Hl.
  apply wp_bind. eapply wp_mono; [apply (free_right_spec h T1 n T2); try done; fold bp; lia|]. fold p bp.
  intros _ h1 (m1 & n1 & T2' & -> & Hout1 & EC & Hn1 & Es1 & Hok1 & Hl1 & Et1).
  apply wp_bind. eapply wp_mono; [eapply (free_left_spec (Heap m1 (h_freep h) (h_brk h) (h_room h)) T1 n1 T2')|].
  all: cbn [h_mem h_freep h_brk h_room]; fold bp; fold p; try done; try lia.
  - apply (sizes_ok_out _ _ bp _ _ Hout1 H1). by left.
  - rewrite (hsize_ext _ _ bp _ Hout1); [done|lia].
  - eapply path_ext; [apply (base_sorted _ _ H1); lia|done|]. intros z Hz _. apply (hptr_ext _ _ bp); [done|].
    apply elem_of_cons in Hz as [->|Hz]; [lia|]. apply Hlow in Hz. lia.
  - intros _ h2 (m2 & -> & Hout2 & Hok2 & Hb2 & Hl2 & Hp2 & Et2).
    assert (ET : foldr cons_tile ((n1, true) :: T2') T1 = coalesce (T1 ++ (n, true) :: T2)).
    { unfold coalesce in *. by rewrite foldr_app, EC. }
    rewrite ET in *. apply wp_modify. cbn [h_mem h_freep h_brk h_room]. split_and!; [|lia|done|done|].
    + constructor; cbn [h_mem h_freep h_brk h_room]; try done; [lia|apply coalesce_joined|by right].
    + intros x Hx. rewrite owned_app in Hx. cbn [owned] in Hx. fold bp in Hx.
      assert (Hx' : (x < p \/ p + 8 <= x) /\ (x < bp \/ bp + 8 <= x)); [|rewrite Hout2, Hout1 by tauto; done].
      destruct Hx as [Hx|[[? _]|Hx]]; [|done|apply (owned_range _ _ _ _ H2) in Hx; lia].
      pose proof (owned_range _ _ _ _ H1 Hx) as Rx. fold bp in Rx. split; [|lia].
      pose proof (lastd_in base (frees start T1)) as [E|Hp]%elem_of_cons; [fold p in E; lia|].
      by apply (owned_free _ _ _ _ _ H1 Hx).
Qed.

(** *** malloc *)

Lemma joined_use T1 n k T2 : joined (T1 ++ (n, true) :: T2) -> joined (T1 ++ (k, false) :: T2).
Proof.
  induction T1 as [|[j f] T1 IH]; cbn [app joined]; [tauto|]. intros [H Hf]. split; [by apply IH|].
  destruct T1 as [|[i g] T1]; simpl in *; [by destruct f|done].
Qed.
Lemma joined_split T1 n k j T2 : joined (T1 ++ (n, true) :: T2) -> joined (T1 ++ (k, true) :: (j, false) :: T2).
Proof.
  induction T1 as [|[i f] T1 IH]; cbn [app joined]; [tauto|]. intros [H Hf]. split; [by apply IH|].
  destruct T1 as [|[i' g] T1]; simpl in *; [by destruct f|done].
Qed.

Section take.
Context (h : heap) (T1 : list tile) (n : Z) (T2 : list tile) (nu : Z).
Let x := tend start T1.
Let p := lastd base (frees start T1).
Context (Hok : heap_ok h (T1 ++ (n, true) :: T2)) (Hnu : 1 <= nu).

(** What [heap_ok] says around the free tile. *)
Lemma take_facts : 0 < base /\ base + 8 <= start /\ base <= p /\ p + 8 <= x /\ start <= x /\ 1 <= n /\
  x + 8 * n <= tend (x + 8 * n) T2 < 4294967296 /\ hsize (h_mem h) x = n /\ hsize (h_mem h) base = 0 /\
  sizes_ok (h_mem h) start T1 /\ sizes_ok (h_mem h) (x + 8 * n) T2 /\ path (h_mem h) base (frees start T1) /\
  hptr (h_mem h) p = x /\ lseg (h_mem h) x (frees (x + 8 * n) T2) base.
Proof.
  destruct Hok as [Hb Hbrk Htop HJ Hsz [[_ E]|(Hfp & Hb0 & Hl)]]; [by destruct T1|].
  rewrite tend_app in Hbrk. rewrite frees_app in Hl. cbn [tend frees] in *. fold x in Hbrk, Hl.
  apply sizes_ok_app in Hsz as [H1 (Hn & En & H2)]. fold x in En, H2.
  apply lseg_app in Hl as [HP [Ep Hl]%lseg_cons]. pose proof (pred_range h T1 Hb H1) as R. fold p x in R.
  pose proof (sizes_le _ _ _ H2). unfold KERNBASE in Htop. split_and!; try done; lia.
Qed.

(** The header in front of [x] in the list. *)
Lemma take_prev prevp : prevp ∈ base :: frees start (T1 ++ (n, true) :: T2) -> hptr (h_mem h) prevp = x -> prevp = p.
Proof.
  intros Hin E. pose proof take_facts as (? & Hb & ? & ? & ? & ? & _ & _ & _ & _ & _ & _ & Ep & _).
  destruct Hok as [_ _ _ _ Hsz [[_ ET]|(_ & _ & Hl)]]; [by destruct T1|].
  pose proof (lseg_next _ _ _ _ Hl (base_sorted _ _ Hsz Hb)) as Hn.
  assert (Hp : p ∈ base :: frees start (T1 ++ (n, true) :: T2)).
  { rewrite frees_app. pose proof (lastd_in base (frees start T1)) as [E'|Hx]%elem_of_cons; apply elem_of_cons; [by left|right].
    apply elem_of_app. by left. }
  destruct (Hn _ Hp) as [[E1 _]|(P1 & _ & P2)]; [lia|]. destruct (Hn _ Hin) as [[E2 _]|(Q1 & _ & Q2)]; [lia|].
  specialize (P2 _ Hin). specialize (Q2 _ Hp). lia.
Qed.

Definition taken (a : Z) (T' : list tile) (r : Z) (h' : heap) : Prop :=
  r = a + 8 /\ heap_ok h' T' /\ h_freep h' <> 0 /\ h_brk h' = h_brk h /\ h_room h' = h_room h /\
  forall y, owned start (T1 ++ (n, true) :: T2) y -> h_mem h' y = h_mem h y.

(** A block of the exact size leaves the list. *)
Lemma malloc_take_all : n = nu -> wp (malloc_take nu p x) (taken x (T1 ++ (nu, false) :: T2)) h.
Proof.
  intros Enu. pose proof take_facts as (Hb0 & Hb & Hbp & Hpx & Hsx & Hn & Htop & En & Eb & H1 & H2 & HP & Ep & Hl).
  unfold malloc_take, get_size, get_ptr, set_ptr, set_freep, wp. krun. rewrite En, Enu, Z.eqb_refl.
  cbn [h_mem h_freep h_brk h_room]. set (v := hptr _ _). set (m' := mwrite32 _ p v).
  assert (Hv : is_u32 v).
  { unfold v. rewrite (lseg_val _ _ _ _ Hl). pose proof (frees_range _ _ _ H2) as R. unfold is_u32.
    destruct (frees _ T2) as [|z F]; simpl; [lia|]. apply Forall_cons in R as [R _]. lia. }
  assert (Hout : forall y, y < p \/ p + 8 <= y -> m' y = h_mem h y).
  { intros y Hy. unfold m'. by rewrite mwrite32_out by lia. }
  assert (Hin : p ∈ base :: frees start T1) by apply lastd_in.
  rewrite <- Enu. unfold taken, hdr_add. rewrite u32_small by (unfold is_u32; lia). cbn [h_mem h_freep h_brk h_room].
  split_and!; [lia| |lia|done|done|].
  - destruct Hok as [_ Hbrk Htop' HJ _ _]. rewrite tend_app in Hbrk.
    constructor; cbn [h_mem h_freep h_brk h_room]; rewrite ?tend_app, ?frees_app; cbn [tend frees]; fold x; try done.
    + by eapply joined_use.
    + apply sizes_ok_app. fold x. cbn [sizes_ok]. split_and!; [|done|rewrite (hsize_ext _ _ p _ Hout); [done|lia]|].
      * apply (sizes_ok_head _ _ p _ Hout H1); [lia|done|]. apply hsize_set_ptr. lia.
      * apply (sizes_ok_out _ _ p _ _ Hout H2). lia.
    + right. split_and!.
      * apply elem_of_cons in Hin as [->|Hin]; [by left|right]. apply elem_of_app. by left.
      * destruct (decide (p = base)) as [E|Hne]; [rewrite <- E, <- Eb, <- E; apply hsize_set_ptr; lia|].
        rewrite (hsize_ext _ _ p _ Hout); [done|]. left. eapply heads_apart; [exact H1|lia|by left|done|lia].
      * apply lseg_app. split.
        -- eapply path_ext; [apply (base_sorted _ _ H1); lia|done|]. intros z Hz Hlt. apply (hptr_ext _ _ p); [done|]. left.
           eapply heads_apart; [exact H1|lia|exact Hz|done|exact Hlt].
        -- fold p. eapply lseg_head; [exact Hl|by apply hptr_set_same|]. intros z Hz. apply (hptr_ext _ _ p); [done|].
           pose proof (proj1 (Forall_forall _ _) (frees_range _ _ _ H2) _ Hz) as R. simpl in R. lia.
  - intros y Hy. apply Hout. apply owned_app in Hy as [Hy|[[? _]|Hy]]; [|done|].
    + apply elem_of_cons in Hin as [->|Hin]; [apply (owned_range _ _ _ _ H1) in Hy; lia|]. by apply (owned_free _ _ _ _ _ H1 Hy).
    + apply (owned_range _ _ _ _ H2) in Hy. fold x in Hy. lia.
Qed.

(** A larger one gives its end. *)
Lemma malloc_take_part : nu < n -> wp (malloc_take nu p x) (taken (x + 8 * (n - nu)) (T1 ++ (n - nu, true) :: (nu, false) :: T2)) h.
Proof.
  intros Hlt. pose proof take_facts as (Hb0 & Hb & Hbp & Hpx & Hsx & Hn & Htop & En & Eb & H1 & H2 & HP & Ep & Hl).
  unfold malloc_take, get_size, get_ptr, set_size, set_freep, wp. krun. rewrite En, (proj2 (Z.eqb_neq n nu)) by lia.
  cbn [h_mem h_freep h_brk h_room]. rewrite (u32_small (n - nu)), hsize_set_same by (unfold is_u32; lia).
  unfold hdr_add. rewrite (u32_small (x + 8 * (n - nu))) by (unfold is_u32; lia). set (a := x + 8 * (n - nu)). rewrite u32_small by (unfold is_u32; lia).
  set (m1 := mwrite32 _ (x + 4) _). set (m2 := mwrite32 m1 (a + 4) nu).
  assert (Hout : forall y, y < x \/ x + 8 * n <= y -> m2 y = h_mem h y).
  { intros y Hy. unfold m2, m1. by rewrite !mwrite32_out by lia. }
  assert (Hptr : forall z, z <= x \/ x + 8 * n <= z -> z = x \/ z + 8 <= x \/ x + 8 <= z -> hptr m2 z = hptr (h_mem h) z).
  { intros z Hz Hz'. unfold m2, m1. by rewrite !hptr_set_size by lia. }
  assert (Hlow : forall z, z ∈ base :: frees start T1 -> z + 8 <= x).
  { intros z [->|Hz]%elem_of_cons; [lia|]. pose proof (proj1 (Forall_forall _ _) (frees_range _ _ _ H1) _ Hz) as R. simpl in R. lia. }
  pose proof (lastd_in base (frees start T1)) as Hin. fold p in Hin.
  unfold taken. cbn [h_mem h_freep h_brk h_room]. split_and!; [lia| |lia|done|done|].
  - destruct Hok as [_ Hbrk Htop' HJ _ _]. rewrite tend_app in Hbrk.
    constructor; cbn [h_mem h_freep h_brk h_room]; rewrite ?tend_app, ?frees_app; cbn [tend frees] in *; fold x in Hbrk |- *; try done;
      replace (x + 8 * (n - nu) + 8 * nu) with (x + 8 * n) by lia; try done.
    + by eapply joined_split.
    + apply sizes_ok_app. fold x. cbn [sizes_ok]. replace (x + 8 * (n - nu) + 8 * nu) with (x + 8 * n) by lia. fold a.
      split_and!; [|lia| |done| |].
      * eapply sizes_ok_ext; [exact H1|]. intros z _ Hz. apply mread32_ext. intros y Hy. apply Hout. fold x in Hz. lia.
      * unfold m2, m1. unfold hsize. rewrite mread32_frame by lia. apply hsize_set_same. unfold is_u32; lia.
      * apply hsize_set_same. unfold is_u32; lia.
      * eapply sizes_ok_ext; [exact H2|]. intros z Hz _. apply mread32_ext. intros y Hy. apply Hout. lia.
    + right. split_and!.
      * apply elem_of_cons in Hin as [->|Hin]; [by left|right]. apply elem_of_app. by left.
      * rewrite <- Eb. apply mread32_ext. intros y Hy. apply Hout. lia.
      * apply lseg_app. split.
        -- eapply path_ext; [apply (base_sorted _ _ H1); lia|done|]. intros z Hz _. specialize (Hlow _ Hz). apply Hptr; lia.
        -- fold p. apply lseg_cons. rewrite Hptr by lia. split; [done|]. eapply lseg_head; [exact Hl|apply Hptr; lia|].
           intros z Hz. pose proof (proj1 (Forall_forall _ _) (frees_range _ _ _ H2) _ Hz) as R. simpl in R. apply Hptr; lia.
  - intros y Hy. apply Hout. apply owned_app in Hy as [Hy|[[? _]|Hy]]; [|done|].
    + apply (owned_range _ _ _ _ H1) in Hy. fold x in Hy. lia.
    + apply (owned_range _ _ _ _ H2) in Hy. fold x in Hy. lia.
Qed.
End take.

Lemma malloc_take_spec h T nu prevp x : heap_ok h T -> 1 <= nu -> h_freep h <> 0 -> prevp ∈ base :: frees start T ->
  x ∈ base :: frees start T -> hptr (h_mem h) prevp = x -> nu <= hsize (h_mem h) x ->
  wp (malloc_take nu prevp x) (fun r h' => exists a T', takes nu T a T' /\ r = a + 8 /\ heap_ok h' T' /\ h_freep h' <> 0 /\
    h_brk h' = h_brk h /\ h_room h' = h_room h /\ forall y, owned start T y -> h_mem h' y = h_mem h y) h.
Proof.
  intros Hok Hnu Hfp Hp Hx E Hfit.
  assert (Hx' : x ∈ frees start T).
  { apply elem_of_cons in Hx as [->|Hx]; [|done]. destruct Hok as [_ _ _ _ _ [[? _]|(_ & Hb0 & _)]]; [done|lia]. }
  destruct (frees_elem _ _ _ Hx') as (T1 & n & T2 & -> & ->).
  assert (En : hsize (h_mem h) (tend start T1) = n) by (destruct Hok as [_ _ _ _ (_ & _ & ? & _)%sizes_ok_app _]; done).
  rewrite (take_prev h T1 n T2 Hok prevp Hp E). rewrite En in Hfit.
  destruct (decide (n = nu)) as [->|Hne].
  - eapply wp_mono; [by apply malloc_take_all|]. intros r h' H. eexists _, _. split; [constructor|exact H].
  - eapply wp_mono; [apply (malloc_take_part h T1 n T2 nu Hok Hnu); lia|]. intros r h' H. eexists _, _. split; [by constructor; lia|exact H].
Qed.

Lemma morecore_spec fuel h T nu : heap_ok h T -> h_freep h <> 0 -> 1 <= nu -> 8 * nu < 2147483648 -> (S (length T) < fuel)%nat ->
  let k := Z.max nu 4096 in
  wp (morecore fuel nu) (fun r h' => (r = 0 /\ h' = h /\ h_room h < 8 * k) \/
    (r = h_freep h' /\ r <> 0 /\ heap_ok h' (coalesce (T ++ [(k, true)])) /\ h_brk h' = h_brk h + 8 * k /\
     h_room h' = h_room h - 8 * k /\ forall y, owned start T y -> h_mem h' y = h_mem h y)) h.
Proof.
  intros Hok Hfp Hnu Htop Hfuel k. unfold morecore.
  assert (Ek : (if nu <? 4096 then 4096 else nu) = k) by (unfold k; destruct (Z.ltb_spec nu 4096); lia). rewrite Ek.
  assert (Hk : nu <= k /\ 4096 <= k /\ 8 * k < 2147483648) by lia. clearbody k.
  rewrite u32_small by (unfold is_u32; lia). unfold sbrk. rewrite i32_small by lia.
  pose proof Hok as [Hb Hbrk Hroom HJ Hsz Hl]. pose proof (sizes_le _ _ _ Hsz) as Hle.
  apply wp_bind. unfold wp, get, bind at 1. rewrite (proj2 (Z.ltb_lt 0 _)) by lia. rewrite (Z.mul_comm k 8).
  destruct (Z.leb_spec (8 * k) (h_room h)); [|left; done].
  unfold bind, put, ret. cbn [h_mem h_freep h_brk h_room]. rewrite (proj2 (Z.eqb_neq (h_brk h) (-1))) by lia.
  unfold set_size, modify. cbn [h_mem h_freep h_brk h_room]. set (h1 := Heap _ _ _ _).
  assert (Hok1 : heap_ok h1 (T ++ [(k, false)])).
  { assert (Hout : forall y, y < h_brk h \/ h_brk h + 8 <= y -> h_mem h1 y = h_mem h y).
    { intros y Hy. unfold h1. cbn [h_mem]. by rewrite mwrite32_out by lia. }
    constructor; unfold h1 in *; cbn [h_mem h_freep h_brk h_room] in *; rewrite ?tend_app, ?frees_app, ?Hbrk, ?app_nil_r; cbn [tend]; try done; try lia.
    - clear -HJ. induction T as [|[j f] T IH]; [done|]. destruct HJ as [HJ Hf]. split; [by apply IH|].
      destruct T as [|[i g] T]; [by destruct f|done].
    - apply sizes_ok_app. rewrite Hbrk. split; [apply (sizes_ok_out _ _ _ _ _ Hout Hsz); lia|]. cbn [sizes_ok].
      split_and!; [lia|apply hsize_set_same; unfold is_u32; lia|done].
    - right. cbn [frees]. rewrite ?app_nil_r. destruct Hl as [[? _]|(Hin & Hb0 & Hl)]; [done|]. split_and!; [done| |].
      + rewrite (hsize_ext _ _ _ _ Hout); [done|lia].
      + eapply lseg_head; [exact Hl|apply (hptr_ext _ _ _ _ Hout); lia|]. intros z Hz. apply (hptr_ext _ _ _ _ Hout).
        pose proof (proj1 (Forall_forall _ _) (frees_range _ _ _ Hsz) _ Hz) as R. simpl in R. lia. }
  assert (Eh : hdr_add (h_brk h) 1 = tend start T + 8) by (unfold hdr_add; rewrite u32_small, Hbrk by (unfold is_u32, KERNBASE in *; lia); lia).
  rewrite Eh. pose proof (free_spec fuel h1 T k [] Hok1 ltac:(rewrite length_app; simpl; lia)) as Hf.
  unfold wp in Hf. destruct (free fuel (tend start T + 8) h1) as [u h2|]; [|done].
  destruct Hf as (Hok2 & Hfp2 & Hb2 & Hr2 & Hm2). right. split_and!; try done.
  intros y Hy. rewrite Hm2 by (apply owned_app; by left). unfold h1. cbn [h_mem].
  apply (owned_range _ _ _ _ Hsz) in Hy. by rewrite mwrite32_out by lia.
Qed.

(** The rest of a turn at the end of the circle. *)
Definition more (fuel : nat) (nu : Z) : M heap Z :=
  let! p := morecore fuel nu in
  if p =? 0 then ret 0 else let! q := get_ptr p in malloc_loop fuel nu p q.

(** One turn: a block that fits is taken, or there is none. *)
Lemma malloc_walk h nu Q G : forall fuel prevp, lseg (h_mem h) prevp G (h_freep h) -> (h_freep h ∉ G) -> (length G < fuel)%nat ->
  (forall prev x, prev ∈ prevp :: G -> x ∈ G ++ [h_freep h] -> hptr (h_mem h) prev = x -> nu <= hsize (h_mem h) x ->
     wp (malloc_take nu prev x) Q h) ->
  (forall fuel', (fuel <= S (length G + fuel'))%nat -> (forall x, x ∈ G ++ [h_freep h] -> hsize (h_mem h) x < nu) ->
     wp (more fuel' nu) Q h) ->
  wp (malloc_loop fuel nu prevp (hptr (h_mem h) prevp)) Q h.
Proof.
  induction G as [|x G IH]; intros [|fuel] prevp Hl Hn Hf K1 K2; simpl in Hf; try lia; cbn [malloc_loop]; apply wp_bind, wp_gets.
  - rewrite (lseg_val _ _ _ _ Hl). cbn [hd]. destruct (Z.leb_spec nu (hsize (h_mem h) (h_freep h))) as [Hfit|Hfit].
    + apply K1; [by left|by left|apply (lseg_val _ _ _ _ Hl)|done].
    + apply wp_bind, wp_gets. rewrite Z.eqb_refl. apply K2; [simpl; lia|]. intros x ->%list_elem_of_singleton. done.
  - apply lseg_cons in Hl as [E Hl]. rewrite E. apply not_elem_of_cons in Hn as [Hne Hn].
    destruct (Z.leb_spec nu (hsize (h_mem h) x)) as [Hfit|Hfit].
    + apply K1; [by left|by left|done|done].
    + apply wp_bind, wp_gets. rewrite (proj2 (Z.eqb_neq x _)) by done. apply wp_bind, wp_gets. apply IH; [done|done|lia| |].
      * intros prev y Hp Hy. apply K1; by right.
      * intros fuel' Hf' Hno. apply K2; [simpl; lia|]. intros y [->|Hy]%elem_of_cons; [done|by apply Hno].
Qed.

Lemma frees_in T1 n T2 : tend start T1 ∈ frees start (T1 ++ (n, true) :: T2).
Proof. rewrite frees_app. apply elem_of_app. right. by left. Qed.

(** The same from the state of the allocator. *)
Lemma malloc_turn fuel h T nu (Q : Z -> heap -> Prop) : heap_ok h T -> 1 <= nu -> h_freep h <> 0 -> (length T < fuel)%nat ->
  (forall r h' a T', takes nu T a T' -> r = a + 8 -> heap_ok h' T' -> h_freep h' <> 0 -> h_brk h' = h_brk h -> h_room h' = h_room h ->
     (forall y, owned start T y -> h_mem h' y = h_mem h y) -> Q r h') ->
  (forall fuel', (fuel <= S (length T + fuel'))%nat -> nofit nu T -> wp (more fuel' nu) Q h) ->
  wp (malloc_loop fuel nu (h_freep h) (hptr (h_mem h) (h_freep h))) Q h.
Proof.
  intros Hok Hnu Hfp Hf K1 K2. pose proof Hok as [Hb _ _ _ Hsz [[? _]|(Hin & Hb0 & Hl)]]; [done|].
  pose proof (base_sorted _ _ Hsz (proj2 Hb)) as Hsort.
  destruct (lseg_rotate _ _ _ _ Hl Hin (sorted_nodup _ Hsort)) as (G & HG & HnG & HP).
  pose proof (Permutation_length HP) as Hlen. simpl in Hlen. pose proof (frees_length start T) as HF.
  assert (Hmem : forall x, x ∈ G ++ [h_freep h] <-> x ∈ base :: frees start T).
  { intros x. rewrite HP, elem_of_app, list_elem_of_singleton, elem_of_cons. tauto. }
  apply (malloc_walk h nu Q G); [done|done|lia| |].
  - intros prev x Hp Hx E Hfit. rewrite Hmem in Hx. rewrite <- HP in Hp.
    eapply wp_mono; [by apply (malloc_take_spec h T nu prev x)|]. intros r h' (a & T' & ? & ? & ? & ? & ? & ? & ?). by eapply K1.
  - intros fuel' Hf' Hno. apply K2; [lia|]. intros n Hn. apply list_elem_of_split in Hn as (T1 & T2 & ->).
    pose proof (frees_in T1 n T2) as Hx. specialize (Hno (tend start T1) ltac:(apply Hmem; by right)).
    apply sizes_ok_app in Hsz as (_ & _ & E & _). lia.
Qed.

Lemma coalesce_length T : (length (coalesce T) <= length T)%nat.
Proof.
  unfold coalesce. induction T as [|[n f] T IH]; [done|]. cbn [foldr].
  destruct f, (foldr cons_tile [] T) as [|[k []] X]; simpl in *; lia.
Qed.
(** The new block fits. *)
Lemma coalesce_fits T k nu m a : sizes_ok m a T -> nu <= k -> nofit nu (coalesce (T ++ [(k, true)])) -> False.
Proof.
  intros Hsz Hk Hno. assert (exists j, k <= j /\ (j, true) ∈ coalesce (T ++ [(k, true)])) as (j & Hj & Hin).
  2: { specialize (Hno _ Hin). lia. }
  clear Hno. unfold coalesce. revert a Hsz. induction T as [|[n f] T IH]; intros a Hsz; cbn [app foldr].
  - exists k. split; [lia|by left].
  - destruct Hsz as (Hn & _ & Hsz). destruct (IH _ Hsz) as (j & Hj & Hin). destruct f; [|by exists j; split; [|right]].
    destruct (foldr cons_tile [] (T ++ [(k, true)])) as [|[i []] X]; cbn [cons_tile]; [by apply elem_of_nil in Hin| |by exists j; split; [|right]].
    apply elem_of_cons in Hin as [[= <-]|Hin]; [exists (n + j); split; [lia|by left]|exists j; split; [done|by right]].
Qed.
Lemma owned_coalesce a T y : owned a (coalesce T) y <-> owned a T y.
Proof.
  unfold coalesce. revert a. induction T as [|[n f] T IH]; intros a; [done|]. cbn [foldr owned]. rewrite <- IH.
  destruct f, (foldr cons_tile [] T) as [|[k []] X]; cbn [cons_tile owned]; try done.
  replace (a + 8 * (n + k)) with (a + 8 * n + 8 * k) by lia. naive_solver.
Qed.

(** What [malloc] may do to the row of tiles. *)
Inductive mallocs (nu : Z) (T : list tile) : Z -> list tile -> Prop :=
| mallocs_none : nofit nu T -> mallocs nu T 0 T
| mallocs_fit a T' : takes nu T a T' -> mallocs nu T (a + 8) T'
| mallocs_grow a T' : nofit nu T -> takes nu (coalesce (T ++ [(Z.max nu 4096, true)])) a T' -> mallocs nu T (a + 8) T'.

Lemma malloc_loop_spec fuel h T nu : heap_ok h T -> 1 <= nu -> 8 * nu < 2147483648 -> h_freep h <> 0 -> (2 * length T + 5 < fuel)%nat ->
  wp (malloc_loop fuel nu (h_freep h) (hptr (h_mem h) (h_freep h))) (fun r h' => exists T', mallocs nu T r T' /\
    heap_ok h' T' /\ (r = 0 -> h_room h < 8 * Z.max nu 4096) /\ forall y, owned start T y -> h_mem h' y = h_mem h y) h.
Proof.
  intros Hok Hnu Htop Hfp Hf. pose proof Hok as [Hb _ _ _ Hsz _].
  assert (Hpos : forall n T0 a T', takes n T0 a T' -> forall m, sizes_ok m start T0 -> 0 < a + 8).
  { intros n T0 a T' [T1 T2|T1 j T2 Hj] m [H1 _]%sizes_ok_app; apply sizes_le in H1; lia. }
  apply (malloc_turn fuel h T nu _ Hok); [done|done|lia| |].
  - intros r h' a T' HT -> Hok' _ _ _ Hm. exists T'. specialize (Hpos _ _ _ _ HT _ Hsz). split_and!; [by constructor|done|lia|done].
  - intros fuel' Hf' Hno. unfold more. apply wp_bind. eapply wp_mono; [apply (morecore_spec fuel' h T nu Hok); [done|done|done|lia]|].
    intros r h1 [(-> & -> & Hroom)|(-> & Hr & Hok1 & _ & _ & Hm1)].
    + apply wp_ret. exists T. split_and!; [by constructor|done|done|done].
    + rewrite (proj2 (Z.eqb_neq _ 0)) by done. apply wp_bind, wp_gets.
      pose proof (coalesce_length (T ++ [(Z.max nu 4096, true)])) as HL. rewrite length_app in HL. cbn [length] in HL.
      apply (malloc_turn fuel' h1 _ nu _ Hok1); [done|done|lia| |].
      * intros r' h' a T' HT -> Hok' _ _ _ Hm. exists T'. specialize (Hpos _ _ _ _ HT _ (ho_sizes _ _ Hok1)).
        split_and!; [by apply mallocs_grow|done|lia|]. intros y Hy. rewrite Hm, Hm1; [done|done|].
        apply owned_coalesce, owned_app. by left.
      * intros fuel2 _ Hno1. exfalso. eapply (coalesce_fits T (Z.max nu 4096) nu); [exact Hsz|lia|done].
Qed.

(** The units for [nbytes], with the header. *)
Definition units (nbytes : Z) : Z := u32 (u32 (nbytes + 8 - 1) / 8 + 1).

Lemma malloc_spec fuel h T nbytes : heap_ok h T -> 8 * units nbytes < 2147483648 -> (2 * length T + 5 < fuel)%nat ->
  wp (malloc fuel nbytes) (fun r h' => exists T', mallocs (units nbytes) T r T' /\ heap_ok h' T' /\
    (r = 0 -> h_room h < 8 * Z.max (units nbytes) 4096) /\ forall y, owned start T y -> h_mem h' y = h_mem h y) h.
Proof.
  intros Hok Htop Hf. assert (Hnu : 1 <= units nbytes).
  { unfold units. pose proof (u32_range (nbytes + 8 - 1)) as R. unfold is_u32 in R. rewrite u32_small; unfold is_u32; dlia. }
  unfold malloc. fold (units nbytes). apply wp_bind, wp_gets. destruct (Z.eqb_spec (h_freep h) 0) as [E|E].
  - destruct Hok as [Hb Hbrk Hroom HJ Hsz Hl].
    assert (T = []) as -> by (destruct Hl as [[_ ?]|(Hin & _)]; [done|]; rewrite E in Hin; apply elem_of_cons in Hin as [?|Hin]; [lia|];
      pose proof (proj1 (Forall_forall _ _) (frees_range _ _ _ Hsz) _ Hin) as R; simpl in R; lia).
    unfold set_freep, set_ptr, set_size. cbn [tend] in Hbrk. apply wp_bind. unfold wp. krun. cbn [h_mem h_freep h_brk h_room].
    set (h1 := Heap _ _ _ _). assert (Eb : is_u32 base) by (unfold is_u32, KERNBASE in *; lia).
    assert (Hok1 : heap_ok h1 []).
    { constructor; unfold h1; cbn [h_mem h_freep h_brk h_room tend sizes_ok joined frees]; try done. right. split_and!; [by left| |].
      - by apply hsize_set_same.
      - split; [done|]. cbn [lastd]. rewrite hptr_set_size by lia. by apply hptr_set_same. }
    eapply (wp_mono (malloc_loop _ _ _ _)); [apply (malloc_loop_spec fuel h1 [] (units nbytes) Hok1); [done|done|unfold h1; cbn; lia|done]|].
    intros r h' (T' & ? & ? & ? & _). by exists T'.
  - apply wp_bind, wp_ret. apply wp_bind, wp_gets. by apply malloc_loop_spec.
Qed.

(** A store into owned memory does not touch the headers. *)
Lemma sizes_ok_store m a T y v : sizes_ok m a T -> owned a T y -> sizes_ok (mwrite m y v) a T.
Proof.
  intros H Hy. pose proof (owned_range _ _ _ _ H Hy) as R. revert a H Hy R.
  assert (Hext : forall a T, sizes_ok m a T -> ~ (a <= y < tend a T) -> sizes_ok (mwrite m y v) a T).
  { intros a T' H Hn. eapply sizes_ok_ext; [done|]. intros x H1 H2. apply mread32_ext. intros z Hz. unfold mwrite. by rewrite decide_False by lia. }
  induction T as [|[n f] T IH]; intros a; [done|]. cbn [sizes_ok owned tend]. intros (Hn & E & H) Hy R.
  split_and!; [done| |].
  - rewrite <- E. apply mread32_ext. intros z Hz. unfold mwrite. by rewrite decide_False by lia.
  - destruct Hy as [[_ Hy]|Hy]; [apply Hext; [done|lia]|]. apply IH; [done|done|by apply (owned_range _ _ _ _ H)].
Qed.
Lemma heap_ok_store h T y v : heap_ok h T -> owned start T y ->
  heap_ok (Heap (mwrite (h_mem h) y v) (h_freep h) (h_brk h) (h_room h)) T.
Proof.
  intros [Hb Hbrk Hroom HJ Hsz Hl] Hy. pose proof (owned_range _ _ _ _ Hsz Hy) as R.
  constructor; cbn [h_mem h_freep h_brk h_room]; try done; [by apply sizes_ok_store|].
  destruct Hl as [?|(Hin & Hb0 & Hl)]; [by left|right].
  assert (Hr : forall x, x ∈ base :: frees start T -> forall z, x <= z < x + 8 -> mwrite (h_mem h) y v z = h_mem h z).
  { intros x Hx z Hz. unfold mwrite. rewrite decide_False; [done|]. apply elem_of_cons in Hx as [->|Hx]; [lia|].
    pose proof (owned_free _ _ _ _ _ Hsz Hy Hx). lia. }
  split_and!; [done| |].
  - rewrite <- Hb0. apply mread32_ext. intros z Hz. apply (Hr base); [by left|lia].
  - eapply lseg_head; [exact Hl| |].
    + apply mread32_ext. intros z Hz. apply (Hr base); [by left|lia].
    + intros x Hx. apply mread32_ext. intros z Hz. apply (Hr x); [by right|lia].
Qed.

(** The sum wraps for the seven highest sizes: a header and nothing else. *)
Lemma units_wrap nbytes : 4294967289 <= nbytes < 4294967296 -> units nbytes = 1.
Proof. intros H. unfold units. rewrite (u32_small (_ / _ + 1)); dlia. Qed.

(** The block that is taken is the program's, and was not before. *)
Lemma takes_owned nu T a T' m : takes nu T a T' -> sizes_ok m start T' ->
  forall x, a + 8 <= x < a + 8 * nu -> owned start T' x /\ ~ owned start T x.
Proof.
  intros HT Hsz x Hx. destruct HT as [T1 T2|T1 n T2 Hn]; apply sizes_ok_app in Hsz as [H1 H2].
  - destruct H2 as (_ & _ & H2). rewrite !owned_app. split; [right; by left|]. intros [Hy|[[? _]|Hy]]; [|done|].
    + apply (owned_range _ _ _ _ H1) in Hy. lia.
    + apply (owned_range _ _ _ _ H2) in Hy. lia.
  - destruct H2 as (_ & _ & _ & _ & H2). rewrite !owned_app. split; [right; right; by left|]. intros [Hy|[[? _]|Hy]]; [|done|].
    + apply (owned_range _ _ _ _ H1) in Hy. lia.
    + apply (owned_range m) in Hy; [lia|]. by replace (tend start T1 + 8 * n) with (tend start T1 + 8 * (n - nu) + 8 * nu) by lia.
Qed.
Lemma mallocs_owned nu T r T' m : mallocs nu T r T' -> r <> 0 -> sizes_ok m start T' ->
  forall x, r <= x < r - 8 + 8 * nu -> owned start T' x /\ ~ owned start T x.
Proof.
  intros [|a T'' HT|a T'' _ HT] Hr Hsz x Hx; [done| |].
  - apply (takes_owned _ _ _ _ _ HT Hsz). lia.
  - destruct (takes_owned _ _ _ _ _ HT Hsz x) as [H1 H2]; [lia|]. split; [done|]. intros Hy. apply H2, owned_coalesce, owned_app. by left.
Qed.

(** ** The allocator as seen by a program *)

Inductive uop := UMalloc (nbytes : Z) | UFree (ap : Z) | UStore (y v : Z).
Definition urun (fuel : nat) (o : uop) : M heap Z :=
  match o with
  | UMalloc nbytes => malloc fuel nbytes
  | UFree ap => free fuel ap;;; ret 0
  | UStore y v => modify (fun h => Heap (mwrite (h_mem h) y v) (h_freep h) (h_brk h) (h_room h));;; ret 0
  end.

(** What the program may ask for: any size whose units fit 31 bits, the release
    of a block it owns, stores to its own blocks. *)
Definition uallowed (T : list tile) (o : uop) : Prop :=
  match o with
  | UMalloc nbytes => 0 <= nbytes < 2147483624
  | UFree ap => exists T1 n T2, T = T1 ++ (n, false) :: T2 /\ ap = tend start T1 + 8
  | UStore y v => owned start T y
  end.

(** And what it gets. *)
Inductive uspec : uop -> list tile -> Z -> list tile -> Prop :=
| us_malloc nbytes T r T' : mallocs ((nbytes + 7) / 8 + 1) T r T' -> uspec (UMalloc nbytes) T r T'
| us_free T1 n T2 : uspec (UFree (tend start T1 + 8)) (T1 ++ (n, false) :: T2) 0 (coalesce (T1 ++ (n, true) :: T2))
| us_store y v T : uspec (UStore y v) T 0 T.

(** The bytes of [x] hold [v] after the operation. *)
Definition ukeeps (o : uop) (h h' : heap) (x : Z) : Prop :=
  h_mem h' x = match o with UStore y v => if decide (x = y) then v else h_mem h x | _ => h_mem h x end.

End umalloc.

