(* ===== verification/Ulib.v ===== *)
(** The user library (ulib.c), as far as the programs modelled here use it.

    A C string is the list of its bytes without the NUL; a pointer into a
    string is the rest of the string from there. *)

From S2P Require Import Prelude KString.

(** A pointer to the first [c] in [s], or null. *)
Fixpoint strchr (s : list Z) (c : Z) : option (list Z) :=
  match s with
  | [] => None
  | x :: s' => if x =? c then Some s else strchr s' c
  end.

(** [gets(buf, max)]: [input] is what [read] will deliver, one byte per call; it
    ends at the end of the file. The result is the string in [buf] and the
    input that is left. *)
Fixpoint gets_loop (room : nat) (input : list Z) : list Z * list Z :=
  match room with
  | O => ([], input)
  | S room =>
    match input with
    | [] => ([], [])
    | c :: input =>
      if (c =? 10) || (c =? 13) then ([c], input)
      else let (s, rest) := gets_loop room input in (c :: s, rest)
    end
  end.
Definition gets (max : Z) (input : list Z) : list Z * list Z := gets_loop (Z.to_nat (max - 1)) input.

(** [memmove] of the user library always copies upwards. *)
Fixpoint umemmove (m : mem) (dst src : Z) (n : nat) : mem :=
  match n with
  | O => m
  | S n => umemmove (mwrite m dst (m src)) (dst + 1) (src + 1) n
  end.

Lemma strchr_spec s c : match strchr s c with
  | Some r => exists p, s = p ++ r /\ ~ In c p /\ head r = Some c
  | None => ~ In c s
  end.
Proof.
  induction s as [|x s IH]; simpl; [tauto|]. destruct (Z.eqb_spec x c) as [->|Hne].
  - exists []. split_and!; [done|by intros []|done].
  - destruct (strchr s c) as [r|].
    + destruct IH as (p & -> & Hp & Hr). exists (x :: p). simpl. naive_solver.
    + naive_solver.
Qed.
