(* ===== verification/Shell.v ===== *)
(** The command parser of the shell (sh.c: gettoken to nulterminate).

    The line is a C string of [es] bytes; a pointer into it is the number of
    bytes from there to its end, and the state of the parser, [*ps], is the
    part of the line that is left. [malloc] does not fail. *)

From S2P Require Import Prelude Params KString Ulib.

Definition MAXARGS : nat := 10.

(** [struct cmd] and its variants; strings are given by the pointers to their
    start and end. *)
Inductive cmd :=
  | EXEC (argv : list (nat * nat))
  | REDIR (c : cmd) (file efile : nat) (mode fd : Z)
  | PIPE (left right : cmd)
  | LIST (left right : cmd)
  | BACK (c : cmd).

Definition whitespace : list Z := [32; 9; 13; 10; 11].
Definition symbols : list Z := chars "<|>&;()".

Definition found (s : list Z) (c : Z) : bool := if strchr s c is Some _ then true else false.

(** [while(s < es && strchr(whitespace, *s)) s++;] *)
Fixpoint skip_white (s : list Z) : list Z :=
  match s with
  | c :: s' => if found whitespace c then skip_white s' else s
  | [] => []
  end.

(** [while(s < es && !strchr(whitespace, *s) && !strchr(symbols, *s)) s++;] *)
Fixpoint skip_word (s : list Z) : list Z :=
  match s with
  | c :: s' => if negb (found whitespace c) && negb (found symbols c) then skip_word s' else s
  | [] => []
  end.

#[local] Abbreviation P := (M (list Z)).

(** The token, and the pointers to its start and end. *)
Definition gettoken : P (Z * nat * nat) :=
  let! s := get in
  let s := skip_white s in
  let '(tok, e) :=
    match s with
    | [] => (0, [])
    | c :: s1 =>
      if c =? 0 then (0, s)
      else if found (chars "|();&<") c then (c, s1)
      else if c =? 62 then match s1 with
                           | c2 :: s2 => if c2 =? 62 then (43, s2) else (62, s1)
                           | [] => (62, s1)
                           end
      else (97, skip_word s)
    end in
  put (skip_white e);;;
  ret (tok, length s, length e).

Definition peek (toks : list Z) : P bool :=
  let! s := get in
  let s := skip_white s in
  put s;;;
  ret (if s is c :: _ then negb (c =? 0) && found toks c else false).

(** The loop of [parseredirs]; every round takes two tokens. *)
Fixpoint parseredirs_loop (fuel : nat) (c : cmd) : P cmd :=
  let! b := peek (chars "<>") in
  if b then
    match fuel with
    | O => fail NoFuel
    | S fuel =>
      let! (tok, _, _) := gettoken in
      let! (a, q, eq) := gettoken in
      panic_if (negb (a =? 97)) "missing file for redirection";;;
      parseredirs_loop fuel
        (if tok =? 60 then REDIR c q eq O_RDONLY 0
         else if (tok =? 62) || (tok =? 43) then REDIR c q eq (Z.lor O_WRONLY O_CREATE) 1
         else c)
    end
  else ret c.
Definition parseredirs (c : cmd) : P cmd := let! s := get in parseredirs_loop (length s) c.

(** [cmd->argv[argc] = q; cmd->eargv[argc] = eq;]: [cmd] is the command inside
    the redirections of [ret]. *)
Fixpoint add_arg (x : nat * nat) (r : cmd) : cmd :=
  match r with
  | EXEC argv => EXEC (argv ++ [x])
  | REDIR c q eq mode fd => REDIR (add_arg x c) q eq mode fd
  | _ => r
  end.

(** The loop of [parseexec]. *)
Fixpoint parseargs (fuel argc : nat) (r : cmd) : P cmd :=
  let! b := peek (chars "|)&;") in
  if b then ret r
  else
    match fuel with
    | O => fail NoFuel
    | S fuel =>
      let! (tok, q, eq) := gettoken in
      if tok =? 0 then ret r
      else
        panic_if (negb (tok =? 97)) "syntax";;;
        panic_if (MAXARGS <=? S argc)%nat "too many args";;;
        let! r := parseredirs (add_arg (q, eq) r) in
        parseargs fuel (S argc) r
    end.

(** [while(peek(ps, es, "&")){ gettoken(ps, es, 0, 0); cmd = backcmd(cmd); }] *)
Fixpoint parseback (fuel : nat) (c : cmd) : P cmd :=
  let! b := peek (chars "&") in
  if b then
    match fuel with
    | O => fail NoFuel
    | S fuel => gettoken;;; parseback fuel (BACK c)
    end
  else ret c.

Fixpoint parseline (fuel : nat) : P cmd :=
  match fuel with
  | O => fail NoFuel
  | S fuel =>
    let! c := parsepipe fuel in
    let! s := get in
    let! c := parseback (length s) c in
    let! b := peek (chars ";") in
    if b then gettoken;;; let! r := parseline fuel in ret (LIST c r)
    else ret c
  end
with parsepipe (fuel : nat) : P cmd :=
  match fuel with
  | O => fail NoFuel
  | S fuel =>
    let! c := parseexec fuel in
    let! b := peek (chars "|") in
    if b then gettoken;;; let! r := parsepipe fuel in ret (PIPE c r)
    else ret c
  end
with parseexec (fuel : nat) : P cmd :=
  match fuel with
  | O => fail NoFuel
  | S fuel =>
    let! b := peek (chars "(") in
    if b then parseblock fuel
    else
      let! r := parseredirs (EXEC []) in
      let! s := get in
      parseargs (S (length s)) 0 r
  end
with parseblock (fuel : nat) : P cmd :=
  match fuel with
  | O => fail NoFuel
  | S fuel =>
    let! b := peek (chars "(") in
    panic_if (negb b) "parseblock";;;
    gettoken;;;
    let! c := parseline fuel in
    let! b := peek (chars ")") in
    panic_if (negb b) "syntax - missing )";;;
    gettoken;;;
    parseredirs c
  end.

(** The stores of [nulterminate]; [es] is the length of the line. *)
Fixpoint nulterminate (es : nat) (c : cmd) (b : list Z) : list Z :=
  match c with
  | EXEC argv => foldl (fun b x => <[(es - x.2)%nat := 0]> b) b argv
  | REDIR c _ eq _ _ => <[(es - eq)%nat := 0]> (nulterminate es c b)
  | PIPE l r => nulterminate es r (nulterminate es l b)
  | LIST l r => nulterminate es r (nulterminate es l b)
  | BACK c => nulterminate es c b
  end.

(** The command and the line, with its NUL, after the parse. *)
Definition parsecmd (s : list Z) : outcome (list Z) (cmd * list Z) :=
  (let! c := parseline (4 * length s + 4) in
   peek [];;;
   let! rest := get in
   panic_if (bool_decide (rest <> [])) "syntax";;;
   ret (c, nulterminate (length s) c (s ++ [0]))) s.

(** ** The parser ends

    [fin m s Q]: [m] returns with [Q], or reports an error; it does not run out
    of fuel. *)
Definition fin {A} (m : P A) (s : list Z) (Q : A -> list Z -> Prop) : Prop :=
  match m s with
  | Ret a s' => Q a s'
  | Fail (Panic _) => True
  | Fail _ => False
  end.

Lemma fin_bind {A B} (m : P A) (f : A -> P B) s Q : fin m s (fun a s' => fin (f a) s' Q) -> fin (bind m f) s Q.
Proof. unfold fin, bind. by destruct (m s) as [a s'|[]]. Qed.
Lemma fin_mono {A} (m : P A) s (Q Q' : A -> list Z -> Prop) :
  fin m s Q -> (forall a s', Q a s' -> Q' a s') -> fin m s Q'.
Proof. unfold fin. destruct (m s) as [a s'|[]]; auto. Qed.
Lemma fin_ret {A} (a : A) s (Q : A -> list Z -> Prop) : Q a s -> fin (ret a) s Q.
Proof. done. Qed.
Lemma fin_panic_if b msg s (Q : unit -> list Z -> Prop) : (b = false -> Q tt s) -> fin (panic_if b msg) s Q.
Proof. destruct b; [done|]. intros H. by apply H. Qed.

Lemma skip_white_le s : (length (skip_white s) <= length s)%nat.
Proof. induction s as [|c s IH]; simpl; [done|]. destruct (found _ _); simpl; lia. Qed.

Lemma skip_word_le s : (length (skip_word s) <= length s)%nat.
Proof. induction s as [|c s IH]; simpl; [done|]. destruct (_ && _); simpl; lia. Qed.

Lemma skip_white_head s c r : skip_white s = c :: r -> found whitespace c = false.
Proof.
  induction s as [|x s IH]; simpl; [done|]. destruct (found whitespace x) eqn:E; [done|]. by intros [= <- _].
Qed.

Lemma skip_white_idemp s : skip_white (skip_white s) = skip_white s.
Proof.
  destruct (skip_white s) as [|c r] eqn:E; [done|]. apply skip_white_head in E. simpl. by rewrite E.
Qed.

Lemma found_In s c : found s c = true <-> In c s.
Proof.
  unfold found. pose proof (strchr_spec s c) as H. destruct (strchr s c) as [r|].
  - destruct H as (p & -> & _ & Hr). split; [|done]. intros _. apply in_or_app. right.
    destruct r; [done|]. injection Hr as ->. by left.
  - split; [done|]. by intros ?.
Qed.

(** A symbol that [gettoken] does not treat alone is [>]. *)
Lemma symbol_cases c : found symbols c = true -> found (chars "|();&<") c = true \/ c = 62.
Proof. rewrite !found_In. simpl. naive_solver. Qed.

Lemma gettoken_fin s (Q : Z * nat * nat -> list Z -> Prop) :
  (forall r s', (length s' <= length s)%nat ->
     (forall c s1, skip_white s = c :: s1 -> c <> 0 -> (length s' < length (skip_white s))%nat) ->
     (r.1.1 <> 0 -> (length s' < length (skip_white s))%nat) -> Q r s') ->
  fin gettoken s Q.
Proof.
  intros HQ. unfold fin, gettoken. krun. cbn [get put]. unfold get, put. pose proof (skip_white_le s) as Hle.
  destruct (skip_white s) as [|c s1] eqn:E; [by apply HQ; simpl; (lia || done)|].
  pose proof (skip_white_head _ _ _ E) as Hw. simpl in Hle. clear E.
  destruct (Z.eqb_spec c 0) as [->|H0].
  { apply HQ; [simpl; lia|by intros ? ? [= <- _]|done]. }
  assert (forall tok e, (length e <= length s1)%nat ->
    Q (tok, length (c :: s1), length e) (skip_white e)) as Hq.
  { intros tok e He. pose proof (skip_white_le e). apply HQ; simpl; [lia|intros; lia|intros; lia]. }
  destruct (found (chars "|();&<") c) eqn:Es; [by apply Hq|].
  destruct (Z.eqb_spec c 62) as [->|H62].
  { destruct s1 as [|c2 s2]; [by apply Hq|]. destruct (c2 =? 62); apply Hq; simpl; lia. }
  apply Hq. simpl. rewrite Hw. destruct (found symbols c) eqn:Ey.
  - by destruct (symbol_cases c Ey); congruence.
  - apply skip_word_le.
Qed.

Lemma peek_fin toks s (Q : bool -> list Z -> Prop) :
  Q (match skip_white s with c :: _ => negb (c =? 0) && found toks c | [] => false end) (skip_white s) ->
  fin (peek toks) s Q.
Proof. done. Qed.

(** What [peek] has seen, [gettoken] takes. *)
Lemma peek_gettoken toks s (Q : Z * nat * nat -> list Z -> Prop) :
  match skip_white s with c :: _ => negb (c =? 0) && found toks c | [] => false end = true ->
  (forall r s', (length s' < length s)%nat -> Q r s') -> fin gettoken (skip_white s) Q.
Proof.
  intros Hp HQ. apply gettoken_fin. rewrite skip_white_idemp. intros r s' _ Hlt _. apply HQ.
  pose proof (skip_white_le s). destruct (skip_white s) as [|c s1]; [done|].
  apply andb_prop in Hp as [Hc%negb_true_iff%Z.eqb_neq _]. specialize (Hlt c s1 eq_refl Hc). lia.
Qed.

Lemma parseredirs_loop_fin fuel : forall s c, (length s <= fuel)%nat ->
  fin (parseredirs_loop fuel c) s (fun _ s' => (length s' <= length s)%nat).
Proof.
  induction fuel as [|fuel IH]; intros s c Hf; cbn [parseredirs_loop]; apply fin_bind, peek_fin;
    pose proof (skip_white_le s); destruct (match skip_white s with [] => _ | _ => _ end) eqn:Hp;
    try (apply fin_ret; lia).
  - destruct s; [done|simpl in Hf; lia].
  - apply fin_bind. eapply peek_gettoken; [exact Hp|]. intros [[tok q] eq] s1 H1.
    apply fin_bind, gettoken_fin. intros [[a q2] eq2] s2 H2 _ _. apply fin_bind, fin_panic_if. intros _.
    eapply fin_mono; [apply IH; lia|]. simpl. intros; lia.
Qed.

Lemma parseredirs_fin s c : fin (parseredirs c) s (fun _ s' => (length s' <= length s)%nat).
Proof. apply fin_bind. by apply parseredirs_loop_fin. Qed.

Lemma parseargs_fin fuel : forall s argc r, (length s < fuel)%nat ->
  fin (parseargs fuel argc r) s (fun _ s' => (length s' <= length s)%nat).
Proof.
  induction fuel as [|fuel IH]; intros s argc r Hf; [lia|]. cbn [parseargs]. apply fin_bind, peek_fin.
  pose proof (skip_white_le s). destruct (match skip_white s with [] => _ | _ => _ end); [by apply fin_ret|].
  apply fin_bind, gettoken_fin. rewrite skip_white_idemp. intros [[tok q] eq] s1 H1 Hlt H0. simpl in H0.
  destruct (Z.eqb_spec tok 0) as [->|Ht]; [apply fin_ret; lia|]. specialize (H0 Ht).
  apply fin_bind, fin_panic_if. intros _. apply fin_bind, fin_panic_if. intros _.
  apply fin_bind. eapply fin_mono; [apply parseredirs_fin|]. cbv beta. intros r' s2 H2.
  eapply fin_mono; [apply IH; lia|simpl; intros; lia].
Qed.

Lemma parseback_fin fuel : forall s c, (length s <= fuel)%nat ->
  fin (parseback fuel c) s (fun _ s' => (length s' <= length s)%nat).
Proof.
  induction fuel as [|fuel IH]; intros s c Hf; cbn [parseback]; apply fin_bind, peek_fin;
    pose proof (skip_white_le s); destruct (match skip_white s with [] => _ | _ => _ end) eqn:Hp;
    try (apply fin_ret; lia).
  - destruct s; [done|simpl in Hf; lia].
  - apply fin_bind. eapply peek_gettoken; [exact Hp|]. intros r s1 H1.
    eapply fin_mono; [apply IH; lia|]. simpl. intros; lia.
Qed.

Lemma parse_fin fuel :
  (forall s, (4 * length s + 4 <= fuel)%nat -> fin (parseline fuel) s (fun _ s' => (length s' <= length s)%nat)) /\
  (forall s, (4 * length s + 3 <= fuel)%nat -> fin (parsepipe fuel) s (fun _ s' => (length s' <= length s)%nat)) /\
  (forall s, (4 * length s + 2 <= fuel)%nat -> fin (parseexec fuel) s (fun _ s' => (length s' <= length s)%nat)) /\
  (forall s, (4 * length s + 1 <= fuel)%nat -> fin (parseblock fuel) s (fun _ s' => (length s' <= length s)%nat)).
Proof.
  induction fuel as [|fuel (IHl & IHp & IHe & IHb)]; [split_and!; intros; lia|].
  split_and!; intros s Hf; pose proof (skip_white_le s).
  - cbn [parseline]. apply fin_bind. eapply fin_mono; [apply IHp; lia|]. cbv beta. intros c s1 H1.
    apply fin_bind. change (fin get s1 ?Q) with (Q s1 s1). cbv beta.
    apply fin_bind. eapply fin_mono; [by apply parseback_fin|]. cbv beta. intros c' s2 H2.
    apply fin_bind, peek_fin. pose proof (skip_white_le s2).
    destruct (match skip_white s2 with [] => _ | _ => _ end) eqn:Hp; [|apply fin_ret; lia].
    apply fin_bind. eapply peek_gettoken; [exact Hp|]. cbv beta. intros r s3 H3.
    apply fin_bind. eapply fin_mono; [apply IHl; lia|]. cbv beta. intros r' s4 H4. apply fin_ret. lia.
  - cbn [parsepipe]. apply fin_bind. eapply fin_mono; [apply IHe; lia|]. cbv beta. intros c s1 H1.
    apply fin_bind, peek_fin. pose proof (skip_white_le s1).
    destruct (match skip_white s1 with [] => _ | _ => _ end) eqn:Hp; [|apply fin_ret; lia].
    apply fin_bind. eapply peek_gettoken; [exact Hp|]. cbv beta. intros r s3 H3.
    apply fin_bind. eapply fin_mono; [apply IHp; lia|]. cbv beta. intros r' s4 H4. apply fin_ret. lia.
  - cbn [parseexec]. apply fin_bind, peek_fin.
    destruct (match skip_white s with [] => _ | _ => _ end) eqn:Hp.
    { eapply fin_mono; [apply IHb; lia|]. simpl. intros; lia. }
    apply fin_bind. eapply fin_mono; [apply parseredirs_fin|]. cbv beta. intros r s1 H1.
    apply fin_bind. change (fin get s1 ?Q) with (Q s1 s1). cbv beta.
    eapply fin_mono; [apply parseargs_fin; lia|]. simpl. intros; lia.
  - cbn [parseblock]. apply fin_bind, peek_fin.
    destruct (match skip_white s with [] => _ | _ => _ end) eqn:Hp; [|done].
    apply fin_bind, fin_panic_if. intros _.
    apply fin_bind. eapply peek_gettoken; [exact Hp|]. cbv beta. intros r s1 H1.
    apply fin_bind. eapply fin_mono; [apply IHl; lia|]. cbv beta. intros c s2 H2.
    apply fin_bind, peek_fin. pose proof (skip_white_le s2).
    destruct (match skip_white s2 with [] => _ | _ => _ end) eqn:Hp2; [|done].
    apply fin_bind, fin_panic_if. intros _.
    apply fin_bind. eapply peek_gettoken; [exact Hp2|]. cbv beta. intros r' s3 H3.
    eapply fin_mono; [apply parseredirs_fin|]. simpl. intros; lia.
Qed.


(** ** Commands as text

    [acmd] is a command with its strings; [show] writes it, with parentheses
    where a command stands in a place of higher precedence. *)
Inductive acmd :=
  | AExec (args : list (list Z))
  | ARedir (c : acmd) (file : list Z) (out : bool)
  | APipe (left right : acmd)
  | AList (left right : acmd)
  | ABack (c : acmd).

Definition word_char (c : Z) : Prop := c <> 0 /\ found whitespace c = false /\ found symbols c = false.
Definition is_word (w : list Z) : Prop := w <> [] /\ Forall word_char w.
#[export] Instance is_word_dec w : Decision (is_word w).
Proof. unfold is_word, word_char. apply _. Defined.

(** At most nine arguments; every string is a word. *)
Fixpoint wf_cmd (a : acmd) : Prop :=
  match a with
  | AExec args => (length args < MAXARGS)%nat /\ Forall is_word args
  | ARedir c f _ => wf_cmd c /\ is_word f
  | APipe l r => wf_cmd l /\ wf_cmd r
  | AList l r => wf_cmd l /\ wf_cmd r
  | ABack c => wf_cmd c
  end.

Definition level (a : acmd) : nat :=
  match a with AExec _ | ARedir _ _ _ => 0 | APipe _ _ => 1 | ABack _ => 2 | AList _ _ => 3 end.

Definition show_redir (file : list Z) (out : bool) : list Z := (if out then 62 else 60) :: file ++ [32].
Definition show_args (args : list (list Z)) : list Z := concat ((fun w => w ++ [32]) <$> args).

Fixpoint show (lvl : nat) (a : acmd) : list Z :=
  let s :=
    match a with
    | AExec args => show_args args
    | ARedir c f out => show 0 c ++ show_redir f out
    | APipe l r => show 0 l ++ 124 :: show 1 r
    | AList l r => show 2 l ++ 59 :: show 3 r
    | ABack c => show 2 c ++ [38]
    end in
  if (level a <=? lvl)%nat then s else 40 :: s ++ [41].

(** [x] points to the start and the end of the word [w] in [str], and a
    delimiter or the end of the line follows. *)
Definition tok_at (str : list Z) (x : nat * nat) (w : list Z) : Prop :=
  is_word w /\ exists pre rest, str = pre ++ w ++ rest /\ x = (length (w ++ rest), length rest) /\
    (forall c r, rest = c :: r -> ~ word_char c).

Fixpoint rep (str : list Z) (c : cmd) (a : acmd) : Prop :=
  match a, c with
  | AExec args, EXEC argv => Forall2 (tok_at str) argv args
  | ARedir a f out, REDIR c q eq mode fd => rep str c a /\ tok_at str (q, eq) f /\
      (mode, fd) = if out then (Z.lor O_WRONLY O_CREATE, 1) else (O_RDONLY, 0)
  | APipe l r, PIPE cl cr => rep str cl l /\ rep str cr r
  | AList l r, LIST cl cr => rep str cl l /\ rep str cr r
  | ABack a, BACK c => rep str c a
  | _, _ => False
  end.

(** *** Tokens *)

Definition clean (s : list Z) : Prop := skip_white s = s.

Lemma clean_word w s : is_word w -> clean (w ++ s).
Proof. intros [Hn Hw]. destruct w as [|c w]; [done|]. destruct (Forall_inv Hw) as (_ & E & _). unfold clean. simpl. by rewrite E. Qed.

Lemma clean_cons c s : found whitespace c = false -> clean (c :: s).
Proof. unfold clean. simpl. by intros ->. Qed.

(** White space in front of the rest of the line does not matter. *)
Lemma peek_skip t s : peek t (skip_white s) = peek t s.
Proof. unfold peek, bind, get. by rewrite skip_white_idemp. Qed.
Lemma redirs_skip fuel c s : parseredirs_loop fuel c (skip_white s) = parseredirs_loop fuel c s.
Proof. destruct fuel; cbn [parseredirs_loop]; unfold bind; by rewrite peek_skip. Qed.

Lemma parse_skip fuel s : parseexec fuel (skip_white s) = parseexec fuel s /\ parsepipe fuel (skip_white s) = parsepipe fuel s /\
  parseline fuel (skip_white s) = parseline fuel s.
Proof.
  assert (He : forall n, parseexec n (skip_white s) = parseexec n s).
  { intros [|n]; [done|]. cbn [parseexec]. unfold bind at 1 3. by rewrite peek_skip. }
  assert (Hp : forall n, parsepipe n (skip_white s) = parsepipe n s).
  { intros [|n]; [done|]. cbn [parsepipe]. unfold bind at 1 3. by rewrite He. }
  split_and!; [apply He|apply Hp|]. destruct fuel as [|n]; [done|]. cbn [parseline]. unfold bind at 1 5. by rewrite Hp.
Qed.

(** A word followed by a space is one token. *)
Lemma gettoken_word w s : is_word w ->
  gettoken (w ++ 32 :: s) = Ret (97, length (w ++ 32 :: s), length (32 :: s)) (skip_white s).
Proof.
  intros Hw. unfold gettoken. krun. unfold get, put. rewrite clean_word by done.
  assert (skip_word (w ++ 32 :: s) = 32 :: s) as Esk.
  { destruct Hw as [_ Hw]. induction Hw as [|c w (_ & H1 & H2) Hw IH]; [done|].
    simpl. by rewrite H1, H2. }
  destruct w as [|c w]; [by destruct Hw|]. destruct Hw as [_ Hw]. destruct (Forall_inv Hw) as (H0 & _ & Hsym).
  change ((c :: w) ++ 32 :: s) with (c :: (w ++ 32 :: s)) in *.
  cbv iota. rewrite (proj2 (Z.eqb_neq c 0)) by done.
  replace (found (chars "|();&<") c) with false.
  2: { symmetry. destruct (found (chars "|();&<") c) eqn:E; [|done]. rewrite found_In in E.
       assert (found symbols c = true) by (rewrite found_In; simpl in *; tauto). congruence. }
  rewrite (proj2 (Z.eqb_neq c 62)) by (intros ->; done).
  by rewrite Esk.
Qed.

Lemma gettoken_symbol c s : found (chars "|();&<") c = true ->
  gettoken (c :: s) = Ret (c, length (c :: s), length s) (skip_white s).
Proof.
  intros Hc. pose proof Hc as Hin. rewrite found_In in Hin.
  unfold gettoken. krun. unfold get, put. rewrite clean_cons by (simpl in Hin; naive_solver).
  rewrite (proj2 (Z.eqb_neq c 0)) by (simpl in Hin; naive_solver). by rewrite Hc.
Qed.

Lemma peek_clean toks s : clean s ->
  peek toks s = Ret (match s with c :: _ => negb (c =? 0) && found toks c | [] => false end) s.
Proof. intros Hs. unfold peek. krun. unfold get, put. by rewrite Hs. Qed.

(** *** Redirections *)

Definition show_redirs (rs : list (list Z * bool)) : list Z := concat ((fun x => show_redir x.1 x.2) <$> rs).
Definition wrap (rs : list (list Z * bool)) (a : acmd) : acmd := foldl (fun a x => ARedir a x.1 x.2) a rs.

(** The text that can follow a command: white space, or one of these symbols. *)
Definition stops (t : list Z) (rest : list Z) : Prop := skip_white rest = [] \/ exists c r, rest = c :: r /\ In c t.
Definition after_exec : list Z := chars "|)&;".

Lemma stops_skip t rest : stops t rest -> (forall c, In c t -> In c after_exec) -> stops t (skip_white rest).
Proof.
  intros [E|(c & r & -> & Hc)] Ht; [left; by rewrite skip_white_idemp|]. right. exists c, r. split; [|done].
  apply clean_cons. apply Ht in Hc. simpl in Hc. naive_solver.
Qed.

Lemma stops_peek t t' rest : stops t rest -> (forall c, In c t -> In c after_exec) ->
  (forall c, In c t -> ~ In c t') -> peek t' rest = Ret false (skip_white rest).
Proof.
  intros Hs Ht Hn. apply stops_skip in Hs; [|done]. rewrite <- peek_skip, peek_clean by apply skip_white_idemp. f_equal.
  destruct Hs as [E|(c & r & -> & Hc)]; [by rewrite <- skip_white_idemp, E|]. apply andb_false_iff. right.
  apply not_true_iff_false. rewrite found_In. by apply Hn.
Qed.

Lemma peek_word t w s : is_word w -> (forall c, In c t -> In c symbols) -> peek t (w ++ s) = Ret false (w ++ s).
Proof.
  intros Hw Ht. rewrite peek_clean by by apply clean_word. destruct Hw as [Hn Hw]. destruct w as [|c w]; [done|].
  destruct (Forall_inv Hw) as (_ & _ & Hs). simpl. f_equal. apply andb_false_iff. right.
  apply not_true_iff_false. rewrite found_In. intros H%Ht. rewrite <- found_In in H. congruence.
Qed.

Lemma peek_symbol t c s : In c t -> In c symbols -> peek t (c :: s) = Ret true (c :: s).
Proof.
  intros Ht Hc. rewrite peek_clean by (apply clean_cons; simpl in Hc; naive_solver). f_equal.
  apply andb_true_iff. split; [simpl in Hc; naive_solver|by apply found_In].
Qed.

Lemma not_word_space : ~ word_char 32.
Proof. by intros (_ & H & _). Qed.

Lemma tok_at_here str pre w s : is_word w -> str = pre ++ w ++ 32 :: s ->
  tok_at str (length (w ++ 32 :: s), length (32 :: s)) w.
Proof.
  intros Hw ->. split; [done|]. exists pre, (32 :: s). split_and!; [done|done|].
  intros c r [= <- _]. apply not_word_space.
Qed.

Lemma redirs_clean f out rs rest : clean (show_redirs ((f, out) :: rs) ++ rest).
Proof. unfold show_redirs, show_redir. simpl. apply clean_cons. by destruct out. Qed.
Lemma redirs_length rs rest : (length rs <= length (skip_white (show_redirs rs ++ rest)))%nat.
Proof.
  assert (length rs <= length (show_redirs rs))%nat.
  { unfold show_redirs. induction rs as [|[f out] rs IH]; [done|]. rewrite fmap_cons. simpl. rewrite !length_app. lia. }
  destruct rs as [|[f out] rs]; [simpl; lia|].
  rewrite redirs_clean, length_app. lia.
Qed.

Lemma redirs_run str rs : forall fuel pre c a rest,
  Forall (fun x => is_word x.1) rs -> (length rs <= fuel)%nat -> rep str c a ->
  str = pre ++ show_redirs rs ++ rest -> peek (chars "<>") rest = Ret false (skip_white rest) ->
  exists c', parseredirs_loop fuel c (show_redirs rs ++ rest) = Ret c' (skip_white rest) /\ rep str c' (wrap rs a).
Proof.
  induction rs as [|[f out] rs IH]; intros fuel pre c a rest Hw Hf Hr Es Hp.
  { exists c. split; [|done]. simpl app. destruct fuel; cbn [parseredirs_loop]; unfold bind; by rewrite Hp. }
  apply Forall_cons in Hw as [Hw1 Hw]. simpl in Hw1, Hf. destruct fuel as [|fuel]; [lia|].
  assert (show_redirs ((f, out) :: rs) ++ rest = (if out then 62 else 60) :: f ++ 32 :: (show_redirs rs ++ rest)) as E.
  { unfold show_redirs, show_redir. simpl. by rewrite <- !app_assoc. }
  rewrite E in Es |- *. set (s1 := show_redirs rs ++ rest) in *.
  assert (exists x, gettoken ((if out then 62 else 60) :: f ++ 32 :: s1) =
    Ret (if out then 62 else 60, x, length (f ++ 32 :: s1)) (f ++ 32 :: s1)) as (x & Et).
  { destruct out.
    - destruct Hw1 as [Hn Hf1]. destruct f as [|c0 f]; [done|]. destruct (Forall_inv Hf1) as (_ & Hwh & Hsy).
      unfold gettoken. krun. unfold get, put. simpl. rewrite (proj2 (Z.eqb_neq c0 62)) by (intros ->; done).
      simpl. rewrite Hwh. by eexists.
    - eexists. rewrite gettoken_symbol by done. by rewrite clean_word. }
  cbn [parseredirs_loop]. unfold bind at 1. rewrite peek_symbol by (destruct out; simpl; tauto).
  unfold bind at 1. rewrite Et. unfold bind at 1. rewrite gettoken_word by done.
  unfold bind at 1. simpl panic_if. unfold ret at 1. rewrite redirs_skip.
  destruct (IH fuel (pre ++ (if out then 62 else 60) :: f ++ [32])
    (REDIR c (length (f ++ 32 :: s1)) (length (32 :: s1)) (if out then Z.lor O_WRONLY O_CREATE else O_RDONLY)
      (if out then 1 else 0)) (ARedir a f out) rest) as (c' & Ec & Hrep); try done; [lia| | |].
  - simpl. split_and!; [done| |by destruct out].
    apply (tok_at_here _ (pre ++ [if out then 62 else 60])); [done|]. rewrite Es. by rewrite <- app_assoc.
  - rewrite Es. rewrite <- app_assoc. simpl. by rewrite <- app_assoc.
  - exists c'. split; [|exact Hrep]. rewrite <- Ec. by destruct out.
Qed.

Lemma parseredirs_run str rs pre c a rest s : Forall (fun x => is_word x.1) rs -> rep str c a ->
  str = pre ++ show_redirs rs ++ rest -> peek (chars "<>") rest = Ret false (skip_white rest) ->
  skip_white s = skip_white (show_redirs rs ++ rest) ->
  exists c', parseredirs c s = Ret c' (skip_white rest) /\ rep str c' (wrap rs a).
Proof.
  intros Hrs Hr Es Hp E. unfold parseredirs, bind, get. rewrite <- redirs_skip, E, redirs_skip. eapply redirs_run; try done.
  pose proof (redirs_length rs rest) as Hl. rewrite <- E in Hl. pose proof (skip_white_le s). lia.
Qed.

Lemma parseredirs_none c s s' : peek (chars "<>") s = Ret false s' -> parseredirs c s = Ret c s'.
Proof.
  intros Hp. unfold parseredirs, bind, get. destruct (length s); cbn [parseredirs_loop]; unfold bind; by rewrite Hp.
Qed.

(** *** Arguments *)

Lemma after_exec_symbols c : In c after_exec -> In c symbols.
Proof. simpl. tauto. Qed.

Lemma stops_redir t rest : stops t rest -> (forall c, In c t -> In c after_exec) ->
  peek (chars "<>") rest = Ret false (skip_white rest).
Proof. intros Hs Ht. apply (stops_peek t); [done|done|]. intros c Hc%Ht. simpl in *. naive_solver lia. Qed.

Lemma parseargs_stop fuel argc r rest : stops after_exec rest -> parseargs (S fuel) argc r rest = Ret r (skip_white rest).
Proof.
  intros Hs. cbn [parseargs]. unfold bind at 1. destruct Hs as [E|(c & r' & -> & Hc)]; [by rewrite <- peek_skip, E|].
  rewrite peek_symbol; [|exact Hc|by apply after_exec_symbols]. unfold ret. f_equal. symmetry.
  apply clean_cons. simpl in Hc. naive_solver.
Qed.

Lemma args_cons w ws s : show_args (w :: ws) ++ s = w ++ 32 :: (show_args ws ++ s).
Proof. unfold show_args. simpl. by rewrite <- !app_assoc. Qed.

Lemma length_args ws : (length ws <= length (show_args ws))%nat.
Proof.
  induction ws as [|w ws IH]; [done|]. pose proof (args_cons w ws []) as E. rewrite !app_nil_r in E.
  rewrite E, length_app. simpl. lia.
Qed.

Lemma args_clean ws s : Forall is_word ws -> clean s -> clean (show_args ws ++ s).
Proof. destruct ws as [|w ws]; [done|]. intros [Hw _]%Forall_cons _. rewrite args_cons. by apply clean_word. Qed.

Lemma parseargs_run str rs rest : Forall (fun x => is_word x.1) rs -> stops after_exec rest -> forall ws w fuel argv old pre,
  Forall is_word (w :: ws) -> (length old + length (w :: ws) < MAXARGS)%nat -> (length (w :: ws) < fuel)%nat ->
  Forall2 (tok_at str) argv old -> str = pre ++ show_args (w :: ws) ++ show_redirs rs ++ rest ->
  exists c, parseargs fuel (length old) (EXEC argv) (show_args (w :: ws) ++ show_redirs rs ++ rest) = Ret c (skip_white rest) /\
    rep str c (wrap rs (AExec (old ++ w :: ws))).
Proof.
  intros Hrs Hst. pose proof (stops_redir _ _ Hst (fun c H => H)) as Hpr.
  induction ws as [|w' ws IH]; intros w fuel argv old pre Hw Hl Hf Ha Es;
    apply Forall_cons in Hw as [Hw1 Hw]; (destruct fuel as [|fuel]; [simpl in Hf; lia|]);
    rewrite args_cons in Es |- *; cbn [parseargs]; unfold bind at 1;
    (rewrite peek_word by (done || apply after_exec_symbols)); unfold bind at 1.
  all: rewrite gettoken_word by done; simpl (97 =? 0); cbv iota.
  all: unfold bind at 1; simpl (negb (97 =? 97)); unfold panic_if at 1, ret at 1; unfold bind at 1.
  all: replace (MAXARGS <=? S (length old))%nat with false by (symmetry; apply Nat.leb_gt; simpl in Hl; lia).
  all: unfold panic_if at 1, ret at 1; unfold bind at 1; cbn [add_arg].
  - change (show_args [] ++ show_redirs rs ++ rest) with (show_redirs rs ++ rest) in *.
    destruct (parseredirs_run str rs (pre ++ w ++ [32])
      (EXEC (argv ++ [(length (w ++ 32 :: show_redirs rs ++ rest), length (32 :: show_redirs rs ++ rest))]))
      (AExec (old ++ [w])) rest (skip_white (show_redirs rs ++ rest))) as (c & Ec & Hrep); try done.
    + simpl. apply Forall2_app; [done|]. constructor; [|constructor]. by eapply tok_at_here.
    + rewrite Es. by rewrite <- !app_assoc.
    + by rewrite skip_white_idemp.
    + exists c. rewrite Ec. destruct fuel as [|fuel]; [simpl in Hf; lia|].
      rewrite parseargs_stop by (by apply stops_skip). by rewrite skip_white_idemp.
  - set (x := (length _, length _)). set (s1 := show_args (w' :: ws) ++ show_redirs rs ++ rest) in *.
    assert (skip_white s1 = s1) as -> by (unfold s1; rewrite args_cons; apply clean_word; exact (Forall_inv Hw)).
    replace (parseredirs (EXEC (argv ++ [x])) s1) with (Ret (EXEC (argv ++ [x])) s1).
    2: { symmetry. apply parseredirs_none. unfold s1. rewrite args_cons.
         apply peek_word; [exact (Forall_inv Hw)|simpl; tauto]. }
    destruct (IH w' fuel (argv ++ [x]) (old ++ [w]) (pre ++ w ++ [32])) as (c & Ec & Hrep);
      [done|rewrite length_app; simpl in *; lia|simpl in *; lia| | |].
    + apply Forall2_app; [done|]. constructor; [|constructor]. by eapply tok_at_here.
    + rewrite Es. by rewrite <- !app_assoc.
    + exists c. rewrite length_app, Nat.add_1_r in Ec. fold s1 in Ec. rewrite Ec. split; [done|]. by rewrite <- app_assoc in Hrep.
Qed.

(** *** Commands *)

(** What parsing the text of [a], at a place where [t] may follow, gives. *)
Definition parses (parse : nat -> P cmd) (k lvl : nat) (t : list Z) (a : acmd) : Prop :=
  forall str pre fuel rest, str = pre ++ show lvl a ++ rest -> stops t rest ->
    (4 * length (show lvl a ++ rest) + k <= fuel)%nat ->
    exists c, parse fuel (show lvl a ++ rest) = Ret c (skip_white rest) /\ rep str c a.

Definition parses_exec := parses parseexec 2 0 after_exec.
Definition parses_pipe := parses parsepipe 3 1 (chars ")&;").
Definition parses_line := parses parseline 4 3 (chars ")").

Lemma show_level lvl a : show lvl a = if (level a <=? lvl)%nat then show 3 a else 40 :: show 3 a ++ [41].
Proof. by destruct a. Qed.

Lemma show_high lvl a : (level a <= lvl)%nat -> show lvl a = show 3 a.
Proof. intros H. by rewrite show_level, (proj2 (Nat.leb_le _ _) H). Qed.

Lemma show_paren lvl a : (lvl < level a)%nat -> show lvl a = 40 :: show 3 a ++ [41].
Proof. intros H. by rewrite show_level, (proj2 (Nat.leb_gt _ _) H). Qed.

Lemma level_le a : (level a <= 3)%nat.
Proof. destruct a; simpl; lia. Qed.

(** The text of a command does not begin with white space. *)
Lemma show_clean lvl a rest : wf_cmd a -> clean rest -> clean (show lvl a ++ rest).
Proof.
  revert lvl rest. induction a as [args|c IH f out|l IHl r IHr|l IHl r IHr|c IH]; intros lvl rest Hwf Hc;
    rewrite show_level; (destruct (_ <=? _)%nat; [|by apply clean_cons]); simpl in Hwf |- *.
  - by apply args_clean; [apply Hwf|].
  - rewrite <- app_assoc. apply IH; [apply Hwf|]. unfold show_redir. simpl. apply clean_cons. by destruct out.
  - rewrite <- app_assoc. apply IHl; [apply Hwf|]. by apply clean_cons.
  - rewrite <- app_assoc. apply IHl; [apply Hwf|]. by apply clean_cons.
  - rewrite <- app_assoc. apply IH; [done|]. by apply clean_cons.
Qed.

(** Redirections and what they apply to. *)
Fixpoint spine (a : acmd) : acmd * list (list Z * bool) :=
  match a with
  | ARedir c f out => let (b, rs) := spine c in (b, rs ++ [(f, out)])
  | _ => (a, [])
  end.

Fixpoint size (a : acmd) : nat :=
  match a with
  | AExec _ => 1
  | ARedir c _ _ => S (size c)
  | APipe l r | AList l r => S (size l + size r)
  | ABack c => S (size c)
  end.

Lemma spine_spec a : wf_cmd a -> let (b, rs) := spine a in
  a = wrap rs b /\ show 0 a = show 0 b ++ show_redirs rs /\ Forall (fun x => is_word x.1) rs /\ wf_cmd b /\
  (forall c f out, b <> ARedir c f out) /\ (size b <= size a)%nat /\ (rs <> [] -> (size b < size a)%nat).
Proof.
  induction a as [args|c IH f out| | |]; cbn [spine];
    try (intros Hwf; split_and!; [done|by rewrite app_nil_r|by constructor|done|done|lia|done]).
  intros [Hc Hf]. specialize (IH Hc). destruct (spine c) as [b rs]. destruct IH as (-> & Es & Hw & Hb & Hn & Hs & _).
  split_and!; [unfold wrap; by rewrite foldl_app| |apply Forall_app; split; [done|by apply Forall_singleton]|done|done|simpl; lia|simpl; lia].
  cbn [show level Nat.leb]. rewrite Es. unfold show_redirs. rewrite fmap_app, concat_app. simpl. by rewrite app_nil_r, app_assoc.
Qed.

Lemma rep_wrap_redirs str pre rs c b rest s : Forall (fun x => is_word x.1) rs -> rep str c b ->
  str = pre ++ show_redirs rs ++ rest -> stops after_exec rest -> skip_white s = skip_white (show_redirs rs ++ rest) ->
  exists c', parseredirs c s = Ret c' (skip_white rest) /\ rep str c' (wrap rs b).
Proof.
  intros Hrs Hr Es Hst E. eapply parseredirs_run; [done|done|done|by eapply stops_redir|done].
Qed.

(** A command in parentheses, with redirections. *)
Lemma exec_paren b rs a : wf_cmd b -> parses_line b -> (0 < level b)%nat -> a = wrap rs b ->
  show 0 a = show 0 b ++ show_redirs rs -> Forall (fun x => is_word x.1) rs -> parses_exec a.
Proof.
  intros Hwf HL Hlv -> Esh Hrs str pre fuel rest Es Hst Hf. rewrite Esh, show_paren in * by done.
  assert ((40 :: show 3 b ++ [41]) ++ show_redirs rs = 40 :: show 3 b ++ 41 :: show_redirs rs) as E
    by (simpl; by rewrite <- app_assoc).
  rewrite E in *. simpl in Hf. rewrite <- app_comm_cons, <- app_assoc in *. simpl in Es, Hf |- *.
  destruct fuel as [|[|fuel]]; [lia|lia|].
  set (s1 := show 3 b ++ 41 :: show_redirs rs ++ rest) in *.
  assert (clean s1) as Hc1 by (apply show_clean; [done|by apply clean_cons]).
  cbn [parseexec parseblock]. unfold bind at 1. rewrite peek_symbol by (simpl; tauto).
  unfold bind at 1. rewrite peek_symbol by (simpl; tauto). simpl (panic_if _ _).
  unfold bind at 1. unfold ret at 1. unfold bind at 1. rewrite gettoken_symbol by done. rewrite Hc1. unfold bind at 1.
  destruct (HL str (pre ++ [40]) fuel (41 :: show_redirs rs ++ rest)) as (c & Ec & Hrep).
  - rewrite Es. by rewrite <- app_assoc.
  - right. eexists _, _. split; [done|]. by left.
  - fold s1. simpl in Hf. lia.
  - fold s1 in Ec. rewrite Ec. change (skip_white (41 :: ?x)) with (41 :: x). unfold bind at 1. rewrite peek_symbol by (simpl; tauto).
    simpl (panic_if _ _). unfold bind at 1. unfold ret at 1. unfold bind at 1. rewrite gettoken_symbol by done.
    eapply (rep_wrap_redirs str (pre ++ 40 :: show 3 b ++ [41])); try done; [|by rewrite skip_white_idemp].
    rewrite Es. unfold s1. rewrite <- !app_assoc. simpl. by rewrite <- app_assoc.
Qed.

(** A simple command, with redirections. *)
Lemma exec_simple args rs a : (length args < MAXARGS)%nat -> Forall is_word args -> a = wrap rs (AExec args) ->
  show 0 a = show_args args ++ show_redirs rs -> Forall (fun x => is_word x.1) rs -> parses_exec a.
Proof.
  intros Hl Hw -> Esh Hrs str pre fuel rest Es Hst Hf. rewrite Esh, <- app_assoc in *.
  destruct fuel as [|fuel]; [lia|]. cbn [parseexec]. clear Hf.
  destruct args as [|w ws].
  - change (show_args [] ++ show_redirs rs ++ rest) with (show_redirs rs ++ rest) in *.
    assert (peek (chars "(") (show_redirs rs ++ rest) = Ret false (skip_white (show_redirs rs ++ rest))) as Ep.
    { destruct rs as [|[f out] rs]; [apply (stops_peek after_exec); [done|done|simpl; naive_solver lia]|].
      rewrite peek_clean, redirs_clean by apply redirs_clean. simpl. by destruct out. }
    unfold bind at 1. rewrite Ep. unfold bind at 1.
    destruct (rep_wrap_redirs str pre rs (EXEC []) (AExec []) rest (skip_white (show_redirs rs ++ rest))) as (c & Ec & Hrep);
      [done|by constructor|done|done|by rewrite skip_white_idemp|].
    rewrite Ec. unfold bind, get. exists c. rewrite parseargs_stop by (by apply stops_skip). by rewrite skip_white_idemp.
  - unfold bind at 1. rewrite args_cons. rewrite peek_word by (apply (Forall_inv Hw) || (simpl; tauto)).
    unfold bind at 1. erewrite parseredirs_none by (apply peek_word; [apply (Forall_inv Hw)|simpl; tauto]).
    unfold bind at 1, get. rewrite <- args_cons.
    apply (parseargs_run str rs rest Hrs Hst ws w _ [] [] pre); try done.
    pose proof (length_args (w :: ws)). rewrite length_app. lia.
Qed.

Lemma pipe_of_exec a : (level a <> 1)%nat -> parses_exec a -> parses_pipe a.
Proof.
  intros Hlv HE str pre fuel rest Es Hst Hf.
  assert (show 1 a = show 0 a) as E by (rewrite (show_level 1), (show_level 0); destruct a; done).
  rewrite E in *. assert (stops after_exec rest) as Hst'.
  { destruct Hst as [?|(c & r & -> & Hc)]; [by left|right]. exists c, r. split; [done|]. simpl in *. tauto. }
  destruct fuel as [|fuel]; [lia|]. cbn [parsepipe].
  destruct (HE str pre fuel rest Es Hst') as (c & Ec & Hr); [lia|].
  exists c. unfold bind at 1. rewrite Ec. unfold bind at 1.
  rewrite peek_skip, (stops_peek (chars ")&;")); [done|done|simpl; tauto|simpl; naive_solver lia].
Qed.

Lemma pipe_pipe l r : wf_cmd (APipe l r) -> parses_exec l -> parses_pipe r -> parses_pipe (APipe l r).
Proof.
  intros [Hl Hr] HE HP str pre fuel rest Es Hst Hf. rewrite show_high in * by done.
  change (show 3 (APipe l r)) with (show 0 l ++ 124 :: show 1 r) in *. rewrite <- app_assoc in *. simpl in Es, Hf |- *.
  destruct fuel as [|fuel]; [lia|]. rewrite length_app in Hf. simpl in Hf.
  destruct (HE str pre fuel (124 :: show 1 r ++ rest)) as (c & Ec & Hrl); [done| | |].
  { right. eexists _, _. split; [done|]. by left. }
  { rewrite length_app. simpl. lia. }
  change (skip_white (124 :: ?x)) with (124 :: x) in Ec. cbn [parsepipe]. unfold bind at 1. rewrite Ec.
  unfold bind at 1. rewrite peek_symbol by (simpl; tauto).
  unfold bind at 1. rewrite gettoken_symbol by done. unfold bind at 1. rewrite (proj1 (proj2 (parse_skip _ _))).
  destruct (HP str (pre ++ show 0 l ++ [124]) fuel rest) as (c' & Ec' & Hrr); [|done|lia|].
  { rewrite Es. by rewrite <- !app_assoc. }
  rewrite Ec'. by eexists.
Qed.

(** Commands in the background. *)
Fixpoint unback (a : acmd) : acmd * nat :=
  match a with ABack c => let (b, k) := unback c in (b, S k) | _ => (a, O) end.

Lemma unback_spec a : wf_cmd a -> let (b, k) := unback a in
  a = Nat.iter k ABack b /\ wf_cmd b /\ show 2 a = show 2 b ++ replicate k 38 /\ (level b <> 2)%nat /\
  (size b + k = size a)%nat.
Proof.
  induction a as [| | | |c IH]; cbn [unback]; try (intros Hwf; split_and!; [done|done|by rewrite app_nil_r|done|lia]).
  intros Hwf. specialize (IH Hwf). destruct (unback c) as [b k]. destruct IH as (-> & Hb & Es & Hl & Hs).
  split_and!; [done|done| |done|simpl; lia].
  change (show 2 (ABack ?c)) with (show 2 c ++ [38]). rewrite Es, <- app_assoc.
  by rewrite <- replicate_cons_app.
Qed.

Lemma parseback_skip fuel c s : parseback fuel c (skip_white s) = parseback fuel c s.
Proof. destruct fuel; cbn [parseback]; unfold bind; by rewrite peek_skip. Qed.
Lemma parseback_run str k : forall fuel c b rest, rep str c b -> (k <= fuel)%nat ->
  peek (chars "&") rest = Ret false (skip_white rest) ->
  exists c', parseback fuel c (replicate k 38 ++ rest) = Ret c' (skip_white rest) /\ rep str c' (Nat.iter k ABack b).
Proof.
  induction k as [|k IH]; intros fuel c b rest Hr Hf Hp.
  { exists c. split; [|done]. simpl app. destruct fuel; cbn [parseback]; unfold bind; by rewrite Hp. }
  destruct fuel as [|fuel]; [lia|]. cbn [parseback replicate]. simpl app. unfold bind at 1.
  rewrite peek_symbol by (simpl; tauto). unfold bind at 1.
  rewrite gettoken_symbol, parseback_skip by done. destruct (IH fuel (BACK c) (ABack b) rest) as (c' & Ec & Hrep); [done|lia|done|].
  exists c'. split; [done|]. by rewrite Nat.iter_swap in Hrep.
Qed.

(** A pipeline and the [&]s behind it, as [parseline] begins. *)
Lemma line_head a str pre fuel rest : wf_cmd a -> parses_pipe (unback a).1 ->
  str = pre ++ show 2 a ++ rest -> stops (chars ");") rest -> (4 * length (show 2 a ++ rest) + 3 <= fuel)%nat ->
  exists c, (let! c := parsepipe fuel in let! s := get in parseback (length s) c) (show 2 a ++ rest) = Ret c (skip_white rest) /\
    rep str c a.
Proof.
  intros Hwf HP Es Hst Hf. pose proof (unback_spec a Hwf) as Hu. destruct (unback a) as [b k]. simpl in HP.
  destruct Hu as (Ea & Hb & Esh & Hlv & _). rewrite Esh, <- app_assoc in *.
  assert (show 2 b = show 1 b) as E by (rewrite (show_level 2), (show_level 1); destruct b; done).
  rewrite E in *.
  destruct (HP str pre fuel (replicate k 38 ++ rest)) as (c & Ec & Hr); [done| |done|].
  { destruct k; [|right; eexists _, _; split; [done|simpl; tauto]].
    destruct Hst as [?|(c & r & -> & Hc)]; [by left|right]. exists c, r. split; [done|]. simpl in *. tauto. }
  unfold bind at 1. rewrite Ec. unfold bind, get. rewrite parseback_skip.
  destruct (parseback_run str k (length (skip_white (replicate k 38 ++ rest))) c b rest) as (c' & Ec' & Hr'); [done| | |].
  - destruct k; [lia|]. cbn [replicate app]. rewrite clean_cons by done. simpl. rewrite length_app, length_replicate. lia.
  - apply (stops_peek (chars ");")); [done|simpl; tauto|simpl; naive_solver lia].
  - exists c'. split; [exact Ec'|]. by rewrite Ea.
Qed.

Lemma parseline_head fuel s c rest :
  (let! c := parsepipe fuel in let! s := get in parseback (length s) c) s = Ret c rest ->
  parseline (S fuel) s = (let! b := peek (chars ";") in
    if b then gettoken;;; let! r := parseline fuel in ret (LIST c r) else ret c) rest.
Proof.
  intros (c0 & s0 & E0 & E1)%bind_inv. cbn [parseline]. unfold bind at 1. rewrite E0.
  unfold bind, get in E1. unfold bind at 1, get. unfold bind at 1. by rewrite E1.
Qed.

Lemma line_single a : wf_cmd a -> level a <> 3%nat -> parses_pipe (unback a).1 -> parses_line a.
Proof.
  intros Hwf Hlv HP str pre fuel rest Es Hst Hf. rewrite <- (show_high 2) in * by (destruct a; simpl in *; lia).
  destruct fuel as [|fuel]; [lia|].
  assert (stops (chars ");") rest) as Hst'.
  { destruct Hst as [?|(c & r & -> & Hc)]; [by left|right]. exists c, r. split; [done|]. simpl in *. tauto. }
  destruct (line_head a str pre fuel rest) as (c & Ec & Hr); [done|done|done|done|lia|].
  exists c. split; [|done]. rewrite (parseline_head _ _ _ _ Ec). unfold bind.
  rewrite peek_skip, (stops_peek (chars ")")); [done|done|simpl; tauto|simpl; naive_solver lia].
Qed.

Lemma line_list l r : wf_cmd (AList l r) -> parses_pipe (unback l).1 -> parses_line r -> parses_line (AList l r).
Proof.
  intros [Hl Hr] HP HL str pre fuel rest Es Hst Hf.
  change (show 3 (AList l r)) with (show 2 l ++ 59 :: show 3 r) in *. rewrite <- app_assoc in *. simpl in Es, Hf |- *.
  destruct fuel as [|fuel]; [lia|]. pose proof Hf as Hf'. rewrite length_app in Hf'. simpl in Hf'.
  destruct (line_head l str pre fuel (59 :: show 3 r ++ rest)) as (c & Ec & Hrl); [done|done|done| |lia|].
  { right. eexists _, _. split; [done|simpl; tauto]. }
  change (skip_white (59 :: ?x)) with (59 :: x) in Ec. rewrite (parseline_head _ _ _ _ Ec). unfold bind at 1.
  rewrite peek_symbol by (simpl; tauto).
  unfold bind at 1. rewrite gettoken_symbol by done. unfold bind at 1. rewrite (proj2 (proj2 (parse_skip _ _))).
  destruct (HL str (pre ++ show 2 l ++ [59]) fuel rest) as (c' & Ec' & Hrr); [|done|lia|].
  { rewrite Es. by rewrite <- !app_assoc. }
  rewrite Ec'. by eexists.
Qed.

(** Every well-formed command is parsed at every level. *)
Lemma parses_all n : forall a, (size a <= n)%nat -> wf_cmd a -> parses_exec a /\ parses_pipe a /\ parses_line a.
Proof.
  induction n as [|n IH]; intros a Hn Hwf; [destruct a; simpl in Hn; lia|].
  assert (forall b, parses_line b -> wf_cmd b -> (0 < level b)%nat -> parses_exec b) as HE.
  { intros b HL Hb Hlv. apply (exec_paren b []); try done. by rewrite app_nil_r. }
  destruct a as [args|c f out|l r|l r|c].
  - assert (parses_exec (AExec args)) as E.
    { apply (exec_simple args []); try done; [apply Hwf|apply Hwf|by rewrite app_nil_r]. }
    assert (parses_pipe (AExec args)) as Hp by (by apply pipe_of_exec).
    split_and!; [done|done|by apply line_single].
  - assert (parses_exec (ARedir c f out)) as E.
    { pose proof (spine_spec _ Hwf) as Hs. destruct (spine (ARedir c f out)) as [b rs] eqn:Esp.
      destruct Hs as (Ea & Esh & Hrs & Hb & Hnr & Hle & Hlt).
      destruct (decide (level b = 0%nat)) as [Hl|Hl].
      - destruct b as [args| | | |]; [|by destruct (Hnr b file out0)|done..].
        by apply (exec_simple args rs); [apply Hb|apply Hb|..].
      - apply (exec_paren b rs); try done; [|lia]. apply IH; [|done].
        assert (rs <> []) by (intros ->; simpl in Ea; by destruct (Hnr c f out)). specialize (Hlt ltac:(done)). lia. }
    assert (parses_pipe (ARedir c f out)) as Hp by (by apply pipe_of_exec).
    split_and!; [done|done|by apply line_single].
  - simpl in Hn. destruct Hwf as [Hl Hr].
    assert (parses_pipe (APipe l r)) as Hp by (apply pipe_pipe; [done|apply IH; [lia|done]|apply IH; [lia|done]]).
    assert (parses_line (APipe l r)) as HL by (by apply line_single).
    split_and!; [by apply HE; [..|simpl; lia]|done|done].
  - simpl in Hn. destruct Hwf as [Hl Hr].
    assert (parses_line (AList l r)) as HL.
    { apply line_list; [done| |apply IH; [lia|done]]. pose proof (unback_spec l Hl) as Hu.
      destruct (unback l) as [b k]. destruct Hu as (_ & Hb & _ & _ & Hs). apply IH; [simpl; lia|done]. }
    assert (parses_exec (AList l r)) as E by (by apply HE; [..|simpl; lia]).
    split_and!; [done|by apply pipe_of_exec|done].
  - simpl in Hn.
    assert (parses_line (ABack c)) as HL.
    { apply line_single; [done|done|]. pose proof (unback_spec c Hwf) as Hu. cbn [unback].
      destruct (unback c) as [b k]. destruct Hu as (_ & Hb & _ & _ & Hs). apply IH; [simpl; lia|done]. }
    assert (parses_exec (ABack c)) as E by (by apply HE; [..|simpl; lia]).
    split_and!; [done|by apply pipe_of_exec|done].
Qed.

(** ** The strings of a command *)

Fixpoint toks (c : cmd) : list (nat * nat) :=
  match c with
  | EXEC argv => argv
  | REDIR c q eq _ _ => toks c ++ [(q, eq)]
  | PIPE l r | LIST l r => toks l ++ toks r
  | BACK c => toks c
  end.

Definition put_nuls (es : nat) (l : list (nat * nat)) (b : list Z) : list Z :=
  foldl (fun b x => <[(es - x.2)%nat := 0]> b) b l.

Lemma nulterminate_toks es c : forall b, nulterminate es c b = put_nuls es (toks c) b.
Proof.
  induction c as [argv|c IH q eq mode fd|l IHl r IHr|l IHl r IHr|c IH]; intros b; simpl; [done| | | |done].
  - unfold put_nuls. by rewrite foldl_app, IH.
  - unfold put_nuls. by rewrite foldl_app, IHr, IHl.
  - unfold put_nuls. by rewrite foldl_app, IHr, IHl.
Qed.

Lemma lookup_put_nuls es l : forall b i, (i < length b)%nat ->
  put_nuls es l b !! i = if decide (i ∈ (fun x => es - x.2)%nat <$> l) then Some 0 else b !! i.
Proof.
  induction l as [|x l IH] using rev_ind; intros b i Hi; [done|].
  unfold put_nuls. rewrite foldl_app. simpl. fold (put_nuls es l b).
  assert (length (put_nuls es l b) = length b) as Hl.
  { clear. unfold put_nuls. revert b. induction l as [|y l IHl]; intros b; [done|]. simpl. by rewrite IHl, length_insert. }
  rewrite fmap_app. cbn [fmap list_fmap]. destruct (decide (i = es - x.2)%nat) as [->|Hne].
  - rewrite list_lookup_insert_eq by lia. rewrite decide_True; [done|]. apply elem_of_app. right. by apply list_elem_of_singleton.
  - rewrite list_lookup_insert_ne by congruence. rewrite IH by done. apply decide_ext.
    rewrite elem_of_app, list_elem_of_singleton. naive_solver.
Qed.

Lemma rep_toks str a : forall c x, rep str c a -> x ∈ toks c -> exists w, tok_at str x w.
Proof.
  induction a as [args|a IH f out|l IHl r IHr|l IHl r IHr|a IH]; intros [argv|c q eq mode fd|cl cr|cl cr|c] x; simpl;
    try done.
  - intros H Hx. apply list_elem_of_lookup in Hx as [k Hk].
    destruct (Forall2_lookup_l _ _ _ _ _ H Hk) as (w & _ & Hw). by exists w.
  - intros (Hr & Ht & _) [Hx|Hx%list_elem_of_singleton]%elem_of_app; [by eapply IH|]. subst. by exists f.
  - intros [Hl Hr] [Hx|Hx]%elem_of_app; eauto.
  - intros [Hl Hr] [Hx|Hx]%elem_of_app; eauto.
  - eauto.
Qed.

(** After the stores, a token is a C string: no store hits a word. *)
Lemma put_nuls_string str l x w : (forall y, y ∈ l -> exists w', tok_at str y w') -> x ∈ l -> tok_at str x w ->
  cstr (drop (length str - x.1) (put_nuls (length str) l (str ++ [0]))) = w.
Proof.
  intros Hl Hx ([_ Hw] & pre & rest & Es & -> & Hd). cbn [fst]. set (b := put_nuls _ _ _).
  assert (length str = length pre + length (w ++ rest))%nat as Hlen by (by rewrite Es, length_app).
  replace (length str - length (w ++ rest))%nat with (length pre) by lia.
  assert (forall i, (i <= length str)%nat -> b !! i =
    if decide (i ∈ (fun x => length str - x.2)%nat <$> l) then Some 0 else (str ++ [0]) !! i) as Hb.
  { intros i Hi. apply lookup_put_nuls. rewrite length_app. simpl. lia. }
  rewrite length_app in Hlen.
  assert (forall j, (j < length w)%nat -> b !! (length pre + j)%nat = w !! j) as Hin.
  { intros j Hj. assert (str !! (length pre + j)%nat = w !! j) as Hs.
    { rewrite Es, lookup_app_r, lookup_app_l by lia. f_equal. lia. }
    rewrite Hb by lia. rewrite decide_False; [by rewrite lookup_app_l by lia|].
    intros (y & Hy & Hyl)%list_elem_of_fmap. destruct (Hl y Hyl) as (w' & _ & pre' & rest' & Es' & -> & Hd').
    cbn [snd] in Hy. rewrite Hy in Hs. rewrite Es' in Hs at 2. rewrite app_assoc in Hs.
    apply (f_equal length) in Es'. rewrite !length_app in Es'.
    replace (length str - length rest')%nat with (length (pre' ++ w')) in Hs by (rewrite length_app; lia).
    destruct rest' as [|c r]; [simpl in *; lia|]. rewrite list_lookup_middle in Hs by done.
    apply (Hd' c r eq_refl). symmetry in Hs. by eapply Forall_lookup_1 in Hw. }
  assert (b !! (length pre + length w)%nat = Some 0) as Hend.
  { rewrite Hb by lia. apply decide_True. apply list_elem_of_fmap. eexists. split; [|exact Hx]. cbn [snd]. lia. }
  assert (drop (length pre) b = w ++ 0 :: drop (S (length w)) (drop (length pre) b)) as ->.
  { rewrite <- (take_drop (length w) (drop (length pre) b)) at 1. f_equal.
    - apply list_eq. intros j. destruct (decide (j < length w)%nat).
      + rewrite lookup_take_lt, lookup_drop by done. by apply Hin.
      + rewrite lookup_take_ge by lia. symmetry. apply lookup_ge_None_2. lia.
    - apply drop_S. by rewrite lookup_drop. }
  apply cstr_nul. eapply Forall_impl; [exact Hw|]. by intros c [? _].
Qed.

(** The command [c] with its strings in [b] is [a]. *)
Fixpoint denotes (es : nat) (b : list Z) (c : cmd) (a : acmd) : Prop :=
  let str p := cstr (drop (es - p) b) in
  match a, c with
  | AExec args, EXEC argv => (fun x => str x.1) <$> argv = args
  | ARedir a f out, REDIR c q _ mode fd => denotes es b c a /\ str q = f /\
      (mode, fd) = if out then (Z.lor O_WRONLY O_CREATE, 1) else (O_RDONLY, 0)
  | APipe l r, PIPE cl cr => denotes es b cl l /\ denotes es b cr r
  | AList l r, LIST cl cr => denotes es b cl l /\ denotes es b cr r
  | ABack a, BACK c => denotes es b c a
  | _, _ => False
  end.

Lemma rep_denotes str b a : forall c, rep str c a ->
  (forall x w, x ∈ toks c -> tok_at str x w -> cstr (drop (length str - x.1) b) = w) -> denotes (length str) b c a.
Proof.
  induction a as [args|a IH f out|l IHl r IHr|l IHl r IHr|a IH]; intros [argv|c q eq mode fd|cl cr|cl cr|c]; simpl;
    try done.
  - intros H Hs. apply list_eq. intros k. rewrite list_lookup_fmap.
    destruct (argv !! k) as [x|] eqn:Ek.
    + destruct (Forall2_lookup_l _ _ _ _ _ H Ek) as (w & Ew & Hw). rewrite Ew. simpl. f_equal.
      apply Hs; [by eapply list_elem_of_lookup_2|done].
    + apply lookup_ge_None in Ek. rewrite (Forall2_length _ _ _ H) in Ek. symmetry. by apply lookup_ge_None_2.
  - intros (Hr & Ht & Hm) Hs. split_and!; [|apply (Hs (q, eq) f); [|done]|done].
    + apply IH; [done|]. intros x w Hx. apply Hs, elem_of_app. by left.
    + apply elem_of_app. right. by apply list_elem_of_singleton.
  - intros [Hl Hr] Hs. split; [apply IHl|apply IHr]; try done; intros x w Hx; apply Hs, elem_of_app; auto.
  - intros [Hl Hr] Hs. split; [apply IHl|apply IHr]; try done; intros x w Hx; apply Hs, elem_of_app; auto.
  - intros Hr Hs. by apply IH.
Qed.

Lemma parsecmd_line a w : wf_cmd a -> skip_white w = [] ->
  exists c b, parsecmd (show 3 a ++ w) = Ret (c, b) [] /\ denotes (length (show 3 a ++ w)) b c a.
Proof.
  intros Hwf Hw. set (str := show 3 a ++ w). destruct (parses_all (size a) a) as (_ & _ & HL); [done|done|].
  destruct (HL str [] (4 * length str + 4)%nat w) as (c & Ec & Hr); [done|by left|done|].
  rewrite Hw in Ec. fold str in Ec. eexists c, _. unfold parsecmd. unfold bind at 1. rewrite Ec.
  split; [reflexivity|]. apply rep_denotes; [exact Hr|]. intros x w' Hx Hw'. rewrite nulterminate_toks.
  apply put_nuls_string; [|done|done]. intros y Hy. by eapply rep_toks.
Qed.

(** C17: What is written is read back: the shell parses the text of every command,
    with parentheses where its precedence needs them and with any white space
    behind it, to that command, and after [nulterminate] its pointers are the
    command's strings. *)
Theorem parsecmd_show a w : wf_cmd a -> skip_white w = [] ->
  exists c b, parsecmd (show 3 a ++ w) = Ret (c, b) [] /\ denotes (length (show 3 a ++ w)) b c a.
Proof. apply parsecmd_line. Qed.

Definition demo_cmd : acmd :=
  AList (ABack (APipe (AExec [chars "ls"]) (ARedir (AExec [chars "wc"; chars "-l"]) (chars "out") true)))
        (AExec [chars "echo"; chars "hi"]).

Lemma parsecmd_show_witness : show 3 demo_cmd = chars "ls |wc -l >out &;echo hi " /\
  exists c b, parsecmd (show 3 demo_cmd ++ [10]) = Ret (c, b) [] /\ denotes (length (show 3 demo_cmd ++ [10])) b c demo_cmd.
Proof.
  split; [reflexivity|]. apply (parsecmd_show demo_cmd [10]); [|reflexivity].
  unfold demo_cmd. cbn [wf_cmd]. apply (bool_decide_unpack _). vm_compute. exact I.
Defined.
