(* ===== verification/Printf.v ===== *)
(** printf of the user library (printf.c), which writes one byte at a time to a
    descriptor, and its relation to the kernel's [cprintf] (Console.v). *)

From S2P Require Import Prelude Params KString Pipe Console.

Definition udigits : list Z := chars "0123456789ABCDEF".

(** The digits, least significant first; 16 are enough for a [uint]. *)
Fixpoint uprint_digits (fuel : nat) (x base : Z) : list Z :=
  match fuel with
  | O => []
  | S fuel =>
    udigits !!! Z.to_nat (x mod base) :: (if x / base =? 0 then [] else uprint_digits fuel (x / base) base)
  end.

(** The bytes [printint(fd, xx, base, sgn)] writes. *)
Definition uprintint (xx base : Z) (sgn : bool) : list Z :=
  let neg := sgn && (xx <? 0) in
  let x := u32 (if neg then - xx else xx) in
  reverse (uprint_digits 32 x base ++ (if neg then [45] else [])).

(** The loop over the format, in the state 0 or '%'; [None] when the arguments
    do not fit the format. *)
Fixpoint printf_loop (state : Z) (fmt : list Z) (args : list carg) : option (list Z) :=
  match fmt with
  | [] => Some []
  | c :: fmt =>
    if state =? 0 then
      if c =? 37 then printf_loop 37 fmt args else (c ::.) <$> printf_loop 0 fmt args
    else
      if c =? 100 then                                   (* %d *)
        match args with
        | AWord v :: args => (uprintint (i32 v) 10 true ++.) <$> printf_loop 0 fmt args
        | _ => None
        end
      else if (c =? 120) || (c =? 112) then              (* %x %p *)
        match args with
        | AWord v :: args => (uprintint (i32 v) 16 false ++.) <$> printf_loop 0 fmt args
        | _ => None
        end
      else if c =? 115 then                              (* %s *)
        match args with
        | AStr s :: args => (default (chars "(null)") s ++.) <$> printf_loop 0 fmt args
        | _ => None
        end
      else if c =? 99 then                               (* %c *)
        match args with
        | AWord v :: args => (u8 v ::.) <$> printf_loop 0 fmt args
        | _ => None
        end
      else if c =? 37 then (37 ::.) <$> printf_loop 0 fmt args
      else (fun l => 37 :: c :: l) <$> printf_loop 0 fmt args
  end.
Definition printf (fmt : list Z) (args : list carg) : option (list Z) := printf_loop 0 fmt args.

(** ** printf and cprintf *)

Definition lower (c : Z) : Z := if (65 <=? c) && (c <=? 90) then c + 32 else c.

Definition lowers (l : list Z) : list Z := lower <$> l.

(** No [%c], which only [printf] has. *)
Fixpoint no_percent_c (fmt : list Z) : bool :=
  match fmt with
  | [] => true
  | c :: fmt => if c =? 37 then match fmt with [] => true | d :: fmt => negb (d =? 99) && no_percent_c fmt end else no_percent_c fmt
  end.

Lemma udigit_lower x base : 0 < base <= 16 -> lower (udigits !!! Z.to_nat (x mod base)) = lower (digits !!! Z.to_nat (x mod base)).
Proof.
  intros Hb. pose proof (Z.mod_pos_bound x base ltac:(lia)).
  assert (HF : Forall (fun k => lower (udigits !!! Z.to_nat k) = lower (digits !!! Z.to_nat k)) (seqZ 0 16)) by (repeat constructor).
  rewrite Forall_forall in HF. apply HF, elem_of_seqZ. lia.
Qed.

Lemma uprint_digits_lower fuel : forall x base, 0 < base <= 16 -> lowers (uprint_digits fuel x base) = lowers (print_digits fuel x base).
Proof.
  induction fuel as [|fuel IH]; intros x base Hb; [done|]. cbn [uprint_digits print_digits]. unfold lowers. rewrite !fmap_cons. f_equal; [by apply udigit_lower|].
  destruct (x / base =? 0); [done|by apply IH].
Qed.
Lemma uprintint_lower xx base sgn : 0 < base <= 16 -> lowers (uprintint xx base sgn) = lowers (printint xx base sgn).
Proof. intros Hb. unfold uprintint, printint, lowers. rewrite !fmap_reverse, !fmap_app. fold (lowers (uprint_digits 32 (u32 (if sgn && (xx <? 0) then - xx else xx)) base)). by rewrite uprint_digits_lower. Qed.

(** Decimal numbers do not depend on the case of the digits. *)
Lemma uprint_digits_10 fuel : forall x, uprint_digits fuel x 10 = print_digits fuel x 10.
Proof.
  induction fuel as [|fuel IH]; intros x; [done|]. cbn [uprint_digits print_digits]. rewrite IH. f_equal.
  pose proof (Z.mod_pos_bound x 10 ltac:(lia)).
  assert (HF : Forall (fun k => udigits !!! Z.to_nat k = digits !!! Z.to_nat k) (seqZ 0 10)) by (repeat constructor).
  rewrite Forall_forall in HF. apply HF, elem_of_seqZ. lia.
Qed.
Lemma uprintint_10 xx sgn : uprintint xx 10 sgn = printint xx 10 sgn.
Proof. unfold uprintint, printint. by rewrite uprint_digits_10. Qed.

Lemma fmap_lower_app p p' (o o' : option (list Z)) : lowers p = lowers p' -> lowers <$> o = lowers <$> o' ->
  lowers <$> ((p ++.) <$> o) = lowers <$> ((p' ++.) <$> o').
Proof. intros Hp Ho. destruct o as [l|], o' as [l'|]; try done. injection Ho as Ho. cbn. unfold lowers in *. by rewrite !fmap_app, Hp, Ho. Qed.

(** For every format without %c, and all arguments, printf and the kernel's
    cprintf print the same, up to the case of hexadecimal digits; and they
    agree on which arguments fit the format. *)
Theorem printf_cprintf fmt args : no_percent_c fmt = true -> lowers <$> printf fmt args = lowers <$> cprintf fmt args.
Proof.
  unfold printf. remember (length fmt) as n eqn:Hn. assert (Hle : (length fmt <= n)%nat) by lia. clear Hn. revert fmt args Hle.
  induction n as [|n IH]; intros [|c fmt] args Hle Hc; [done|simpl in Hle; lia|done|]. cbn [printf_loop cprintf]. change (0 =? 0) with true. cbv iota.
  simpl in Hle. destruct (Z.eqb_spec c 37) as [->|Hne].
  - change (negb (37 =? 37)) with false. cbv iota. destruct fmt as [|d fmt]; [done|]. cbn [printf_loop]. change (37 =? 0) with false. cbv iota.
    simpl in Hle. cbn [no_percent_c] in Hc. change (37 =? 37) with true in Hc. cbv iota in Hc.
    apply andb_prop in Hc as [Hd%negb_true_iff Hc]. rewrite Hd.
    assert (IH' : forall args, lowers <$> printf_loop 0 fmt args = lowers <$> cprintf fmt args) by (intros; apply IH; [lia|done]).
    destruct (d =? 100); [|destruct (_ || _); [|destruct (d =? 115); [|destruct (d =? 37)]]].
    + destruct args as [|[v|] args]; try done. apply fmap_lower_app; [by apply uprintint_lower|apply IH'].
    + destruct args as [|[v|] args]; try done. apply fmap_lower_app; [by apply uprintint_lower|apply IH'].
    + destruct args as [|[|s] args]; try done. apply fmap_lower_app; [done|apply IH'].
    + apply (fmap_lower_app [37] [37]); [done|apply IH'].
    + apply (fmap_lower_app [37; d] [37; d]); [done|apply IH'].
  - cbn [negb no_percent_c] in *. rewrite (proj2 (Z.eqb_neq c 37)) in Hc by done.
    apply (fmap_lower_app [c] [c]); [done|]. apply IH; [lia|done].
Qed.

Lemma printf_cprintf_witness : no_percent_c (chars "%d %x %s%%") = true /\
  lowers <$> printf (chars "%d %x %s%%") [AWord (-7); AWord 0xCAFE; AStr None] = Some (chars "-7 cafe (null)%").
Proof.
  split; [reflexivity|]. rewrite (printf_cprintf (chars "%d %x %s%%") [AWord (-7); AWord 0xCAFE; AStr None]) by reflexivity.
  vm_compute. reflexivity.
Defined.
