(* ===== verification/Runcmd.v ===== *)
(** The shell's main loop and [runcmd] (sh.c).

    A process is given by what it does next, as a tree: it forks, waits, writes
    to its error output, becomes another program, or exits. The descriptors
    are a table of what each refers to; [open], [dup] and [pipe] take the
    lowest free ones, as [fdalloc] does. Which files can be opened, which
    programs exist and which directories there are is a parameter; that there
    is no process or no pipe left is decided by [w_full]. [malloc] does not
    fail; the text behind "leftovers: " is not modelled.

    [spec] is what a command means: which programs run, with which standard
    input, output and error and no other descriptor, and who waits for whom. *)

From S2P Require Import Prelude Params KString Pipe Console Ulib Shell Printf.

Inductive desc :=
  | DFile (name : list Z) (mode : Z)
  | DPipe (n : nat) (write : bool).
Definition fds : Type := list (option desc).

(** The descriptors a process has are recorded where another program takes
    them over, and where the process waits with them open. *)
Inductive uproc :=
  | Exits
  | Execs (path : list Z) (argv : list (list Z)) (f : fds)
  | Prints (d : option desc) (text : list Z) (p : uproc)
  | Forks (child parent : uproc)
  | Waits (f : fds) (p : uproc)
  | Chdirs (dir : list Z) (p : uproc).

(** How many pipes there have been; which of the next calls of [fork] and
    [pipe] fail. *)
Record world := World { w_pipes : nat; w_full : list bool }.

(** A call that needs kernel memory: does it succeed? *)
Definition kernel_ok : M world bool :=
  let! l := Prelude.gets w_full in
  match l with
  | [] => ret true
  | full :: l => modify (fun w => World (w_pipes w) l);;; ret (negb full)
  end.

(** ** Descriptors *)

Definition close (fd : Z) (f : fds) : fds := if (0 <=? fd) && (fd <? Z.of_nat (length f)) then <[Z.to_nat fd := None]> f else f.
Fixpoint fd_alloc (d : desc) (f : fds) : option (nat * fds) :=
  match f with
  | [] => None
  | None :: f => Some (0%nat, Some d :: f)
  | Some x :: f => match fd_alloc d f with Some (k, f) => Some (S k, Some x :: f) | None => None end
  end.
Definition dup (fd : nat) (f : fds) : fds :=
  match f !! fd with
  | Some (Some d) => match fd_alloc d f with Some (_, f) => f | None => f end
  | _ => f
  end.
Definition upipe (f : fds) : M world (option (nat * nat * fds)) :=
  let! ok := kernel_ok in
  let! n := Prelude.gets w_pipes in
  if ok then
    match fd_alloc (DPipe n false) f with
    | Some (p0, f1) =>
      match fd_alloc (DPipe n true) f1 with
      | Some (p1, f2) => modify (fun w => World (S n) (w_full w));;; ret (Some (p0, p1, f2))
      | None => ret None
      end
    | None => ret None
    end
  else ret None.

(** What descriptor 2 refers to. *)
Definition errfd (f : fds) : option desc := default None (f !! 2%nat).
Definition nl : list Z := [10].
Definition prints (d : option desc) (fmt : list Z) (args : list carg) (p : uproc) : uproc := Prints d (default [] (printf fmt args)) p.

(** [panic] of the shell *)
Definition sh_panic (f : fds) (s : string) : uproc := prints (errfd f) (chars "%s" ++ nl) [AStr (Some (chars s))] Exits.

(** [if(fork1() == 0) child; parent] *)
Definition fork1 (f : fds) (child parent : M world uproc) : M world uproc :=
  let! ok := kernel_ok in
  if ok then let! c := child in let! p := parent in ret (Forks c p)
  else ret (sh_panic f "fork").

Section sh.
Context (opens : list Z -> Z -> bool) (programs dirs : list Z -> bool).

Definition open (name : list Z) (mode : Z) (f : fds) : option (nat * fds) :=
  if opens name mode then fd_alloc (DFile name mode) f else None.

(** [es] and [b] are the line the pointers of the command point into. *)
Fixpoint runcmd (es : nat) (b : list Z) (c : cmd) (f : fds) : M world uproc :=
  let str p := cstr (drop (es - p) b) in
  match c with
  | EXEC argv =>
    match argv with
    | [] => ret Exits
    | x :: _ =>
      if programs (str x.1) then ret (Execs (str x.1) ((fun x => str x.1) <$> argv) f)
      else ret (prints (errfd f) (chars "exec %s failed" ++ nl) [AStr (Some (str x.1))] Exits)
    end
  | REDIR c file _ mode fd =>
    let f := close fd f in
    match open (str file) mode f with
    | None => ret (prints (errfd f) (chars "open %s failed" ++ nl) [AStr (Some (str file))] Exits)
    | Some (_, f) => runcmd es b c f
    end
  | LIST l r => fork1 f (runcmd es b l f) (let! p := runcmd es b r f in ret (Waits f p))
  | PIPE l r =>
    let! o := upipe f in
    match o with
    | None => ret (sh_panic f "pipe")
    | Some (p0, p1, f) =>
      let close_both f := close (Z.of_nat p1) (close (Z.of_nat p0) f) in
      fork1 f (runcmd es b l (close_both (dup p1 (close 1 f))))
        (fork1 f (runcmd es b r (close_both (dup p0 (close 0 f))))
           (ret (Waits (close_both f) (Waits (close_both f) Exits))))
    end
  | BACK c => fork1 f (runcmd es b c f) (ret Exits)
  end.

(** [while((fd = open("console", O_RDWR)) >= 0) if(fd >= 3){ close(fd); break; }] *)
Fixpoint open_console (fuel : nat) (f : fds) : M world fds :=
  match fuel with
  | O => fail NoFuel
  | S fuel =>
    match open (chars "console") O_RDWR f with
    | None => ret f
    | Some (fd, f) => if (3 <=? fd)%nat then ret (close (Z.of_nat fd) f) else open_console fuel f
    end
  end.

(** The loop of [main]; [getcmd] prompts and reads a line into 100 bytes. The
    line is what [buf] holds as a C string. *)
Fixpoint main_loop (fuel : nat) (f : fds) (input : list Z) : M world uproc :=
  match fuel with
  | O => fail NoFuel
  | S fuel =>
    let (s, input) := Ulib.gets 100 input in
    let line := cstr s in
    let! p :=
      match line with
      | [] => ret Exits
      | _ =>
        if bool_decide (take 3 line = chars "cd ") then
          let dir := drop 3 (take (length line - 1) line) in
          let! p := main_loop fuel f input in
          ret (Chdirs dir (if dirs dir then p else prints (errfd f) (chars "cannot cd %s" ++ nl) [AStr (Some dir)] p))
        else
          fork1 f
            (match parsecmd line with
             | Ret (c, b) _ => runcmd (length line) b c f
             | Fail (Panic msg) => ret (sh_panic f msg)
             | Fail e => fail e
             end)
            (let! p := main_loop fuel f input in ret (Waits f p))
      end in
    ret (prints (errfd f) (chars "$ ") [] p)
  end.
Definition main (f : fds) (input : list Z) : M world uproc :=
  let! f := open_console 5 f in
  main_loop (S (length input)) f input.

(** ** What commands mean *)

Definition open_fds (i o e : desc) : fds := [Some i; Some o; Some e] ++ replicate 13 None.

Definition redir (file : list Z) (out : bool) : desc := DFile file (if out then Z.lor O_WRONLY O_CREATE else O_RDONLY).

Fixpoint spec (a : acmd) (i o e : desc) : M world uproc :=
  match a with
  | AExec [] => ret Exits
  | AExec (x :: args) =>
    if programs x then ret (Execs x (x :: args) (open_fds i o e))
    else ret (prints (Some e) (chars "exec %s failed" ++ nl) [AStr (Some x)] Exits)
  | ARedir a file out =>
    if opens file (if out then Z.lor O_WRONLY O_CREATE else O_RDONLY) then
      if out then spec a i (redir file out) e else spec a (redir file out) o e
    else ret (prints (Some e) (chars "open %s failed" ++ nl) [AStr (Some file)] Exits)
  | AList l r => fork1 (open_fds i o e) (spec l i o e) (let! p := spec r i o e in ret (Waits (open_fds i o e) p))
  | APipe l r =>
    let! ok := kernel_ok in
    if ok then
      let! n := Prelude.gets w_pipes in
      modify (fun w => World (S n) (w_full w));;;
      fork1 (open_fds i o e) (spec l i (DPipe n true) e)
        (fork1 (open_fds i o e) (spec r (DPipe n false) o e) (ret (Waits (open_fds i o e) (Waits (open_fds i o e) Exits))))
    else ret (sh_panic (open_fds i o e) "pipe")
  | ABack a => fork1 (open_fds i o e) (spec a i o e) (ret Exits)
  end.

(** ** runcmd refines it *)

Lemma fork1_ext f f' c c' p p' w : errfd f = errfd f' -> (forall w, c w = c' w) -> (forall w, p w = p' w) -> fork1 f c p w = fork1 f' c' p' w.
Proof.
  intros Hf Hc Hp. unfold fork1, bind, sh_panic. rewrite Hf. destruct (kernel_ok w) as [[] w1|]; [|done|done]. rewrite Hc.
  destruct (c' w1) as [x w2|]; [|done]. by rewrite Hp.
Qed.

Lemma open_slot (out : bool) file mode i o e : opens file mode = true ->
  open file mode (close (if out then 1 else 0) (open_fds i o e)) =
    Some (if out then 1%nat else 0%nat, if out then open_fds i (DFile file mode) e else open_fds (DFile file mode) o e).
Proof. intros H. unfold open. rewrite H. by destruct out. Qed.

Lemma runcmd_spec es b a : forall c i o e w, denotes es b c a -> runcmd es b c (open_fds i o e) w = spec a i o e w.
Proof.
  induction a as [args|a IH file out|l IHl r IHr|l IHl r IHr|a IH]; intros [argv|c q eq mode fd|cl cr|cl cr|c] i o e w D; simpl in D; try done.
  - subst args. destruct argv as [|x argv]; [done|]. cbn [runcmd spec fmap list_fmap]. by destruct (programs _).
  - destruct D as (D & Eq & Em). cbn [runcmd spec]. rewrite Eq.
    assert (fd = if out then 1 else 0) as -> by (destruct out; by injection Em). assert (mode = if out then Z.lor O_WRONLY O_CREATE else O_RDONLY) as -> by (destruct out; by injection Em).
    destruct (opens file _) eqn:Eo.
    + rewrite open_slot by done. destruct out; by apply IH.
    + unfold open. rewrite Eo. by destruct out.
  - destruct D as [Dl Dr]. cbn [runcmd spec]. unfold upipe, bind, Prelude.gets, modify, ret.
    destruct (kernel_ok w) as [[] w1|]; [|done|done]. apply fork1_ext; [done|intros; by apply IHl|].
    intros w2. apply fork1_ext; [done|intros; by apply IHr|done].
  - destruct D as [Dl Dr]. cbn [runcmd spec]. apply fork1_ext; [done|intros; by apply IHl|]. intros w2. unfold bind. by rewrite IHr.
  - cbn [runcmd spec]. apply fork1_ext; [done|intros; by apply IH|done].
Qed.

(** ** The main loop *)

Inductive sline := LCmd (a : acmd) | LCd (dir : list Z).
Definition text (l : sline) : list Z :=
  match l with LCmd a => show 3 a ++ [10] | LCd dir => chars "cd " ++ dir ++ [10] end.
(** The line fits the buffer; a command does not look like a cd. *)
Definition line_ok (l : sline) : Prop :=
  (length (text l) < 100)%nat /\
  match l with
  | LCmd a => wf_cmd a /\ take 3 (text l) <> chars "cd "
  | LCd dir => Forall (fun c => c <> 0 /\ c <> 10 /\ c <> 13) dir
  end.

Fixpoint session (ls : list sline) (i o e : desc) : M world uproc :=
  let f := open_fds i o e in
  let! p :=
    match ls with
    | [] => ret Exits
    | LCmd a :: ls => fork1 f (spec a i o e) (let! p := session ls i o e in ret (Waits f p))
    | LCd dir :: ls =>
      let! p := session ls i o e in
      ret (Chdirs dir (if dirs dir then p else prints (Some e) (chars "cannot cd %s" ++ nl) [AStr (Some dir)] p))
    end in
  ret (prints (Some e) (chars "$ ") [] p).

Definition plain (c : Z) : Prop := c <> 0 /\ c <> 10 /\ c <> 13.

Lemma plain_word w : is_word w -> Forall plain w.
Proof.
  intros [_ H]. eapply Forall_impl; [exact H|]. intros c (H0 & H1 & _). split_and!; [done| |]; intros ->; done.
Qed.
Lemma plain_args args : Forall is_word args -> Forall plain (show_args args).
Proof.
  induction 1 as [|w args Hw H IH]; [by constructor|]. unfold show_args. cbn [fmap list_fmap concat]. apply Forall_app. split; [|exact IH].
  apply Forall_app. split; [by apply plain_word|by repeat constructor].
Qed.
Lemma plain_show a : forall lvl, wf_cmd a -> Forall plain (show lvl a).
Proof.
  assert (Hp : forall s, Forall plain s -> Forall plain (40 :: s ++ [41])).
  { intros s Hs. constructor; [by repeat split|]. apply Forall_app. split; [done|by repeat constructor]. }
  induction a as [args|a IH file out|l IHl r IHr|l IHl r IHr|a IH]; intros lvl Hwf; rewrite show_level; simpl in Hwf.
  - assert (Forall plain (show 3 (AExec args))) by (apply plain_args, Hwf). destruct (_ <=? _)%nat; [done|by apply Hp].
  - assert (Forall plain (show 3 (ARedir a file out))).
    { change (Forall plain (show 0 a ++ show_redir file out)). apply Forall_app. split; [apply IH, Hwf|]. constructor; [by destruct out; repeat split|].
      apply Forall_app. split; [apply plain_word, Hwf|by repeat constructor]. }
    destruct (_ <=? _)%nat; [done|by apply Hp].
  - assert (Forall plain (show 3 (APipe l r))).
    { change (Forall plain (show 0 l ++ 124 :: show 1 r)). apply Forall_app. split; [apply IHl, Hwf|]. constructor; [by repeat split|apply IHr, Hwf]. }
    destruct (_ <=? _)%nat; [done|by apply Hp].
  - assert (Forall plain (show 3 (AList l r))).
    { change (Forall plain (show 2 l ++ 59 :: show 3 r)). apply Forall_app. split; [apply IHl, Hwf|]. constructor; [by repeat split|apply IHr, Hwf]. }
    destruct (_ <=? _)%nat; [done|by apply Hp].
  - assert (Forall plain (show 3 (ABack a))).
    { change (Forall plain (show 2 a ++ [38])). apply Forall_app. split; [by apply IH|by repeat constructor]. }
    destruct (_ <=? _)%nat; [done|by apply Hp].
Qed.

Lemma gets_line t : forall room rest, Forall plain t -> (length t < room)%nat -> gets_loop room (t ++ 10 :: rest) = (t ++ [10], rest).
Proof.
  induction t as [|c t IH]; intros [|room] rest Hp Hr; try (simpl in Hr; lia); [done|]. apply Forall_cons in Hp as [(_ & H1 & H2) Hp].
  cbn [gets_loop app]. rewrite (proj2 (Z.eqb_neq c 10)), (proj2 (Z.eqb_neq c 13)) by done. cbn [orb]. rewrite IH by (done || simpl in Hr; lia). done.
Qed.
Lemma cstr_plain t : Forall plain t -> cstr (t ++ [10]) = t ++ [10].
Proof. induction 1 as [|c t (H0 & _) H IH]; [done|]. cbn [app cstr]. rewrite (proj2 (Z.eqb_neq c 0)) by done. by rewrite IH. Qed.

Lemma text_line l rest : line_ok l -> Ulib.gets 100 (text l ++ rest) = (text l, rest) /\ cstr (text l) = text l /\ text l <> [].
Proof.
  intros [Hl Hk]. assert (exists t, text l = t ++ [10] /\ Forall plain t) as (t & E & Hp).
  { destruct l as [a|dir]; [exists (show 3 a)|exists (chars "cd " ++ dir)]; (split; [by cbn [text]; rewrite ?app_assoc|]).
    - apply plain_show, Hk.
    - apply Forall_app. split; [by repeat constructor|exact Hk]. }
  rewrite E in *. rewrite length_app in Hl. cbn [length] in Hl. split_and!; [|by apply cstr_plain|by destruct t].
  unfold Ulib.gets. rewrite <- app_assoc. cbn [app]. apply gets_line; [done|]. change (Z.to_nat (100 - 1)) with 99%nat. lia.
Qed.

Lemma open_console_ready w i o e : open_console 5 (open_fds i o e) w = Ret (open_fds i o e) w.
Proof. cbn [open_console]. unfold open. by destruct (opens _ _). Qed.

Lemma main_loop_session ls : forall fuel i o e w, Forall line_ok ls -> (length (concat (text <$> ls)) < fuel)%nat ->
  main_loop fuel (open_fds i o e) (concat (text <$> ls)) w = session ls i o e w.
Proof.
  induction ls as [|l ls IH]; intros [|fuel] i o e w Hok Hf; try lia; [done|]. apply Forall_cons in Hok as [Hl Hok].
  rewrite fmap_cons in Hf |- *. cbn [concat] in Hf |- *. rewrite length_app in Hf. cbn [main_loop].
  destruct (text_line l (concat (text <$> ls)) Hl) as (Eg & Ec & Hne). rewrite Eg, Ec.
  assert (Hlt : (length (concat (text <$> ls)) < fuel)%nat) by (destruct (text l); [done|simpl in Hf; lia]).
  assert (IH' : forall w, main_loop fuel (open_fds i o e) (concat (text <$> ls)) w = session ls i o e w) by (intros; by apply IH).
  destruct Hl as [Hlen Hl]. destruct (text l) as [|c0 t0] eqn:Et; [done|]. rewrite <- Et in *. clear c0 t0 Et Hne. destruct l as [a|dir].
  - destruct Hl as [Hwf Hcd]. rewrite bool_decide_eq_false_2 by done. cbn [session]. unfold bind at 1 3.
    assert (E : forall w, (match parsecmd (text (LCmd a)) with
      | Ret (c, b) _ => runcmd (length (text (LCmd a))) b c (open_fds i o e)
      | Fail (Panic msg) => ret (sh_panic (open_fds i o e) msg)
      | Fail e => fail e end) w = spec a i o e w).
    { intros w'. destruct (parsecmd_line a [10] Hwf eq_refl) as (c & b & Ep & D). cbn [text]. rewrite Ep. by apply runcmd_spec. }
    rewrite (fork1_ext _ (open_fds i o e) _ (spec a i o e) _ (let! p := session ls i o e in ret (Waits (open_fds i o e) p)));
      [done|done|exact E|]. intros w'. unfold bind. by rewrite IH'.
  - cbn [text]. rewrite bool_decide_eq_true_2 by done. cbn [session]. unfold bind at 1 2 4. rewrite IH'. unfold bind.
    destruct (session ls i o e w) as [p w'|]; [|done]. cbn [ret].
    replace (drop 3 (take _ _)) with dir; [done|]. rewrite !length_app. cbn [length].
    rewrite app_assoc, take_app_length' by (rewrite length_app; simpl; lia). done.
Qed.

(** Nothing in the meaning of a session fails: there is always a next step. *)
Lemma kernel_ok_returns w : exists ok w', kernel_ok w = Ret ok w'.
Proof. unfold kernel_ok, bind, Prelude.gets, modify, ret. destruct (w_full w); eauto. Qed.
Lemma fork1_returns f c p w : (forall w, exists x w', c w = Ret x w') -> (forall w, exists x w', p w = Ret x w') ->
  exists x w', fork1 f c p w = Ret x w'.
Proof.
  intros Hc Hp. unfold fork1, bind. destruct (kernel_ok_returns w) as (ok & w1 & ->). destruct ok; [|eexists _, _; reflexivity].
  destruct (Hc w1) as (x & w2 & ->). destruct (Hp w2) as (y & w3 & ->). eexists _, _. reflexivity.
Qed.
Lemma spec_returns a : forall i o e w, exists x w', spec a i o e w = Ret x w'.
Proof.
  induction a as [args|a IH file out|l IHl r IHr|l IHl r IHr|a IH]; intros i o e w; cbn [spec].
  - destruct args as [|x args]; [|destruct (programs x)]; eexists _, _; reflexivity.
  - destruct (opens _ _); [destruct out; apply IH|eexists _, _; reflexivity].
  - unfold bind at 1. destruct (kernel_ok_returns w) as (ok & w1 & ->). destruct ok; [|eexists _, _; reflexivity].
    unfold bind, Prelude.gets, modify. apply fork1_returns; [intros; apply IHl|]. intros w2. apply fork1_returns; [intros; apply IHr|].
    intros w3. eexists _, _. reflexivity.
  - apply fork1_returns; [intros; apply IHl|]. intros w2. unfold bind. destruct (IHr i o e w2) as (x & w3 & ->). eexists _, _. reflexivity.
  - apply fork1_returns; [intros; apply IH|]. intros w2. eexists _, _. reflexivity.
Qed.
Lemma session_returns ls : forall i o e w, exists x w', session ls i o e w = Ret x w'.
Proof.
  induction ls as [|[a|dir] ls IH]; intros i o e w; cbn [session]; [eexists _, _; reflexivity| |].
  - unfold bind at 1. destruct (fork1_returns (open_fds i o e) (spec a i o e) (let! p := session ls i o e in ret (Waits (open_fds i o e) p)) w)
      as (x & w1 & ->); [intros; apply spec_returns| |eexists _, _; reflexivity].
    intros w1. unfold bind. destruct (IH i o e w1) as (x & w2 & ->). eexists _, _. reflexivity.
  - unfold bind. destruct (IH i o e w) as (x & w2 & ->). eexists _, _. reflexivity.
Qed.

End sh.

Definition console : desc := DFile (chars "console") O_RDWR.
Definition demo_session : list sline :=
  [LCd (chars "src"); LCmd (APipe (AExec [chars "ls"]) (ARedir (AExec [chars "wc"; chars "-l"]) (chars "out") true))].

