(* ===== verification/Uprogs.v ===== *)
(** User programs that copy, count and list: cat.c, wc.c, echo.c and ls.c.

    What a program reads is the list of pieces its [read] calls deliver, and
    whether the last call fails; what it writes is a list of bytes. The files
    that can be opened are a parameter. Printing is [printf] (Printf.v). *)

From S2P Require Import Prelude Params KString Pipe Console Ulib Shell Printf.

Record stream := Stream { sm_reads : list (list Z); sm_error : bool }.

Definition out (fmt : list Z) (args : list carg) : list Z := default [] (printf fmt args).

(** ** wc *)

Record counts := Counts { n_l : Z; n_w : Z; n_c : Z; n_inword : bool }.

Definition blanks : list Z := [32; 13; 9; 10; 11].
Definition wc_char (s : counts) (b : Z) : counts :=
  let c := n_c s + 1 in
  let l := if b =? 10 then n_l s + 1 else n_l s in
  if found blanks b then Counts l (n_w s) c false
  else if negb (n_inword s) then Counts l (n_w s + 1) c true
  else Counts l (n_w s) c true.

(** What [wc(fd, name)] prints, and whether it has exited. *)
Definition wc (f : stream) (name : list Z) : list Z * bool :=
  let s := foldl (foldl wc_char) (Counts 0 0 0 false) (sm_reads f) in
  if sm_error f then (out (chars "wc: read error" ++ [10]) [], true)
  else (out (chars "%d %d %d %s" ++ [10]) [AWord (n_l s); AWord (n_w s); AWord (n_c s); AStr (Some name)], false).

(** The loop of the mains of wc and cat over the arguments. *)
Fixpoint each_file (opens : list Z -> option stream) (cannot : list Z) (work : stream -> list Z -> list Z * bool)
    (args : list (list Z)) : list Z :=
  match args with
  | [] => []
  | a :: args =>
    match opens a with
    | None => out cannot [AStr (Some a)]
    | Some f => let (o, exited) := work f a in if exited then o else o ++ each_file opens cannot work args
    end
  end.

Definition wc_main (opens : list Z -> option stream) (stdin : stream) (args : list (list Z)) : list Z :=
  match args with
  | [] => (wc stdin []).1
  | _ => each_file opens (chars "wc: cannot open %s" ++ [10]) wc args
  end.

(** ** cat *)

(** [writes buf] is what [write(1, buf, n)] returns; at most that many bytes
    are written. *)
Fixpoint cat_loop (writes : list Z -> Z) (reads : list (list Z)) : list Z * bool :=
  match reads with
  | [] => ([], false)
  | buf :: reads =>
    let n := writes buf in
    let done := take (Z.to_nat n) buf in
    if negb (n =? Z.of_nat (length buf)) then (done ++ out (chars "cat: write error" ++ [10]) [], true)
    else let (o, exited) := cat_loop writes reads in (done ++ o, exited)
  end.
Definition cat (writes : list Z -> Z) (f : stream) : list Z * bool :=
  let (o, exited) := cat_loop writes (sm_reads f) in
  if exited then (o, true)
  else if sm_error f then (o ++ out (chars "cat: read error" ++ [10]) [], true)
  else (o, false).
Definition cat_main (writes : list Z -> Z) (opens : list Z -> option stream) (stdin : stream) (args : list (list Z)) : list Z :=
  match args with
  | [] => (cat writes stdin).1
  | _ => each_file opens (chars "cat: cannot open %s" ++ [10]) (fun f _ => cat writes f) args
  end.

(** ** echo *)

Fixpoint echo_main (args : list (list Z)) : list Z :=
  match args with
  | [] => []
  | a :: args => out (chars "%s%s") [AStr (Some a); AStr (Some (if args is [] then [10] else [32]))] ++ echo_main args
  end.

(** ** ls *)

Record ustat := UStat { us_type : Z; us_ino : Z; us_size : Z }.

(** The part of the path behind its last slash. *)
Fixpoint last_elem (path p : list Z) : list Z :=
  match path with
  | [] => p
  | c :: path => last_elem path (if c =? 47 then path else p)
  end.
Definition fmtname (path : list Z) : list Z :=
  let p := last_elem path path in
  if (DIRSIZ <=? length p)%nat then p else p ++ replicate (DIRSIZ - length p) 32.

Definition ls_line (path : list Z) (st : ustat) : list Z :=
  out (chars "%s %d %d %d" ++ [10]) [AStr (Some (fmtname path)); AWord (us_type st); AWord (us_ino st); AWord (us_size st)].

(** The loop over the directory; [stat] is the function of ulib.c. *)
Fixpoint ls_dir (stat : list Z -> option ustat) (path : list Z) (entries : list (Z * list Z)) : list Z :=
  match entries with
  | [] => []
  | (inum, name) :: entries =>
    (if inum =? 0 then []
     else
       let buf := path ++ [47] ++ cstrn DIRSIZ name in
       match stat buf with
       | None => out (chars "ls: cannot stat %s" ++ [10]) [AStr (Some buf)]
       | Some st => ls_line buf st
       end) ++ ls_dir stat path entries
  end.

(** What ls writes to descriptor 1 and to descriptor 2. [opens] gives what
    [fstat] says of the opened file, and the entries [read] delivers. *)
Definition ls (opens : list Z -> option (option ustat * list (Z * list Z))) (stat : list Z -> option ustat) (path : list Z) : list Z * list Z :=
  match opens path with
  | None => ([], out (chars "ls: cannot open %s" ++ [10]) [AStr (Some path)])
  | Some (None, _) => ([], out (chars "ls: cannot stat %s" ++ [10]) [AStr (Some path)])
  | Some (Some st, entries) =>
    if us_type st =? T_FILE then (ls_line path st, [])
    else if us_type st =? T_DIR then
      if 512 <? Z.of_nat (length path) + 1 + Z.of_nat DIRSIZ + 1 then (out (chars "ls: path too long" ++ [10]) [], [])
      else (ls_dir stat path entries, [])
    else ([], [])
  end.

(** ** What they do *)

(** The text cut at every blank, and its words. *)
Fixpoint pieces (c : list Z) : list (list Z) :=
  match c with
  | [] => [[]]
  | x :: c => if found blanks x then [] :: pieces c
              else match pieces c with p :: ps => (x :: p) :: ps | [] => [[x]] end
  end.
Definition words (c : list Z) : list (list Z) := filter (fun p => p <> []) (pieces c).
Definition newlines (c : list Z) : Z := Z.of_nat (length (filter (fun x => x = 10) c)).
Definition dec (x : Z) : list Z := printint x 10 true.

Lemma pieces_cons c : exists p ps, pieces c = p :: ps.
Proof. induction c as [|x c (p & ps & E)]; cbn; [eauto|]. destruct (found blanks x); [eauto|]. rewrite E. eauto. Qed.

(** The number of words from a place on, inside a word or not. *)
Definition words_from (inword : bool) (c : list Z) : Z :=
  Z.of_nat (length (words c)) - match pieces c with (_ :: _) :: _ => if inword then 1 else 0 | _ => 0 end.

Lemma words_from_cons b x c :
  words_from b (x :: c) = (if found blanks x then words_from false c else (if b then 0 else 1) + words_from true c).
Proof.
  unfold words_from, words. cbn [pieces]. destruct (found blanks x).
  - rewrite filter_cons, decide_False by (intros H; by apply H). destruct (pieces c) as [|[|? ?] ?]; lia.
  - destruct (pieces_cons c) as (p & ps & ->). rewrite filter_cons, decide_True by done. destruct p as [|y p].
    + rewrite (filter_cons _ []), decide_False by (intros H; by apply H). cbn [length]. destruct b; lia.
    + rewrite (filter_cons _ (y :: p)), decide_True by done. cbn [length]. destruct b; lia.
Qed.

Lemma wc_fold c : forall s, foldl wc_char s c =
  Counts (n_l s + newlines c) (n_w s + words_from (n_inword s) c) (n_c s + Z.of_nat (length c)) (n_inword (foldl wc_char s c)).
Proof.
  induction c as [|x c IH]; intros [l w n b]; [cbn; by rewrite !Z.add_0_r|]. cbn [foldl]. rewrite IH at 1. rewrite words_from_cons.
  assert (E : newlines (x :: c) = (if x =? 10 then 1 else 0) + newlines c).
  { unfold newlines. rewrite filter_cons. destruct (Z.eqb_spec x 10); [rewrite decide_True by done; cbn [length]; lia|by rewrite decide_False by done]. }
  rewrite E. unfold wc_char at 1 2 3 4 5. cbn [n_l n_w n_c n_inword length].
  destruct (x =? 10), (found blanks x), b; cbn [n_l n_w n_c n_inword negb]; f_equal; lia.
Qed.

Lemma foldl_concat {A B} (f : B -> A -> B) (l : list (list A)) : forall s, foldl (foldl f) s l = foldl f s (concat l).
Proof. induction l as [|x l IH]; intros s; [done|]. cbn [foldl concat]. by rewrite IH, foldl_app. Qed.

Lemma words_le c : 0 <= words_from false c <= Z.of_nat (length c).
Proof.
  enough (forall b, 0 <= words_from b c <= Z.of_nat (length c)) by done. induction c as [|x c IH]; intros b; [destruct b; vm_compute; split; discriminate|].
  rewrite words_from_cons. cbn [length]. pose proof (IH true). pose proof (IH false). destruct (found blanks x), b; lia.
Qed.
Lemma newlines_le c : 0 <= newlines c <= Z.of_nat (length c).
Proof. unfold newlines. pose proof (length_filter (fun x => x = 10) c). lia. Qed.

Lemma printf_dec v fmt args : printf_loop 0 (37 :: 100 :: fmt) (AWord v :: args) = (uprintint (i32 v) 10 true ++.) <$> printf_loop 0 fmt args.
Proof. reflexivity. Qed.
Lemma printf_str t fmt args : printf_loop 0 (37 :: 115 :: fmt) (AStr (Some t) :: args) = (t ++.) <$> printf_loop 0 fmt args.
Proof. reflexivity. Qed.
Lemma printf_chr c fmt args : c <> 37 -> printf_loop 0 (c :: fmt) args = (c ::.) <$> printf_loop 0 fmt args.
Proof. intros H. cbn [printf_loop]. change (0 =? 0) with true. cbv iota. by rewrite (proj2 (Z.eqb_neq c 37)). Qed.

Lemma wc_format l w c name : out (chars "%d %d %d %s" ++ [10]) [AWord l; AWord w; AWord c; AStr (Some name)] =
  dec (i32 l) ++ 32 :: dec (i32 w) ++ 32 :: dec (i32 c) ++ 32 :: name ++ [10].
Proof.
  unfold out, printf. change (chars "%d %d %d %s" ++ [10]) with [37; 100; 32; 37; 100; 32; 37; 100; 32; 37; 115; 10].
  rewrite printf_dec, printf_chr, printf_dec, printf_chr, printf_dec, printf_chr, printf_str, printf_chr, !uprintint_10 by done. reflexivity.
Qed.

(** wc counts lines, words and bytes, however the text falls on the reads, and
    prints them in decimal with the name. *)
Theorem wc_prints_counts f name : sm_error f = false -> let c := concat (sm_reads f) in Z.of_nat (length c) < 2147483648 ->
  wc f name = (dec (newlines c) ++ 32 :: dec (Z.of_nat (length (words c))) ++ 32 :: dec (Z.of_nat (length c)) ++ 32 :: name ++ [10], false).
Proof.
  intros He c Hc. unfold wc. rewrite He, foldl_concat. fold c. rewrite wc_fold. cbn [n_l n_w n_c n_inword].
  pose proof (words_le c). pose proof (newlines_le c). assert (Ew : words_from false c = Z.of_nat (length (words c))).
  { unfold words_from. destruct (pieces c) as [|[|? ?] ?]; lia. }
  rewrite !Z.add_0_l, Ew in *. by rewrite wc_format, !i32_small by lia.
Qed.

(** The numbers wc prints can be read back. *)
Lemma dec_atoi x : 0 <= x < 2147483648 -> atoi (dec x ++ [0]) = Some x.
Proof. apply printint_atoi. Qed.

Lemma wc_prints_counts_witness : wc (Stream [chars "one tw"; chars "o" ++ [10] ++ chars " three"] false) (chars "f") = (chars "1 3 14 f" ++ [10], false).
Proof. rewrite (wc_prints_counts (Stream [chars "one tw"; chars "o" ++ [10] ++ chars " three"] false) (chars "f")); vm_compute; reflexivity. Defined.

Lemma cat_loop_copies writes reads : (forall b, writes b = Z.of_nat (length b)) -> cat_loop writes reads = (concat reads, false).
Proof.
  intros Hw. induction reads as [|b reads IH]; [done|]. cbn [cat_loop concat]. rewrite Hw, IH. rewrite (proj2 (Z.eqb_eq _ _)) by done.
  cbn [negb]. by rewrite Nat2Z.id, take_ge.
Qed.

(** cat of files that can be opened and read writes their contents, one after
    the other, if every write is complete. *)
Theorem cat_concatenates writes opens stdin args cs : (forall b, writes b = Z.of_nat (length b)) -> args <> [] ->
  Forall2 (fun a c => exists rs, opens a = Some (Stream rs false) /\ concat rs = c) args cs ->
  cat_main writes opens stdin args = concat cs.
Proof.
  intros Hw Hne HF. unfold cat_main. destruct args as [|a0 args0] eqn:E; [done|]. rewrite <- E in *. clear Hne E a0 args0.
  induction HF as [|a c args cs (rs & Ho & Hc) HF IH]; [done|]. cbn [each_file concat]. rewrite Ho.
  assert (cat writes (Stream rs false) = (c, false)) as -> by (unfold cat; cbn [sm_reads sm_error]; by rewrite cat_loop_copies, Hc). by rewrite IH.
Qed.

Lemma cat_concatenates_witness :
  cat_main (fun b => Z.of_nat (length b)) (fun _ => Some (Stream [chars "ab"; chars "c"] false)) (Stream [] false) [chars "x"; chars "y"] = chars "abcabc".
Proof.
  apply (cat_concatenates (fun b => Z.of_nat (length b)) (fun _ => Some (Stream [chars "ab"; chars "c"] false)) (Stream [] false)
    [chars "x"; chars "y"] [chars "abc"; chars "abc"]); [reflexivity|discriminate|].
  repeat constructor; (exists [chars "ab"; chars "c"]); split; reflexivity.
Defined.

(** *** ls *)

Definition no_slash (n : list Z) : Prop := Forall (fun c => c <> 47) n.

Lemma last_elem_none n : no_slash n -> forall p, last_elem n p = p.
Proof. induction 1 as [|c n Hc Hn IH]; intros p; [done|]. cbn [last_elem]. rewrite (proj2 (Z.eqb_neq c 47)) by done. apply IH. Qed.
Lemma last_elem_app path n : no_slash n -> forall p, last_elem (path ++ 47 :: n) p = n.
Proof. intros Hn. induction path as [|c path IH]; intros p; [by apply (last_elem_none n)|]. apply IH. Qed.

Definition padded (n : list Z) : list Z := n ++ replicate (DIRSIZ - length n) 32.
Lemma fmtname_padded path n : no_slash n -> fmtname (path ++ 47 :: n) = padded n.
Proof.
  intros Hn. unfold fmtname, padded. rewrite last_elem_app by done. destruct (Nat.leb_spec DIRSIZ (length n)); [|done].
  replace (DIRSIZ - length n)%nat with 0%nat by lia. by rewrite app_nil_r.
Qed.

(** ls of a directory prints a line for every entry in use, in order: the
    name, blank-padded to [DIRSIZ] characters, and the type, number and size of
    the file the name leads to. *)
Theorem ls_lists_directory opens stat path st entries :
  opens path = Some (Some st, entries) -> us_type st = T_DIR -> Z.of_nat (length path) <= 496 ->
  Forall (fun e => no_slash (cstrn DIRSIZ e.2) /\ (e.1 <> 0 -> is_Some (stat (path ++ 47 :: cstrn DIRSIZ e.2)))) entries ->
  ls opens stat path = (concat ((fun e => match stat (path ++ 47 :: cstrn DIRSIZ e.2) with
    | Some st => out (chars "%s %d %d %d" ++ [10]) [AStr (Some (padded (cstrn DIRSIZ e.2))); AWord (us_type st); AWord (us_ino st); AWord (us_size st)]
    | None => []
    end) <$> filter (fun e => e.1 <> 0) entries), []).
Proof.
  intros Ho Ht Hp HF. unfold ls. rewrite Ho, Ht. change (T_DIR =? T_FILE) with false. change (T_DIR =? T_DIR) with true. cbv iota.
  change (Z.of_nat DIRSIZ) with 14. rewrite (proj2 (Z.ltb_ge _ _)) by lia. f_equal. clear Ho.
  induction HF as [|[inum name] es [Hn Hs] HF IH]; [done|]. cbn [ls_dir fst snd] in *. rewrite filter_cons. destruct (Z.eqb_spec inum 0) as [->|Hi].
  - rewrite decide_False by (intros H; by apply H). apply IH.
  - rewrite decide_True by done. rewrite fmap_cons. cbn [concat fst snd]. rewrite IH. f_equal.
    destruct (Hs Hi) as [st' E]. cbn [app]. rewrite E. unfold ls_line. by rewrite fmtname_padded.
Qed.

Lemma ls_lists_directory_witness :
  ls (fun _ => Some (Some (UStat T_DIR 1 512), [(1, chars "." ++ [0]); (0, chars "gone" ++ [0]); (2, chars "README" ++ [0])]))
     (fun p => Some (UStat T_FILE (Z.of_nat (length p)) 10)) (chars ".") =
  (chars ".              2 3 10" ++ [10] ++ chars "README         2 8 10" ++ [10], []).
Proof.
  rewrite (ls_lists_directory (fun _ => Some (Some (UStat T_DIR 1 512), [(1, chars "." ++ [0]); (0, chars "gone" ++ [0]); (2, chars "README" ++ [0])]))
     (fun p => Some (UStat T_FILE (Z.of_nat (length p)) 10)) (chars ".") (UStat T_DIR 1 512)
     [(1, chars "." ++ [0]); (0, chars "gone" ++ [0]); (2, chars "README" ++ [0])]); [vm_compute; reflexivity|reflexivity|reflexivity|vm_compute; discriminate|].
  repeat constructor; try (vm_compute; discriminate); intros _; eexists; reflexivity.
Defined.
