(* ===== verification/Grep.v ===== *)
(** The pattern matcher and the line loop of grep (grep.c).

    Patterns and lines are C strings, as lists of bytes that end with the NUL;
    [None] is a read outside the string. *)

From S2P Require Import Prelude KString Ulib.

(** [matchstar]; [here] is [matchhere] of the rest of the pattern. *)
Fixpoint matchstar (here : list Z -> option bool) (c : Z) (text : list Z) : option bool :=
  match here text with
  | Some false =>
    match text with
    | [] => None
    | t :: text => if negb (t =? 0) && ((t =? c) || (c =? 46)) then matchstar here c text else Some false
    end
  | r => r
  end.

Fixpoint matchhere (re text : list Z) : option bool :=
  match re with
  | [] => None
  | r0 :: re1 =>
    if r0 =? 0 then Some true
    else match re1 with
         | [] => None
         | r1 :: re2 =>
           if r1 =? 42 then matchstar (matchhere re2) r0 text
           else match text with
                | [] => None
                | t :: text1 =>
                  if (r0 =? 36) && (r1 =? 0) then Some (t =? 0)
                  else if negb (t =? 0) && ((r0 =? 46) || (r0 =? t)) then matchhere re1 text1
                  else Some false
                end
         end
  end.

(** [do { if(matchhere(re, text)) return 1; } while( *text++ != 0);] *)
Fixpoint match_any (re text : list Z) : option bool :=
  match matchhere re text with
  | Some false =>
    match text with
    | [] => None
    | t :: text => if negb (t =? 0) then match_any re text else Some false
    end
  | r => r
  end.

(** [match(re, text)] *)
Definition grep_match (re text : list Z) : option bool :=
  match re with
  | [] => None
  | r0 :: re1 => if r0 =? 94 then matchhere re1 text else match_any re text
  end.

(** The inner loop from [p] on, where [p] is the buffer up to [m]: what it
    writes, and [p] at its end. [*q = 0] ends the line for [match]. *)
Fixpoint grep_lines (fuel : nat) (re p : list Z) : option (list Z * list Z) :=
  match fuel with
  | O => None
  | S fuel =>
    match strchr (cstr p) 10 with
    | None => Some ([], p)
    | Some q =>
      let n := (length (cstr p) - length q)%nat in
      match grep_match re (take n p ++ [0]), grep_lines fuel re (drop (n + 1) p) with
      | Some b, Some (out, p') => Some ((if b then take (n + 1) p else []) ++ out, p')
      | _, _ => None
      end
    end
  end.

(** [sizeof(buf)-1] *)
Definition BUF : nat := 1023.

(** The loop of [grep(pattern, fd)] with [m] bytes [pending] in the buffer and
    [file] still to be read; the result is what it writes. A read gives all the
    room asked for while the file lasts, unless [short] has a smaller count for
    it (a pipe or the console). *)
Fixpoint grep_loop (fuel : nat) (re : list Z) (short : list nat) (file pending : list Z) : option (list Z) :=
  match fuel with
  | O => None
  | S fuel =>
    let room := (BUF - length pending)%nat in
    let n := match short with [] => room | k :: _ => (room `min` k)%nat end in
    match take n file with
    | [] => Some []
    | d =>
      let buf := pending ++ d in
      match grep_lines (S (length buf)) re buf with
      | None => None
      | Some (out, p) =>
        let pending := if (length p =? length buf)%nat then [] else p in
        match grep_loop fuel re (tail short) (drop n file) pending with
        | Some rest => Some (out ++ rest)
        | None => None
        end
      end
    end
  end.
Definition grep (re : list Z) (short : list nat) (file : list Z) : option (list Z) :=
  grep_loop (S (length file)) re short file [].

(** ** The language of a pattern *)

Inductive atom := Chr (c : Z) | Star (c : Z) | End.

(** [c*], a final [$], or a character; [.] is any character. *)
Fixpoint atoms (re : list Z) : list atom :=
  match re with
  | [] => []
  | r0 :: re1 =>
    match re1 with
    | [] => if r0 =? 36 then [End] else [Chr r0]
    | r1 :: re2 => if r1 =? 42 then Star r0 :: atoms re2 else Chr r0 :: atoms re1
    end
  end.

Definition accepts (c x : Z) : Prop := c = 46 \/ c = x.

(** [w] matches the atoms, and [rest] is the line behind it. *)
Fixpoint lang (l : list atom) (w rest : list Z) : Prop :=
  match l with
  | [] => w = []
  | Chr c :: l => exists x w', w = x :: w' /\ accepts c x /\ lang l w' rest
  | Star c :: l => exists u w', w = u ++ w' /\ Forall (accepts c) u /\ lang l w' rest
  | End :: l => w = [] /\ rest = [] /\ lang l w rest
  end.

Definition lang_here (l : list atom) (text : list Z) : Prop := exists w rest, text = w ++ rest /\ lang l w rest.

(** A pattern that starts with [^] matches at the start, any other somewhere. *)
Definition lang_match (re text : list Z) : Prop :=
  match re with
  | 94 :: re => lang_here (atoms re) text
  | _ => exists u text', text = u ++ text' /\ lang_here (atoms re) text'
  end.

Lemma lang_here_star c l text : lang_here (Star c :: l) text <->
  lang_here l text \/ exists x text', text = x :: text' /\ accepts c x /\ lang_here (Star c :: l) text'.
Proof.
  split.
  - intros (w & rest & -> & u & w' & -> & Hu & H). destruct u as [|x u].
    + left. by exists w', rest.
    + right. apply Forall_cons in Hu as [Hx Hu]. exists x, (u ++ w' ++ rest). simpl.
      split_and!; [by rewrite <- app_assoc|done|]. exists (u ++ w'), rest. rewrite <- app_assoc. split; [done|].
      by exists u, w'.
  - intros [(w & rest & -> & H)|(x & text' & -> & Hx & w & rest & -> & u & w' & -> & Hu & H)].
    + exists w, rest. split; [done|]. by exists [], w.
    + exists (x :: u ++ w'), rest. split; [done|]. exists (x :: u), w'. split_and!; [done|by constructor|done].
Qed.

Lemma lang_here_chr c l text : lang_here (Chr c :: l) text <->
  exists x text', text = x :: text' /\ accepts c x /\ lang_here l text'.
Proof.
  split.
  - intros (w & rest & -> & x & w' & -> & Hx & H). exists x, (w' ++ rest). split_and!; [done|done|]. by exists w', rest.
  - intros (x & text' & -> & Hx & w & rest & -> & H). exists (x :: w), rest. split; [done|]. by exists x, w.
Qed.

(** [matchstar], given that [here] decides the rest of the pattern. *)
Lemma matchstar_spec here l c : (forall text, no_nul text ->
    exists b, here (text ++ [0]) = Some b /\ (b = true <-> lang_here l text)) ->
  forall text, no_nul text ->
    exists b, matchstar here c (text ++ [0]) = Some b /\ (b = true <-> lang_here (Star c :: l) text).
Proof.
  intros Hh text. induction text as [|t text IH]; intros Hn; destruct (Hh _ Hn) as (b & E & Hb); simpl in E |- *;
    rewrite E; simpl; (destruct b; [exists true; split; [done|]; split; [intros _|done]; rewrite lang_here_star; left; by apply Hb|]).
  - exists false. split; [done|]. rewrite lang_here_star. split; [done|]. intros [H|(x & ? & ? & _)]; [by apply Hb|done].
  - apply Forall_cons in Hn as [Ht Hn]. rewrite (proj2 (Z.eqb_neq t 0)) by done. simpl.
    destruct ((t =? c) || (c =? 46)) eqn:Ec.
    + destruct (IH Hn) as (b & Eb & Hb'). exists b. split; [done|]. rewrite Hb', (lang_here_star c l (t :: text)).
      split; [|by intros [H%Hb|(x & text' & [= <- <-] & _ & H)]]. intros H. right. exists t, text.
      split_and!; [done|unfold accepts; lia|done].
    + exists false. split; [done|]. rewrite lang_here_star. split; [done|].
      intros [H|(x & text' & [= <- <-] & Ha & _)]; [by apply Hb|]. unfold accepts in Ha. lia.
Qed.

Lemma matchhere_spec re : no_nul re -> forall text, no_nul text ->
  exists b, matchhere (re ++ [0]) (text ++ [0]) = Some b /\ (b = true <-> lang_here (atoms re) text).
Proof.
  induction re as [re IH] using (well_founded_induction (well_founded_ltof _ length)). unfold ltof in IH.
  destruct re as [|r0 re1]; intros Hre text Ht.
  { exists true. split; [done|]. split; [|done]. intros _. by exists [], text. }
  apply Forall_cons in Hre as [H0 Hre]. cbn [app matchhere]. rewrite (proj2 (Z.eqb_neq r0 0)) by done.
  destruct re1 as [|r1 re2].
  - simpl. destruct (Z.eqb_spec r0 36) as [->|N36].
    + destruct text as [|t text]; simpl.
      * exists true. split; [done|]. split; [intros _|done]. by exists [], [].
      * apply Forall_cons in Ht as [Ht _]. exists (t =? 0). split; [done|]. rewrite (proj2 (Z.eqb_neq t 0)) by done.
        split; [done|]. intros ([|] & rest & E & Hw & Hr & _); simpl in *; congruence.
    + setoid_rewrite lang_here_chr. destruct text as [|t text]; simpl.
      * exists false. split; [done|]. split; [done|]. by intros (? & ? & ? & _).
      * apply Forall_cons in Ht as [Ht Hn]. rewrite (proj2 (Z.eqb_neq t 0)) by done. simpl.
        destruct ((r0 =? 46) || (r0 =? t)) eqn:E.
        -- exists true. split; [done|]. split; [intros _|done]. exists t, text. split_and!; [done|unfold accepts; lia|].
           by exists [], text.
        -- exists false. split; [done|]. split; [done|]. intros (x & ? & [= <- <-] & Ha & _). unfold accepts in Ha. lia.
  - cbn [app atoms]. destruct (Z.eqb_spec r1 42) as [->|N42].
    + apply Forall_cons in Hre as [_ Hre]. apply matchstar_spec; [|done]. intros text' Ht'.
      apply IH; [simpl; lia|done|done].
    + assert (H1 : r1 <> 0) by (by apply Forall_cons in Hre as []). setoid_rewrite lang_here_chr.
      rewrite (proj2 (Z.eqb_neq r1 0)), andb_false_r by done. destruct text as [|t text]; cbn [app].
      * exists false. split; [done|]. split; [done|]. by intros (? & ? & ? & _).
      * apply Forall_cons in Ht as [Ht Hn]. rewrite (proj2 (Z.eqb_neq t 0)) by done. cbn [negb andb].
        destruct ((r0 =? 46) || (r0 =? t)) eqn:E.
        -- destruct (IH (r1 :: re2)) with (text := text) as (b & Eb & Hb); [simpl; lia|done|done|].
           exists b. split; [exact Eb|]. rewrite Hb. split.
           ++ intros H. exists t, text. split_and!; [done|unfold accepts; lia|done].
           ++ by intros (x & ? & [= <- <-] & _ & H).
        -- exists false. split; [done|]. split; [done|]. intros (x & ? & [= <- <-] & Ha & _). unfold accepts in Ha. lia.
Qed.

Lemma match_any_spec re : no_nul re -> forall text, no_nul text ->
  exists b, match_any (re ++ [0]) (text ++ [0]) = Some b /\
    (b = true <-> exists u text', text = u ++ text' /\ lang_here (atoms re) text').
Proof.
  intros Hre text. induction text as [|t text IH]; intros Ht; destruct (matchhere_spec re Hre _ Ht) as (b & E & Hb);
    cbn [app match_any] in E |- *; rewrite E;
    (destruct b; [exists true; split; [done|]; split; [intros _|done]; eexists [], _; split; [done|]; by apply Hb|]).
  - exists false. split; [done|]. split; [done|]. intros (u & text' & Hu & H).
    symmetry in Hu. apply app_eq_nil in Hu as [-> ->]. by apply Hb.
  - apply Forall_cons in Ht as [Ht0 Ht]. rewrite (proj2 (Z.eqb_neq t 0)) by done. destruct (IH Ht) as (b & Eb & Hb').
    exists b. split; [exact Eb|]. rewrite Hb'. split.
    + intros (u & text' & -> & H). by exists (t :: u), text'.
    + intros ([|x u] & text' & Hu & H); simplify_eq/=; [|by exists u, text']. exfalso. apply Hb in H. done.
Qed.

(** The matcher decides the language of the pattern: on every pattern and
    every line it returns without reading outside either string, and says yes
    exactly when the line has a match. *)
Lemma grep_match_language re text : no_nul re -> no_nul text ->
  exists b, grep_match (re ++ [0]) (text ++ [0]) = Some b /\ (b = true <-> lang_match re text).
Proof.
  intros Hre Ht. destruct re as [|r0 re]; [by apply match_any_spec|]. cbn [app grep_match].
  destruct (Z.eqb_spec r0 94) as [->|N].
  - apply Forall_cons in Hre as [_ Hre]. by apply matchhere_spec.
  - destruct (match_any_spec (r0 :: re) Hre _ Ht) as (b & E & Hb). exists b. split; [exact E|]. rewrite Hb.
    unfold lang_match. clear -N. repeat case_match; done.
Qed.

(** ** The lines of a file *)

Definition unlines (ls : list (list Z)) : list Z := concat (map (fun l => l ++ [10]) ls).
(** Text of one line: no NUL, no newline. *)
Definition line_ok (l : list Z) : Prop := no_nul l /\ ~ In 10 l.
Definition selects (re l : list Z) : Prop := grep_match (re ++ [0]) (l ++ [0]) = Some true.
#[local] Instance selects_dec re l : Decision (selects re l).
Proof. unfold selects. apply _. Defined.

Lemma unlines_cons l ls : unlines (l :: ls) = l ++ 10 :: unlines ls.
Proof. unfold unlines. simpl. by rewrite <- app_assoc. Qed.

Lemma strchr_line l r : ~ In 10 l -> strchr (l ++ 10 :: r) 10 = Some (10 :: r).
Proof.
  induction l as [|x l IH]; simpl; intros H; [done|]. rewrite (proj2 (Z.eqb_neq x 10)) by tauto. tauto.
Qed.
Lemma strchr_none l : ~ In 10 l -> strchr l 10 = None.
Proof. induction l as [|x l IH]; simpl; intros H; [done|]. rewrite (proj2 (Z.eqb_neq x 10)) by tauto. tauto. Qed.

Lemma cstr_app l r : no_nul l -> cstr (l ++ r) = l ++ cstr r.
Proof.
  induction l as [|x l IH]; intros H; [done|]. apply Forall_cons in H as [Hx H]. simpl.
  rewrite (proj2 (Z.eqb_neq x 0)) by done. by rewrite IH.
Qed.

Lemma grep_lines_spec re t ls : forall fuel, (length ls < fuel)%nat -> no_nul re -> Forall line_ok ls -> line_ok t ->
  grep_lines fuel (re ++ [0]) (unlines ls ++ t) = Some (unlines (filter (selects re) ls), t).
Proof.
  induction ls as [|l ls IH]; intros [|fuel] Hf Hre Hls [Ht Ht10]; simpl in Hf; try lia.
  - simpl. by rewrite cstr_no_nul, strchr_none by done.
  - apply Forall_cons in Hls as [[Hl Hl10] Hls]. rewrite unlines_cons, <- app_assoc. cbn [app grep_lines].
    rewrite (cstr_app l) by done. change (cstr (10 :: ?r)) with (10 :: cstr r).
    rewrite strchr_line by done. rewrite length_app, Nat.add_sub.
    rewrite !take_app_le, take_ge by lia.
    change (l ++ 10 :: unlines ls ++ t) with (l ++ [10] ++ unlines ls ++ t). rewrite (app_assoc l).
    replace (length l + 1)%nat with (length (l ++ [10])) by (rewrite length_app; done).
    rewrite drop_app_length, take_app_length, IH by (done || lia).
    destruct (grep_match_language re l Hre Hl) as (b & Eb & _). rewrite Eb, filter_cons.
    unfold selects at 2. destruct b; case_decide as D; rewrite Eb in D; done.
Qed.

Lemma line_ok_take k l : line_ok l -> line_ok (take k l).
Proof.
  intros [H1 H2]. split; [by apply Forall_take|]. intros H. apply H2. rewrite <- (take_drop k l). apply in_or_app. by left.
Qed.
Lemma line_ok_drop k l : line_ok l -> line_ok (drop k l).
Proof.
  intros [H1 H2]. split; [by apply Forall_drop|]. intros H. apply H2. rewrite <- (take_drop k l). apply in_or_app. by right.
Qed.
Lemma line_ok_nil : line_ok [].
Proof. split; [constructor|by intros []]. Qed.

(** What a read that ends at [k] brings: whole lines and the start of one. *)
Lemma unlines_take ls t k : Forall line_ok ls -> line_ok t -> exists ls1 ls2 t1,
  take k (unlines ls ++ t) = unlines ls1 ++ t1 /\ line_ok t1 /\ ls = ls1 ++ ls2 /\
  t1 ++ drop k (unlines ls ++ t) = unlines ls2 ++ t.
Proof.
  intros Hls Ht. revert k. induction Hls as [|l ls Hl Hls IH]; intros k.
  - exists [], [], (take k t). split_and!; [done|by apply line_ok_take|done|]. apply take_drop.
  - destruct (decide (k <= length l)%nat) as [Hk|Hk].
    + exists [], (l :: ls), (take k l). split_and!; [|by apply line_ok_take|done|].
      * rewrite unlines_cons, <- app_assoc, take_app_le by done. done.
      * rewrite unlines_cons, <- app_assoc, drop_app_le by done. by rewrite app_assoc, take_drop.
    + destruct (IH (k - length (l ++ [10%Z]))%nat) as (ls1 & ls2 & t1 & E & Ht1 & -> & E2).
      exists (l :: ls1), ls2, t1. rewrite unlines_cons.
      replace ((l ++ 10 :: unlines (ls1 ++ ls2)) ++ t) with ((l ++ [10]) ++ unlines (ls1 ++ ls2) ++ t)
        by (rewrite <- !app_assoc; done).
      rewrite take_app_ge, drop_app_ge by (rewrite length_app; simpl; lia).
      split_and!; [|done|done|done]. rewrite E, unlines_cons, <- !app_assoc. done.
Qed.

Lemma unlines_app l1 l2 : unlines (l1 ++ l2) = unlines l1 ++ unlines l2.
Proof. unfold unlines. by rewrite map_app, concat_app. Qed.
Lemma unlines_length ls : (length ls <= length (unlines ls))%nat.
Proof. induction ls as [|l ls IH]; [simpl; lia|]. rewrite unlines_cons, length_app. simpl. lia. Qed.

(** [sel] are the members of [ls] with [P], in order. *)
Inductive picks {A} (P : A -> Prop) : list A -> list A -> Prop :=
| picks_nil : picks P [] []
| picks_yes x ls sel : P x -> picks P ls sel -> picks P (x :: ls) (x :: sel)
| picks_no x ls sel : ~ P x -> picks P ls sel -> picks P (x :: ls) sel.

Lemma selects_picks re ls : no_nul re -> Forall line_ok ls -> picks (lang_match re) ls (filter (selects re) ls).
Proof.
  intros Hre. induction 1 as [|l ls [Hl _] _ IH]; [constructor|].
  destruct (grep_match_language re l Hre Hl) as (b & E & Hb). rewrite filter_cons.
  case_decide as D; unfold selects in D; rewrite E in D; constructor; try done; naive_solver.
Qed.

Lemma grep_loop_spec re t : no_nul re -> forall fuel ls file pending, (length file < fuel)%nat ->
  Forall line_ok ls -> Forall (fun l => length l < BUF)%nat ls -> line_ok t -> line_ok pending -> (length pending < BUF)%nat ->
  pending ++ file = unlines ls ++ t ->
  grep_loop fuel (re ++ [0]) [] file pending = Some (unlines (filter (selects re) ls)).
Proof.
  intros Hre. intros fuel. revert t. induction fuel as [|fuel IH]; intros t ls file pending Hf Hls Hlen Ht Hp Hpl E; [lia|].
  cbn [grep_loop]. destruct (take (BUF - length pending) file) as [|x d] eqn:Ed.
  { assert (file = []) as -> by (destruct file; [done|]; apply (f_equal length) in Ed; rewrite length_take in Ed; simpl in *; lia).
    rewrite app_nil_r in E. subst pending. destruct ls as [|l ls]; [done|]. destruct Hp as [_ []].
    rewrite unlines_cons. apply in_or_app. left. apply in_or_app. right. by left. }
  assert (Eb : pending ++ x :: d = take BUF (unlines ls ++ t)) by (rewrite <- Ed, <- E, take_app_ge by lia; done).
  assert (Er : drop (BUF - length pending) file = drop BUF (unlines ls ++ t)) by (rewrite <- E, drop_app_ge by lia; done).
  destruct (unlines_take ls t BUF Hls Ht) as (ls1 & ls2 & t1 & E1 & Ht1 & -> & E2).
  rewrite Eb, Er, E1 in *. apply Forall_app in Hls as [Hls1 Hls2]. apply Forall_app in Hlen as [Hlen1 Hlen2].
  rewrite grep_lines_spec by (done || rewrite length_app; pose proof (unlines_length ls1); lia).
  assert (Hfl : (length (drop BUF (unlines (ls1 ++ ls2) ++ t)) < fuel)%nat).
  { rewrite <- Er, length_drop. apply (f_equal length) in Ed. rewrite length_take in Ed. simpl in Ed. lia. }
  cbn [tail]. destruct (Nat.eqb_spec (length t1) (length (unlines ls1 ++ t1))) as [El|El].
  - rewrite length_app in El. assert (ls1 = []) as -> by (destruct ls1; [done|]; rewrite unlines_cons, length_app in El; simpl in El; lia).
    destruct ls2 as [|l ls2].
    + simpl in *. rewrite (IH (drop BUF t) []); try done; [by apply line_ok_drop|apply line_ok_nil|simpl; unfold BUF; lia].
    + exfalso. apply Forall_cons in Hlen2 as [Hl _]. destruct Ht1 as [_ []]. simpl in E1. rewrite <- E1.
      rewrite unlines_cons, <- app_assoc, take_app_ge by lia. apply in_or_app. right.
      destruct (BUF - length l)%nat eqn:En; [lia|]. by left.
  - assert (Hb : (length (unlines ls1 ++ t1) <= BUF)%nat) by (rewrite <- E1, length_take; lia).
    rewrite (IH t ls2); try done; [|rewrite length_app in *; lia]. by rewrite filter_app, unlines_app.
Qed.


(** Input that comes in pieces: the start of a line that arrives before its
    newline is forgotten, so the line is judged, and printed, by its last piece
    alone. *)
Theorem grep_short_read re u v : no_nul re -> line_ok u -> u <> [] -> line_ok v -> (length u < BUF)%nat -> (length v < BUF)%nat ->
  exists sel, grep (re ++ [0]) [length u] (unlines [u ++ v]) = Some (unlines sel) /\ picks (lang_match re) [v] sel.
Proof.
  intros Hre Hu Hne Hv Hul Hvl. exists (filter (selects re) [v]). split; [|by apply selects_picks, Forall_singleton].
  assert (E : unlines [u ++ v] = u ++ unlines [v] ++ []) by (rewrite !unlines_cons, <- !app_assoc; done).
  unfold grep. rewrite E. cbn [grep_loop length]. rewrite Nat.min_r by lia. rewrite take_app_length, drop_app_length.
  pose proof (grep_lines_spec re u [] (S (length u)) ltac:(simpl; lia) Hre (Forall_nil_2 _) Hu) as H.
  cbn [app unlines concat map filter list_filter] in H. destruct u as [|x u']; [done|]. cbn [app] in *. rewrite H, Nat.eqb_refl.
  cbn [tail]. rewrite (grep_loop_spec re [] Hre _ [v]); try done; try apply line_ok_nil;
    [cbn [length]; rewrite !length_app; cbn [length]; lia|by apply Forall_singleton|by apply Forall_singleton|simpl; lia].
Qed.


Lemma grep_short_read_witness :
  exists sel, grep ([97; 98] ++ [0]) [length [97]] (unlines [[97] ++ [98]]) = Some (unlines sel) /\ picks (lang_match [97; 98]) [[98]] sel.
Proof.
  apply grep_short_read; unfold line_ok, no_nul, BUF; try done; simpl; try lia;
    try (split; [apply Forall_singleton; lia|simpl; lia]).
  repeat (apply Forall_cons; split); try apply Forall_nil_2; lia.
Defined.
